(* ===== verification/_CoqProject ===== *)
-Q . S2P
Prelude.v
PQueue.v
TimerSpec.v
TimerCore.v
DualTimer.v
DualPromises.v
TwoModesTimer.v
GracefulTimer.v
Shutdown.v
TimeWheel.v
SingleThreadTimer.v
BasicTimer.v
AsyncTimer.v
CanMonitors.v
CanSignal.v
PowerFlags.v
MsgQueue.v
Heap.v
Useless.v
Containers.v
DynStack.v
CString.v
StringClass.v
StringBad.v
Sayings.v
Dma.v
CountOff.v
JTList.v
Interpreter.v
Calculator.v
RequestServer.v
RequestClient.v
RequestSystem.v
RequestExchange.v
RequestMain.v
RequestStop.v
Double.v
ClockTime.v
Accounts.v
Throughput.v
BenchTypes.v
BenchSub.v
BenchPub.v
BenchSystem.v
BenchRun.v
BenchSafe.v
BenchFiles.v
TimerManager.v
LatencyTypes.v
Percentile.v
LatencyTest.v
LatencyMeasure.v
LatencySystem.v
LatencyRun.v
LatencyEnd.v
SmartPtr.v
Composite.v
Hangman.v
Flyweight.v
Tv.v
Memento.v
Delivery.v
DeliveryApps.v
DeliverySystem.v
DeliveryPubSub.v
