(* ===== verification/Prelude.v ===== *)
(** * A verified model of cppproj

    The repository [src/] is a collection of C++ programs without a common main: timer
    services, classes that own memory, message queues and detectors of vehicle signals, and
    among them much generated and vendored code.  This library models the parts that have a
    state and a contract, each from its source file, and proves what makes them correct, or
    the exact way in which they fail.

    ** The parts

    Timer services ([src/other/timer/]).  [TimerSpec] is the specification they share: timers
    are added with a delay, may be cancelled, and are fired by polls; it says what a trace of
    additions, cancellations and firings must satisfy (a timer fires once, not before its
    time, not after it was cancelled, and all that are due are fired).  [PQueue] is the
    [std::priority_queue] they use and [TimerCore] what their proofs share (laws of a task
    queue with a map of active tasks, from which the class [TimerServiceLaws] follows).
    - [DualTimer]: [dualTimer/dualtimer.cc]; [managerThread_iter] is one turn of the manager
      thread, [run_callback] a callback thread; [DualPromises] its promises and the blocking
      calls on them.
    - [TwoModesTimer]: [twomodestimer.cpp] (and its copy [dualTimer/originalTimer.cc]).
    - [GracefulTimer]: [dualTimer/timer_demo.cpp], with the phases of its callbacks, its
      counters and the sliced waits of its blocking calls.
    - [Shutdown]: how the managers of the three are stopped, as an interleaving of manager,
      client and stopper at the grain of single atomic actions.
    - [TimeWheel]: [timeWheel.cpp]; [SingleThreadTimer]: [singleThreadPriQueue.cpp].
    - [AsyncTimer]: [testtimer/Timer.hpp], a thread per timer, at the grain of the waits;
      [BasicTimer]: [basic_timer.cpp], one timer with its thread, at the grain of atomic actions.
    - [TimerManager]: [testtimer/TimerManager.hpp], its queue and periodic tasks as operations,
      and its thread, which waits for the mutex it holds.

    Vehicle signals and flags ([src/other/timer/]).  [CanMonitors] ([pState.cpp]: gear
    monitor and simulator; [pstate.cpp]: the resettable timer), [CanSignal] ([state.cpp]: bit
    extraction and jump detection), [PowerFlags] ([state_check.cpp], [producer_consumer.cpp]).

    Shared data ([src/other/share_data/]).  [MsgQueue]: the thread-safe queue and the two
    classes that talk through it ([multicom.cpp]), and the polling client of [shdata.cpp].

    Owners of memory ([src/primer_plus/]).  [Heap] is a heap of blocks ([new], [delete],
    loads and stores, undefined behaviour as [None]) with the discipline that every block
    belongs to one object ([owned], [stands]); [CString] the functions of [<cstring>].
    - [Useless]: [chap18/18_3/stdmove.cpp], copies and moves; [DynStack]:
      [chap14/14_4/14_4_3/stcktp1.h]; [Containers]: the array stack of [chap10/stack.cpp]
      (and the templates [stacktp.h], [tstack.h]) and the linked queue of
      [chap15/15.2/queuetp.h].
    - [StringClass]: [chap12/12_3/string1.cpp]; [StringBad]: [chap12/12_2/strngbad.cpp] and
      [vegnews.cpp]; [Sayings]: [chap12/12_3/sayings1.cpp], a whole program on [String].
    - [Dma]: [chap13/13_4/dma.cpp], the three classes with inheritance.

    Values ([src/primer_plus/]).  [ClockTime]: the class [Time] of [chap11] in its versions;
    [Double] the binary64 numbers of the accounts; [Accounts]: [chap13], [Brass] and
    [BrassPlus], and the abstract-base version [acctabc.cpp].  [Tv]: the television and the
    remote control of [chap15/15.1]; [Hangman]: the word game of [chap16/16.1].

    Patterns ([src/design_mode/]).  [JTList]: the growing list of the iterator example;
    [Interpreter]: the expression interpreter; [SmartPtr]: the reference-counted pointer of
    [proxy/proxydemo.cpp]; [Composite]: trees of components ([component/component.cpp]);
    [Flyweight]: a board with shared pieces ([sharemeta/shared_data.cpp]); [Memento]: the two
    mementos ([memento/]).  [CountOff]: the recharge amounts of
    [src/other/statistics/countoff.cpp], by dynamic programming.

    The calculator service over DDS ([src/other/pubsub/dds/request-response/]).
    [Calculator]: its data types, arithmetic, books of matched peers and command line
    ([types/Calculator.hpp], [app_utils.hpp], [CLIParser.hpp]); [RequestServer] and
    [RequestClient] the two applications ([ServerApp.cpp], [ClientApp.cpp]) as machines whose
    steps are listener callbacks and turns of their threads (the turn of the reply thread
    reads the shared request object field by field, so that a sample can be taken into it
    meanwhile); [RequestSystem] both together over a library that may lose, repeat and
    reorder samples, [RequestExchange] over one that does not; [RequestMain] constructors,
    [make_app] and [main]; [RequestStop] the grain of single atomic actions for the calls of
    [stop].

    The throughput benchmark over DDS ([src/other/pubsub/dds/performance/throughout/]).
    [BenchTypes]: commands and samples and their bytes ([ThroughputTypes.hpp], [.cpp]);
    [BenchSub]: listener, [process_message] and [run] of [ThroughputSubscriber.cpp];
    [BenchPub]: [run] and [test] of [ThroughputPublisher.cpp] as steps between two calls of
    the library; [BenchSystem] a publisher with any number of subscribers, and where the
    subscribers can be while the publisher is at each of its places; [BenchRun] its runs,
    [BenchSafe] what can go wrong in them; [BenchFiles] the files of demands and recovery times.  [Throughput]: the shorter version
    of the same test in [src/other/pubsub/throughput/], with the endpoints, histories and
    the counting of losses that both use.

    The latency benchmark over DDS ([src/other/pubsub/dds/performance/latency/]).
    [LatencyTypes]: commands and samples, the types for the demands, the file of demands
    ([LatencyTestTypes.hpp], [.cpp], [main_LatencyTest.cpp]); [Percentile]: [analyze_times]
    and its trial in [src/other/traits/perf_percentile.cpp]; [LatencyTest]: endpoints,
    listeners, [run] and [test] of [LatencyTestPublisher.cpp] and [LatencyTestSubscriber.cpp];
    [LatencyMeasure]: which echoes are measured; [LatencySystem] a publisher with any number
    of subscribers and the invariant of its stages, [LatencyRun] that every step keeps it,
    [LatencyEnd] the end of its runs.  The systems of both benchmarks have a parameter
    [prompt]: the runs in which no sample is later than its listener or its reader expects,
    or all.

    The delivery example over DDS ([src/other/pubsub/dds/delivery_mechanisms/]).  [Delivery]:
    its command line ([CLIParser.hpp]), what the three constructors ask the library for, and
    [main]; [DeliveryApps]: [PublisherApp] and [SubscriberApp] at the grain of single atomic
    actions, [DeliveryPubSub]: [PubSubApp]; [DeliverySystem]: a publisher with any number of
    subscribers, up to the deletion of the publisher's writer.

    ** How code becomes definitions

    A class is a [Record] with the names of its members, a method a function on it.  Code
    under one mutex is one step, so that the behaviours of the threads are the lists of steps
    ([run], [run_inv] below); where the grain matters ([Shutdown], [AsyncTimer],
    [GracefulTimer], [PowerFlags], [BasicTimer], [DeliveryApps]) a step is a single atomic
    action and the threads are interleaved ([run_schedule], [reachable]).  Time is a number of nanoseconds
    without a bound that the caller of a step supplies (the code has 64 bits of them).  Callbacks, promises and stored items are of any type.
    Integers are [Z]: atomics and unsigned numbers wrap ([wrapS], [wrapU]), plain [int]
    arithmetic is undefined, [None], on overflow ([int_add]).  Undefined behaviour of
    pointers is [None] as well, so "runs to [Some]" includes memory safety.

    ** What the theorems show

    - The services refine the specification: [dual_refines_spec], [dual_fire_safe],
      [dual_drain], [two_modes_correct], [graceful_correct], [graceful_counts],
      [single_thread_drain], [wheel_fires]; their promises are satisfied once
      ([promises_satisfied_once], [promise_outcome]).
    - Blocking calls and shutdown: when they return ([blocking_timer_returns],
      [waitForAllCallbacks_returns], [graceful_stop_terminates]) and when they never do
      ([cancelled_blocking_never_returns], [dual_stop_blocked], [two_stop_blocked],
      [reset_hangs]).
    - The basic timer is safe whatever the order of the steps ([basic_timer_safe]) and its
      [stop] returns ([basic_stop_returns]), though it can take the whole delay
      ([stop_takes_the_delay]).
    - Per-timer threads are safe and end when nothing is cancelled ([uncancelled_safe],
      [uncancelled_completes]) and break when something is ([cancel_breaks_thread],
      [cancelAll_breaks_threads]).
    - Signals: [parseRawValue_spec], [jumps_reported], [sleep_flag], [relay_never_blocks],
      [reset_has_no_effect].  Queues: [queue_fifo], [advanced_exchange], [proxy_data].
    - Value semantics: every well-scoped program over [Useless], [Stack], [QueueTP], [String]
      or the DMA classes runs without undefined behaviour, behaves like pointer-free values
      and leaks nothing ([useless_is_value], [stack_is_value], [queue_is_fifo],
      [string_is_value], [dma_is_value]); [string_order]; [main_spec] for the sayings; and
      [copy_is_fatal] for the class without copy operations.
    - Containers and patterns: [jtlist_is_list], [empty_iteration_undefined],
      [interpret_print], [findMinRecharge_spec], [findAllValidRecharges_spec];
      [smartptr_is_shared] and where it ends ([detach_then_copy_fatal], [detach_leaks],
      [assign_own_pointer_fatal]); [delete_tree], [Remove_spec], [GetChild_spec];
      [flyweight_is_board]; [memento_is_undo], [memento_owners], [role_recovered].
    - The calculator: whatever the library does, a reported result is the result of the
      operation sent under that identity ([service_is_a_calculator]), with samples in order,
      none lost and one request for each callback the exchange completes in every order of
      the turns ([exchange_completes]) unless it divides by zero
      ([division_by_zero_never_ends]); server and client alone ([replies_answer_requests],
      [batch_answered_with_the_last], [race_mixes_requests], [at_most_one_reply],
      [answered_in_turn], [reply_routine_spins], [client_stops_when_answered],
      [run_sends_in_order]); their data ([calculate_spec], [cli_roundtrip],
      [matched_status_spec]), start ([ctors_equal_plans], [failing_ctor], [discovery_pairs])
      and end ([callback_stop_wakes], [signal_stop_can_be_lost]).
    - The benchmark: as long as no call fails, no wait runs out and no sample outlives a
      READY_TO_START it ends, in every interleaving and with any loss of samples, with all
      results ([benchmark_completes]); in the other runs subscribers stay safe and the
      publisher can only fail its assertion on the counts ([benchmark_safe]), which it does
      ([stale_sample_aborts]); a wait that runs out is counted ([slow_subscribers_counted]);
      round trips of its messages and files ([command_roundtrip], [sample_roundtrip],
      [demands_roundtrip], [recoveries_distinct]); [loans_agree].
    - The latency benchmark: when no sample comes after its reader is on the way to be deleted
      it ends, in every interleaving ([latency_completes], within [latency_steps_bounded]);
      the number of samples must not be [2^32 - 2], or a test never ends
      ([samples_never_end]).  In all runs only a late sample or a late echo makes anybody
      fail ([latency_samples_safe]), and both do ([late_sample_is_fatal],
      [late_echo_is_fatal]).
      What is measured ([times_are_first_echoes]), how one late echo spoils all
      ([one_late_echo_loses_all]), and the statistics ([analyze_times_spec]); its types and
      files ([type_for_spec], [latency_sample_roundtrip], [latency_demands_roundtrip]).
    - The delivery example: its command line gives exactly what its help promises, but for
      one case ([delivery_cli_complete]); publisher and subscribers always come to an end,
      with all delivered, with a beginning delivered to those whose samples the deletion of
      the writer overtakes, or with nothing written ([delivery_completes]); wake-ups can be lost
      ([subscriber_misses_its_end], [publisher_misses_its_reader]); each application alone
      ([publisher_sends_in_order], [subscriber_counts], [pubsub_returns]); its set-up
      ([delivery_qos_fits], [delivery_transports_meet], [delivery_process]).
    - Throughput: what is sent ([test_sends_spec]) and how losses are counted
      ([losses_counted]), the sizes ([adjust_history_spec], [max_serialized_type_size_spec]),
      and why no run of it reports anything ([subscriber_counts_nothing], [discovery_waits],
      [results_loop_spins]).
    - Values: times ([plus_minus_roundtrip], [AddMin_spec], [minus_spec],
      [AddHr_draft_forgets]), accounts ([Withdraw_plus_equiv], [negative_withdrawal],
      [advance_charged_without_payment], [format_restored]), the television
      ([tv_stays_ok], [channels_go_round]) and the word game ([game_is_sets]).

    ** Bounds and fuel

    Identifiers and counters of the services are 32-bit atomics; the theorems about whole
    traces bound the number of operations by the range of the counter.  Loops with fuel come
    with the amount that is enough: [slices] turns for a sliced wait of [ms] milliseconds,
    the number of nodes and one for [dtor_loop], the number of due timers for a drain.  The
    sizes of texts and stacks are those of [int].

    ** What is not modelled

    Console output (except where a program's output is its result); in the benchmarks runs
    with dynamic types, the set-up of participants and the measured rates, and in their
    systems calls that fail and waits that run out (the files of the two sides have these); in
    the system of the delivery example signals and the end of the subscribers' processes; the
    SOME/IP and camera programs, which call libraries outside the repository; generated type support and
    the vendored tree under [arm_porting]; the small demonstrations of single language
    features; the singletons with double-checked locking, which depend on the memory model;
    sockets, pipes and shared memory. *)
From stdpp Require Export base gmap list sets relations strings.
From Stdlib Require Export ZArith Lia Sorted.

#[global] Open Scope Z_scope.

(** * C++ integers *)

(** [wrapU w x] and [wrapS w x] are the values of [x] stored in an unsigned and a
    two's complement signed integer of [w] bits (unsigned arithmetic and the
    arithmetic of [std::atomic<int>] wrap). *)
Definition wrapU (w x : Z) : Z := x `mod` 2 ^ w.
Definition wrapS (w x : Z) : Z := (x + 2 ^ (w - 1)) `mod` 2 ^ w - 2 ^ (w - 1).

Definition INT_MIN : Z := - 2 ^ 31.
Definition INT_MAX : Z := 2 ^ 31 - 1.

(** Plain [int] arithmetic: overflow is undefined behaviour, [None]. *)
Definition is_int (x : Z) : bool := (INT_MIN <=? x) && (x <=? INT_MAX).
Definition chk_int (x : Z) : option Z := if is_int x then Some x else None.

(** C++ [/] and [%] truncate towards zero; a zero divisor is undefined, and so is
    a quotient that does not fit. *)
Definition int_add (x y : Z) : option Z := chk_int (x + y).
Definition int_sub (x y : Z) : option Z := chk_int (x - y).
Definition int_mul (x y : Z) : option Z := chk_int (x * y).
Definition int_div (x y : Z) : option Z :=
  if y =? 0 then None else chk_int (Z.quot x y).
Definition int_rem (x y : Z) : option Z :=
  if y =? 0 then None
  else if is_int (Z.quot x y) then Some (Z.rem x y) else None.

(** ** Durations

    [std::chrono::steady_clock] counts nanoseconds; a [std::chrono::milliseconds]
    or [microseconds] value added to a time point is first converted. *)
Definition ns_of_us (us : Z) : Z := us * 1000.
Definition ns_of_ms (ms : Z) : Z := ms * 1000000.
Definition ns_of_s (s : Z) : Z := s * 1000000000.

(** * Automation *)

Create HintDb cppdb discriminated.

(** Split the boolean guards and matches of a handler, keeping the equations. *)
Ltac split_guard :=
  match goal with
  | H : context [match ?x with _ => _ end] |- _ =>
      lazymatch x with context [match _ with _ => _ end] => fail | _ => destruct x eqn:? end
  | |- context [match ?x with _ => _ end] =>
      lazymatch x with context [match _ with _ => _ end] => fail | _ => destruct x eqn:? end
  end.
Ltac split_guards := repeat (split_guard; simplify_eq/=).

(** Reflect boolean arithmetic tests in the context. *)
Ltac zbool :=
  repeat match goal with
  | H : (_ <=? _) = true |- _ => apply Z.leb_le in H
  | H : (_ <=? _) = false |- _ => apply Z.leb_gt in H
  | H : (_ <? _) = true |- _ => apply Z.ltb_lt in H
  | H : (_ <? _) = false |- _ => apply Z.ltb_ge in H
  | H : (_ =? _) = true |- _ => apply Z.eqb_eq in H
  | H : (_ =? _) = false |- _ => apply Z.eqb_neq in H
  | H : (_ && _) = true |- _ => apply andb_true_iff in H; destruct H
  end.

(** * Machine integers: generic facts *)

Lemma wrapU_range w x : 0 <= w -> 0 <= wrapU w x < 2 ^ w.
Proof. intros. apply Z.mod_pos_bound. lia. Qed.

Lemma wrapU_small w x : 0 <= x < 2 ^ w -> wrapU w x = x.
Proof. apply Z.mod_small. Qed.

Lemma wrapS_range w x : 0 < w -> - 2 ^ (w - 1) <= wrapS w x < 2 ^ (w - 1).
Proof.
  intros. unfold wrapS.
  assert (2 ^ w = 2 * 2 ^ (w - 1)) as E.
  { rewrite <- Z.pow_succ_r by lia. f_equal. lia. }
  pose proof (Z.mod_pos_bound (x + 2 ^ (w - 1)) (2 ^ w)). lia.
Qed.

Lemma wrapS_small w x :
  0 < w -> - 2 ^ (w - 1) <= x < 2 ^ (w - 1) -> wrapS w x = x.
Proof.
  intros. unfold wrapS.
  assert (2 ^ w = 2 * 2 ^ (w - 1)) as E.
  { rewrite <- Z.pow_succ_r by lia. f_equal. lia. }
  rewrite Z.mod_small; lia.
Qed.

Lemma is_int_spec x : is_int x = true <-> INT_MIN <= x <= INT_MAX.
Proof. unfold is_int. rewrite andb_true_iff, Z.leb_le, Z.leb_le. done. Qed.

Lemma chk_int_Some x y : chk_int x = Some y <-> y = x /\ INT_MIN <= x <= INT_MAX.
Proof.
  unfold chk_int. destruct (is_int x) eqn:E.
  - apply is_int_spec in E. split; [intros [= <-]|intros [-> _]]; done.
  - assert (~ (INT_MIN <= x <= INT_MAX)) by (rewrite <- is_int_spec; congruence).
    split; [done|intros [_ ?]; done].
Qed.

Lemma chk_int_ok x : INT_MIN <= x <= INT_MAX -> chk_int x = Some x.
Proof. intros. by apply chk_int_Some. Qed.

#[export] Hint Resolve wrapU_range wrapS_range : cppdb.

(** * Sums over the members of a list, such as those of a property *)
Section Sums.
Context {A : Type}.

Lemma sum_middle (f : A -> nat) l1 n l2 :
  sum_list_with f (l1 ++ n :: l2) = (sum_list_with f l1 + (f n + sum_list_with f l2))%nat.
Proof. by rewrite sum_list_with_app. Qed.

Lemma sum_fmap (f h : A -> nat) g ns :
  Forall (fun n => f (g n) = h n) ns -> sum_list_with f (g <$> ns) = sum_list_with h ns.
Proof. induction 1 as [|n ns H _ IH]; [done|]. cbn [fmap list_fmap sum_list_with]. by rewrite H, IH. Qed.

Lemma sum_zero (f : A -> nat) ns : Forall (fun n => f n = 0%nat) ns -> sum_list_with f ns = 0%nat.
Proof. induction 1 as [|n ns H _ IH]; [done|]. cbn [sum_list_with]. by rewrite H, IH. Qed.

Lemma sum_le_length (f : A -> nat) ns : (forall n, f n <= 1)%nat -> (sum_list_with f ns <= length ns)%nat.
Proof. intros Hf. induction ns as [|n ns IH]; cbn; [lia|]. specialize (Hf n). lia. Qed.

Lemma sum_all (f : A -> nat) ns :
  (forall n, f n <= 1)%nat -> (length ns <= sum_list_with f ns)%nat -> Forall (fun n => f n = 1%nat) ns.
Proof.
  intros Hf. induction ns as [|n ns IH]; cbn; intros H; [constructor|].
  pose proof (sum_le_length f ns Hf). pose proof (Hf n). constructor; [lia|]. apply IH. lia.
Qed.

Lemma sum_short (f : A -> nat) ns :
  (sum_list_with f ns < length ns)%nat -> exists l1 n l2, ns = l1 ++ n :: l2 /\ f n = 0%nat.
Proof.
  induction ns as [|n ns IH]; cbn; intros H; [lia|]. destruct (f n) eqn:E.
  - exists [], n, ns. done.
  - destruct IH as (l1 & m & l2 & -> & Hm); [lia|]. exists (n :: l1), m, l2. done.
Qed.

(** The element of a list that is replaced *)
Lemma insert_split (l : list A) i n :
  l !! i = Some n -> exists l1 l2, l = l1 ++ n :: l2 /\ forall n', <[i := n']> l = l1 ++ n' :: l2.
Proof.
  intros H. exists (take i l), (drop (S i) l). split; [by rewrite take_drop_middle|]. intros n'.
  rewrite insert_take_drop; [done|]. by eapply lookup_lt_Some.
Qed.
End Sums.

(** * Machines: operations applied one after the other

    The components below guard their state with one mutex, so that every
    operation is one atomic step: an interleaving of threads is a list of
    operations. [exec] returns the next state and the events the step emits. *)
Section Machine.
Context {St Op Ev : Type} (exec : Op -> St -> St * list Ev).

Fixpoint run (ops : list Op) (s : St) : St * list Ev :=
  match ops with
  | [] => (s, [])
  | op :: ops' =>
      let '(s1, evs1) := exec op s in
      let '(s2, evs2) := run ops' s1 in
      (s2, evs1 ++ evs2)
  end.

Lemma run_app ops1 ops2 s :
  run (ops1 ++ ops2) s =
    let '(s1, evs1) := run ops1 s in
    let '(s2, evs2) := run ops2 s1 in (s2, evs1 ++ evs2).
Proof.
  revert s. induction ops1 as [|op ops1 IH]; intros s; cbn.
  - by destruct (run ops2 s).
  - destruct (exec op s) as [s1 e1]. rewrite IH.
    destruct (run ops1 s1) as [s2 e2]. destruct (run ops2 s2) as [s3 e3].
    by rewrite app_assoc.
Qed.

Lemma run_snoc ops op s :
  run (ops ++ [op]) s =
    let '(s1, evs1) := run ops s in
    let '(s2, evs2) := exec op s1 in (s2, evs1 ++ evs2).
Proof.
  rewrite run_app. destruct (run ops s) as [s1 e1]. cbn.
  destruct (exec op s1) as [s2 e2]. by rewrite app_nil_r.
Qed.

(** An assertion on the state and the events so far that every operation keeps
    holds after any list of operations; [n] bounds the number of operations
    (for invariants that hold as long as a counter has not wrapped). *)
Lemma run_inv_bounded (P : nat -> St -> list Ev -> Prop) (bound : nat) s0 :
  P O s0 [] ->
  (forall n op s evs, (S n <= bound)%nat -> P n s evs ->
     P (S n) (exec op s).1 (evs ++ (exec op s).2)) ->
  forall ops, (length ops <= bound)%nat ->
    P (length ops) (run ops s0).1 (run ops s0).2.
Proof.
  intros Hinit Hstep ops. induction ops as [|op ops IH] using rev_ind; [done|].
  rewrite length_app; cbn; intros Hlen. rewrite run_snoc.
  specialize (IH ltac:(lia)). destruct (run ops s0) as [s1 e1]; cbn in *.
  replace (length ops + 1)%nat with (S (length ops)) by lia.
  specialize (Hstep (length ops) op s1 e1 ltac:(lia) IH).
  by destruct (exec op s1).
Qed.

Lemma run_inv (P : St -> list Ev -> Prop) s0 :
  P s0 [] ->
  (forall op s evs, P s evs -> P (exec op s).1 (evs ++ (exec op s).2)) ->
  forall ops, P (run ops s0).1 (run ops s0).2.
Proof.
  intros Hinit Hstep ops.
  apply (run_inv_bounded (fun _ => P) (length ops)); auto.
Qed.
End Machine.

(** * Threads: an interleaving semantics for code that is not one atomic step

    [tstep t s] is the next atomic action of thread [t], [None] when it is
    blocked or has ended. *)
Section Threads.
Context {St Tid : Type} (tstep : Tid -> St -> option St).

Definition step_any (s s' : St) : Prop := exists t, tstep t s = Some s'.

Fixpoint run_schedule (ts : list Tid) (s : St) : option St :=
  match ts with
  | [] => Some s
  | t :: ts' => match tstep t s with Some s' => run_schedule ts' s' | None => None end
  end.

Definition reachable (s0 s : St) : Prop := rtc step_any s0 s.

(** No thread can move. *)
Definition stuck (s : St) : Prop := forall t, tstep t s = None.

Lemma run_schedule_reachable ts s s' :
  run_schedule ts s = Some s' -> reachable s s'.
Proof.
  revert s. induction ts as [|t ts IH]; intros s H; cbn in H.
  - simplify_eq. apply rtc_refl.
  - destruct (tstep t s) as [s1|] eqn:E; [|done].
    eapply rtc_l; [by exists t|]. by apply IH.
Qed.

Lemma run_schedule_app ts1 ts2 s :
  run_schedule (ts1 ++ ts2) s = s1 ← run_schedule ts1 s; run_schedule ts2 s1.
Proof.
  revert s. induction ts1 as [|t ts1 IH]; intros s; [done|]. cbn [app run_schedule].
  destruct (tstep t s) as [s1|]; [apply IH|done].
Qed.

(** A measure that every step lowers bounds the steps. *)
Lemma schedule_bounded (P : St -> Prop) (work : St -> nat) :
  (forall s t s', P s -> tstep t s = Some s' -> P s' /\ (work s' < work s)%nat) ->
  forall ts s s', P s -> run_schedule ts s = Some s' -> (length ts + work s' <= work s)%nat.
Proof.
  intros Hstep ts. induction ts as [|t ts IH]; intros s s' Hs E; cbn [run_schedule length] in *; [simplify_eq; lia|].
  destruct (tstep t s) as [s1|] eqn:E1; [|done]. destruct (Hstep s t s1 Hs E1) as [Hs1 Hw]. specialize (IH s1 s' Hs1 E). lia.
Qed.

Lemma reachable_inv (P : St -> Prop) s0 :
  P s0 ->
  (forall s t s', P s -> tstep t s = Some s' -> P s') ->
  forall s, reachable s0 s -> P s.
Proof.
  intros H0 Hstep s Hr. revert H0. induction Hr as [|x y z [t Ht] _ IH]; eauto.
Qed.
End Threads.

(** * Lists, options and maps *)

Lemma NoDup_fmap_filter {A B} (f : A -> B) (P : A -> Prop) `{HP : forall x, Decision (P x)} l :
  NoDup (f <$> l) -> NoDup (f <$> filter P l).
Proof.
  intros ND. eapply sublist_NoDup; [exact ND|]. apply fmap_sublist, sublist_filter.
Qed.

Lemma NoDup_fmap_eq {A B} (f : A -> B) l x y :
  NoDup (f <$> l) -> x ∈ l -> y ∈ l -> f x = f y -> x = y.
Proof.
  induction l as [|a l IH]; cbn; intros ND Hx Hy E; [set_solver|].
  apply NoDup_cons in ND as [Hni ND].
  apply elem_of_cons in Hx as [->|Hx]; apply elem_of_cons in Hy as [->|Hy]; try done.
  - exfalso. apply Hni. rewrite E. by apply list_elem_of_fmap_2.
  - exfalso. apply Hni. rewrite <- E. by apply list_elem_of_fmap_2.
  - by apply IH.
Qed.
