(* ===== verification/PQueue.v ===== *)
(** The interface of [std::priority_queue] that every timer of [src/other/timer/]
    uses, and an implementation of it.

    A [std::priority_queue<T>] is a max-heap of the order its comparison
    [less] gives: [top] is an element no other element is greater than. Which of
    several equal elements comes first is not specified, so the timers are
    verified against the class [PriorityQueue] and never against one heap. *)
From S2P Require Import Prelude.

(** The comparison a priority queue is used with: a strict weak order. *)
Class StrictWeakOrder {T : Type} (less : T -> T -> bool) : Prop := {
  swo_asym : forall x y, less x y = true -> less y x = false;
  swo_negtrans : forall x y z, less x z = true -> less x y = true \/ less y z = true;
}.

Class PriorityQueue (T : Type) (less : T -> T -> bool) (Q : Type) := {
  pq_empty : Q;
  pq_push : T -> Q -> Q;
  pq_top : Q -> option T;
  pq_pop : Q -> Q;
  (** the elements stored, in no particular order *)
  pq_elems : Q -> list T;
  pq_elems_empty : pq_elems pq_empty = [];
  pq_elems_push x q : pq_elems (pq_push x q) ≡ₚ x :: pq_elems q;
  pq_top_None q : pq_top q = None <-> pq_elems q = [];
  pq_top_max q x y : pq_top q = Some x -> y ∈ pq_elems q -> less x y = false;
  pq_elems_pop q x : pq_top q = Some x -> x :: pq_elems (pq_pop q) ≡ₚ pq_elems q;
}.

#[export] Hint Mode PriorityQueue - - + : typeclass_instances.

(** ** Consequences of the interface *)
Section Laws.
Context {T : Type} {less : T -> T -> bool} {Q : Type} `{PQ : !PriorityQueue T less Q}.
Implicit Types (q : Q) (x y : T).

Lemma pq_top_elem q x : pq_top q = Some x -> x ∈ pq_elems q.
Proof. intros E. rewrite <- (pq_elems_pop q x E). apply list_elem_of_here. Qed.

Lemma pq_elem_push q x y : y ∈ pq_elems (pq_push x q) <-> y = x \/ y ∈ pq_elems q.
Proof. by rewrite pq_elems_push, elem_of_cons. Qed.

Lemma pq_elem_pop q x y : pq_top q = Some x -> y ∈ pq_elems (pq_pop q) -> y ∈ pq_elems q.
Proof. intros E H. rewrite <- (pq_elems_pop q x E). by apply list_elem_of_further. Qed.

Lemma pq_elem_pop_or q x y :
  pq_top q = Some x -> y ∈ pq_elems q -> y = x \/ y ∈ pq_elems (pq_pop q).
Proof. intros E H. rewrite <- (pq_elems_pop q x E) in H. by apply elem_of_cons in H. Qed.

Lemma pq_pop_length q x :
  pq_top q = Some x -> length (pq_elems q) = S (length (pq_elems (pq_pop q))).
Proof. intros E. by rewrite <- (pq_elems_pop q x E). Qed.

Lemma pq_push_length q x : length (pq_elems (pq_push x q)) = S (length (pq_elems q)).
Proof. by rewrite pq_elems_push. Qed.

Lemma pq_not_elem_empty x : x ∉ pq_elems (pq_empty (Q := Q)).
Proof. rewrite pq_elems_empty. apply not_elem_of_nil. Qed.

Lemma pq_top_is_Some q x : x ∈ pq_elems q -> is_Some (pq_top q).
Proof.
  intros H. destruct (pq_top q) eqn:E; [eauto|].
  apply pq_top_None in E. rewrite E in H. by apply not_elem_of_nil in H.
Qed.

(** The uniqueness of a key is kept by both operations. *)
Section Keys.
Context {K : Type} (key : T -> K).

Lemma pq_push_keys q x :
  key x ∉ (key <$> pq_elems q) -> NoDup (key <$> pq_elems q) ->
  NoDup (key <$> pq_elems (pq_push x q)).
Proof. intros. rewrite pq_elems_push. by apply NoDup_cons. Qed.

Lemma pq_pop_keys q x :
  pq_top q = Some x -> NoDup (key <$> pq_elems q) ->
  NoDup (key <$> pq_elems (pq_pop q)) /\ key x ∉ (key <$> pq_elems (pq_pop q)).
Proof.
  intros E H. rewrite <- (pq_elems_pop q x E) in H. cbn in H.
  apply NoDup_cons in H. tauto.
Qed.
End Keys.
End Laws.

#[export] Hint Resolve pq_top_elem pq_elem_pop : cppdb.

(** ** An implementation: an unsorted list whose top is its first greatest element *)

(** The queue type carries the order, as [std::priority_queue<T>] does. *)
Inductive list_queue {T : Type} (less : T -> T -> bool) := LQ (l : list T).
Arguments LQ {T less} l.
Definition lq_list {T : Type} {less : T -> T -> bool} (q : list_queue less) : list T :=
  let 'LQ l := q in l.

Section ListQueue.
Context {T : Type} (less : T -> T -> bool).

(** [std::max_element] followed by its removal. *)
Fixpoint select_max (x : T) (l : list T) : T * list T :=
  match l with
  | [] => (x, [])
  | y :: l' =>
      if less x y then let '(m, r) := select_max y l' in (m, x :: r)
      else let '(m, r) := select_max x l' in (m, y :: r)
  end.

Definition lq_top (l : list T) : option T :=
  match l with [] => None | x :: l' => Some (select_max x l').1 end.
Definition lq_pop (l : list T) : list T :=
  match l with [] => [] | x :: l' => (select_max x l').2 end.

Lemma select_max_perm x l : (select_max x l).1 :: (select_max x l).2 ≡ₚ x :: l.
Proof.
  revert x. induction l as [|y l IH]; intros x; cbn; [done|].
  destruct (less x y).
  - specialize (IH y). destruct (select_max y l) as [m r]; cbn in *.
    rewrite Permutation_swap. by rewrite IH.
  - specialize (IH x). destruct (select_max x l) as [m r]; cbn in *.
    rewrite Permutation_swap. rewrite IH. apply Permutation_swap.
Qed.

Context `{SWO : !StrictWeakOrder less}.

Lemma swo_irrefl x : less x x = false.
Proof. destruct (less x x) eqn:E; [|done]. by rewrite (swo_asym x x E) in E. Qed.

Lemma select_max_ge x l y : y ∈ x :: l -> less (select_max x l).1 y = false.
Proof.
  revert x y. induction l as [|z l IH]; intros x y Hy; cbn.
  - apply list_elem_of_singleton in Hy as ->. apply swo_irrefl.
  - destruct (less x z) eqn:E.
    + pose proof (IH z z ltac:(apply list_elem_of_here)) as Hz.
      specialize (IH z). destruct (select_max z l) as [m r]; cbn in *.
      apply elem_of_cons in Hy as [->|Hy]; [|by apply IH].
      destruct (less m x) eqn:Em; [|done].
      pose proof (swo_asym x z E).
      destruct (swo_negtrans m z x Em); congruence.
    + pose proof (IH x x ltac:(apply list_elem_of_here)) as Hx.
      specialize (IH x). destruct (select_max x l) as [m r]; cbn in *.
      assert (less m z = false) as Hz.
      { destruct (less m z) eqn:Em; [|done].
        destruct (swo_negtrans m x z Em); congruence. }
      apply elem_of_cons in Hy as [->|Hy]; [by apply IH, list_elem_of_here|].
      apply elem_of_cons in Hy as [->|Hy]; [done|].
      by apply IH, list_elem_of_further.
Qed.

#[export] Program Instance list_priority_queue : PriorityQueue T less (list_queue less) := {
  pq_empty := LQ [];
  pq_push x q := LQ (lq_list q ++ [x]);
  pq_top q := lq_top (lq_list q);
  pq_pop q := LQ (lq_pop (lq_list q));
  pq_elems q := lq_list q;
}.
Next Obligation. done. Qed.
Next Obligation. intros x [l]; cbn. by rewrite Permutation_app_comm. Qed.
Next Obligation. intros [[|x l]]; by cbn. Qed.
Next Obligation.
  intros [[|z l]] x y; cbn; [done|]. intros [= <-]. apply select_max_ge.
Qed.
Next Obligation.
  intros [[|z l]] x; cbn; [done|]. intros [= <-]. apply select_max_perm.
Qed.
End ListQueue.

(** An order by a numeric key, earliest first: what every timer queue uses. *)
Section ByKey.
Context {T : Type} (key : T -> Z).
Definition later (x y : T) : bool := Z.gtb (key x) (key y).

#[export] Instance later_swo : StrictWeakOrder later.
Proof.
  split; unfold later; intros *; rewrite !Z.gtb_ltb, ?Z.ltb_lt, ?Z.ltb_ge; [lia|].
  intros. destruct (Z.lt_ge_cases (key y) (key x)); [left|right]; lia.
Qed.
End ByKey.
