(* ===== verification/TimerSpec.v ===== *)
(** What a one-shot timer service promises, stated once for the managers of
    [src/other/timer/]: [DualModeTimer] (dualTimer/dualtimer.cc),
    [DualModeTimer] (twomodestimer.cpp, dualTimer/originalTimer.cc) and
    [GracefulTimer] (dualTimer/timer_demo.cpp).

    - [spec_step] is the abstract service: a map from the identifiers of the
      timers that are still to fire to their deadline and callback;
    - [TimerService] is the interface an implementation provides, with the
      simulation laws that make it refine [spec_step];
    - [fire_safe] is what a client relies on: a timer fires at most once, only
      after it was added, not before its deadline, never after a cancellation
      that returned true; [drain] is the liveness side. *)
From S2P Require Import Prelude.

(** Bound on the number of timers: identifiers are [int]s. *)
Definition max_ids : nat := Z.to_nat INT_MAX.

Lemma within_max_ids k : Z.of_nat k <= INT_MAX -> (k <= max_ids)%nat.
Proof. unfold max_ids. lia. Qed.

Lemma max_ids_lt k : (k < max_ids)%nat -> Z.of_nat k < INT_MAX.
Proof. unfold max_ids. lia. Qed.

#[global] Opaque max_ids.

Section Spec.
Context {CB : Type}.

Record entry := Entry { deadline : Z; payload : CB }.

(** What a client observes. [EvIdle] is a manager iteration that fires nothing. *)
Inductive event :=
| EvAdded (id dl : Z) (cb : CB)
| EvRefused
| EvCancelled (id : Z) (ok : bool)
| EvFired (id now : Z) (cb : CB)
| EvIdle (now : Z).

Inductive tm_op :=
| Add (now ms : Z) (cb : CB)
| Cancel (id : Z)
| Poll (now : Z).

(** ** The abstract service *)
Record spec_state := Spec { issued : nat; pending : gmap Z entry }.

Context (idf : nat -> Z).

Inductive spec_step : spec_state -> event -> spec_state -> Prop :=
| spec_add n pend dl cb :
    pend !! idf n = None ->
    spec_step (Spec n pend) (EvAdded (idf n) dl cb)
      (Spec (S n) (<[idf n := Entry dl cb]> pend))
| spec_refuse st : spec_step st EvRefused st
| spec_cancel n pend id ok :
    (is_Some (pend !! id) -> ok = true) ->
    (ok = true -> exists k, (k < n)%nat /\ id = idf k) ->
    spec_step (Spec n pend) (EvCancelled id ok) (Spec n (delete id pend))
| spec_fire n pend id now e :
    pend !! id = Some e ->
    deadline e <= now ->
    (forall id' e', pend !! id' = Some e' -> deadline e <= deadline e') ->
    spec_step (Spec n pend) (EvFired id now (payload e)) (Spec n (delete id pend))
| spec_idle st now : spec_step st (EvIdle now) st.

Inductive spec_trace : spec_state -> list event -> spec_state -> Prop :=
| spec_trace_nil st : spec_trace st [] st
| spec_trace_snoc st evs st1 ev st2 :
    spec_trace st evs st1 -> spec_step st1 ev st2 -> spec_trace st (evs ++ [ev]) st2.

Definition spec_init : spec_state := Spec O ∅.

(** ** What the client relies on *)
Definition fired_id (ev : event) : option Z :=
  match ev with EvFired id _ _ => Some id | _ => None end.

Record fire_safe (evs : list event) : Prop := {
  fire_once : NoDup (omap fired_id evs);
  fire_due : forall pre id now cb post,
    evs = pre ++ EvFired id now cb :: post ->
    (exists dl, EvAdded id dl cb ∈ pre /\ dl <= now) /\ EvCancelled id true ∉ pre;
}.

(** The invariant of the abstract service that gives [fire_safe]. *)
Record spec_inv (st : spec_state) (evs : list event) : Prop := {
  si_issued : forall id e, pending st !! id = Some e ->
    exists k, (k < issued st)%nat /\ id = idf k;
  si_added : forall id e, pending st !! id = Some e ->
    EvAdded id (deadline e) (payload e) ∈ evs;
  si_fired : forall id, id ∈ omap fired_id evs ->
    pending st !! id = None /\ exists k, (k < issued st)%nat /\ id = idf k;
  si_cancelled : forall id, EvCancelled id true ∈ evs ->
    pending st !! id = None /\ exists k, (k < issued st)%nat /\ id = idf k;
  si_safe : fire_safe evs;
}.

Lemma fire_safe_nil : fire_safe [].
Proof. split; [constructor|]. intros [|? ?]; naive_solver. Qed.

Lemma spec_inv_init : spec_inv spec_init [].
Proof. split; cbn; try set_solver. apply fire_safe_nil. Qed.

(** Appending an event that is not a firing keeps [fire_safe]. *)
Lemma fire_safe_snoc_other evs ev :
  fired_id ev = None -> fire_safe evs -> fire_safe (evs ++ [ev]).
Proof.
  intros Hev [Honce Hdue]. split.
  - rewrite omap_app; cbn. rewrite Hev. by rewrite app_nil_r.
  - intros pre id now cb post E.
    destruct post as [|p post _] using rev_ind.
    + apply app_inj_tail in E as [_ ->]. done.
    + rewrite app_comm_cons, app_assoc in E. apply app_inj_tail in E as [-> _].
      by eapply Hdue.
Qed.

Lemma fire_safe_snoc_fired evs id now cb dl :
  id ∉ omap fired_id evs -> EvAdded id dl cb ∈ evs -> dl <= now ->
  EvCancelled id true ∉ evs -> fire_safe evs ->
  fire_safe (evs ++ [EvFired id now cb]).
Proof.
  intros Hnew Hadd Hle Hcan [Honce Hdue]. split.
  - rewrite omap_app; cbn. apply NoDup_app. split; [done|].
    split; [set_solver|apply NoDup_singleton].
  - intros pre id' now' cb' post E.
    destruct post as [|p post _] using rev_ind.
    + apply app_inj_tail in E as [<- E]. simplify_eq. eauto.
    + rewrite app_comm_cons, app_assoc in E. apply app_inj_tail in E as [-> _].
      by eapply Hdue.
Qed.

Context (idf_inj : forall i j, idf i = idf j -> i = j).

Lemma issued_S n id :
  (exists k, (k < n)%nat /\ id = idf k) -> exists k, (k < S n)%nat /\ id = idf k.
Proof. intros (k & ? & ->). exists k. split; [lia|done]. Qed.

Lemma issued_last n : exists k, (k < S n)%nat /\ idf n = idf k.
Proof. exists n. split; [lia|done]. Qed.

Lemma issued_fresh n id : (exists k, (k < n)%nat /\ id = idf k) -> idf n <> id.
Proof. intros (k & ? & ->) ?%idf_inj. lia. Qed.

#[local] Hint Resolve issued_S issued_last : core.

(** Events that change nothing: a refusal, an idle iteration. *)
Lemma spec_inv_inert st evs ev :
  fired_id ev = None -> (forall id, ev <> EvCancelled id true) ->
  spec_inv st evs -> spec_inv st (evs ++ [ev]).
Proof.
  intros Hev Hc [? Ha Hf Hca ?]. split.
  - done.
  - intros id e He. apply elem_of_app. eauto.
  - intros id. rewrite omap_app; cbn. rewrite Hev, app_nil_r. apply Hf.
  - intros id [Hin|Hin%list_elem_of_singleton]%elem_of_app; [by apply Hca|].
    by destruct (Hc id).
  - by apply fire_safe_snoc_other.
Qed.

Lemma spec_inv_step st evs ev st' :
  spec_inv st evs -> spec_step st ev st' -> spec_inv st' (evs ++ [ev]).
Proof.
  intros [Hi Ha Hf Hc Hs] Hstep. destruct Hstep; cbn in *.
  - split; cbn.
    + intros id e. rewrite lookup_insert. case_decide; [subst; eauto|eauto].
    + intros id e. rewrite lookup_insert. case_decide; [|set_solver].
      intros [= <-]. set_solver.
    + intros id. rewrite omap_app, app_nil_r. intros [??]%Hf.
      rewrite lookup_insert_ne by (by apply issued_fresh). eauto.
    + intros id [Hin|Hin]%elem_of_app; [|set_solver]. apply Hc in Hin as [??].
      rewrite lookup_insert_ne by (by apply issued_fresh). eauto.
    + by apply fire_safe_snoc_other.
  - by apply spec_inv_inert.
  - split; cbn.
    + intros id' e [_ ?]%lookup_delete_Some. eauto.
    + intros id' e [_ ?]%lookup_delete_Some. set_solver.
    + intros id'. rewrite omap_app, app_nil_r. intros (? & ?)%Hf.
      rewrite lookup_delete. case_decide; eauto.
    + intros id' [Hin|Hin]%elem_of_app.
      * apply Hc in Hin as (? & ?). rewrite lookup_delete. case_decide; eauto.
      * apply list_elem_of_singleton in Hin. simplify_eq.
        rewrite lookup_delete_eq. eauto.
    + by apply fire_safe_snoc_other.
  - split; cbn.
    + intros id' e' [_ ?]%lookup_delete_Some. eauto.
    + intros id' e' [_ ?]%lookup_delete_Some. set_solver.
    + intros id'. rewrite omap_app; cbn. intros [?|Hin]%elem_of_app.
      * destruct (Hf id') as [??]; [done|]. rewrite lookup_delete. case_decide; eauto.
      * apply list_elem_of_singleton in Hin as ->. rewrite lookup_delete_eq. eauto.
    + intros id' Hin. assert (EvCancelled id' true ∈ evs) as Hin' by set_solver.
      apply Hc in Hin' as (? & ?). rewrite lookup_delete. case_decide; eauto.
    + apply fire_safe_snoc_fired with (dl := deadline e); eauto.
      * intros (? & _)%Hf. congruence.
      * intros (? & _)%Hc. congruence.
  - by apply spec_inv_inert.
Qed.

Lemma spec_trace_safe evs st : spec_trace spec_init evs st -> fire_safe evs.
Proof.
  intros Ht. enough (spec_inv st evs) as [] by done.
  remember spec_init as s0 eqn:E. induction Ht; subst.
  - apply spec_inv_init.
  - eapply spec_inv_step; eauto.
Qed.
End Spec.

Arguments entry : clear implicits.
Arguments event : clear implicits.
Arguments tm_op : clear implicits.
Arguments spec_state : clear implicits.
#[export] Hint Constructors spec_step spec_trace : cppdb.

(** * The interface of an implementation *)
Class TimerService (St CB : Type) := {
  ts_init : St;
  (** [ts_add now ms cb]: the identifier given out, [None] when refused *)
  ts_add : Z -> Z -> CB -> St -> option Z * St;
  ts_cancel : Z -> St -> bool * St;
  (** one iteration of the manager thread's loop at clock value [now] *)
  ts_poll : Z -> St -> option (Z * CB) * St;
  (** the identifier of the n-th timer *)
  ts_idf : nat -> Z;
  (** the invariant, with the number of identifiers given out *)
  ts_inv : nat -> St -> Prop;
  ts_pending : St -> gmap Z (entry CB);
  (** the entries in the queue, cancelled ones included *)
  ts_queued : St -> nat;
}.

Definition due {CB} (now : Z) (pend : gmap Z (entry CB)) : Prop :=
  exists id e, pend !! id = Some e /\ deadline e <= now.

Class TimerServiceLaws (St CB : Type) `{TimerService St CB} : Prop := {
  ts_idf_inj i j : ts_idf i = ts_idf j -> i = j;
  ts_init_ok : ts_inv O ts_init /\ ts_pending ts_init = ∅;
  ts_add_ok n now ms cb s r s' :
    (n < max_ids)%nat -> ts_inv n s -> ts_add now ms cb s = (r, s') ->
    match r with
    | Some id =>
        id = ts_idf n /\ ts_inv (S n) s' /\ ts_pending s !! id = None /\
        ts_pending s' = <[id := Entry (now + ns_of_ms ms) cb]> (ts_pending s)
    | None => s' = s
    end;
  ts_cancel_ok n id s b s' :
    ts_inv n s -> ts_cancel id s = (b, s') ->
    ts_inv n s' /\ ts_pending s' = delete id (ts_pending s) /\
    (is_Some (ts_pending s !! id) -> b = true) /\
    (b = true -> exists k, (k < n)%nat /\ id = ts_idf k);
  ts_poll_ok n now s r s' :
    ts_inv n s -> ts_poll now s = (r, s') ->
    ts_inv n s' /\
    match r with
    | Some (id, cb) => exists e,
        ts_pending s !! id = Some e /\ cb = payload e /\ deadline e <= now /\
        (forall id' e', ts_pending s !! id' = Some e' -> deadline e <= deadline e') /\
        ts_pending s' = delete id (ts_pending s)
    | None => ts_pending s' = ts_pending s
    end;
  ts_poll_progress n now s r s' :
    ts_inv n s -> ts_poll now s = (r, s') -> due now (ts_pending s) ->
    (ts_queued s' < ts_queued s)%nat;
}.

Section Service.
Context {St CB : Type} `{TimerServiceLaws St CB}.
Implicit Types (s : St) (op : tm_op CB).

(** One client call or manager iteration, with what it lets a client observe. *)
Definition service_exec op s : St * list (event CB) :=
  match op with
  | Add now ms cb =>
      match ts_add now ms cb s with
      | (Some id, s') => (s', [EvAdded id (now + ns_of_ms ms) cb])
      | (None, s') => (s', [EvRefused])
      end
  | Cancel id => let '(b, s') := ts_cancel id s in (s', [EvCancelled id b])
  | Poll now =>
      match ts_poll now s with
      | (Some (id, cb), s') => (s', [EvFired id now cb])
      | (None, s') => (s', [EvIdle now])
      end
  end.

(** The simulation step: an operation of the implementation is one step of the
    abstract service, on the abstraction of its state. *)
Lemma service_exec_sim n op s :
  (n < max_ids)%nat -> ts_inv n s ->
  exists n' ev, (service_exec op s).2 = [ev] /\ (n' <= S n)%nat /\
    ts_inv n' (service_exec op s).1 /\
    spec_step ts_idf (Spec n (ts_pending s)) ev
      (Spec n' (ts_pending (service_exec op s).1)).
Proof.
  intros Hn Hinv. destruct op as [now ms cb|id|now]; cbn.
  - destruct (ts_add now ms cb s) as [[id|] s'] eqn:E; cbn.
    + pose proof (ts_add_ok _ _ _ _ _ _ _ Hn Hinv E) as (-> & ? & ? & ->).
      exists (S n), (EvAdded (ts_idf n) (now + ns_of_ms ms) cb).
      split_and!; eauto with cppdb.
    + pose proof (ts_add_ok _ _ _ _ _ _ _ Hn Hinv E) as ->.
      exists n, EvRefused. split_and!; eauto with cppdb.
  - destruct (ts_cancel id s) as [b s'] eqn:E; cbn.
    pose proof (ts_cancel_ok _ _ _ _ _ Hinv E) as (? & -> & ? & ?).
    exists n, (EvCancelled id b). split_and!; eauto with cppdb.
  - destruct (ts_poll now s) as [[[id cb]|] s'] eqn:E; cbn;
      pose proof (ts_poll_ok _ _ _ _ _ Hinv E) as [? Hr].
    + destruct Hr as (e & ? & -> & ? & ? & ->).
      exists n, (EvFired id now (payload e)). split_and!; eauto with cppdb.
    + rewrite Hr. exists n, (EvIdle now). split_and!; eauto with cppdb.
Qed.

Lemma service_refines_bounded ops :
  (length ops <= max_ids)%nat ->
  exists n, (n <= length ops)%nat /\ ts_inv n (run service_exec ops ts_init).1 /\
    spec_trace ts_idf spec_init (run service_exec ops ts_init).2
      (Spec n (ts_pending (run service_exec ops ts_init).1)).
Proof.
  intros Hlen.
  apply (run_inv_bounded service_exec
    (fun k s evs => exists n, (n <= k)%nat /\ ts_inv n s /\
       spec_trace ts_idf spec_init evs (Spec n (ts_pending s))) max_ids); [| |done].
  - exists O. destruct ts_init_ok as [? ->]. split_and!; eauto with cppdb.
  - intros k op s evs Hk (n & Hnk & Hinv & Ht).
    destruct (service_exec_sim n op s) as (n' & ev & -> & ? & ? & ?); [lia|done|].
    exists n'. split_and!; [lia|done|eauto with cppdb].
Qed.

Lemma service_fire_safe ops :
  (length ops <= max_ids)%nat -> fire_safe (run service_exec ops ts_init).2.
Proof.
  intros Hlen. destruct (service_refines_bounded ops Hlen) as (n & _ & _ & Ht).
  eapply spec_trace_safe, Ht. apply ts_idf_inj.
Qed.

(** ** Liveness: iterating the manager's loop empties the queue of due timers *)
Fixpoint drain (fuel : nat) (now : Z) s : St * list (Z * CB) :=
  match fuel with
  | O => (s, [])
  | S fuel' =>
      match ts_poll now s with
      | (Some x, s') => let '(s2, l) := drain fuel' now s' in (s2, x :: l)
      | (None, s') => drain fuel' now s'
      end
  end.

(** What draining at [now] does to the pending timers: it fires, earliest
    deadline first, exactly those that are due. *)
Record drained (now : Z) (pend pend' : gmap Z (entry CB)) (l : list (Z * entry CB)) : Prop := {
  dr_fired : forall id e, (id, e) ∈ l <-> pend !! id = Some e /\ deadline e <= now;
  dr_left : forall id e, pend' !! id = Some e <-> pend !! id = Some e /\ now < deadline e;
  dr_once : NoDup l.*1;
  dr_order : StronglySorted (fun x y => deadline x.2 <= deadline y.2) l;
}.

Definition fired_of (x : Z * entry CB) : Z * CB := (x.1, payload x.2).

Lemma due_dec now (pend : gmap Z (entry CB)) : due now pend \/ ~ due now pend.
Proof.
  destruct (decide (map_Exists (fun _ e => deadline e <= now) pend)) as [(id & e & ? & ?)|Hn].
  - left. by exists id, e.
  - right. intros (id & e & ? & ?). apply Hn. by exists id, e.
Qed.

Lemma drained_not_due now pend : ~ due now pend -> drained now pend pend [].
Proof.
  intros Hn. split; try constructor.
  - set_solver.
  - intros [??]. exfalso. apply Hn. by exists id, e.
  - intros Hp. split; [done|]. destruct (Z.lt_ge_cases now (deadline e)); [done|].
    exfalso. apply Hn. by exists id, e.
  - tauto.
Qed.

Lemma drained_fire now pend pend' l id e :
  pend !! id = Some e -> deadline e <= now ->
  (forall id' e', pend !! id' = Some e' -> deadline e <= deadline e') ->
  drained now (delete id pend) pend' l -> drained now pend pend' ((id, e) :: l).
Proof.
  intros Hid Hle Hmin [Hf Hl Ho Hs]. split.
  - intros id' e'. rewrite elem_of_cons, Hf, lookup_delete_Some. split.
    + intros [?|[[??] ?]]; by simplify_eq.
    + intros [??]. destruct (decide (id = id')) as [->|]; [left|right]; naive_solver.
  - intros id' e'. rewrite Hl, lookup_delete_Some. split; [tauto|].
    intros [??]. split; [|done]. split; [|done]. intros ->. simplify_eq. lia.
  - cbn. apply NoDup_cons. split; [|done].
    intros ([id' e'] & -> & Hin)%list_elem_of_fmap. apply Hf in Hin as [Hin _].
    cbn in Hin. by rewrite lookup_delete_eq in Hin.
  - constructor; [done|]. apply Forall_forall. intros [id' e'] Hin; cbn.
    apply Hf in Hin as [[_ ?]%lookup_delete_Some _]. eauto.
Qed.

Lemma drain_idle n fuel now s :
  ts_inv n s -> ~ due now (ts_pending s) ->
  ts_inv n (drain fuel now s).1 /\ ts_pending (drain fuel now s).1 = ts_pending s /\
  (drain fuel now s).2 = [].
Proof.
  revert s. induction fuel as [|fuel IH]; intros s Hinv Hn; [done|]. cbn.
  destruct (ts_poll now s) as [[[id cb]|] s'] eqn:E;
    pose proof (ts_poll_ok _ _ _ _ _ Hinv E) as [Hinv' Hr].
  - exfalso. destruct Hr as (e & ? & _ & ? & _). apply Hn. by exists id, e.
  - rewrite <- Hr in Hn |- *. by apply IH.
Qed.

Lemma drain_spec n fuel now s :
  ts_inv n s -> (ts_queued s <= fuel)%nat ->
  exists l, (drain fuel now s).2 = fired_of <$> l /\ ts_inv n (drain fuel now s).1 /\
    drained now (ts_pending s) (ts_pending (drain fuel now s).1) l.
Proof.
  revert s. induction fuel as [|fuel IH]; intros s Hinv Hq;
    (destruct (due_dec now (ts_pending s)) as [Hd|Hd];
     [|eexists []; match goal with |- context [drain ?f _ _] =>
         destruct (drain_idle n f now s Hinv Hd) as (? & -> & ->) end;
       split_and!; [done..|by apply drained_not_due]]).
  - destruct (ts_poll now s) as [r s'] eqn:E.
    pose proof (ts_poll_progress _ _ _ _ _ Hinv E Hd). lia.
  - cbn. destruct (ts_poll now s) as [r s'] eqn:E.
    pose proof (ts_poll_progress _ _ _ _ _ Hinv E Hd) as Hlt.
    pose proof (ts_poll_ok _ _ _ _ _ Hinv E) as [Hinv' Hr].
    destruct (IH s' Hinv' ltac:(lia)) as (l & Hl & ? & Hdr).
    destruct r as [[id cb]|].
    + destruct Hr as (e & ? & -> & ? & ? & Hp). rewrite Hp in Hdr.
      destruct (drain fuel now s') as [s2 l2]; cbn in *. subst l2.
      exists ((id, e) :: l). split_and!; [done..|by eapply drained_fire].
    + rewrite Hr in Hdr. eauto.
Qed.
End Service.
