(* ===== verification/TimerCore.v ===== *)
(** The data structure the timer managers of [src/other/timer/] share: a priority
    queue of tasks and a map from identifiers to the tasks that are still active.

    Cancelling works on the map alone, so the queue keeps stale entries; what ties
    the two together is [core_inv]: identifiers in the queue are distinct, and each
    active task has its queue entry, related to it by [rel] (equality, or equality
    up to a flag that only the map's copy carries). *)
From S2P Require Import Prelude PQueue TimerSpec.

Section Core.
Context {T : Type} (tid wake : T -> Z) (rel : T -> T -> Prop).
Context {less : T -> T -> bool} {Q : Type} {PQ : PriorityQueue T less Q}.
Context (idf : nat -> Z).

(** The queue is ordered by wake-up time, earliest first, and related tasks agree
    on what the manager looks at. *)
Class CoreLaws : Prop := {
  less_wake x y : less x y = Z.gtb (wake x) (wake y);
  rel_tid x y : rel x y -> tid x = tid y;
  rel_wake x y : rel x y -> wake x = wake y;
  rel_refl x : rel x x;
  idf_inj i j : idf i = idf j -> i = j;
}.
Context {CL : CoreLaws}.
Implicit Types (q : Q) (act : gmap Z T) (t : T).

Record core_inv (n : nat) q act : Prop := {
  ci_ids : forall t, t ∈ pq_elems q -> exists k, (k < n)%nat /\ tid t = idf k;
  ci_unique : NoDup (tid <$> pq_elems q);
  ci_act : forall i t, act !! i = Some t ->
    i = tid t /\ exists t', t' ∈ pq_elems q /\ rel t t';
}.

Lemma core_empty : core_inv O pq_empty ∅.
Proof using Type.
  clear CL. split; rewrite ?pq_elems_empty; [|constructor|].
  - by intros t ?%elem_of_nil.
  - intros i t. by rewrite lookup_empty.
Qed.

Lemma core_act_issued n q act i t :
  core_inv n q act -> act !! i = Some t -> exists k, (k < n)%nat /\ i = idf k.
Proof.
  intros I Hi. destruct (ci_act _ _ _ I _ _ Hi) as (-> & t' & Hin & Hr).
  rewrite (rel_tid _ _ Hr). by apply (ci_ids _ _ _ I).
Qed.

(** The next identifier is used nowhere. *)
Lemma core_fresh n q act : core_inv n q act -> act !! idf n = None.
Proof.
  intros I. destruct (act !! idf n) as [t|] eqn:E; [|done].
  destruct (core_act_issued _ _ _ _ _ I E) as (k & ? & ?%idf_inj). lia.
Qed.

Lemma core_push n q act t :
  core_inv n q act -> tid t = idf n ->
  core_inv (S n) (pq_push t q) (<[idf n := t]> act).
Proof.
  intros I Ht. split.
  - intros t' [->|Hin]%pq_elem_push; [exists n; split; [lia|done]|].
    destruct (ci_ids _ _ _ I _ Hin) as (k & ? & ?). exists k. split; [lia|done].
  - apply pq_push_keys; [|apply I]. rewrite Ht.
    intros (t' & E & Hin)%list_elem_of_fmap.
    destruct (ci_ids _ _ _ I _ Hin) as (k & ? & E'). rewrite <- E in E'.
    apply idf_inj in E'. lia.
  - intros i t'. rewrite lookup_insert. case_decide as Ei.
    + intros [= <-]. split; [congruence|]. exists t. rewrite pq_elem_push.
      split; [by left|apply rel_refl].
    + intros Hi. destruct (ci_act _ _ _ I _ _ Hi) as (-> & t2 & ? & ?).
      split; [done|]. exists t2. rewrite pq_elem_push. auto.
Qed.

(** Fewer active tasks are no harm. *)
Lemma core_sub n q act act' : core_inv n q act -> act' ⊆ act -> core_inv n q act'.
Proof using Type.
  intros [? ? Ha] Hsub. split; [done..|].
  intros i t Hi. eapply Ha, lookup_weaken; eauto.
Qed.

Lemma core_delete n q act i : core_inv n q act -> core_inv n q (delete i act).
Proof using Type. intros I. eapply core_sub; [done|]. apply delete_subseteq. Qed.

(** Replacing an active task by one that is still related to its queue entry. *)
Lemma core_update n q act i t t2 :
  core_inv n q act -> act !! i = Some t -> (forall t', rel t t' -> rel t2 t') ->
  core_inv n q (<[i := t2]> act).
Proof.
  intros I Hi Hrel. split; [apply I..|].
  intros j t'. rewrite lookup_insert. case_decide as Ej; [|apply I].
  intros [= <-]. subst j. destruct (ci_act _ _ _ I _ _ Hi) as (-> & t3 & ? & Hr).
  apply Hrel in Hr as Hr2. split; [|eauto].
  by rewrite (rel_tid _ _ Hr), (rel_tid _ _ Hr2).
Qed.

(** Popping the top and deactivating its identifier. *)
Lemma core_pop n q act t :
  core_inv n q act -> pq_top q = Some t -> core_inv n (pq_pop q) (delete (tid t) act).
Proof.
  intros I Ht. destruct (pq_pop_keys tid _ _ Ht (ci_unique _ _ _ I)) as [Hu Hni].
  split; [|done|].
  - intros t' Hin. apply (ci_ids _ _ _ I). by eapply pq_elem_pop.
  - intros i t' [Hne Hi]%lookup_delete_Some.
    destruct (ci_act _ _ _ I _ _ Hi) as (-> & t2 & Hin & Hr). split; [done|].
    exists t2. split; [|done].
    destruct (pq_elem_pop_or _ _ _ Ht Hin) as [->|?]; [|done].
    destruct Hne. by rewrite (rel_tid _ _ Hr).
Qed.

(** Popping a stale top. *)
Lemma core_pop_stale n q act t :
  core_inv n q act -> pq_top q = Some t -> act !! tid t = None -> core_inv n (pq_pop q) act.
Proof. intros I Ht Hn. rewrite <- (delete_id act (tid t)) by done. by apply core_pop. Qed.

(** The active task under the top's identifier is related to the top itself. *)
Lemma core_top_active n q act t t2 :
  core_inv n q act -> pq_top q = Some t -> act !! tid t = Some t2 -> rel t2 t.
Proof.
  intros I Ht Ha. destruct (ci_act _ _ _ I _ _ Ha) as (E & t3 & Hin & Hr).
  assert (t = t3) as ->; [|done].
  eapply (NoDup_fmap_eq tid); [apply I|by eapply pq_top_elem|done|].
  by rewrite E, (rel_tid _ _ Hr).
Qed.

(** No active task is to wake up before the top. *)
Lemma core_top_min n q act t i t2 :
  core_inv n q act -> pq_top q = Some t -> act !! i = Some t2 -> wake t <= wake t2.
Proof.
  intros I Ht Ha. destruct (ci_act _ _ _ I _ _ Ha) as (_ & t3 & Hin & Hr).
  pose proof (pq_top_max _ _ _ Ht Hin) as Hm. rewrite less_wake, Z.gtb_ltb in Hm. zbool.
  by rewrite (rel_wake _ _ Hr).
Qed.

(** When an active task is due, the queue's top is due as well. *)
Lemma core_due_top n q act i t2 now :
  core_inv n q act -> act !! i = Some t2 -> wake t2 <= now ->
  exists t, pq_top q = Some t /\ wake t <= now.
Proof.
  intros I Ha Hle. destruct (ci_act _ _ _ I _ _ Ha) as (_ & t3 & Hin & _).
  destruct (pq_top_is_Some _ _ Hin) as [t Ht]. exists t. split; [done|].
  pose proof (core_top_min _ _ _ _ _ _ I Ht Ha). lia.
Qed.
End Core.
Arguments CoreLaws {T} tid wake rel less idf.
