(* ===== verification/DualTimer.v ===== *)
(** [DualModeTimer] of [src/other/timer/dualTimer/dualtimer.cc]: one-shot timers
    kept in a priority queue, a manager thread that hands every expired timer to
    a callback thread of its own, cancellation through a second map, promises.

    Every method body runs under [tasks_mutex_], so it is one atomic operation;
    one iteration of [managerThread] is [managerThread_iter]. The destructor
    protocol, where the mutex is not held, is modelled in the file Shutdown.

    Points in time and durations are nanoseconds without a bound. The code counts them in
    64 bits: the conversion of a duration above about 9.2e12 milliseconds (292 years), or its
    addition to the present time, overflows there (lines 39 and 260), so that the theorems are
    about shorter ones. *)
From S2P Require Import Prelude PQueue TimerSpec TimerCore.

Module DualModeTimer.

Inductive TimerMode := BLOCKING | NON_BLOCKING.

#[export] Instance TimerMode_eq_dec : EqDecision TimerMode.
Proof. solve_decision. Defined.

(** What a [std::promise<bool>] holds once it is satisfied. *)
Inductive promise_value := PBool (b : bool) | PException.

#[export] Instance promise_value_eq_dec : EqDecision promise_value.
Proof. solve_decision. Defined.

(** The shared states of the promises: absent, empty, or satisfied. *)
Abbreviation promises := (gmap nat (option promise_value)).

(** [set_value]/[set_exception]: satisfying a promise twice throws
    [std::future_error], [None]. *)
Definition set_promise (p : nat) (v : promise_value) (m : promises) : option promises :=
  match m !! p with
  | Some None => Some (<[p := Some v]> m)
  | _ => None
  end.

Section Model.
Context {CB : Type}.

Record TimerTask := mkTask {
  id : Z;
  mode : TimerMode;
  duration : Z;
  callback : CB;
  start_time : Z;
  completed : bool;
  promise : option nat;
}.

(** [start_time + duration] *)
Definition wake_time (t : TimerTask) : Z := start_time t + ns_of_ms (duration t).

(** [TimerTask::operator<] *)
Definition task_less (t other : TimerTask) : bool := later wake_time t other.

#[export] Instance task_less_swo : StrictWeakOrder task_less := later_swo wake_time.

(** A thread of [callback_threads_]: the task it captured, and whether it ended. *)
Record cb_thread := mkThread { th_task : TimerTask; th_done : bool }.

Context {Q : Type} {PQ : PriorityQueue TimerTask task_less Q}.

Record state := mkState {
  running_ : bool;
  tasks_ : Q;
  active_tasks_ : gmap Z TimerTask;
  next_id_ : Z;
  callback_threads_ : list cb_thread;
  proms : promises;
}.

(** [DualModeTimer()] *)
Definition ctor : state := mkState false pq_empty ∅ 0 [] ∅.

Definition start (s : state) : state :=
  if running_ s then s
  else mkState true (tasks_ s) (active_tasks_ s) (next_id_ s) (callback_threads_ s) (proms s).

Definition set_completed (t : TimerTask) : TimerTask :=
  mkTask (id t) (mode t) (duration t) (callback t) (start_time t) true (promise t).

(** The common part of the two [addNonBlockingTimer*]: [++next_id_] on an
    atomic [int], the task pushed and its copy made active. *)
Definition add_task (now ms : Z) (p : option nat) (cb : CB) (s : state) : Z * state :=
  let i := wrapS 32 (next_id_ s + 1) in
  let task := mkTask i NON_BLOCKING ms cb now false p in
  (i, mkState (running_ s) (pq_push task (tasks_ s)) (<[i := task]> (active_tasks_ s))
        i (callback_threads_ s) (proms s)).

Definition addNonBlockingTimer (now ms : Z) (cb : CB) (s : state) : Z * state :=
  add_task now ms None cb s.

(** The caller's promise comes with its (empty) shared state. *)
Definition addNonBlockingTimerWithPromise (now ms : Z) (p : nat) (cb : CB) (s : state)
  : Z * state :=
  let s0 := mkState (running_ s) (tasks_ s) (active_tasks_ s) (next_id_ s)
              (callback_threads_ s)
              (match proms s !! p with Some _ => proms s | None => <[p := None]> (proms s) end) in
  add_task now ms (Some p) cb s0.

(** [None] is the [future_error] that leaves the method between
    [completed = true] and [erase]. *)
Definition cancelTimer (timer_id : Z) (s : state) : option bool * state :=
  match active_tasks_ s !! timer_id with
  | Some t =>
      let s1 := mkState (running_ s) (tasks_ s)
                  (<[timer_id := set_completed t]> (active_tasks_ s))
                  (next_id_ s) (callback_threads_ s) (proms s) in
      match promise t with
      | None =>
          (Some true, mkState (running_ s1) (tasks_ s1)
             (delete timer_id (active_tasks_ s1)) (next_id_ s1)
             (callback_threads_ s1) (proms s1))
      | Some p =>
          match set_promise p (PBool false) (proms s1) with
          | Some m =>
              (Some true, mkState (running_ s1) (tasks_ s1)
                 (delete timer_id (active_tasks_ s1)) (next_id_ s1)
                 (callback_threads_ s1) m)
          | None => (None, s1)
          end
      end
  | None => (Some false, s)
  end.

(** The loop over [active_tasks_] of [cancelAllTimers]: the promises still empty
    become false, [future_error] is swallowed. *)
Definition cancel_promise (t : TimerTask) (m : promises) : promises :=
  match promise t with
  | Some p => match set_promise p (PBool false) m with Some m' => m' | None => m end
  | None => m
  end.

Definition cancelAllTimers (s : state) : state :=
  mkState (running_ s) pq_empty ∅ (next_id_ s) (callback_threads_ s)
    (foldr cancel_promise (proms s) (map_to_list (active_tasks_ s)).*2).

Definition getActiveTimerCount (s : state) : nat := size (active_tasks_ s).

Definition isRunning (s : state) : bool := running_ s.

(** One iteration of the loop of [managerThread] with the clock at [now]: the
    task handed to a new callback thread, if any. Waiting changes nothing. *)
Definition managerThread_iter (now : Z) (s : state) : option TimerTask * state :=
  if negb (running_ s) then (None, s)
  else match pq_top (tasks_ s) with
  | None => (None, s)
  | Some next_task =>
      if wake_time next_task <=? now then
        let s1 := mkState (running_ s) (pq_pop (tasks_ s)) (active_tasks_ s)
                    (next_id_ s) (callback_threads_ s) (proms s) in
        match active_tasks_ s1 !! id next_task with
        | Some task =>
            if completed task then (None, s1)
            else
              let s2 := mkState (running_ s1) (tasks_ s1)
                          (delete (id next_task) (active_tasks_ s1))
                          (next_id_ s1) (callback_threads_ s1) (proms s1) in
              if decide (mode task = NON_BLOCKING) then
                (Some task, mkState (running_ s2) (tasks_ s2) (active_tasks_ s2)
                   (next_id_ s2) (callback_threads_ s2 ++ [mkThread task false]) (proms s2))
              else (None, s2)
        | None => (None, s1)
        end
      else (None, s)
  end.

(** The body of a callback thread; [throws] tells whether the callback left with
    a [std::exception]. [None] is an exception out of the thread function
    ([std::terminate]). *)
Definition callback_body (throws : bool) (task : TimerTask) (m : promises)
  : option promises :=
  match promise task with
  | None => Some m
  | Some p =>
      if throws then set_promise p PException m
      else match set_promise p (PBool true) m with
           | Some m' => Some m'
           | None => set_promise p PException m
           end
  end.

(** Callback thread number [k] runs to its end. *)
Definition run_callback (k : nat) (throws : bool) (s : state) : option state :=
  match callback_threads_ s !! k with
  | Some (mkThread task false) =>
      match callback_body throws task (proms s) with
      | Some m =>
          Some (mkState (running_ s) (tasks_ s) (active_tasks_ s) (next_id_ s)
                  (<[k := mkThread task true]> (callback_threads_ s)) m)
      | None => None
      end
  | _ => Some s
  end.

(** ** The invariant *)

Definition idf (k : nat) : Z := Z.of_nat k + 1.

#[export] Instance dual_core : CoreLaws id wake_time eq task_less idf.
Proof. split; unfold idf; [done|by intros ?? ->..|done|lia]. Qed.

(** [n] identifiers were given out: 1, 2, ..., n. Every active task is the one of
    the queue, not completed. *)
Record inv (n : nat) (s : state) : Prop := {
  inv_next : next_id_ s = Z.of_nat n;
  inv_core : core_inv id eq idf n (tasks_ s) (active_tasks_ s);
  inv_live : forall i t, active_tasks_ s !! i = Some t ->
    completed t = false /\ mode t = NON_BLOCKING;
}.

Definition pending_of (s : state) : gmap Z (entry CB) :=
  (fun t => Entry (wake_time t) (callback t)) <$> active_tasks_ s.

Lemma pending_of_lookup s i e :
  pending_of s !! i = Some e <->
  exists t, active_tasks_ s !! i = Some t /\ e = Entry (wake_time t) (callback t).
Proof. unfold pending_of. rewrite lookup_fmap_Some. naive_solver. Qed.

Lemma inv_ctor : inv 0 (start ctor).
Proof. split; cbn; [done|by eapply core_empty|set_solver]. Qed.

Lemma next_id_wrap n : (n < max_ids)%nat -> wrapS 32 (Z.of_nat n + 1) = Z.of_nat n + 1.
Proof. intros H%max_ids_lt. unfold INT_MAX in H. apply wrapS_small; lia. Qed.

Lemma add_task_inv n now ms p cb s i s' :
  (n < max_ids)%nat -> inv n s -> add_task now ms p cb s = (i, s') ->
  i = idf n /\ inv (S n) s' /\ running_ s' = running_ s /\
  active_tasks_ s' = <[i := mkTask i NON_BLOCKING ms cb now false p]> (active_tasks_ s).
Proof.
  intros Hn I. unfold add_task. rewrite (inv_next _ _ I), next_id_wrap by done.
  intros [= <- <-]. split; [done|]. split; [|done]. split; cbn.
  - lia.
  - eapply core_push; [tc_solve|apply I|done].
  - intros i t. rewrite lookup_insert. case_decide; [by intros [= <-]|]. apply (inv_live _ _ I).
Qed.

(** Dropping active entries keeps the invariant, whatever the other fields. *)
Lemma inv_sub n s b q act ths m :
  inv n s -> core_inv id eq idf n q act -> act ⊆ active_tasks_ s ->
  inv n (mkState b q act (next_id_ s) ths m).
Proof.
  intros I Hc Hsub. split; cbn; [apply I|done|].
  intros i t Hi. eapply (inv_live _ _ I), lookup_weaken; eauto.
Qed.

Lemma cancelTimer_ok n timer_id s r s' :
  inv n s -> (forall i t, active_tasks_ s !! i = Some t -> promise t = None) ->
  cancelTimer timer_id s = (r, s') ->
  inv n s' /\ running_ s' = running_ s /\
  active_tasks_ s' = delete timer_id (active_tasks_ s) /\
  r = Some (bool_decide (is_Some (active_tasks_ s !! timer_id))).
Proof.
  intros I Hp. unfold cancelTimer.
  destruct (active_tasks_ s !! timer_id) as [t|] eqn:E.
  - rewrite (Hp _ _ E). intros [= <- <-]; cbn. rewrite delete_insert_eq.
    split; [|done]. apply inv_sub; [done| |apply delete_subseteq].
    eapply core_delete, I.
  - intros [= <- <-]. split_and!; [done|done|by rewrite delete_id|done].
Qed.

(** The outcome of one manager iteration, on every branch. *)
Lemma managerThread_iter_ok n now s r s' :
  running_ s = true -> inv n s -> managerThread_iter now s = (r, s') ->
  inv n s' /\ running_ s' = true /\
  match r with
  | Some t =>
      pq_top (tasks_ s) = Some t /\ active_tasks_ s !! id t = Some t /\
      wake_time t <= now /\ active_tasks_ s' = delete (id t) (active_tasks_ s)
  | None => active_tasks_ s' = active_tasks_ s
  end.
Proof.
  intros Hrun I. unfold managerThread_iter. rewrite Hrun; cbn.
  destruct (pq_top (tasks_ s)) as [t|] eqn:Ht; [|intros [= <- <-]; done].
  destruct (wake_time t <=? now) eqn:Hw; zbool; [|intros [= <- <-]; done].
  destruct (active_tasks_ s !! id t) as [task|] eqn:Ha.
  - assert (task = t) as -> by (eapply core_top_active; [tc_solve|apply I|done..]).
    destruct (inv_live _ _ I _ _ Ha) as (-> & ->); cbn.
    intros [= <- <-]; cbn. split; [|done].
    apply inv_sub; [done| |apply delete_subseteq]. eapply core_pop; [tc_solve|apply I|done].
  - intros [= <- <-]; cbn. split; [|done]. apply inv_sub; [done| |done].
    eapply core_pop_stale; [tc_solve|apply I|done..].
Qed.

(** ** The plain interface as a timer service *)

Definition no_promise (s : state) : Prop :=
  forall i t, active_tasks_ s !! i = Some t -> promise t = None.

Definition service_add (now ms : Z) (cb : CB) (s : state) : option Z * state :=
  let '(i, s') := addNonBlockingTimer now ms cb s in (Some i, s').

Definition service_cancel (i : Z) (s : state) : bool * state :=
  let '(r, s') := cancelTimer i s in (default false r, s').

Definition service_poll (now : Z) (s : state) : option (Z * CB) * state :=
  let '(r, s') := managerThread_iter now s in
  ((fun t => (id t, callback t)) <$> r, s').

#[local] Arguments service_add : simpl never.
#[local] Arguments service_cancel : simpl never.
#[local] Arguments service_poll : simpl never.

#[export] Instance dual_service : TimerService state CB := {
  ts_init := start ctor;
  ts_add := service_add;
  ts_cancel := service_cancel;
  ts_poll := service_poll;
  ts_idf := idf;
  ts_inv n s := running_ s = true /\ inv n s /\ no_promise s;
  ts_pending := pending_of;
  ts_queued s := length (pq_elems (tasks_ s));
}.

Lemma no_promise_sub s s' :
  no_promise s -> active_tasks_ s' ⊆ active_tasks_ s -> no_promise s'.
Proof. intros H Hsub i t Hi. eapply H, lookup_weaken; eauto. Qed.

(** A due timer implies the queue's top is due, so an iteration pops it. *)
Lemma due_pops n now s r s' :
  running_ s = true -> inv n s -> managerThread_iter now s = (r, s') ->
  due now (pending_of s) ->
  (length (pq_elems (tasks_ s')) < length (pq_elems (tasks_ s)))%nat.
Proof.
  intros Hrun I Hit (i & e & Hi & Hle).
  apply pending_of_lookup in Hi as (t & Ha & ->). cbn in Hle.
  destruct (core_due_top id wake_time eq idf _ _ _ _ _ now (inv_core _ _ I) Ha Hle)
    as (top & Ht & Hw).
  rewrite (pq_pop_length _ _ Ht).
  unfold managerThread_iter in Hit. rewrite Hrun, Ht in Hit; cbn in Hit.
  rewrite (proj2 (Z.leb_le _ _) Hw) in Hit. split_guards; lia.
Qed.

#[export] Instance dual_service_laws : TimerServiceLaws state CB.
Proof.
  split; cbn.
  - unfold idf. lia.
  - split; [|by unfold pending_of; cbn; rewrite fmap_empty].
    split_and!; [done|apply inv_ctor|]. intros i t; cbn. by rewrite lookup_empty.
  - intros n now ms cb s r s' Hn (Hrun & I & Hp). unfold service_add.
    destruct (addNonBlockingTimer now ms cb s) as [i s1] eqn:E. intros [= <- <-].
    destruct (add_task_inv _ _ _ _ _ _ _ _ Hn I E) as (-> & I' & Hr & Hact).
    split_and!; [done|congruence|done| | |].
    + intros i t. rewrite Hact, lookup_insert. case_decide; [by intros [= <-]|apply Hp].
    + unfold pending_of. rewrite lookup_fmap. by erewrite core_fresh by (tc_solve || apply I).
    + unfold pending_of. by rewrite Hact, fmap_insert.
  - intros n i s b s' (Hrun & I & Hp). unfold service_cancel.
    destruct (cancelTimer i s) as [r s1] eqn:E. intros [= <- <-].
    destruct (cancelTimer_ok _ _ _ _ _ I Hp E) as (I' & Hr & Hact & ->).
    split_and!; [congruence|done| | | |]; cbn.
    + eapply no_promise_sub; [done|]. rewrite Hact. apply delete_subseteq.
    + unfold pending_of. by rewrite Hact, fmap_delete.
    + intros [e Hi]. apply pending_of_lookup in Hi as (t & Ha & _).
      by apply bool_decide_true.
    + intros [t Ha]%bool_decide_eq_true. eapply core_act_issued; [tc_solve|apply I|done].
  - intros n now s r s' (Hrun & I & Hp). unfold service_poll.
    destruct (managerThread_iter now s) as [o s1] eqn:E. intros [= <- <-].
    pose proof (managerThread_iter_ok _ _ _ _ _ Hrun I E) as (I' & Hr' & Ho).
    destruct o as [t|]; cbn.
    + destruct Ho as (Ht & Ha & Hw & Hact). split_and!; [done|done| |].
      { apply (no_promise_sub s); [done|]. rewrite Hact. apply delete_subseteq. }
      exists (Entry (wake_time t) (callback t)). cbn. split_and!; [|done|done| |].
      * apply pending_of_lookup. eauto.
      * intros i e Hi. apply pending_of_lookup in Hi as (t' & Ha' & ->); cbn.
        eapply core_top_min; [tc_solve|apply I|done..].
      * unfold pending_of. by rewrite Hact, fmap_delete.
    + split_and!; [done|done| |by unfold pending_of; rewrite Ho].
      apply (no_promise_sub s); by rewrite ?Ho.
  - intros n now s r s' (Hrun & I & Hp). unfold service_poll.
    destruct (managerThread_iter now s) as [o s1] eqn:E. intros [= <- <-].
    by apply (due_pops _ _ _ _ _ Hrun I E).
Qed.

(** ** Correctness of the manager *)

(** Any interleaving of client calls and manager iterations, as one run. *)
Definition dual_run (ops : list (tm_op CB)) : state * list (event CB) :=
  run service_exec ops (start ctor).

(** C30: with at most 2^31-1 operations, in every interleaving of
    [addNonBlockingTimer], [cancelTimer] and manager iterations a timer is fired
    at most once, only after it was added, never before its deadline, and never
    after a [cancelTimer] of it that returned true. *)
Theorem dual_fire_safe (ops : list (tm_op CB)) :
  Z.of_nat (length ops) <= INT_MAX -> fire_safe (dual_run ops).2.
Proof. intros H. exact (service_fire_safe (St := state) ops (within_max_ids _ H)). Qed.

(** C36: from every state such a run reaches, iterating the manager's loop at
    clock value [now] as often as the queue is long fires exactly the timers
    that are pending and due, each once and earliest deadline first, and leaves
    the others pending. *)
Theorem dual_drain (ops : list (tm_op CB)) (now : Z) :
  Z.of_nat (length ops) <= INT_MAX ->
  exists l,
    (drain (length (pq_elems (tasks_ (dual_run ops).1))) now (dual_run ops).1).2
      = fired_of <$> l /\
    drained now (pending_of (dual_run ops).1)
      (pending_of (drain (length (pq_elems (tasks_ (dual_run ops).1))) now (dual_run ops).1).1)
      l.
Proof.
  intros H%within_max_ids. destruct (service_refines_bounded (St := state) ops H) as (n & _ & I & _).
  destruct (drain_spec n _ now _ I (le_n _)) as (l & ? & _ & ?). eauto.
Qed.

(** C38: the manager refines the abstract timer service: what a run lets a client
    observe is a trace of it, ending in the abstraction of the final state. *)
Theorem dual_refines_spec (ops : list (tm_op CB)) :
  Z.of_nat (length ops) <= INT_MAX ->
  exists n, spec_trace idf spec_init (dual_run ops).2
              (Spec n (pending_of (dual_run ops).1)).
Proof.
  intros H%within_max_ids. destruct (service_refines_bounded (St := state) ops H) as (n & _ & _ & Ht).
  by exists n.
Qed.
End Model.

(** ** The model at work: two timers, the second cancelled *)
Section Example.
Let Q := list_queue (@task_less nat).

Definition example_ops : list (tm_op nat) :=
  [Add 0 5 70%nat; Add 0 3 71%nat; Cancel 2; Poll 4000000; Poll 5000000; Poll 5000000].

Example dual_example_trace :
  (dual_run (Q := Q) example_ops).2 =
    [EvAdded 1 5000000 70%nat; EvAdded 2 3000000 71%nat; EvCancelled 2 true;
     EvIdle 4000000; EvFired 1 5000000 70%nat; EvIdle 5000000].
Proof. vm_compute. reflexivity. Qed.

Lemma dual_fire_safe_witness :
  Z.of_nat (length example_ops) <= INT_MAX /\ fire_safe (dual_run (Q := Q) example_ops).2.
Proof. split; [vm_compute; discriminate|apply dual_fire_safe; vm_compute; discriminate]. Defined.

Lemma dual_drain_witness :
  exists l,
    (drain (length (pq_elems (tasks_ (dual_run (Q := Q) (take 2 example_ops)).1))) 4000000
       (dual_run (Q := Q) (take 2 example_ops)).1).2 = fired_of <$> l /\
    drained 4000000 (pending_of (dual_run (Q := Q) (take 2 example_ops)).1)
      (pending_of (drain (length (pq_elems (tasks_ (dual_run (Q := Q) (take 2 example_ops)).1)))
         4000000 (dual_run (Q := Q) (take 2 example_ops)).1).1) l.
Proof. apply (dual_drain (take 2 example_ops) 4000000). vm_compute. discriminate. Defined.

Lemma dual_refines_spec_witness :
  exists n, spec_trace idf spec_init (dual_run (Q := Q) example_ops).2
              (Spec n (pending_of (dual_run (Q := Q) example_ops).1)).
Proof. apply dual_refines_spec. vm_compute. discriminate. Defined.
End Example.

End DualModeTimer.
