(* ===== verification/DualPromises.v ===== *)
(** The promises of [DualModeTimer] ([src/other/timer/dualTimer/dualtimer.cc]):
    which operation satisfies the promise of a timer, and that none is ever
    satisfied twice; and [addBlockingTimer], whose callback writes to the frame of
    the thread that waits. *)
From S2P Require Import Prelude PQueue TimerSpec DualTimer.

Module DualPromises.
Import DualModeTimer.

(** ** Promises *)
Section Promises.
Context {CB Q : Type} {PQ : PriorityQueue (@TimerTask CB) task_less Q}.
#[local] Abbreviation st := (@state CB Q).
Implicit Types (s : st) (t : @TimerTask CB).

Inductive op :=
| OAdd (now ms : Z) (cb : CB)
| OAddPromise (now ms : Z) (p : nat) (cb : CB)
| OCancel (i : Z)
| OCancelAll
| OIter (now : Z)
| ORun (k : nat) (throws : bool).

(** [None]: a [future_error] left [cancelTimer], or [std::terminate]. *)
Definition exec (o : op) (s : st) : option st :=
  match o with
  | OAdd now ms cb => Some (addNonBlockingTimer now ms cb s).2
  | OAddPromise now ms p cb => Some (addNonBlockingTimerWithPromise now ms p cb s).2
  | OCancel i => match cancelTimer i s with (Some _, s') => Some s' | (None, _) => None end
  | OCancelAll => Some (cancelAllTimers s)
  | OIter now => Some (managerThread_iter now s).2
  | ORun k throws => run_callback k throws s
  end.

Fixpoint exec_all (ops : list op) (s : st) : option st :=
  match ops with [] => Some s | o :: ops' => s' ← exec o s; exec_all ops' s' end.

Definition op_promise (o : op) : option nat :=
  match o with OAddPromise _ _ p _ => Some p | _ => None end.

(** Who is going to satisfy promise [p]: the active timer [inl i], or the
    callback thread [inr k] that has not ended. *)
Definition holder s (h : Z + nat) (p : nat) : Prop :=
  match h with
  | inl i => exists t, active_tasks_ s !! i = Some t /\ promise t = Some p
  | inr k => exists t, callback_threads_ s !! k = Some (mkThread t false) /\ promise t = Some p
  end.

Record pinv (used : list nat) s : Prop := {
  pi_empty : forall h p, holder s h p -> proms s !! p = Some None;
  pi_unique : forall h1 h2 p, holder s h1 p -> holder s h2 p -> h1 = h2;
  pi_used : forall p, is_Some (proms s !! p) -> p ∈ used;
}.

(** The invariant survives when every holder of the new state is one of the old
    state (possibly moved by an injective [f]) and its promise is still empty. *)
Lemma pinv_move used s s' (f : Z + nat -> Z + nat) :
  pinv used s ->
  (forall h p, holder s' h p -> holder s (f h) p /\ proms s' !! p = proms s !! p) ->
  (forall h1 h2 p, holder s' h1 p -> holder s' h2 p -> f h1 = f h2 -> h1 = h2) ->
  (forall p, is_Some (proms s' !! p) -> is_Some (proms s !! p)) ->
  pinv used s'.
Proof.
  intros [He Hu Hd] Hmove Hinj Hdom. split.
  - intros h p Hh. apply Hmove in Hh as [Hh ->]. eauto.
  - intros h1 h2 p H1 H2. apply (Hinj _ _ p); [done..|].
    apply Hmove in H1 as [? _], H2 as [? _]. eauto.
  - auto.
Qed.

Lemma set_promise_empty p v (m : promises) :
  m !! p = Some None -> set_promise p v m = Some (<[p := Some v]> m).
Proof. unfold set_promise. by intros ->. Qed.

Lemma holder_add s now ms p cb h q :
  holder (add_task now ms p cb s).2 h q ->
  holder s h q \/ (h = inl (wrapS 32 (next_id_ s + 1)) /\ p = Some q).
Proof.
  destruct h as [i|k]; cbn; [|by left]. intros (t & Hi & Hp). revert Hi.
  rewrite lookup_insert. case_decide as Ei; [|by left; eauto].
  intros [= <-]. right. by subst.
Qed.

Lemma pinv_add used s now ms cb :
  pinv used s -> pinv used (add_task now ms None cb s).2.
Proof.
  intros I. apply (pinv_move used s _ (fun h => h) I); [|done|done].
  intros h p [Hh|[_ [=]]]%holder_add. done.
Qed.

Lemma pinv_add_promise used s now ms p cb :
  p ∉ used -> pinv used s ->
  pinv (p :: used) (addNonBlockingTimerWithPromise now ms p cb s).2.
Proof.
  intros Hp [He Hu Hd]. assert (proms s !! p = None) as Hnone.
  { destruct (proms s !! p) eqn:E; [|done]. exfalso. apply Hp, Hd. eauto. }
  unfold addNonBlockingTimerWithPromise. rewrite Hnone.
  set (s0 := mkState _ _ _ _ _ _). unfold addNonBlockingTimerWithPromise.
  assert (forall h, ~ holder s h p) as Hno.
  { intros h Hh. apply He in Hh. congruence. }
  split; cbn [proms add_task snd].
  - intros h q [Hh|[-> [= <-]]]%holder_add; cbn; [|by rewrite lookup_insert_eq].
    assert (holder s h q) as Hh' by (by destruct h).
    rewrite lookup_insert_ne; [by eapply He|]. intros <-. by eapply Hno.
  - intros h1 h2 q H1%holder_add H2%holder_add.
    assert (forall h, holder s0 h q -> holder s h q) as Hs0 by (by intros []).
    destruct H1 as [H1|[-> E1]], H2 as [H2|[-> E2]]; simplify_eq; [eauto| | |done];
      exfalso; eapply Hno; eauto.
  - intros q; cbn. rewrite lookup_insert. case_decide as E; [subst; set_solver|].
    intros Hq. apply list_elem_of_further. auto.
Qed.

(** Cancelling timer [i], or ending thread [k], satisfies the promise it holds. *)
Lemma pinv_satisfy used s s' h v p :
  pinv used s -> holder s h p ->
  proms s' = <[p := Some v]> (proms s) ->
  (forall h' q, holder s' h' q -> holder s h' q /\ h' <> h) ->
  pinv used s'.
Proof.
  intros [He Hu Hd] Hh Hm Hsub. split.
  - intros h' q Hh'. apply Hsub in Hh' as [Hh' Hne].
    rewrite Hm, lookup_insert_ne; [by eapply He|]. intros <-. by apply Hne, (Hu _ _ p).
  - intros h1 h2 q [? _]%Hsub [? _]%Hsub. eauto.
  - intros q. rewrite Hm, lookup_insert. case_decide as E; [subst|by auto].
    intros _. apply Hd. by rewrite (He _ _ Hh).
Qed.

Lemma holder_delete_active s i j rn tk nx ths m q :
  holder (mkState rn tk (delete i (active_tasks_ s)) nx ths m) (inl j) q ->
  holder s (inl j) q /\ j <> i.
Proof. cbn. intros (t & [Hne ?]%lookup_delete_Some & ?). split; [eauto|done]. Qed.

Lemma holder_delete s i rn tk nx m h q :
  holder (mkState rn tk (delete i (active_tasks_ s)) nx (callback_threads_ s) m) h q ->
  holder s h q /\ h <> inl i.
Proof.
  destruct h as [j|k]; [|by split].
  intros [? ?]%holder_delete_active. split; [done|congruence].
Qed.

Lemma pinv_cancel used s i :
  pinv used s -> exists b s', cancelTimer i s = (Some b, s') /\ pinv used s'.
Proof.
  intros I. unfold cancelTimer.
  destruct (active_tasks_ s !! i) as [t|] eqn:Ea; [|eauto]. cbn.
  destruct (promise t) as [p|] eqn:Ep; rewrite delete_insert_eq.
  - assert (holder s (inl i) p) as Hh by (cbn; eauto).
    rewrite set_promise_empty by (by eapply pi_empty).
    eexists _, _. split; [done|]. eapply (pinv_satisfy _ _ _ _ _ _ I Hh); [done|].
    apply holder_delete.
  - eexists _, _. split; [done|]. apply (pinv_move used s _ (fun h => h) I); [|done|done].
    by intros h q [? _]%holder_delete.
Qed.

Lemma cancel_promises_lookup (ts : list TimerTask) (m : promises) p :
  foldr cancel_promise m ts !! p =
    if decide (m !! p = Some None /\ p ∈ omap (promise (CB := CB)) ts)
    then Some (Some (PBool false)) else m !! p.
Proof.
  induction ts as [|t ts IH]; cbn.
  - rewrite decide_False; [done|set_solver].
  - unfold cancel_promise at 1. destruct (promise t) as [q|]; [|done].
    set (m' := foldr cancel_promise m ts) in *. unfold set_promise.
    destruct (decide (q = p)) as [->|Hne].
    + destruct (decide (m !! p = Some None)) as [Hm|Hm].
      * rewrite (decide_True (P := _ /\ p ∈ p :: _)) by set_solver.
        case_decide; rewrite IH; [by rewrite IH|]. rewrite Hm. apply lookup_insert_eq.
      * rewrite (decide_False (P := _ /\ p ∈ p :: _)) by tauto.
        rewrite decide_False in IH by tauto. rewrite IH.
        destruct (m !! p) as [[v|]|]; done.
    + assert (match m' !! q with
              | Some None => Some (<[q := Some (PBool false)]> m') | _ => None end = None \/
              match m' !! q with
              | Some None => Some (<[q := Some (PBool false)]> m') | _ => None end
              = Some (<[q := Some (PBool false)]> m')) as [->| ->]
        by (destruct (m' !! q) as [[]|]; auto);
        rewrite ?lookup_insert_ne by done; rewrite IH; repeat case_decide; set_solver.
Qed.

Lemma active_promise s p :
  p ∈ omap (promise (CB := CB)) (map_to_list (active_tasks_ s)).*2 ->
  exists i, holder s (inl i) p.
Proof.
  intros (t & Ht & Hp)%list_elem_of_omap.
  apply list_elem_of_fmap in Ht as ([i t'] & -> & Hin%elem_of_map_to_list). cbn.
  by exists i, t'.
Qed.

Lemma pinv_cancel_all used s : pinv used s -> pinv used (cancelAllTimers s).
Proof.
  intros I. apply (pinv_move used s _ (fun h => h) I); [|done|].
  - intros [i|k] p Hh; [destruct Hh as (t & Hi & _); cbn in Hi; by rewrite lookup_empty in Hi|].
    assert (holder s (inr k) p) as Hk by done. split; [done|]. cbn.
    rewrite cancel_promises_lookup, decide_False; [done|].
    intros [_ [i Hi]%active_promise]. by pose proof (pi_unique _ _ I _ _ _ Hi Hk).
  - intros p; cbn. rewrite cancel_promises_lookup. case_decide as E; [|done].
    destruct E as [-> _]. eauto.
Qed.

(** Firing moves the promise from the active timer to the new thread. *)
Lemma pinv_iter used s now : pinv used s -> pinv used (managerThread_iter now s).2.
Proof.
  intros I. unfold managerThread_iter. destruct (running_ s); [cbn|done].
  destruct (pq_top (tasks_ s)) as [top|]; [|done].
  destruct (wake_time top <=? now); [|done]. cbn.
  assert (forall s', active_tasks_ s' ⊆ active_tasks_ s ->
    callback_threads_ s' = callback_threads_ s -> proms s' = proms s -> pinv used s') as Hsub.
  { intros s' Ha Ht Hm. apply (pinv_move used s _ (fun h => h) I); [|done|by rewrite Hm].
    intros [i|k] p; cbn; rewrite ?Ht, Hm; [|by split].
    intros (t & Hi & Hp). split; [|done]. exists t. split; [|done]. by eapply lookup_weaken. }
  destruct (active_tasks_ s !! id top) as [task|] eqn:Ea; [|by apply Hsub].
  destruct (completed task); [by apply Hsub|].
  case_decide; [|apply Hsub; [apply delete_subseteq|done|done]]. cbn.
  set (n := length (callback_threads_ s)).
  apply (pinv_move used s _
    (fun h => if decide (h = inr n) then inl (id top) else h) I); [| |done].
  - intros h p Hh. split; [|done]. case_decide as En; [subst h|].
    + destruct Hh as (t & Ht & Hp). cbn in Ht. unfold n in Ht.
      rewrite list_lookup_middle in Ht by done. simplify_eq. cbn; eauto.
    + destruct h as [i|k].
      * by apply holder_delete_active in Hh as [? _].
      * destruct Hh as (t & Ht & Hp). cbn in Ht. exists t. split; [|done].
        apply lookup_snoc_Some in Ht as [[_ ?]|[-> _]]; [done|]. by destruct En.
  - intros h1 h2 p H1 H2. repeat case_decide; try congruence; intros E; subst; exfalso;
      [apply holder_delete_active in H2 as [_ []]|apply holder_delete_active in H1 as [_ []]];
      done.
Qed.

Lemma pinv_run used s k throws :
  pinv used s -> exists s', run_callback k throws s = Some s' /\ pinv used s'.
Proof.
  intros I. unfold run_callback.
  destruct (callback_threads_ s !! k) as [[task []]|] eqn:Ek; eauto.
  assert (forall h q m, holder (mkState (running_ s) (tasks_ s) (active_tasks_ s) (next_id_ s)
      (<[k := mkThread task true]> (callback_threads_ s)) m) h q ->
      holder s h q /\ h <> inr k) as Hsub.
  { intros [i|j] q m; cbn; [by split|]. intros (t & Ht & Hp).
    destruct (decide (k = j)) as [->|Hne].
    - rewrite list_lookup_insert_eq in Ht by (by eapply lookup_lt_Some). by simplify_eq.
    - rewrite list_lookup_insert_ne in Ht by done. split; [eauto|congruence]. }
  unfold callback_body. destruct (promise task) as [p|] eqn:Ep.
  - assert (holder s (inr k) p) as Hh by (cbn; eauto).
    rewrite !set_promise_empty by (by eapply pi_empty).
    destruct throws; eexists; (split; [done|]);
      (eapply (pinv_satisfy _ _ _ _ _ _ I Hh); [done|]; intros h q; apply Hsub).
  - eexists; split; [done|]. apply (pinv_move used s _ (fun h => h) I); [|done|done].
    by intros h q [? _]%Hsub.
Qed.

Lemma pinv_exec used o s :
  pinv used s -> (forall p, op_promise o = Some p -> p ∉ used) ->
  exists s', exec o s = Some s' /\ pinv (option_list (op_promise o) ++ used) s'.
Proof.
  intros I Hf. destruct o as [now ms cb|now ms p cb|i| |now|k throws]; cbn in *.
  - eexists; split; [done|]. by apply pinv_add.
  - eexists; split; [done|]. apply pinv_add_promise; auto.
  - destruct (pinv_cancel used s i I) as (b & s' & -> & ?). eauto.
  - eexists; split; [done|]. by apply pinv_cancel_all.
  - eexists; split; [done|]. by apply pinv_iter.
  - by apply pinv_run.
Qed.

Lemma pinv_exec_all ops used s :
  pinv used s -> NoDup (omap op_promise ops ++ used) ->
  exists s' used', exec_all ops s = Some s' /\ pinv used' s'.
Proof.
  revert used s. induction ops as [|o ops IH]; intros used s I ND; cbn in *; [eauto|].
  destruct (pinv_exec used o s I) as (s1 & E & I1).
  { intros p Hp. rewrite Hp in ND. apply NoDup_cons in ND as [Hni _]. set_solver. }
  rewrite E; cbn. apply (IH _ _ I1). destruct (op_promise o) as [p|]; cbn in *; [|done].
  by rewrite <- Permutation_middle.
Qed.

Lemma pinv_init : pinv [] (start (@ctor CB Q _)).
Proof.
  split; cbn; [intros [i|k] p (t & Ht & _)|intros [i|k] ? p (t & Ht & _)|];
    try (cbn in Ht; by rewrite ?lookup_empty, ?lookup_nil in Ht).
  intros p [? E]. by rewrite lookup_empty in E.
Qed.

(** C40: when every [addNonBlockingTimerWithPromise] comes with a promise of its
    own, no interleaving of additions, cancellations, [cancelAllTimers], manager
    iterations and callback threads (their callbacks throwing or not) satisfies a
    promise twice: no [future_error] leaves [cancelTimer], no callback thread
    terminates the program; and the promise of a timer that is still active, or
    of a callback that has not ended, is still empty and has that one owner. *)
Theorem promises_satisfied_once (ops : list op) :
  NoDup (omap op_promise ops) ->
  exists s, exec_all ops (start ctor) = Some s /\
    (forall h p, holder s h p -> proms s !! p = Some None) /\
    (forall h1 h2 p, holder s h1 p -> holder s h2 p -> h1 = h2).
Proof.
  intros ND. rewrite <- (app_nil_r (omap _ _)) in ND.
  destruct (pinv_exec_all _ _ _ pinv_init ND) as (s & u & E & [? ? _]). eauto.
Qed.

(** in such a run, cancelling an active timer makes its promise [false] and
    the timer inactive; ending the callback thread that holds it makes it [true],
    or the exception the callback left with. *)
Theorem promise_outcome (ops : list op) (s : st) (p : nat) :
  NoDup (omap op_promise ops) -> exec_all ops (start ctor) = Some s ->
  (forall i, holder s (inl i) p -> exists s',
     cancelTimer i s = (Some true, s') /\ proms s' !! p = Some (Some (PBool false)) /\
     active_tasks_ s' = delete i (active_tasks_ s)) /\
  (forall k throws, holder s (inr k) p -> exists s',
     run_callback k throws s = Some s' /\
     proms s' !! p = Some (Some (if throws then PException else PBool true)) /\
     active_tasks_ s' = active_tasks_ s).
Proof.
  intros ND E. rewrite <- (app_nil_r (omap _ _)) in ND.
  destruct (pinv_exec_all _ _ _ pinv_init ND) as (s0 & u & E' & I). simplify_eq.
  split.
  - intros i Hh. pose proof (pi_empty _ _ I _ _ Hh) as He. destruct Hh as (t & Ha & Hp).
    unfold cancelTimer. rewrite Ha, Hp; cbn. rewrite set_promise_empty by done.
    eexists. split; [done|]. cbn. by rewrite lookup_insert_eq, delete_insert_eq.
  - intros k throws Hh. pose proof (pi_empty _ _ I _ _ Hh) as He.
    destruct Hh as (t & Ht & Hp). unfold run_callback, callback_body.
    rewrite Ht, Hp, !set_promise_empty by done.
    destruct throws; eexists; (split; [done|]); cbn; by rewrite lookup_insert_eq.
Qed.
End Promises.

Section PromiseExample.
Let Q := list_queue (@task_less nat).

Definition promise_ops : list (@op nat) :=
  [OAddPromise 0 5 7 70%nat; OAddPromise 0 6 8 71%nat; OAdd 0 1 72%nat;
   OIter 5000000; OIter 5000000].

Definition promise_state : @state nat Q :=
  default (start ctor) (exec_all promise_ops (start ctor)).

Lemma promises_satisfied_once_witness :
  exists s : @state nat Q, exec_all promise_ops (start ctor) = Some s /\
    (forall h p, holder s h p -> proms s !! p = Some None) /\
    (forall h1 h2 p, holder s h1 p -> holder s h2 p -> h1 = h2).
Proof.
  apply (promises_satisfied_once promise_ops).
  apply (bool_decide_unpack _). vm_compute. exact I.
Defined.

(** Timer 2 is still active and holds promise 8; thread 1 holds promise 7. *)
Lemma promise_outcome_witness :
  (exists s', cancelTimer 2 promise_state = (Some true, s') /\
     proms s' !! 8%nat = Some (Some (PBool false)) /\
     active_tasks_ s' = delete 2 (active_tasks_ promise_state)) /\
  (exists s', run_callback 1 false promise_state = Some s' /\
     proms s' !! 7%nat = Some (Some (PBool true)) /\
     active_tasks_ s' = active_tasks_ promise_state).
Proof.
  assert (NoDup (omap op_promise promise_ops)) as ND
    by (apply (bool_decide_unpack _); vm_compute; exact I).
  assert (exec_all promise_ops (start ctor) = Some promise_state) as E
    by (vm_compute; reflexivity).
  split.
  - apply (promise_outcome promise_ops promise_state 8 ND E).
    eexists; split; vm_compute; reflexivity.
  - destruct (promise_outcome promise_ops promise_state 7 ND E) as [_ H].
    apply (H 1%nat false). eexists; split; vm_compute; reflexivity.
Defined.
End PromiseExample.

(** ** [addBlockingTimer]

    The callback captures the promise by value and [timer_expired], a local of the
    waiting call, by reference; [frames] are the calls that have not returned. *)
Section Blocking.
Inductive bcallback := User (u : nat) | Unblock (p : nat).

Context {Q : Type} {PQ : PriorityQueue (@TimerTask bcallback) task_less Q}.

Record frame := mkFrame { fr_task_id : Z; fr_give_up : Z; timer_expired : bool }.

Record bstate := mkB { svc : @state bcallback Q; frames : gmap nat frame }.

(** [BBegin now wait_now ms p]: the call up to [wait_for], which starts at
    [wait_now] and gives up after [duration + 100ms]. [BTimeout], [BReady]: the
    two ways the call goes on to its [return]. *)
Inductive bop :=
| BBegin (now wait_now ms : Z) (p : nat)
| BTimeout (now : Z) (p : nat)
| BReady (p : nat)
| BCancel (i : Z)
| BIter (now : Z)
| BRun (k : nat).

(** [BUndef]: the callback writes to a local of a call that has returned.
    [BBlocked]: the step cannot be taken in this state. *)
Inductive bresult := BOk (s : bstate) (ret : option bool) | BUndef | BBlocked.

Definition set_proms (m : promises) (s : @state bcallback Q) : @state bcallback Q :=
  mkState (running_ s) (tasks_ s) (active_tasks_ s) (next_id_ s) (callback_threads_ s) m.

Definition addBlockingTimer_begin (now wait_now ms : Z) (p : nat) (s : bstate) : bresult :=
  match proms (svc s) !! p with
  | Some _ => BBlocked
  | None =>
      let '(i, d) :=
        addNonBlockingTimer now ms (Unblock p)
          (set_proms (<[p := None]> (proms (svc s))) (svc s)) in
      if i <? 0 then BOk (mkB d (frames s)) (Some false)
      else BOk (mkB d (<[p := mkFrame i (wait_now + ns_of_ms (ms + 100)) false]> (frames s))) None
  end.

Definition addBlockingTimer_end (o : bop) (s : bstate) : bresult :=
  match o with
  | BTimeout now p =>
      match frames s !! p, proms (svc s) !! p with
      | Some f, Some None =>
          if fr_give_up f <=? now
          then BOk (mkB (cancelTimer (fr_task_id f) (svc s)).2 (delete p (frames s))) (Some false)
          else BBlocked
      | _, _ => BBlocked
      end
  | BReady p =>
      match frames s !! p, proms (svc s) !! p with
      | Some _, Some (Some (PBool b)) => BOk (mkB (svc s) (delete p (frames s))) (Some b)
      | _, _ => BBlocked
      end
  | _ => BBlocked
  end.

(** A callback thread runs [timer_expired = true; promise->set_value(true);]. *)
Definition run_blocking_callback (k : nat) (s : bstate) : bresult :=
  match callback_threads_ (svc s) !! k with
  | Some (mkThread task false) =>
      match callback task with
      | Unblock p =>
          match frames s !! p with
          | None => BUndef
          | Some f =>
              match set_promise p (PBool true) (proms (svc s)) with
              | Some m =>
                  match run_callback k false (set_proms m (svc s)) with
                  | Some d => BOk (mkB d (<[p := mkFrame (fr_task_id f) (fr_give_up f) true]>
                                           (frames s))) None
                  | None => BUndef
                  end
              | None => BUndef
              end
          end
      | User _ =>
          match run_callback k false (svc s) with
          | Some d => BOk (mkB d (frames s)) None
          | None => BUndef
          end
      end
  | _ => BBlocked
  end.

Definition bexec (o : bop) (s : bstate) : bresult :=
  match o with
  | BBegin now wait_now ms p => addBlockingTimer_begin now wait_now ms p s
  | BTimeout _ _ | BReady _ => addBlockingTimer_end o s
  | BCancel i => BOk (mkB (cancelTimer i (svc s)).2 (frames s)) None
  | BIter now => BOk (mkB (managerThread_iter now (svc s)).2 (frames s)) None
  | BRun k => run_blocking_callback k s
  end.

(** The values returned along a run, and how it ends. *)
Fixpoint bexec_all (ops : list bop) (s : bstate) : list bool * bresult :=
  match ops with
  | [] => ([], BOk s None)
  | o :: ops' =>
      match bexec o s with
      | BOk s' ret => let '(l, r) := bexec_all ops' s' in (option_list ret ++ l, r)
      | r => ([], r)
      end
  end.
End Blocking.
Arguments bstate Q : clear implicits.

Definition blocking_init : bstate (list_queue (@task_less bcallback)) := mkB (start ctor) ∅.

Definition state_of (r : bresult (Q := list_queue (@task_less bcallback)))
  : bstate (list_queue (@task_less bcallback)) :=
  match r with BOk s _ => s | _ => blocking_init end.

(** The normal run: the timer of 1000 ms fires at its deadline, the call returns true. *)
Example blocking_returns_true :
  (bexec_all [BBegin 0 0 1000 1; BIter 1000000000; BRun 0; BReady 1] blocking_init).1 = [true].
Proof. vm_compute. reflexivity. Qed.

(** A [cancelTimer] of the blocking timer removes it without waking the waiter: the
    call goes on only when its own wait gives up, 100 ms after the deadline. *)
Example blocking_cancel_not_woken :
  (bexec_all [BBegin 0 0 1000 1; BCancel 1; BReady 1] blocking_init).2 = BBlocked /\
  (bexec_all [BBegin 0 0 1000 1; BCancel 1; BTimeout 1099999999 1] blocking_init).2 = BBlocked /\
  (bexec_all [BBegin 0 0 1000 1; BCancel 1; BTimeout 1100000000 1] blocking_init).1 = [false].
Proof. vm_compute. auto. Qed.

(** [addBlockingTimer] can leave a dangling reference behind: the manager hands
    the expired timer to a callback thread at its deadline, that thread is delayed
    by more than 100 ms, the waiting call gives up and returns false (its
    [cancelTimer] finds nothing to cancel), and the callback then writes to
    [timer_expired] of the frame that is gone. *)
Theorem blocking_timer_dangling_write :
  exists s1 s2 : bstate (list_queue (@task_less bcallback)),
    bexec_all [BBegin 0 0 1000 1; BIter 1000000000] blocking_init = ([], BOk s1 None) /\
    bexec (BTimeout 1100000000 1) s1 = BOk s2 (Some false) /\
    cancelTimer 1 (svc s1) = (Some false, svc s1) /\
    bexec (BRun 0) s2 = BUndef.
Proof.
  exists (state_of (bexec_all [BBegin 0 0 1000 1; BIter 1000000000] blocking_init).2),
    (state_of (bexec_all [BBegin 0 0 1000 1; BIter 1000000000; BTimeout 1100000000 1]
                 blocking_init).2).
  split_and!; vm_compute; reflexivity.
Qed.

End DualPromises.
