(* ===== verification/TwoModesTimer.v ===== *)
(** The first version of [DualModeTimer], [src/other/timer/twomodestimer.cpp] (the
    same class is in [src/other/timer/dualTimer/originalTimer.cc]): identifiers
    from a plain [int] counter, callbacks in detached threads, and a blocking timer
    that waits on a condition variable of its own until its callback has run. *)
From S2P Require Import Prelude PQueue TimerSpec TimerCore.

Module TwoModesTimer.

Inductive TimerMode := BLOCKING | NON_BLOCKING.

#[export] Instance TimerMode_eq_dec : EqDecision TimerMode.
Proof. solve_decision. Defined.

Section Model.
Context {CB : Type}.

Record TimerTask := mkTask {
  id : Z;
  mode : TimerMode;
  duration : Z;
  callback : CB;
  start_time : Z;
  completed : bool;
}.

Definition wake_time (t : TimerTask) : Z := start_time t + ns_of_ms (duration t).

(** [TimerTask::operator<] *)
Definition task_less (t other : TimerTask) : bool := later wake_time t other.

#[export] Instance task_less_swo : StrictWeakOrder task_less := later_swo wake_time.

Context {Q : Type} {PQ : PriorityQueue TimerTask task_less Q}.

(** [detached]: the callbacks handed to detached threads, and whether they have run. *)
Record state := mkState {
  running_ : bool;
  tasks_ : Q;
  active_tasks_ : gmap Z TimerTask;
  next_id_ : Z;
  detached : list (CB * bool);
}.

Definition ctor : state := mkState false pq_empty ∅ 0 [].

Definition start (s : state) : state :=
  mkState true (tasks_ s) (active_tasks_ s) (next_id_ s) (detached s).

(** The identifier returned is the counter before [next_id_++], whose overflow is
    undefined ([None]). *)
Definition addNonBlockingTimer (now ms : Z) (cb : CB) (s : state) : option (Z * state) :=
  let task := mkTask (next_id_ s) NON_BLOCKING ms cb now false in
  next ← int_add (next_id_ s) 1;
  Some (next_id_ s,
        mkState (running_ s) (pq_push task (tasks_ s))
          (<[next_id_ s := task]> (active_tasks_ s)) next (detached s)).

(** [it->second->completed = true] is dead: the entry is erased at once. *)
Definition cancelTimer (timer_id : Z) (s : state) : bool * state :=
  match active_tasks_ s !! timer_id with
  | Some _ =>
      (true, mkState (running_ s) (tasks_ s) (delete timer_id (active_tasks_ s))
               (next_id_ s) (detached s))
  | None => (false, s)
  end.

(** One iteration of the loop of [managerThread]; here it is the queue's copy of
    the task whose mode and callback are used. *)
Definition managerThread_iter (now : Z) (s : state) : option TimerTask * state :=
  if negb (running_ s) then (None, s)
  else match pq_top (tasks_ s) with
  | None => (None, s)
  | Some next_task =>
      if wake_time next_task <=? now then
        let s1 := mkState (running_ s) (pq_pop (tasks_ s)) (active_tasks_ s)
                    (next_id_ s) (detached s) in
        match active_tasks_ s1 !! id next_task with
        | Some task =>
            if completed task then (None, s1)
            else
              let act := delete (id next_task) (active_tasks_ s1) in
              if decide (mode next_task = NON_BLOCKING) then
                (Some next_task,
                 mkState (running_ s1) (tasks_ s1) act (next_id_ s1)
                   (detached s1 ++ [(callback next_task, false)]))
              else (None, mkState (running_ s1) (tasks_ s1) act (next_id_ s1) (detached s1))
        | None => (None, s1)
        end
      else (None, s)
  end.

(** ** The invariant *)

Definition idf (k : nat) : Z := Z.of_nat k.

#[export] Instance two_core : CoreLaws id wake_time eq task_less idf.
Proof. split; unfold idf; [done|by intros ?? ->..|done|lia]. Qed.

Record inv (n : nat) (s : state) : Prop := {
  inv_next : next_id_ s = Z.of_nat n;
  inv_core : core_inv id eq idf n (tasks_ s) (active_tasks_ s);
  inv_live : forall i t, active_tasks_ s !! i = Some t ->
    completed t = false /\ mode t = NON_BLOCKING;
}.

Definition pending_of (s : state) : gmap Z (entry CB) :=
  (fun t => Entry (wake_time t) (callback t)) <$> active_tasks_ s.

Lemma two_pending_lookup s i e :
  pending_of s !! i = Some e <->
  exists t, active_tasks_ s !! i = Some t /\ e = Entry (wake_time t) (callback t).
Proof. unfold pending_of. rewrite lookup_fmap_Some. naive_solver. Qed.

Lemma two_inv_sub n s b q act d :
  inv n s -> core_inv id eq idf n q act -> act ⊆ active_tasks_ s ->
  inv n (mkState b q act (next_id_ s) d).
Proof.
  intros I Hc Hsub. split; cbn; [apply I|done|].
  intros i t Hi. eapply (inv_live _ _ I), lookup_weaken; eauto.
Qed.

Lemma two_add_ok n now ms cb s :
  (n < max_ids)%nat -> inv n s ->
  exists s', addNonBlockingTimer now ms cb s = Some (idf n, s') /\ inv (S n) s' /\
    running_ s' = running_ s /\ detached s' = detached s /\
    active_tasks_ s' = <[idf n := mkTask (idf n) NON_BLOCKING ms cb now false]> (active_tasks_ s).
Proof.
  intros Hn%max_ids_lt I. unfold addNonBlockingTimer, int_add. rewrite (inv_next _ _ I).
  rewrite chk_int_ok by (unfold INT_MIN; lia). cbn. eexists. split_and!; [done| |done..].
  split; cbn.
  - lia.
  - eapply core_push; [tc_solve|apply I|done].
  - intros i t. rewrite lookup_insert. case_decide; [by intros [= <-]|]. apply (inv_live _ _ I).
Qed.

Lemma two_cancel_ok n i s b s' :
  inv n s -> cancelTimer i s = (b, s') ->
  inv n s' /\ running_ s' = running_ s /\ detached s' = detached s /\
  active_tasks_ s' = delete i (active_tasks_ s) /\
  b = bool_decide (is_Some (active_tasks_ s !! i)).
Proof.
  intros I. unfold cancelTimer. destruct (active_tasks_ s !! i) as [t|] eqn:E; intros [= <- <-].
  - split; [|done]. apply two_inv_sub; [done| |apply delete_subseteq].
    eapply core_delete, I.
  - split_and!; [done|done|done|by rewrite delete_id|done].
Qed.

Lemma two_iter_ok n now s r s' :
  running_ s = true -> inv n s -> managerThread_iter now s = (r, s') ->
  inv n s' /\ running_ s' = true /\
  match r with
  | Some t =>
      pq_top (tasks_ s) = Some t /\ active_tasks_ s !! id t = Some t /\
      wake_time t <= now /\ active_tasks_ s' = delete (id t) (active_tasks_ s)
  | None => active_tasks_ s' = active_tasks_ s
  end.
Proof.
  intros Hrun I. unfold managerThread_iter. rewrite Hrun; cbn.
  destruct (pq_top (tasks_ s)) as [t|] eqn:Ht; [|intros [= <- <-]; done].
  destruct (wake_time t <=? now) eqn:Hw; zbool; [|intros [= <- <-]; done].
  destruct (active_tasks_ s !! id t) as [task|] eqn:Ha.
  - assert (task = t) as -> by (eapply core_top_active; [tc_solve|apply I|done..]).
    destruct (inv_live _ _ I _ _ Ha) as (-> & ->); cbn.
    intros [= <- <-]; cbn. split; [|done].
    apply two_inv_sub; [done| |apply delete_subseteq]. eapply core_pop; [tc_solve|apply I|done].
  - intros [= <- <-]; cbn. split; [|done]. apply two_inv_sub; [done| |done].
    eapply core_pop_stale; [tc_solve|apply I|done..].
Qed.

(** ** As a timer service *)

Definition service_add (now ms : Z) (cb : CB) (s : state) : option Z * state :=
  match addNonBlockingTimer now ms cb s with
  | Some (i, s') => (Some i, s')
  | None => (None, s)
  end.

Definition service_poll (now : Z) (s : state) : option (Z * CB) * state :=
  let '(r, s') := managerThread_iter now s in
  ((fun t => (id t, callback t)) <$> r, s').

#[local] Arguments service_add : simpl never.
#[local] Arguments service_poll : simpl never.
#[local] Arguments cancelTimer : simpl never.

#[export] Instance two_service : TimerService state CB := {
  ts_init := start ctor;
  ts_add := service_add;
  ts_cancel := cancelTimer;
  ts_poll := service_poll;
  ts_idf := idf;
  ts_inv n s := running_ s = true /\ inv n s;
  ts_pending := pending_of;
  ts_queued s := length (pq_elems (tasks_ s));
}.

Lemma two_due_pops n now s r s' :
  running_ s = true -> inv n s -> managerThread_iter now s = (r, s') ->
  due now (pending_of s) ->
  (length (pq_elems (tasks_ s')) < length (pq_elems (tasks_ s)))%nat.
Proof.
  intros Hrun I Hit (i & e & Hi & Hle).
  apply two_pending_lookup in Hi as (t & Ha & ->). cbn in Hle.
  destruct (core_due_top id wake_time eq idf _ _ _ _ _ now (inv_core _ _ I) Ha Hle)
    as (top & Ht & Hw).
  rewrite (pq_pop_length _ _ Ht).
  unfold managerThread_iter in Hit. rewrite Hrun, Ht in Hit; cbn in Hit.
  rewrite (proj2 (Z.leb_le _ _) Hw) in Hit. split_guards; lia.
Qed.

#[export] Instance two_service_laws : TimerServiceLaws state CB.
Proof.
  split; cbn.
  - unfold idf. lia.
  - split; [|by unfold pending_of; cbn; rewrite fmap_empty].
    split; [done|]. split; cbn; [done|by eapply core_empty|set_solver].
  - intros n now ms cb s r s' Hn (Hrun & I). unfold service_add.
    destruct (two_add_ok n now ms cb s Hn I) as (s1 & -> & I' & Hr & _ & Hact).
    intros [= <- <-]. split_and!; [done|congruence|done| |].
    + unfold pending_of. rewrite lookup_fmap. by erewrite core_fresh by (tc_solve || apply I).
    + unfold pending_of. by rewrite Hact, fmap_insert.
  - intros n i s b s' (Hrun & I) E.
    destruct (two_cancel_ok _ _ _ _ _ I E) as (I' & Hr & _ & Hact & ->).
    split_and!; [congruence|done| | |]; cbn.
    + unfold pending_of. by rewrite Hact, fmap_delete.
    + intros [e Hi]. apply two_pending_lookup in Hi as (t & Ha & _).
      by apply bool_decide_true.
    + intros [t Ha]%bool_decide_eq_true. eapply core_act_issued; [tc_solve|apply I|done].
  - intros n now s r s' (Hrun & I). unfold service_poll.
    destruct (managerThread_iter now s) as [o s1] eqn:E. intros [= <- <-].
    pose proof (two_iter_ok _ _ _ _ _ Hrun I E) as (I' & Hr' & Ho).
    destruct o as [t|]; cbn.
    + destruct Ho as (Ht & Ha & Hw & Hact). split_and!; [done|done|].
      exists (Entry (wake_time t) (callback t)). cbn. split_and!; [|done|done| |].
      * apply two_pending_lookup. eauto.
      * intros i e Hi. apply two_pending_lookup in Hi as (t' & Ha' & ->); cbn.
        eapply core_top_min; [tc_solve|apply I|done..].
      * unfold pending_of. by rewrite Hact, fmap_delete.
    + split_and!; [done|done|by unfold pending_of; rewrite Ho].
  - intros n now s r s' (Hrun & I). unfold service_poll.
    destruct (managerThread_iter now s) as [o s1] eqn:E. intros [= <- <-].
    by apply (two_due_pops _ _ _ _ _ Hrun I E).
Qed.

Definition two_run (ops : list (tm_op CB)) : state * list (event CB) :=
  run service_exec ops (start ctor).

(** this manager, too, fires a timer at most once, after it was added, not
    before its deadline and never after a successful [cancelTimer]; and draining it
    at any clock value fires exactly the due timers, earliest deadline first. *)
Theorem two_modes_correct (ops : list (tm_op CB)) (now : Z) :
  Z.of_nat (length ops) <= INT_MAX ->
  fire_safe (two_run ops).2 /\
  exists l,
    (drain (length (pq_elems (tasks_ (two_run ops).1))) now (two_run ops).1).2
      = fired_of <$> l /\
    drained now (pending_of (two_run ops).1)
      (pending_of (drain (length (pq_elems (tasks_ (two_run ops).1))) now (two_run ops).1).1) l.
Proof.
  intros H%within_max_ids. split; [exact (service_fire_safe (St := state) ops H)|].
  destruct (service_refines_bounded (St := state) ops H) as (n & _ & I & _).
  destruct (drain_spec n _ now _ I (le_n _)) as (l & ? & _ & ?). eauto.
Qed.
End Model.

(** ** The service at work *)
Section Example.
Let Q := list_queue (@task_less nat).

Definition example_ops : list (tm_op nat) :=
  [Add 0 5 70%nat; Add 0 3 71%nat; Add 0 4 72%nat; Cancel 1; Poll 1000000].

Lemma two_modes_correct_witness :
  fire_safe (two_run (Q := Q) example_ops).2 /\
  exists l,
    (drain (length (pq_elems (tasks_ (two_run (Q := Q) example_ops).1))) 9000000
       (two_run (Q := Q) example_ops).1).2 = fired_of <$> l /\
    drained 9000000 (pending_of (two_run (Q := Q) example_ops).1)
      (pending_of (drain (length (pq_elems (tasks_ (two_run (Q := Q) example_ops).1))) 9000000
         (two_run (Q := Q) example_ops).1).1) l.
Proof. apply (two_modes_correct example_ops 9000000). vm_compute. discriminate. Defined.

Example two_drain_order :
  (drain 3 9000000 (two_run (Q := Q) example_ops).1).2 = [(2, 72%nat); (0, 70%nat)].
Proof. vm_compute. reflexivity. Qed.
End Example.

(** ** [addBlockingTimer]

    The callback sets [finished], a local of the call, and notifies its condition
    variable; the call returns when [finished] is true. *)
Section Blocking.
Inductive bcallback := User (u : nat) | Notify (p : nat).

#[export] Instance bcallback_eq_dec : EqDecision bcallback.
Proof. solve_decision. Defined.

Context {Q : Type} {PQ : PriorityQueue (@TimerTask bcallback) task_less Q}.

Record bstate := mkB { svc : @state bcallback Q; finished : gmap nat bool }.

(** [addBlockingTimer] up to its wait; [p] names the call. *)
Definition addBlockingTimer_begin (now ms : Z) (p : nat) (s : bstate) : option (Z * bstate) :=
  '(i, d) ← addNonBlockingTimer now ms (Notify p) (svc s);
  Some (i, mkB d (<[p := false]> (finished s))).

(** [local_cv.wait(lock, finished)] lets the call return. *)
Definition addBlockingTimer_returns (p : nat) (s : bstate) : bool :=
  default false (finished s !! p).

(** Detached thread [k] runs its callback. *)
Definition run_detached (k : nat) (s : bstate) : bstate :=
  match detached (svc s) !! k with
  | Some (cb, false) =>
      let d := svc s in
      mkB (mkState (running_ d) (tasks_ d) (active_tasks_ d) (next_id_ d)
             (<[k := (cb, true)]> (detached d)))
        (match cb with Notify p => <[p := true]> (finished s) | User _ => finished s end)
  | _ => s
  end.

Inductive bop :=
| BAdd (now ms : Z) (u : nat)
| BBegin (now ms : Z) (p : nat)
| BCancel (i : Z)
| BIter (now : Z)
| BRun (k : nat).

(** Calls have names of their own: beginning a call twice does nothing here, nor
    does an addition whose identifier would overflow. *)
Definition bexec (o : bop) (s : bstate) : bstate :=
  match o with
  | BAdd now ms u =>
      match addNonBlockingTimer now ms (User u) (svc s) with
      | Some (_, d) => mkB d (finished s) | None => s
      end
  | BBegin now ms p =>
      match finished s !! p with
      | Some _ => s
      | None => match addBlockingTimer_begin now ms p s with Some (_, s') => s' | None => s end
      end
  | BCancel i => mkB (cancelTimer i (svc s)).2 (finished s)
  | BIter now => mkB (managerThread_iter now (svc s)).2 (finished s)
  | BRun k => run_detached k s
  end.

Definition bexec_all (ops : list bop) (s : bstate) : bstate := foldl (fun s o => bexec o s) s ops.

(** Nobody is left who could end call [p]. *)
Record orphan (p : nat) (s : bstate) : Prop := {
  or_wait : finished s !! p = Some false;
  or_queue : forall t, t ∈ pq_elems (tasks_ (svc s)) ->
    is_Some (active_tasks_ (svc s) !! id t) -> callback t <> Notify p;
  or_threads : forall cb, (cb, false) ∈ detached (svc s) -> cb <> Notify p;
}.

(** Calls that have not begun: nothing in the manager refers to them. *)
Record unborn (p : nat) (s : bstate) : Prop := {
  un_none : finished s !! p = None;
  un_queue : forall t, t ∈ pq_elems (tasks_ (svc s)) -> callback t <> Notify p;
  un_threads : forall cb, (cb, false) ∈ detached (svc s) -> cb <> Notify p;
}.

(** [bok]: the manager's invariant, with room for one more identifier. *)
Record bok (n : nat) (s : bstate) : Prop := {
  bok_inv : inv n (svc s);
  bok_running : running_ (svc s) = true;
  bok_known : forall p, finished s !! p = None -> unborn p s;
}.

Lemma run_detached_threads k s cb :
  (cb, false) ∈ detached (svc (run_detached k s)) -> (cb, false) ∈ detached (svc s).
Proof.
  unfold run_detached. destruct (detached (svc s) !! k) as [[c []]|] eqn:E; cbn; try done.
  intros (j & Hj)%list_elem_of_lookup. apply list_elem_of_lookup.
  destruct (decide (j = k)) as [->|].
  - rewrite list_lookup_insert_eq in Hj by (by eapply lookup_lt_Some). simplify_eq.
  - rewrite list_lookup_insert_ne in Hj by done. eauto.
Qed.

Lemma run_detached_finished k p s :
  (forall cb, (cb, false) ∈ detached (svc s) -> cb <> Notify p) ->
  finished (run_detached k s) !! p = finished s !! p.
Proof.
  intros H. unfold run_detached.
  destruct (detached (svc s) !! k) as [[[u|q] []]|] eqn:E; cbn; try done.
  rewrite lookup_insert_ne; [done|]. intros ->.
  apply (H (Notify p)); [by eapply list_elem_of_lookup_2|done].
Qed.

(** What a manager iteration does to the queue and the threads. *)
Lemma iter_shape n now (d : @state bcallback Q) :
  running_ d = true -> inv n d ->
  (forall t, t ∈ pq_elems (tasks_ (managerThread_iter now d).2) -> t ∈ pq_elems (tasks_ d)) /\
  active_tasks_ (managerThread_iter now d).2 ⊆ active_tasks_ d /\
  (forall cb, (cb, false) ∈ detached (managerThread_iter now d).2 ->
     (cb, false) ∈ detached d \/
     exists t, t ∈ pq_elems (tasks_ d) /\ is_Some (active_tasks_ d !! id t) /\ callback t = cb).
Proof.
  intros Hrun I. unfold managerThread_iter. rewrite Hrun; cbn.
  destruct (pq_top (tasks_ d)) as [t|] eqn:Ht; [|by auto].
  destruct (wake_time t <=? now); [|by auto].
  assert (forall t', t' ∈ pq_elems (pq_pop (tasks_ d)) -> t' ∈ pq_elems (tasks_ d)) as Hp
    by (intros t'; by eapply pq_elem_pop).
  destruct (active_tasks_ d !! id t) as [task|] eqn:Ha; cbn; [|by auto].
  destruct (inv_live _ _ I _ _ Ha) as [-> _].
  case_decide; cbn; (split; [done|]); (split; [apply delete_subseteq|]); [|by auto].
  intros cb [?|E%list_elem_of_singleton]%elem_of_app; [by left|right].
  simplify_eq. exists t. split; [by eapply pq_top_elem|]. by rewrite Ha.
Qed.

Lemma orphan_exec o n s p :
  (n < max_ids)%nat -> bok n s -> orphan p s ->
  orphan p (bexec o s).
Proof.
  intros Hn [I Hrun Hk] [Hw Hq Ht].
  assert (forall now ms cb d i f, cb <> Notify p -> addNonBlockingTimer now ms cb (svc s) = Some (i, d) ->
    f !! p = Some false -> orphan p (mkB d f)) as Hadd.
  { intros now ms cb d i f Hcb E Hf. destruct (two_add_ok n now ms cb (svc s) Hn I) as
      (d' & E' & I' & _ & Hd & Hact). simplify_eq.
    split; cbn; [done| |by rewrite Hd].
    unfold addNonBlockingTimer, int_add in E. apply bind_Some in E as (nx & _ & E).
    simplify_eq; cbn. intros t [->|Hin]%pq_elem_push Hs; cbn; [done|].
    apply (Hq _ Hin). rewrite lookup_insert in Hs. case_decide as Ei; [|done].
    exfalso. destruct (ci_ids _ _ _ _ _ _ (inv_core _ _ I) _ Hin) as (k & ? & Hid).
    rewrite (inv_next _ _ I), Hid in Ei. unfold idf in Ei. lia. }
  destruct o as [now ms u|now ms q|i|now|k]; cbn.
  - destruct (addNonBlockingTimer now ms (User u) (svc s)) as [[i d]|] eqn:E; [|by split].
    eapply Hadd; [|exact E|done]. done.
  - destruct (finished s !! q) as [b|] eqn:Eq; [by split|].
    unfold addBlockingTimer_begin.
    destruct (addNonBlockingTimer now ms (Notify q) (svc s)) as [[i d]|] eqn:E; cbn; [|by split].
    assert (q <> p) by congruence.
    eapply Hadd; [|exact E|by rewrite lookup_insert_ne]. congruence.
  - destruct (cancelTimer i (svc s)) as [b d] eqn:E; cbn.
    destruct (two_cancel_ok _ _ _ _ _ I E) as (_ & _ & Hd & Hact & _).
    unfold cancelTimer in E. split; cbn; [done| |by rewrite Hd].
    intros t Hin Hs. apply Hq.
    + by destruct (active_tasks_ (svc s) !! i); simplify_eq.
    + rewrite Hact, lookup_delete in Hs. by case_decide; [destruct Hs|].
  - destruct (iter_shape n now (svc s) Hrun I) as (H1 & H2 & H3). split; cbn; [done| |].
    + intros t Hin Hs. apply Hq; [by apply H1|].
      destruct Hs as [x Hx]. exists x. by eapply lookup_weaken.
    + intros cb [?|(t & ? & ? & <-)]%H3; eauto.
  - split.
    + by rewrite run_detached_finished.
    + unfold run_detached. destruct (detached (svc s) !! k) as [[c []]|]; by apply Hq.
    + intros cb Hcb%run_detached_threads. eauto.
Qed.

Lemma bok_exec o n s :
  (n < max_ids)%nat -> bok n s -> exists n', (n' <= S n)%nat /\ bok n' (bexec o s).
Proof.
  intros Hn [I Hrun Hk].
  assert (forall now ms cb, exists d, addNonBlockingTimer now ms cb (svc s) = Some (idf n, d) /\
    inv (S n) d /\ running_ d = true /\ detached d = detached (svc s) /\
    (forall t, t ∈ pq_elems (tasks_ d) -> callback t = cb \/ t ∈ pq_elems (tasks_ (svc s)))) as Hadd.
  { intros now ms cb. destruct (two_add_ok n now ms cb (svc s) Hn I) as (d & E & I' & Hr & Hd & _).
    exists d. split_and!; [done|done|congruence|done|]. intros t Hin.
    unfold addNonBlockingTimer in E. apply bind_Some in E as (nx & _ & E). simplify_eq; cbn in Hin.
    apply pq_elem_push in Hin as [->|]; auto. }
  destruct o as [now ms u|now ms q|i|now|k]; cbn.
  - destruct (Hadd now ms (User u)) as (d & -> & I' & Hr & Hd & Hin).
    exists (S n). split; [done|]. split; cbn; [done|done|]. intros p Hp.
    destruct (Hk p Hp) as [_ Hq Ht]. split; cbn; [done| |by rewrite Hd].
    intros t [->|?]%Hin; eauto.
  - destruct (finished s !! q) as [b|] eqn:Eq; [by exists n; split; [lia|]|].
    unfold addBlockingTimer_begin.
    destruct (Hadd now ms (Notify q)) as (d & -> & I' & Hr & Hd & Hin). cbn.
    exists (S n). split; [done|]. split; cbn; [done|done|]. intros p.
    rewrite lookup_insert. case_decide; [done|]. intros Hp.
    destruct (Hk p Hp) as [_ Hq Ht]. split; cbn; [by rewrite lookup_insert_ne| |by rewrite Hd].
    intros t [->|?]%Hin; [congruence|eauto].
  - destruct (cancelTimer i (svc s)) as [b d] eqn:E; cbn. exists n. split; [lia|].
    destruct (two_cancel_ok _ _ _ _ _ I E) as (I' & Hr & Hd & _ & _).
    split; cbn; [done|congruence|]. intros p Hp. destruct (Hk p Hp) as [_ Hq Ht].
    split; cbn; [done| |by rewrite Hd]. intros t Hin. apply Hq.
    unfold cancelTimer in E. by destruct (active_tasks_ (svc s) !! i); simplify_eq.
  - exists n. split; [lia|].
    destruct (iter_shape n now (svc s) Hrun I) as (H1 & H2 & H3).
    destruct (managerThread_iter now (svc s)) as [r d] eqn:E.
    destruct (two_iter_ok _ _ _ _ _ Hrun I E) as (I' & Hr & _).
    split; cbn in *; [done|done|]. intros p Hp. destruct (Hk p Hp) as [_ Hq Ht].
    split; cbn; [done|by auto|]. intros cb [?|(t & ? & ? & <-)]%H3; eauto.
  - exists n. split; [lia|]. split.
    + unfold run_detached. destruct (detached (svc s) !! k) as [[c []]|]; cbn; [done| |done].
      destruct I. by split.
    + unfold run_detached. by destruct (detached (svc s) !! k) as [[c []]|].
    + intros p Hp. destruct (finished s !! p) as [b|] eqn:Ep.
      { exfalso. revert Hp. unfold run_detached.
        destruct (detached (svc s) !! k) as [[[u|q] []]|]; cbn; try congruence.
        rewrite lookup_insert. case_decide; congruence. }
      destruct (Hk p Ep) as [_ Hq Ht]. split; [done| |].
      * unfold run_detached. by destruct (detached (svc s) !! k) as [[c []]|].
      * intros cb Hcb%run_detached_threads. eauto.
Qed.

Definition binit : bstate := mkB (start ctor) ∅.

Lemma bok_init : bok 0 binit.
Proof.
  split; cbn; [|done|].
  - split; cbn; [done|by eapply core_empty|set_solver].
  - intros p _. split; cbn; [by rewrite lookup_empty| |set_solver].
    intros t Hin. by apply pq_not_elem_empty in Hin.
Qed.

Lemma bok_exec_all ops n s :
  (n + length ops <= max_ids)%nat -> bok n s ->
  exists n', (n' <= n + length ops)%nat /\ bok n' (bexec_all ops s).
Proof.
  revert n s. induction ops as [|o ops IH]; cbn; intros n s Hlen B; [by exists n; split; [lia|]|].
  destruct (bok_exec o n s) as (n1 & ? & B1); [lia|done|].
  destruct (IH n1 (bexec o s)) as (n2 & ? & B2); [lia|done|]. exists n2. split; [lia|done].
Qed.

Lemma orphan_exec_all ops n s p :
  (n + length ops <= max_ids)%nat -> bok n s -> orphan p s -> orphan p (bexec_all ops s).
Proof.
  revert n s. induction ops as [|o ops IH]; cbn; intros n s Hlen B O; [done|].
  destruct (bok_exec o n s) as (n1 & ? & B1); [lia|done|].
  apply (IH n1); [lia|done|]. by apply (orphan_exec o n); [lia| |].
Qed.

Lemma begin_cancel_orphan n s now ms p i s2 :
  (n < max_ids)%nat -> bok n s -> finished s !! p = None ->
  addBlockingTimer_begin now ms p s = Some (i, s2) ->
  (cancelTimer i (svc s2)).1 = true /\ orphan p (bexec (BCancel i) s2).
Proof.
  intros Hn B Hp Hb.
  unfold addBlockingTimer_begin in Hb. apply bind_Some in Hb as ([i' d] & E & Hb). simplify_eq.
  destruct (two_add_ok n now ms (Notify p) (svc s) Hn (bok_inv _ _ B))
    as (d' & E' & I' & Hr & Hd & Hact). rewrite E in E'. simplify_eq.
  destruct (bok_known _ _ B p Hp) as [_ Hq Ht]. cbn.
  destruct (cancelTimer (idf n) d') as [b d3] eqn:Ec.
  destruct (two_cancel_ok _ _ _ _ _ I' Ec) as (I3 & Hr3 & Hd3 & Hact3 & ->). cbn.
  split; [apply bool_decide_true; by rewrite Hact, lookup_insert_eq|].
  split; cbn; [by rewrite lookup_insert_eq| |rewrite Hd3, Hd; done].
  intros t Hin Hs. rewrite Hact3, Hact, delete_insert_eq in Hs.
  assert (t ∈ pq_elems (tasks_ d')) as Hin'.
  { unfold cancelTimer in Ec. by destruct (active_tasks_ d' !! idf n); simplify_eq. }
  unfold addNonBlockingTimer in E. apply bind_Some in E as (nx & _ & E). simplify_eq. cbn in Hin'.
  apply pq_elem_push in Hin' as [->|]; [|eauto]. exfalso. cbn in Hs.
  rewrite (inv_next _ _ (bok_inv _ _ B)) in Hs.
  change (Z.of_nat n) with (idf n) in Hs. rewrite lookup_delete_eq in Hs. by destruct Hs.
Qed.

(** a blocking timer that is cancelled blocks its caller for good: whatever
    operations came before, once [cancelTimer] has cancelled the identifier of the
    timer that drives [addBlockingTimer] (it returns true), no further operations,
    manager iterations and callback runs make the call return. *)
Theorem cancelled_blocking_never_returns (ops1 ops2 : list bop) (now ms : Z) (p : nat)
    (i : Z) (s2 : bstate) :
  Z.of_nat (length ops1 + length ops2) + 2 <= INT_MAX ->
  finished (bexec_all ops1 binit) !! p = None ->
  addBlockingTimer_begin now ms p (bexec_all ops1 binit) = Some (i, s2) ->
  (cancelTimer i (svc s2)).1 = true /\
  addBlockingTimer_returns p (bexec_all ops2 (bexec (BCancel i) s2)) = false.
Proof.
  intros Hlen Hp Hb.
  assert (length ops1 + length ops2 + 2 <= max_ids)%nat as Hmax by (apply within_max_ids; lia).
  destruct (bok_exec_all ops1 0 binit) as (n & Hn & B); [lia|apply bok_init|].
  destruct (begin_cancel_orphan n (bexec_all ops1 binit) now ms p i s2) as [Hc O]; [lia|done..|].
  split; [done|].
  destruct (bok_exec_all [BBegin now ms p; BCancel i] n (bexec_all ops1 binit))
    as (n2 & Hn2 & B2); [cbn; lia|done|].
  cbn in B2. rewrite Hp, Hb in B2. cbn in Hn2.
  assert (bok n2 (bexec (BCancel i) s2) /\ orphan p (bexec (BCancel i) s2)) as [B3 O3] by done.
  unfold addBlockingTimer_returns. erewrite or_wait; [done|].
  eapply (orphan_exec_all ops2 n2); [lia|done|done].
Qed.
End Blocking.

(** A call that is cancelled, and one that is not. *)
Section BlockingExample.
Let Q := list_queue (@task_less bcallback).

Definition begun (ops : list bop) : bstate (Q := Q) :=
  match addBlockingTimer_begin 0 5 1 (bexec_all ops binit) with
  | Some (_, s) => s | None => binit
  end.

Example blocking_returns :
  addBlockingTimer_returns 1 (bexec_all [BIter 5000000; BRun 0] (begun [])) = true.
Proof. vm_compute. reflexivity. Qed.

Lemma cancelled_blocking_never_returns_witness :
  (cancelTimer 1 (svc (begun [BAdd 0 1 9%nat]))).1 = true /\
  addBlockingTimer_returns 1
    (bexec_all [BIter 5000000; BRun 0; BIter 9000000] (bexec (BCancel 1) (begun [BAdd 0 1 9%nat])))
    = false.
Proof.
  apply (cancelled_blocking_never_returns [BAdd 0 1 9%nat] [BIter 5000000; BRun 0; BIter 9000000]
           0 5 1 1); vm_compute; [discriminate|reflexivity..].
Defined.
End BlockingExample.
End TwoModesTimer.
