(* ===== verification/GracefulTimer.v ===== *)
(** [GracefulTimer] of [src/other/timer/dualTimer/timer_demo.cpp]: timers whose
    callbacks run on the manager thread itself with the mutex released, cancelled
    timers that stay in the active map until the queue reaches them, a set of
    pending timers and a count of running callbacks for a graceful stop. *)
From S2P Require Import Prelude PQueue TimerSpec TimerCore.

Module GracefulTimer.

Section Model.
Context {CB : Type}.

Record TimerTask := mkTask {
  id : Z;
  expiry_time : Z;
  callback : CB;
  is_cancelled : bool;
}.

(** [TimerTask::operator<] *)
Definition task_less (t other : TimerTask) : bool := later expiry_time t other.

#[export] Instance task_less_swo : StrictWeakOrder task_less := later_swo expiry_time.

Context {Q : Type} {PQ : PriorityQueue TimerTask task_less Q}.

(** Where the manager thread is while it runs a callback (the wrapper that
    [addNonBlockingTimer] builds): about to count it, in the user's callback, or
    past the decrement and about to erase it from [pending_timers_]. *)
Inductive phase := Dispatched | Running | Finishing.

#[export] Instance phase_eq_dec : EqDecision phase.
Proof. solve_decision. Defined.

Record state := mkState {
  running_ : bool;
  should_exit : bool;
  tasks_queue_ : Q;
  active_tasks_ : gmap Z TimerTask;
  next_id_ : Z;
  active_callbacks_ : Z;
  pending_timers_ : gset Z;
  in_callback : option (TimerTask * phase);
}.

Definition ctor : state := mkState false false pq_empty ∅ 0 0 ∅ None.

Definition start (s : state) : state :=
  if running_ s then s
  else mkState true (should_exit s) (tasks_queue_ s) (active_tasks_ s) (next_id_ s)
         (active_callbacks_ s) (pending_timers_ s) (in_callback s).

(** [signal_handler] *)
Definition signal_handler (s : state) : state :=
  mkState (running_ s) true (tasks_queue_ s) (active_tasks_ s) (next_id_ s)
    (active_callbacks_ s) (pending_timers_ s) (in_callback s).

(** -1 when the program is exiting or the manager is stopped. *)
Definition addNonBlockingTimer (now ms : Z) (cb : CB) (s : state) : Z * state :=
  if should_exit s then (-1, s)
  else if negb (running_ s) then (-1, s)
  else
    let i := wrapS 32 (next_id_ s + 1) in
    let task := mkTask i (now + ns_of_ms ms) cb false in
    (i, mkState (running_ s) (should_exit s) (pq_push task (tasks_queue_ s))
          (<[i := task]> (active_tasks_ s)) i (active_callbacks_ s)
          ({[i]} ∪ pending_timers_ s) (in_callback s)).

Definition cancel_task (t : TimerTask) : TimerTask :=
  mkTask (id t) (expiry_time t) (callback t) true.

Definition cancelTimer (timer_id : Z) (s : state) : bool * state :=
  match active_tasks_ s !! timer_id with
  | Some t =>
      (true, mkState (running_ s) (should_exit s) (tasks_queue_ s)
               (<[timer_id := cancel_task t]> (active_tasks_ s)) (next_id_ s)
               (active_callbacks_ s) (pending_timers_ s ∖ {[timer_id]}) (in_callback s))
  | None => (false, s)
  end.

Definition getActiveCallbackCount (s : state) : Z := active_callbacks_ s.
Definition getPendingTimerCount (s : state) : nat := size (pending_timers_ s).
Definition isRunning (s : state) : bool := running_ s.

(** One iteration of the loop of [managerThread] up to the call of the callback. *)
Definition managerThread_iter (now : Z) (s : state) : option TimerTask * state :=
  if negb (running_ s) then (None, s)
  else match pq_top (tasks_queue_ s) with
  | None => (None, s)
  | Some next_task =>
      if expiry_time next_task <=? now then
        let q := pq_pop (tasks_queue_ s) in
        match active_tasks_ s !! id next_task with
        | Some task =>
            let act := delete (id next_task) (active_tasks_ s) in
            if negb (is_cancelled task) then
              (Some task, mkState (running_ s) (should_exit s) q act (next_id_ s)
                 (active_callbacks_ s) (pending_timers_ s) (Some (task, Dispatched)))
            else
              (None, mkState (running_ s) (should_exit s) q act (next_id_ s)
                 (active_callbacks_ s) (pending_timers_ s ∖ {[id next_task]}) None)
        | None =>
            (None, mkState (running_ s) (should_exit s) q (active_tasks_ s) (next_id_ s)
               (active_callbacks_ s) (pending_timers_ s ∖ {[id next_task]}) None)
        end
      else (None, s)
  end.

(** The wrapper around the user's callback, one shared access at a time. *)
Definition callback_step (t : TimerTask) (ph : phase) (s : state) : state :=
  match ph with
  | Dispatched =>
      mkState (running_ s) (should_exit s) (tasks_queue_ s) (active_tasks_ s) (next_id_ s)
        (wrapS 32 (active_callbacks_ s + 1)) (pending_timers_ s) (Some (t, Running))
  | Running =>
      mkState (running_ s) (should_exit s) (tasks_queue_ s) (active_tasks_ s) (next_id_ s)
        (wrapS 32 (active_callbacks_ s - 1)) (pending_timers_ s) (Some (t, Finishing))
  | Finishing =>
      mkState (running_ s) (should_exit s) (tasks_queue_ s) (active_tasks_ s) (next_id_ s)
        (active_callbacks_ s) (pending_timers_ s ∖ {[id t]}) None
  end.

(** The next step of the manager thread. *)
Definition manager_step (now : Z) (s : state) : option TimerTask * state :=
  match in_callback s with
  | Some (t, ph) => (None, callback_step t ph s)
  | None => managerThread_iter now s
  end.

(** ** The invariant *)

Definition idf (k : nat) : Z := Z.of_nat k + 1.

(** The map's copy of a task differs from the queue's by its flag only. *)
Definition same_task (t t' : TimerTask) : Prop :=
  id t = id t' /\ expiry_time t = expiry_time t' /\ callback t = callback t'.

#[export] Instance graceful_core : CoreLaws id expiry_time same_task task_less idf.
Proof.
  split; unfold idf, same_task; [done|by intros ?? (?&?&?)|by intros ?? (?&?&?)|done|lia].
Qed.

Definition live_ids (s : state) : gset Z :=
  dom (filter (fun p => is_cancelled p.2 = false) (active_tasks_ s)).

Definition callback_ids (s : state) : gset Z :=
  match in_callback s with Some (t, _) => {[id t]} | None => ∅ end.

(** [pending_timers_] holds the timers not cancelled and not yet dispatched, and the
    one whose callback runs; [active_callbacks_] counts that one while it runs. *)
Record inv (n : nat) (s : state) : Prop := {
  inv_next : next_id_ s = Z.of_nat n;
  inv_core : core_inv id same_task idf n (tasks_queue_ s) (active_tasks_ s);
  inv_callback : forall t ph, in_callback s = Some (t, ph) ->
    (exists k, (k < n)%nat /\ id t = idf k) /\ active_tasks_ s !! id t = None;
  inv_pending : pending_timers_ s = live_ids s ∪ callback_ids s;
  inv_count : active_callbacks_ s =
    match in_callback s with Some (_, Running) => 1 | _ => 0 end;
}.

Definition live_entry (t : TimerTask) : option (entry CB) :=
  if is_cancelled t then None else Some (Entry (expiry_time t) (callback t)).

Definition pending_of (s : state) : gmap Z (entry CB) := omap live_entry (active_tasks_ s).

Lemma graceful_pending_lookup s i e :
  pending_of s !! i = Some e <->
  exists t, active_tasks_ s !! i = Some t /\ is_cancelled t = false /\
    e = Entry (expiry_time t) (callback t).
Proof.
  unfold pending_of, live_entry. rewrite lookup_omap.
  destruct (active_tasks_ s !! i) as [t|]; cbn; [|by split; [|intros (? & ? & _)]].
  destruct (is_cancelled t) eqn:E.
  - split; [done|]. intros (t' & [= <-] & ? & _). congruence.
  - split; [intros [= <-]; eauto|]. by intros (t' & [= <-] & _ & ->).
Qed.

Lemma elem_of_live_ids s i :
  i ∈ live_ids s <-> exists t, active_tasks_ s !! i = Some t /\ is_cancelled t = false.
Proof.
  unfold live_ids. rewrite elem_of_dom. split.
  - intros [t Ht]. apply map_lookup_filter_Some in Ht. eauto.
  - intros (t & ? & ?). exists t. by apply map_lookup_filter_Some.
Qed.

Lemma graceful_add_ok n now ms cb s :
  (n < max_ids)%nat -> inv n s -> should_exit s = false -> running_ s = true ->
  exists s', addNonBlockingTimer now ms cb s = (idf n, s') /\ inv (S n) s' /\
    running_ s' = true /\
    pending_of s' = <[idf n := Entry (now + ns_of_ms ms) cb]> (pending_of s).
Proof.
  intros Hn%max_ids_lt I He Hr. unfold addNonBlockingTimer. rewrite He, Hr, (inv_next _ _ I).
  unfold INT_MAX in Hn. rewrite wrapS_small by lia. cbn.
  eexists. split; [done|]. split; [|split; [done|]].
  - split; cbn.
    + lia.
    + eapply core_push; [tc_solve|apply I|done].
    + intros t ph Hc. destruct (inv_callback _ _ I _ _ Hc) as [(k & ? & Hk) Hnone].
      split; [exists k; split; [lia|done]|].
      rewrite lookup_insert_ne; [done|]. rewrite Hk. unfold idf. lia.
    + rewrite (inv_pending _ _ I). unfold callback_ids; cbn.
      apply set_eq. intros i. rewrite !elem_of_union, !elem_of_live_ids; cbn.
      rewrite elem_of_singleton. setoid_rewrite lookup_insert.
      destruct (decide (Z.of_nat n + 1 = i)) as [<-|Hne]; [|naive_solver].
      split; [|by auto]. intros _. left. by eexists.
    + apply I.
  - apply map_eq. intros i. apply option_eq. intros e.
    rewrite lookup_insert, !graceful_pending_lookup; cbn. setoid_rewrite lookup_insert.
    unfold idf. case_decide; [naive_solver|]. by rewrite graceful_pending_lookup.
Qed.

Lemma graceful_cancel_ok n i s b s' :
  inv n s -> cancelTimer i s = (b, s') ->
  inv n s' /\ running_ s' = running_ s /\ pending_of s' = delete i (pending_of s) /\
  b = bool_decide (is_Some (active_tasks_ s !! i)).
Proof.
  intros I. unfold cancelTimer. destruct (active_tasks_ s !! i) as [t|] eqn:E; intros [= <- <-].
  - split; [|split; [done|split; [|done]]].
    + split; cbn; [apply I| | | |apply I].
      * eapply core_update; [tc_solve|apply I|done|]. unfold same_task. cbn. done.
      * intros t' ph Hc. destruct (inv_callback _ _ I _ _ Hc) as [? Hnone].
        split; [done|]. rewrite lookup_insert_ne; [done|congruence].
      * rewrite (inv_pending _ _ I). apply set_eq. intros j.
        rewrite elem_of_difference, !elem_of_union, !elem_of_live_ids, elem_of_singleton; cbn.
        setoid_rewrite lookup_insert. unfold callback_ids; cbn.
        destruct (decide (i = j)) as [->|Hne]; [|naive_solver].
        split; [naive_solver|]. intros [(t' & [= <-] & [=])|Hj].
        destruct (in_callback s) as [[t' ph]|] eqn:Ec; [|set_solver].
        apply elem_of_singleton in Hj as ->.
        destruct (inv_callback _ _ I _ _ Ec) as [_ ?]. congruence.
    + apply map_eq. intros j. apply option_eq. intros e.
      rewrite lookup_delete_Some, !graceful_pending_lookup; cbn. setoid_rewrite lookup_insert.
      destruct (decide (i = j)) as [->|].
      * split; [|by intros [? _]]. intros (t' & [= <-] & ? & _). done.
      * split; [by intros (t' & ? & ? & ?); eauto|]. intros (_ & t' & ? & ? & ?). eauto.
  - split_and!; [done|done| |done]. rewrite delete_id; [done|].
    unfold pending_of. by rewrite lookup_omap, E.
Qed.

(** An iteration that only pops a stale or cancelled entry. *)
Lemma graceful_drop_inv n s t b act :
  inv n s -> in_callback s = None -> pq_top (tasks_queue_ s) = Some t ->
  act = delete (id t) (active_tasks_ s) -> id t ∉ live_ids s ->
  inv n (mkState b (should_exit s) (pq_pop (tasks_queue_ s)) act (next_id_ s)
           (active_callbacks_ s) (pending_timers_ s ∖ {[id t]}) None) /\
  omap live_entry act = pending_of s.
Proof.
  intros I Hc Ht -> Hlive. split.
  - split; cbn; [apply I|eapply core_pop; [tc_solve|apply I|done]|done| |].
    + rewrite (inv_pending _ _ I). unfold callback_ids. rewrite Hc; cbn.
      apply set_eq. intros i. rewrite elem_of_difference, !elem_of_union, elem_of_singleton.
      rewrite !elem_of_live_ids; cbn. setoid_rewrite lookup_delete_Some. split.
      * intros [[(t' & ? & ?)|?] ?]; [left; exists t'; auto|by right].
      * intros [(t' & [? ?] & ?)|?%not_elem_of_empty]; [split; [left; eauto|auto]|done].
    + by rewrite (inv_count _ _ I), Hc.
  - apply map_eq. intros i. apply option_eq. intros e.
    change (omap live_entry (delete (id t) (active_tasks_ s))) with
      (pending_of (mkState b (should_exit s) (tasks_queue_ s)
         (delete (id t) (active_tasks_ s)) 0 0 ∅ None)).
    rewrite !graceful_pending_lookup; cbn. setoid_rewrite lookup_delete_Some.
    rewrite elem_of_live_ids in Hlive. split; [intros (t' & [??] & ?); eauto|].
    intros (t' & ? & ? & ?). exists t'. split; [|done]. split; [|done]. intros <-. eauto.
Qed.

Lemma graceful_iter_ok n now s r s' :
  running_ s = true -> inv n s -> in_callback s = None -> managerThread_iter now s = (r, s') ->
  inv n s' /\ running_ s' = true /\
  match r with
  | Some t =>
      pending_of s !! id t = Some (Entry (expiry_time t) (callback t)) /\
      expiry_time t <= now /\
      (forall i e, pending_of s !! i = Some e -> expiry_time t <= deadline e) /\
      pending_of s' = delete (id t) (pending_of s)
  | None => pending_of s' = pending_of s
  end.
Proof.
  intros Hrun I Hc. unfold managerThread_iter. rewrite Hrun; cbn.
  destruct (pq_top (tasks_queue_ s)) as [t|] eqn:Ht; [|intros [= <- <-]; done].
  destruct (expiry_time t <=? now) eqn:Hw; zbool; [|intros [= <- <-]; done].
  destruct (active_tasks_ s !! id t) as [task|] eqn:Ha.
  - assert (same_task task t) as (Hid & Hex & Hcb)
      by (eapply core_top_active; [tc_solve|apply I|done..]).
    destruct (is_cancelled task) eqn:Hcan; cbn; intros [= <- <-]; cbn.
    + destruct (graceful_drop_inv n s t true (delete (id t) (active_tasks_ s)) I Hc Ht eq_refl)
        as [Hi Hp]; [|done].
      rewrite elem_of_live_ids. naive_solver congruence.
    + split; [|split; [done|]].
      * split; cbn; [apply I|eapply core_pop; [tc_solve|apply I|done]| | |].
        -- intros t' ph [= <- <-]. rewrite Hid. split; [|by rewrite lookup_delete_eq].
           eapply core_act_issued; [tc_solve|apply I|done].
        -- rewrite (inv_pending _ _ I). unfold callback_ids. rewrite Hc; cbn. rewrite Hid.
           apply set_eq. intros i. rewrite !elem_of_union, !elem_of_live_ids, elem_of_singleton; cbn.
           setoid_rewrite lookup_delete_Some.
           destruct (decide (i = id t)) as [->|]; naive_solver.
        -- by rewrite (inv_count _ _ I), Hc.
      * rewrite Hid. split_and!.
        -- apply graceful_pending_lookup. eauto.
        -- lia.
        -- intros i e Hi. apply graceful_pending_lookup in Hi as (t' & Ha' & _ & ->). cbn.
           rewrite Hex. eapply core_top_min; [tc_solve|apply I|done..].
        -- unfold pending_of; cbn. apply omap_delete.
  - intros [= <- <-].
    destruct (graceful_drop_inv n s t true (active_tasks_ s) I Hc Ht) as [Hi Hp]; [|by rewrite elem_of_live_ids; naive_solver congruence|done].
    by rewrite delete_id.
Qed.

Lemma callback_step_inv n s t ph :
  inv n s -> in_callback s = Some (t, ph) ->
  inv n (callback_step t ph s) /\ pending_of (callback_step t ph s) = pending_of s /\
  running_ (callback_step t ph s) = running_ s.
Proof.
  intros I Hc. destruct (inv_callback _ _ I _ _ Hc) as [Hk Hnone].
  pose proof (inv_count _ _ I) as Hcnt. pose proof (inv_pending _ _ I) as Hp.
  rewrite Hc in Hcnt. unfold callback_ids in Hp. rewrite Hc in Hp.
  split; [|by destruct ph].
  destruct ph; split; cbn; try apply I; try done.
  - by intros ? ? [= <- <-].
  - by rewrite Hcnt.
  - by intros ? ? [= <- <-].
  - by rewrite Hcnt.
  - rewrite Hp. apply set_eq. intros i. unfold callback_ids; cbn.
    rewrite elem_of_difference, !elem_of_union, !elem_of_live_ids, !elem_of_singleton; cbn.
    split.
    + intros [[?|?] ?]; [by left|done].
    + intros [(t' & ? & ?)|?%not_elem_of_empty]; [|done].
      split; [left; eauto|]. intros ->. congruence.
Qed.

(** ** As a timer service *)

Definition service_add (now ms : Z) (cb : CB) (s : state) : option Z * state :=
  let '(i, s') := addNonBlockingTimer now ms cb s in
  (if i =? -1 then None else Some i, s').

Definition service_poll (now : Z) (s : state) : option (Z * CB) * state :=
  let '(r, s') := manager_step now s in
  ((fun t => (id t, callback t)) <$> r, s').

#[local] Arguments service_add : simpl never.
#[local] Arguments service_poll : simpl never.
#[local] Arguments cancelTimer : simpl never.

(** The steps the manager still has in the callback it runs. *)
Definition phase_weight (c : option (TimerTask * phase)) : nat :=
  match c with
  | Some (_, Dispatched) => 3 | Some (_, Running) => 2 | Some (_, Finishing) => 1 | None => 0
  end.

Definition work (s : state) : nat :=
  (4 * length (pq_elems (tasks_queue_ s)) + phase_weight (in_callback s))%nat.

#[export] Instance graceful_service : TimerService state CB := {
  ts_init := start ctor;
  ts_add := service_add;
  ts_cancel := cancelTimer;
  ts_poll := service_poll;
  ts_idf := idf;
  ts_inv n s := running_ s = true /\ inv n s;
  ts_pending := pending_of;
  ts_queued := work;
}.

Lemma graceful_init_inv : inv 0 (start ctor).
Proof.
  split; cbn; [done|by eapply core_empty|done| |done].
  apply set_eq. intros i. unfold live_ids, callback_ids; cbn.
  rewrite map_filter_empty, dom_empty_L. set_solver.
Qed.

Lemma manager_step_ok n now s r s' :
  running_ s = true -> inv n s -> manager_step now s = (r, s') ->
  inv n s' /\ running_ s' = true /\
  match r with
  | Some t =>
      pending_of s !! id t = Some (Entry (expiry_time t) (callback t)) /\
      expiry_time t <= now /\
      (forall i e, pending_of s !! i = Some e -> expiry_time t <= deadline e) /\
      pending_of s' = delete (id t) (pending_of s)
  | None => pending_of s' = pending_of s
  end.
Proof.
  intros Hrun I. unfold manager_step. destruct (in_callback s) as [[t ph]|] eqn:Hc.
  - intros [= <- <-]. destruct (callback_step_inv _ _ _ _ I Hc) as (? & ? & Hr).
    split_and!; [done|congruence|done].
  - by apply graceful_iter_ok.
Qed.

Lemma manager_step_progress n now s r s' :
  running_ s = true -> inv n s -> manager_step now s = (r, s') ->
  in_callback s <> None \/ due now (pending_of s) -> (work s' < work s)%nat.
Proof.
  intros Hrun I. unfold manager_step, work. destruct (in_callback s) as [[t ph]|] eqn:Hc.
  - intros [= <- <-] _. destruct ph; cbn; lia.
  - intros Hit [?|(i & e & Hi & Hle)]; [done|].
    apply graceful_pending_lookup in Hi as (t & Ha & _ & ->). cbn in Hle.
    destruct (core_due_top id expiry_time same_task idf _ _ _ _ _ now (inv_core _ _ I) Ha Hle)
      as (top & Ht & Hw).
    rewrite (pq_pop_length _ _ Ht).
    unfold managerThread_iter in Hit. rewrite Hrun, Ht in Hit; cbn in Hit.
    rewrite (proj2 (Z.leb_le _ _) Hw) in Hit. split_guards; lia.
Qed.

#[export] Instance graceful_service_laws : TimerServiceLaws state CB.
Proof.
  split; cbn.
  - unfold idf. lia.
  - split; [split; [done|apply graceful_init_inv]|]. unfold pending_of; cbn. apply omap_empty.
  - intros n now ms cb s r s' Hn (Hrun & I). unfold service_add.
    destruct (should_exit s) eqn:He.
    { unfold addNonBlockingTimer. rewrite He; cbn. by intros [= <- <-]. }
    destruct (graceful_add_ok n now ms cb s Hn I He Hrun) as (s1 & -> & I' & Hr & Hact).
    replace (idf n =? -1) with false by (unfold idf; symmetry; apply Z.eqb_neq; lia).
    intros [= <- <-]. split_and!; [done|done|done| |done].
    unfold pending_of. rewrite lookup_omap. by erewrite core_fresh by (tc_solve || apply I).
  - intros n i s b s' (Hrun & I) E.
    destruct (graceful_cancel_ok _ _ _ _ _ I E) as (I' & Hr & Hact & ->).
    split_and!; [congruence|done|done| |]; cbn.
    + intros [e Hi]. apply graceful_pending_lookup in Hi as (t & Ha & _).
      by apply bool_decide_true.
    + intros [t Ha]%bool_decide_eq_true. eapply core_act_issued; [tc_solve|apply I|done].
  - intros n now s r s' (Hrun & I). unfold service_poll.
    destruct (manager_step now s) as [o s1] eqn:E. intros [= <- <-].
    pose proof (manager_step_ok _ _ _ _ _ Hrun I E) as (I' & Hr' & Ho).
    destruct o as [t|]; cbn; [|by split_and!].
    destruct Ho as (Hp & Hw & Hmin & Hact). split_and!; [done|done|]. eauto 10.
  - intros n now s r s' (Hrun & I). unfold service_poll.
    destruct (manager_step now s) as [o s1] eqn:E. intros [= <- <-] Hd.
    eapply manager_step_progress; eauto.
Qed.

Definition graceful_run (ops : list (tm_op CB)) : state * list (event CB) :=
  run service_exec ops (start ctor).

(** this manager, with the callbacks on its own thread, fires a timer at most
    once, after it was added, not before its deadline and never after a successful
    [cancelTimer]; and the iterations of its loop at any clock value (four per
    queued task, the steps of the callback included) fire exactly the due timers,
    earliest deadline first. *)
Theorem graceful_correct (ops : list (tm_op CB)) (now : Z) :
  Z.of_nat (length ops) <= INT_MAX ->
  fire_safe (graceful_run ops).2 /\
  exists l,
    (drain (work (graceful_run ops).1) now (graceful_run ops).1).2 = fired_of <$> l /\
    drained now (pending_of (graceful_run ops).1)
      (pending_of (drain (work (graceful_run ops).1) now (graceful_run ops).1).1) l.
Proof.
  intros H%within_max_ids. split; [exact (service_fire_safe (St := state) ops H)|].
  destruct (service_refines_bounded (St := state) ops H) as (n & _ & I & _).
  destruct (drain_spec n _ now _ I (le_n _)) as (l & ? & _ & ?). eauto.
Qed.

Lemma dom_pending s : dom (pending_of s) = live_ids s.
Proof.
  apply set_eq. intros i. rewrite elem_of_live_ids, elem_of_dom. split.
  - intros [e He]. apply graceful_pending_lookup in He as (t & ? & ? & _). eauto.
  - intros (t & ? & ?). eexists. apply graceful_pending_lookup. eauto.
Qed.

(** the two counts a client reads are right after every run of operations: the
    pending count is the number of timers added, not cancelled and not dispatched,
    plus one while a callback has not yet removed itself, and the callback count is
    one exactly while the user's callback runs. *)
Theorem graceful_counts (ops : list (tm_op CB)) :
  Z.of_nat (length ops) <= INT_MAX ->
  getPendingTimerCount (graceful_run ops).1 =
    (size (pending_of (graceful_run ops).1) +
     match in_callback (graceful_run ops).1 with Some _ => 1 | None => 0 end)%nat /\
  getActiveCallbackCount (graceful_run ops).1 =
    match in_callback (graceful_run ops).1 with Some (_, Running) => 1 | _ => 0 end.
Proof.
  intros H%within_max_ids.
  destruct (service_refines_bounded (St := state) ops H) as (n & _ & [_ I] & _).
  change (run service_exec ops ts_init) with (graceful_run ops) in I. revert I. generalize (graceful_run ops).1. intros s I.
  split; [|apply I]. unfold getPendingTimerCount.
  rewrite (inv_pending _ _ I), <- (size_dom (D := gset Z)), dom_pending.
  unfold callback_ids. destruct (in_callback s) as [[t ph]|] eqn:Hc.
  - rewrite size_union, size_singleton; [done|]. apply disjoint_singleton_r.
    rewrite elem_of_live_ids. destruct (inv_callback _ _ I _ _ Hc) as [_ ?].
    intros (t' & ? & _). congruence.
  - rewrite union_empty_r_L. lia.
Qed.
End Model.

(** ** The two waiting loops

    Their sleeps and clock reads take the time asked for plus a delay of the
    scheduler's choosing, and the flags they look at are set by others: iteration [k]
    of a loop meets [read_delay k], [oversleep k], [exit_flag k] and so on. *)
Section Waits.
Record scheduler := mkScheduler {
  read_delay : nat -> Z;
  oversleep : nat -> Z;
  exit_flag : nat -> bool;
}.

(** No delay is negative and, for the bound on lateness, none exceeds [jmax]. *)
Definition delays_within (jmax : Z) (w : scheduler) : Prop :=
  forall k, 0 <= read_delay w k <= jmax /\ 0 <= oversleep w k <= jmax.

(** [sleep_for]: a duration that is not positive returns at once. *)
Definition sleep_for (d extra now : Z) : Z := now + Z.max 0 d + extra.

(** The loop of [addBlockingTimer] from its [k]-th test on, at clock value [now]:
    the result with the clock value at the return. *)
Fixpoint addBlockingTimer_loop (fuel k : nat) (w : scheduler)
    (should_stop : option (nat -> bool)) (finish now : Z) : option (bool * Z) :=
  match fuel with
  | O => None
  | S fuel =>
      if now <? finish then
        let t := now + read_delay w k in
        let remaining := finish - t in
        let wait_time := Z.min remaining (ns_of_ms 100) in
        let t' := sleep_for wait_time (oversleep w k) t in
        if exit_flag w k then Some (false, t')
        else if match should_stop with Some f => f k | None => false end then Some (false, t')
        else addBlockingTimer_loop fuel (S k) w should_stop finish t'
      else Some (true, now)
  end.

Definition addBlockingTimer (fuel : nat) (w : scheduler) (should_stop : option (nat -> bool))
    (ms now : Z) : option (bool * Z) :=
  addBlockingTimer_loop fuel 0 w should_stop (now + ns_of_ms ms) now.

(** The loop of [waitForAllCallbacks]; [active k] is the count its [k]-th test reads. *)
Fixpoint waitForAllCallbacks_loop (fuel k : nat) (w : scheduler) (active : nat -> Z)
    (started timeout now : Z) : option (bool * Z) :=
  match fuel with
  | O => None
  | S fuel =>
      if 0 <? active k then
        let t := now + read_delay w k in
        if timeout <=? t - started then Some (false, t)
        else
          let t' := sleep_for (ns_of_ms 100) (oversleep w k) t in
          if exit_flag w k then Some (false, t')
          else waitForAllCallbacks_loop fuel (S k) w active started timeout t'
      else Some (true, now)
  end.

Definition waitForAllCallbacks (fuel : nat) (w : scheduler) (active : nat -> Z)
    (timeout_ms now : Z) : option (bool * Z) :=
  waitForAllCallbacks_loop fuel 0 w active now (ns_of_ms timeout_ms) now.

(** Iterations that suffice for [d] milliseconds: each sleeps 100 of them or the rest. *)
Definition slices (ms : Z) : nat := S (Z.to_nat (ms / 100 + 1)).

Lemma blocking_loop_spec w stopf finish jmax fuel k now :
  delays_within jmax w -> finish - now <= Z.of_nat fuel * ns_of_ms 100 ->
  exists r t, addBlockingTimer_loop (S fuel) k w stopf finish now = Some (r, t) /\
    now <= t /\ t <= Z.max now (finish + 2 * jmax) /\
    (r = true -> finish <= t) /\
    (r = false -> exists j, (k <= j)%nat /\
       (exit_flag w j = true \/ exists f, stopf = Some f /\ f j = true)).
Proof.
  intros Hw. revert k now. induction fuel as [|fuel IH]; intros k now Hf;
    (destruct (Z.ltb_spec now finish) as [Hlt|Hge];
     [|exists true, now; cbn [addBlockingTimer_loop];
       rewrite (proj2 (Z.ltb_ge _ _) Hge); split_and!; [done|lia|lia|lia|done]]).
  { lia. }
  destruct (Hw k) as [Hr Ho].
  remember (S fuel) as f eqn:Ef. cbn [addBlockingTimer_loop].
  rewrite (proj2 (Z.ltb_lt _ _) Hlt).
  set (t' := sleep_for _ _ _).
  assert (now <= t' <= finish + 2 * jmax /\ finish - t' <= Z.of_nat fuel * ns_of_ms 100)
    as [Ht' Hrest] by (unfold t', sleep_for, ns_of_ms in *; lia).
  destruct (exit_flag w k) eqn:Hx.
  { exists false, t'. split_and!; [done|lia|lia|done|eauto]. }
  destruct (match stopf with Some f => f k | None => false end) eqn:Hs.
  { exists false, t'. split_and!; [done|lia|lia|done|].
    intros _. exists k. destruct stopf; [eauto|done]. }
  destruct (IH (S k) t' Hrest) as (r & t & E & ? & ? & ? & Hfalse). subst f.
  exists r, t. split_and!; [done|lia|lia|done|].
  intros (j & ? & ?)%Hfalse. exists j. split; [lia|done].
Qed.

(** the blocking timer always returns, after at most one more iteration than
    there are slices of 100 ms in its duration, however long the scheduler delays
    it: it returns true only when its duration has passed, returns false only when
    the exit flag or [should_stop] was seen raised, and is late by at most two
    delays. *)
Theorem blocking_timer_returns (w : scheduler) (stopf : option (nat -> bool)) (jmax ms now : Z) :
  delays_within jmax w ->
  exists r t, addBlockingTimer (slices ms) w stopf ms now = Some (r, t) /\
    now <= t <= Z.max now (now + ns_of_ms ms + 2 * jmax) /\
    (r = true -> now + ns_of_ms ms <= t) /\
    (r = false -> exists j,
       exit_flag w j = true \/ exists f, stopf = Some f /\ f j = true).
Proof.
  intros Hw. unfold addBlockingTimer, slices.
  destruct (blocking_loop_spec w stopf (now + ns_of_ms ms) jmax
              (Z.to_nat (ms / 100 + 1)) 0 now Hw) as (r & t & E & ? & ? & ? & Hf).
  { pose proof (Z_div_mod_eq_full ms 100). pose proof (Z.mod_pos_bound ms 100).
    unfold ns_of_ms. lia. }
  exists r, t. split_and!; [done|lia|lia|done|]. intros (j & _ & ?)%Hf. eauto.
Qed.

Lemma wait_loop_spec w active started timeout jmax fuel k now :
  delays_within jmax w -> started <= now ->
  timeout - (now - started) <= Z.of_nat fuel * ns_of_ms 100 ->
  exists r t, waitForAllCallbacks_loop (S fuel) k w active started timeout now = Some (r, t) /\
    (r = true -> exists j, (k <= j)%nat /\ active j <= 0) /\
    (r = false -> started + timeout <= t \/ exists j, (k <= j)%nat /\ exit_flag w j = true).
Proof.
  intros Hw. revert k now. induction fuel as [|fuel IH]; intros k now Hs Hf;
    (destruct (Z.ltb_spec 0 (active k)) as [Ha|Ha];
     [|exists true, now; cbn [waitForAllCallbacks_loop];
       rewrite (proj2 (Z.ltb_ge _ _) Ha); split_and!; [done|eauto|done]]);
    destruct (Hw k) as [Hr Ho].
  - exists false, (now + read_delay w k). cbn [waitForAllCallbacks_loop].
    rewrite (proj2 (Z.ltb_lt _ _) Ha), (proj2 (Z.leb_le _ _)) by lia.
    split_and!; [done|done|left; lia].
  - remember (S fuel) as f eqn:Ef. cbn [waitForAllCallbacks_loop].
    rewrite (proj2 (Z.ltb_lt _ _) Ha).
    destruct (timeout <=? now + read_delay w k - started) eqn:Ht; zbool.
    { eexists false, _. split_and!; [done|done|left; lia]. }
    set (t' := sleep_for _ _ _).
    assert (started <= t' /\ timeout - (t' - started) <= Z.of_nat fuel * ns_of_ms 100)
      as [Ht' Hrest] by (unfold t', sleep_for, ns_of_ms in *; lia).
    destruct (exit_flag w k) eqn:Hx.
    { exists false, t'. split_and!; [done|done|eauto]. }
    destruct (IH (S k) t' Ht' Hrest) as (r & t & E & Htrue & Hfalse). subst f.
    exists r, t. split_and!; [done| |].
    + intros (j & ? & ?)%Htrue. exists j. split; [lia|done].
    + intros [?|(j & ? & ?)]%Hfalse; [by left|right; exists j; split; [lia|done]].
Qed.

(** waiting for the callbacks before a stop always ends, whatever the callbacks
    do: true means that the count of running callbacks was seen at zero, false that
    the timeout has passed or that the exit flag was seen raised. *)
Theorem waitForAllCallbacks_returns (w : scheduler) (active : nat -> Z) (jmax ms now : Z) :
  delays_within jmax w ->
  exists r t, waitForAllCallbacks (slices ms) w active ms now = Some (r, t) /\
    (r = true -> exists j, active j <= 0) /\
    (r = false -> now + ns_of_ms ms <= t \/ exists j, exit_flag w j = true).
Proof.
  intros Hw. unfold waitForAllCallbacks, slices.
  destruct (wait_loop_spec w active now (ns_of_ms ms) jmax
              (Z.to_nat (ms / 100 + 1)) 0 now Hw) as (r & t & E & Ht & Hf); [lia| |].
  { pose proof (Z_div_mod_eq_full ms 100). pose proof (Z.mod_pos_bound ms 100).
    unfold ns_of_ms. lia. }
  exists r, t. split_and!; [done| |].
  - intros (j & _ & ?)%Ht. eauto.
  - intros [?|(j & _ & ?)]%Hf; eauto.
Qed.

(** A scheduler that is always 2 ms late; the exit flag is raised in iteration 3. *)
Definition slow : scheduler :=
  mkScheduler (fun _ => 1000000) (fun _ => 1000000) (fun k => (k =? 3)%nat).

Lemma blocking_timer_returns_witness :
  delays_within 1000000 slow /\
  exists r t, addBlockingTimer (slices 250) slow None 250 0 = Some (r, t) /\
    0 <= t <= Z.max 0 (0 + ns_of_ms 250 + 2 * 1000000) /\
    (r = true -> 0 + ns_of_ms 250 <= t) /\
    (r = false -> exists j,
       exit_flag slow j = true \/ exists f : nat -> bool, None = Some f /\ f j = true).
Proof.
  assert (delays_within 1000000 slow) as H by (intros k; cbn; lia).
  split; [exact H|]. exact (blocking_timer_returns slow None 1000000 250 0 H).
Defined.

Lemma waitForAllCallbacks_returns_witness :
  delays_within 1000000 slow /\
  exists r t, waitForAllCallbacks (slices 10000) slow (fun _ => 1) 10000 0 = Some (r, t) /\
    (r = true -> exists j : nat, (fun _ : nat => 1) j <= 0) /\
    (r = false -> 0 + ns_of_ms 10000 <= t \/ exists j, exit_flag slow j = true).
Proof.
  assert (delays_within 1000000 slow) as H by (intros k; cbn; lia).
  split; [exact H|].
  exact (waitForAllCallbacks_returns slow (fun _ => 1) 1000000 10000 0 H).
Defined.

Example blocking_250 : addBlockingTimer (slices 250) slow None 250 0 = Some (true, 251000000).
Proof. vm_compute. reflexivity. Qed.

Example blocking_interrupted :
  addBlockingTimer (slices 1000) slow None 1000 0 = Some (false, 408000000).
Proof. vm_compute. reflexivity. Qed.
End Waits.

Section Example.
Let Q := list_queue (@task_less nat).

Definition example_ops : list (tm_op nat) :=
  [Add 0 5 70%nat; Add 0 3 71%nat; Add 0 4 72%nat; Cancel 2; Poll 4000000; Poll 4000000].

Lemma graceful_correct_witness :
  fire_safe (graceful_run (Q := Q) example_ops).2 /\
  exists l,
    (drain (work (graceful_run (Q := Q) example_ops).1) 9000000
       (graceful_run (Q := Q) example_ops).1).2 = fired_of <$> l /\
    drained 9000000 (pending_of (graceful_run (Q := Q) example_ops).1)
      (pending_of (drain (work (graceful_run (Q := Q) example_ops).1) 9000000
         (graceful_run (Q := Q) example_ops).1).1) l.
Proof. apply (graceful_correct example_ops 9000000). vm_compute. discriminate. Defined.

Lemma graceful_counts_witness :
  getPendingTimerCount (graceful_run (Q := Q) example_ops).1 =
    (size (pending_of (graceful_run (Q := Q) example_ops).1) +
     match in_callback (graceful_run (Q := Q) example_ops).1 with Some _ => 1 | None => 0 end)%nat /\
  getActiveCallbackCount (graceful_run (Q := Q) example_ops).1 =
    match in_callback (graceful_run (Q := Q) example_ops).1 with Some (_, Running) => 1 | _ => 0 end.
Proof. apply (graceful_counts example_ops). vm_compute. discriminate. Defined.

(** The cancelled timer is still in the active map: cancelling it again succeeds
    again, and it is the queue's turn that removes it. *)
Example cancel_twice :
  (service_exec (Cancel 1) (service_exec (Cancel 1)
     (graceful_run (Q := Q) [Add 0 5 70%nat]).1).1).2 = [EvCancelled 1 true].
Proof. vm_compute. reflexivity. Qed.

Example graceful_example_trace :
  (graceful_run (Q := Q) (example_ops ++ [Poll 4000000; Poll 5000000; Poll 5000000])).2 =
    [EvAdded 1 5000000 70%nat; EvAdded 2 3000000 71%nat; EvAdded 3 4000000 72%nat;
     EvCancelled 2 true; EvIdle 4000000; EvFired 3 4000000 72%nat; EvIdle 4000000;
     EvIdle 5000000; EvIdle 5000000].
Proof. vm_compute. reflexivity. Qed.
End Example.
End GracefulTimer.
