(* ===== verification/Shutdown.v ===== *)
(** Stopping the timer managers of [src/other/timer/], thread by thread: the manager
    thread's loop against a concurrent [stop()], client calls and callback threads.
    One step is what a thread does between two points where another may come in
    between; a critical section that waits for nothing is one step.  The managers of
    [dualTimer/dualtimer.cc] and [twomodestimer.cpp] wait without a timeout when
    their queue is empty, the one of [dualTimer/timer_demo.cpp] never does. *)
From S2P Require Import Prelude.

Module Shutdown.

(** ** [DualModeTimer]: the loop of [managerThread]

    [MTest]: at the test of [running_]; [MLock]: about to lock; [MHold]: inside;
    [MWait]: blocked in [cv_.wait]; [MWaitUntil]: in [cv_.wait_until]; [MWoken]: woken,
    about to lock again; [MCleanup]: past the loop; [MExited]: the thread has ended. *)
Inductive mpc := MTest | MLock | MHold | MWait | MWaitUntil | MWoken | MCleanup | MExited.

(** [stop()]: about to clear [running_], to cancel all timers, to notify, to join the
    manager, to join the callback threads; returned. *)
Inductive spc := SFlag | SCancel | SNotify | SJoin | SJoinCallbacks | SDone.

Record state := mkState {
  running_ : bool;
  tasks_ : nat;
  callback_threads_ : nat;
  manager : mpc;
  stopper : spc;
}.

(** After [start()], with stop() about to be called. *)
Definition started : state := mkState true 0 0 MTest SFlag.

(** Who moves: the manager (with the verdict of the clock on the first task), the end
    of a timed wait, a callback thread that ends, [stop()], a client that adds a
    timer. *)
Inductive tid := Manager (due : bool) | Timeout | CallbackEnd | Stop | Client.

Definition mutex_free (s : state) : bool := 
  match manager s with MHold => false | _ => true end.

Definition manager_ended (s : state) : bool := match manager s with MExited => true | _ => false end.

(** [notify_all] and [notify_one]: the manager is the only thread that waits. *)
Definition wake (m : mpc) : mpc :=
  match m with MWait | MWaitUntil => MWoken | _ => m end.

Definition set_manager (m : mpc) (s : state) : state :=
  mkState (running_ s) (tasks_ s) (callback_threads_ s) m (stopper s).

(** [joins]: the manager joins the callback threads before it ends ([dualtimer.cc]);
    otherwise they are detached. *)
Definition manager_step (joins due : bool) (s : state) : option state :=
  match manager s with
  | MTest => Some (set_manager (if running_ s then MLock else MCleanup) s)
  | MLock => Some (set_manager MHold s)
  | MHold =>
      match tasks_ s with
      | O => Some (set_manager MWait s)
      | S n =>
          if due then
            Some (mkState (running_ s) n (S (callback_threads_ s)) MTest (stopper s))
          else Some (set_manager MWaitUntil s)
      end
  | MWait | MWaitUntil => None
  | MWoken => Some (set_manager MTest s)
  | MCleanup =>
      if negb joins || (callback_threads_ s =? 0)%nat then Some (set_manager MExited s) else None
  | MExited => None
  end.

Definition client_step (s : state) : option state :=
  if mutex_free s then
    Some (mkState (running_ s) (S (tasks_ s)) (callback_threads_ s) (wake (manager s)) (stopper s))
  else None.

Definition set_stopper (c : spc) (s : state) : state :=
  mkState (running_ s) (tasks_ s) (callback_threads_ s) (manager s) c.

(** [stop()] of [dualtimer.cc] *)
Definition stop_dual (s : state) : option state :=
  match stopper s with
  | SFlag =>
      if running_ s then
        Some (mkState false (tasks_ s) (callback_threads_ s) (manager s) SCancel)
      else Some (set_stopper SDone s)
  | SCancel =>
      if mutex_free s then
        Some (mkState (running_ s) 0 (callback_threads_ s) (manager s) SNotify)
      else None
  | SNotify =>
      Some (mkState (running_ s) (tasks_ s) (callback_threads_ s) (wake (manager s)) SJoin)
  | SJoin => if manager_ended s then Some (set_stopper SJoinCallbacks s) else None
  | SJoinCallbacks =>
      if (callback_threads_ s =? 0)%nat then Some (set_stopper SDone s) else None
  | SDone => None
  end.

(** [stop()] of [twomodestimer.cpp] *)
Definition stop_two (s : state) : option state :=
  match stopper s with
  | SFlag => Some (mkState false (tasks_ s) (callback_threads_ s) (manager s) SNotify)
  | SNotify =>
      Some (mkState (running_ s) (tasks_ s) (callback_threads_ s) (wake (manager s)) SJoin)
  | SJoin => if manager_ended s then Some (set_stopper SDone s) else None
  | _ => None
  end.

Definition dual_step (t : tid) (s : state) : option state :=
  match t with
  | Manager due => manager_step true due s
  | Timeout => match manager s with MWaitUntil => Some (set_manager MWoken s) | _ => None end
  | CallbackEnd =>
      match callback_threads_ s with
      | O => None
      | S n => Some (mkState (running_ s) (tasks_ s) n (manager s) (stopper s))
      end
  | Stop => stop_dual s
  | Client => client_step s
  end.

Definition two_step (t : tid) (s : state) : option state :=
  match t with
  | Manager due => manager_step false due s
  | Stop => stop_two s
  | _ => dual_step t s
  end.

(** Nobody can move but a client that adds another timer. *)
Definition blocked (step : tid -> state -> option state) (s : state) : Prop :=
  forall t, t <> Client -> step t s = None.

(** The wait that nobody ends: the manager waits without a timeout while [stop()],
    past its notification, waits for the manager. *)
Definition lost_wakeup (s : state) : Prop :=
  running_ s = false /\ manager s = MWait /\ stopper s = SJoin.

(** What holds throughout: the flag is up until [stop()] clears it, the manager leaves
    its loop only then, and [stop()] is past the join only when the manager has ended. *)
Definition shutdown_ok (joins : bool) (s : state) : bool :=
  Bool.eqb (running_ s) (match stopper s with SFlag => true | _ => false end) &&
  match manager s with MCleanup | MExited => negb (running_ s) | _ => true end &&
  match stopper s with
  | SJoinCallbacks => manager_ended s
  | SDone => manager_ended s && (negb joins || (callback_threads_ s =? 0)%nat)
  | _ => true
  end.

(** [two_step] has no [SCancel] and no [SJoinCallbacks]. *)
Definition two_ok (s : state) : bool :=
  shutdown_ok false s && match stopper s with SCancel | SJoinCallbacks => false | _ => true end.

Lemma dual_ok_step s t s' :
  shutdown_ok true s = true -> dual_step t s = Some s' -> shutdown_ok true s' = true.
Proof.
  destruct s as [[] n [|c] m p], t, m, p; cbn; try discriminate; intros _ H; simplify_eq/=; split_guards; done.
Qed.

Lemma two_ok_step s t s' : two_ok s = true -> two_step t s = Some s' -> two_ok s' = true.
Proof.
  destruct s as [[] n [|c] m p], t, m, p; cbn; try discriminate; intros _ H; simplify_eq/=; split_guards; done.
Qed.

Lemma dual_reachable_ok s : reachable dual_step started s -> shutdown_ok true s = true.
Proof. apply (reachable_inv dual_step (fun s => shutdown_ok true s = true)); [done|apply dual_ok_step]. Qed.

Lemma two_reachable_ok s : reachable two_step started s -> two_ok s = true.
Proof. apply (reachable_inv two_step (fun s => two_ok s = true)); [done|apply two_ok_step]. Qed.

Definition lost_wakeup_schedule : list tid := [Manager false; Stop; Stop; Stop; Manager false; Manager false].

(** [DualModeTimer::stop()] can hang: it may clear [running_] and notify after the
    manager has tested the flag and before it waits, and then no thread moves again
    (until a client adds a timer).  That is the only way: a reachable state in which
    nobody can move is either this one or the end of the stop, with the manager and
    every callback thread ended. *)
Theorem dual_stop_blocked :
  (exists s, reachable dual_step started s /\ lost_wakeup s /\ blocked dual_step s) /\
  forall s, reachable dual_step started s -> blocked dual_step s ->
    lost_wakeup s \/
    stopper s = SDone /\ manager s = MExited /\ callback_threads_ s = O.
Proof.
  split.
  - exists (mkState false 0 0 MWait SJoin). split_and!; [|done..|].
    + by apply (run_schedule_reachable _ lost_wakeup_schedule).
    + by intros [].
  - intros s Hok%dual_reachable_ok B.
    pose proof (B Stop) as Hs. pose proof (B (Manager true)) as Hm.
    pose proof (B Timeout) as Ht. pose proof (B CallbackEnd) as Hc.
    destruct s as [[] n [|c] m p], m, p; cbn in *; try discriminate;
      try (by specialize (Hc ltac:(done))); try (by specialize (Hs ltac:(done)));
      try (by specialize (Hm ltac:(done))); try (by specialize (Ht ltac:(done)));
      unfold lost_wakeup; cbn; auto; destruct n; by specialize (Hm ltac:(done)).
Qed.

(** the same in the first version, whose [stop()] cancels no timers. *)
Theorem two_stop_blocked :
  (exists s, reachable two_step started s /\ lost_wakeup s /\ blocked two_step s) /\
  forall s, reachable two_step started s -> blocked two_step s ->
    lost_wakeup s \/ stopper s = SDone /\ manager s = MExited.
Proof.
  split.
  - exists (mkState false 0 0 MWait SJoin). split_and!; [|done..|].
    + by apply (run_schedule_reachable _ [Manager false; Stop; Stop; Manager false; Manager false]).
    + by intros [].
  - intros s Hok%two_reachable_ok B.
    pose proof (B Stop) as Hs. pose proof (B (Manager true)) as Hm.
    pose proof (B Timeout) as Ht.
    destruct s as [[] n c m p], m, p; cbn in *; try discriminate;
      try (by specialize (Hs ltac:(done)));
      try (by specialize (Hm ltac:(done))); try (by specialize (Ht ltac:(done)));
      unfold lost_wakeup; cbn; auto; destruct n; by specialize (Hm ltac:(done)).
Qed.

(** ** [GracefulTimer]

    [GHold]: the mutex held, at the test of [empty()]; [GWaitFor]: in the timed wait
    with the predicate; [GPred]: notified there, the predicate to be tested again;
    [GWaitedFor]: past that wait; [GTop]: the queue is not empty; [GWaitUntil]: in the
    timed wait for the first task; [GCallback]: in a callback, without the mutex;
    [GRelock]: about to lock after it. *)
Inductive gpc :=
| GTest | GLock | GHold | GWaitFor | GPred | GWaitedFor | GTop | GWaitUntil | GCallback
| GRelock | GExited.

(** [stop()]: about to clear [running_], to notify, to join, to wait for the
    callbacks, to clear the collections; returned. *)
Inductive gspc := TFlag | TNotify | TJoin | TCallbacks | TClear | TDone.

Record gstate := mkG {
  g_running : bool;
  g_tasks : nat;
  g_manager : gpc;
  g_stopper : gspc;
}.

Definition g_started : gstate := mkG true 0 GTest TFlag.

(** [due]: the first task is due; [live]: it is active and not cancelled. *)
Inductive gtid := GManager (due live : bool) | GTimeout | GStop | GClient.

Definition g_mutex_free (s : gstate) : bool :=
  match g_manager s with GHold | GPred | GWaitedFor | GTop => false | _ => true end.

Definition g_wake (m : gpc) : gpc :=
  match m with GWaitFor => GPred | GWaitUntil => GTest | _ => m end.

Definition g_set (m : gpc) (s : gstate) : gstate :=
  mkG (g_running s) (g_tasks s) m (g_stopper s).

(** The predicate of the wait on an empty queue *)
Definition g_pred (s : gstate) : bool := negb (g_tasks s =? 0)%nat || negb (g_running s).

Definition g_manager_step (due live : bool) (s : gstate) : option gstate :=
  match g_manager s with
  | GTest => Some (g_set (if g_running s then GLock else GExited) s)
  | GLock => Some (g_set GHold s)
  | GHold => Some (g_set (if (g_tasks s =? 0)%nat then GPred else GTop) s)
  | GPred => Some (g_set (if g_pred s then GWaitedFor else GWaitFor) s)
  | GWaitFor | GWaitUntil => None
  | GWaitedFor =>
      Some (g_set (if negb (g_running s) then GExited
                   else if (g_tasks s =? 0)%nat then GTest else GTop) s)
  | GTop =>
      if due then
        Some (mkG (g_running s) (pred (g_tasks s)) (if live then GCallback else GTest) (g_stopper s))
      else Some (g_set GWaitUntil s)
  | GCallback => Some (g_set GRelock s)
  | GRelock => Some (g_set GTest s)
  | GExited => None
  end.

Definition g_stop_step (s : gstate) : option gstate :=
  match g_stopper s with
  | TFlag => Some (mkG false (g_tasks s) (g_manager s) (if g_running s then TNotify else TDone))
  | TNotify => Some (mkG (g_running s) (g_tasks s) (g_wake (g_manager s)) TJoin)
  | TJoin =>
      match g_manager s with
      | GExited => Some (mkG (g_running s) (g_tasks s) (g_manager s) TCallbacks)
      | _ => None
      end
  | TCallbacks => Some (mkG (g_running s) (g_tasks s) (g_manager s) TClear)
  | TClear => if g_mutex_free s then Some (mkG (g_running s) 0 (g_manager s) TDone) else None
  | TDone => None
  end.

Definition g_step (t : gtid) (s : gstate) : option gstate :=
  match t with
  | GManager due live => g_manager_step due live s
  | GTimeout =>
      match g_manager s with
      | GWaitFor => Some (g_set GWaitedFor s)
      | GWaitUntil => Some (g_set GTest s)
      | _ => None
      end
  | GStop => g_stop_step s
  | GClient =>
      if g_running s && g_mutex_free s then
        Some (mkG (g_running s) (S (g_tasks s)) (g_wake (g_manager s)) (g_stopper s))
      else None
  end.

(** The steps left once [running_] is cleared. *)
Definition g_weight (s : gstate) : nat :=
  (match g_manager s with
   | GExited => 0 | GTest => 1 | GWaitedFor => 1 | GPred => 2 | GRelock => 2 | GWaitUntil => 2
   | GWaitFor => 3 | GCallback => 3 | GTop => 4 | GHold => 5 | GLock => 6
   end +
   match g_stopper s with
   | TDone => 0 | TClear => 1 | TCallbacks => 2 | TJoin => 3 | TNotify => 4 | TFlag => 5
   end)%nat.

Definition g_ok (s : gstate) : bool :=
  Bool.eqb (g_running s) (match g_stopper s with TFlag => true | _ => false end) &&
  match g_manager s with GExited => negb (g_running s) | _ => true end &&
  match g_stopper s with
  | TCallbacks | TClear => match g_manager s with GExited => true | _ => false end
  | TDone => match g_manager s with GExited => (g_tasks s =? 0)%nat | _ => false end
  | _ => true
  end.

Lemma g_ok_step s t s' : g_ok s = true -> g_step t s = Some s' -> g_ok s' = true.
Proof.
  destruct s as [[] [|n] m p], t as [[] []| | |], m, p; cbn; try discriminate;
    intros _ H; by simplify_eq/=.
Qed.

Lemma g_reachable_ok s : reachable g_step g_started s -> g_ok s = true.
Proof. apply (reachable_inv g_step (fun s => g_ok s = true)); [done|apply g_ok_step]. Qed.

Lemma g_weight_step s t s' :
  g_ok s = true -> g_running s = false -> g_step t s = Some s' ->
  g_running s' = false /\ (g_weight s' < g_weight s)%nat.
Proof.
  destruct s as [[] [|n] m p], t as [[] []| | |], m, p; cbn; try discriminate;
    intros _ _ H; simplify_eq/=; (split; [done|cbn; lia]).
Qed.

Lemma g_run_weight sched s s' :
  g_ok s = true -> g_running s = false -> run_schedule g_step sched s = Some s' ->
  g_ok s' = true /\ (length sched + g_weight s' <= g_weight s)%nat.
Proof.
  revert s. induction sched as [|t sched IH]; cbn; intros s Hok Hr H; [by simplify_eq|].
  destruct (g_step t s) as [s1|] eqn:E; [|done].
  destruct (g_weight_step _ _ _ Hok Hr E) as [Hr1 Hlt].
  destruct (IH s1) as [? ?]; [by eapply g_ok_step|done|done|]. split; [done|lia].
Qed.

(** [GracefulTimer::stop()] always returns: once it has cleared [running_] at most
    ten more steps of any threads are possible, in whatever order, and a state in which
    no thread can move is one where stop() has returned, the manager thread has ended
    and no task is left. *)
Theorem graceful_stop_terminates s sched s' :
  reachable g_step g_started s -> g_running s = false ->
  run_schedule g_step sched s = Some s' ->
  (length sched <= 10)%nat /\
  (stuck g_step s' -> g_stopper s' = TDone /\ g_manager s' = GExited /\ g_tasks s' = O).
Proof.
  intros Hok%g_reachable_ok Hr H. destruct (g_run_weight _ _ _ Hok Hr H) as [Hok' Hw].
  split.
  - enough (g_weight s <= 10)%nat by lia.
    destruct s as [[] n m p], m, p; cbn in *; try discriminate; lia.
  - intros B. pose proof (B GStop) as H1. pose proof (B (GManager true true)) as H2.
    pose proof (B GTimeout) as H3.
    destruct s' as [[] [|n] m p], m, p; cbn in *; done.
Qed.

Definition g_mid_wait : list gtid :=
  [GManager true true; GManager true true; GManager true true; GManager true true; GStop].

Lemma graceful_stop_terminates_witness :
  reachable g_step g_started (mkG false 0 GWaitFor TNotify) /\
  (length [GStop; GManager true true; GManager true true; GStop; GStop; GStop] <= 10)%nat /\
  (stuck g_step (mkG false 0 GExited TDone) ->
   TDone = TDone /\ GExited = GExited /\ O = O).
Proof.
  assert (reachable g_step g_started (mkG false 0 GWaitFor TNotify)) as H
    by (apply (run_schedule_reachable _ g_mid_wait); reflexivity).
  split; [exact H|].
  exact (graceful_stop_terminates (mkG false 0 GWaitFor TNotify)
    [GStop; GManager true true; GManager true true; GStop; GStop; GStop]
    (mkG false 0 GExited TDone) H eq_refl eq_refl).
Defined.
End Shutdown.
