(* ===== verification/TimeWheel.v ===== *)
(** [TimeWheel] of [src/other/timer/timeWheel.cpp]: callbacks in the slots of a
    wheel that a worker thread turns by one slot per interval. *)
From S2P Require Import Prelude.

Module TimeWheel.

Section Model.
Context {CB : Type}.

Record state := mkState {
  slots_ : Z;
  interval_ms_ : Z;
  current_slot_ : Z;
  running_ : bool;
  wheel_ : list (list CB);
}.

(** [wheel_.resize(slots_)] throws when the [int] is negative, since it becomes a
    huge size ([None]). *)
Definition ctor (slots interval_ms : Z) : option state :=
  if slots <? 0 then None
  else Some (mkState slots interval_ms 0 false (replicate (Z.to_nat slots) [])).

(** The ticks until a delay has passed, rounded up; [int] arithmetic. *)
Definition ticks_of (s : state) (delay_ms : Z) : option Z :=
  a ← int_add delay_ms (interval_ms_ s);
  b ← int_sub a 1;
  int_div b (interval_ms_ s).

(** [None] is undefined behaviour: overflow, a zero divisor, or a slot outside the
    wheel. *)
Definition addTimer (delay_ms : Z) (callback : CB) (s : state) : option state :=
  ticks ← ticks_of s delay_ms;
  sum ← int_add (current_slot_ s) ticks;
  slot ← int_rem sum (slots_ s);
  if 0 <=? slot then
    old ← wheel_ s !! Z.to_nat slot;
    Some (mkState (slots_ s) (interval_ms_ s) (current_slot_ s) (running_ s)
            (<[Z.to_nat slot := old ++ [callback]]> (wheel_ s)))
  else None.

(** One turn of the worker's loop: the callbacks it runs, and the next state. *)
Definition tick (s : state) : option (list CB * state) :=
  if 0 <=? current_slot_ s then
    cbs ← wheel_ s !! Z.to_nat (current_slot_ s);
    sum ← int_add (current_slot_ s) 1;
    next ← int_rem sum (slots_ s);
    Some (cbs, mkState (slots_ s) (interval_ms_ s) next (running_ s)
                 (<[Z.to_nat (current_slot_ s) := []]> (wheel_ s)))
  else None.

(** What the worker sleeps after a turn that took [elapsed_us] microseconds. *)
Definition sleep_time (s : state) (elapsed_us : Z) : option Z :=
  let t := interval_ms_ s * 1000 - elapsed_us in
  if 0 <? t then Some t else None.

Definition stop (s : state) : state :=
  mkState (slots_ s) (interval_ms_ s) (current_slot_ s) false (wheel_ s).

(** ** The invariant of a wheel with sane parameters *)
Record wheel_inv (s : state) : Prop := {
  wi_slots : 0 < slots_ s < INT_MAX;
  wi_interval : 0 < interval_ms_ s <= INT_MAX;
  wi_current : 0 <= current_slot_ s < slots_ s;
  wi_length : Z.of_nat (length (wheel_ s)) = slots_ s;
}.

Lemma ctor_inv slots interval s :
  0 < slots < INT_MAX -> 0 < interval <= INT_MAX -> ctor slots interval = Some s -> wheel_inv s.
Proof.
  unfold ctor. intros ?? H. split_guards. split; cbn; [lia..|]. rewrite length_replicate. lia.
Qed.

(** [n] turns of the loop: what each of them runs. *)
Fixpoint turns (n : nat) (s : state) : option (list (list CB) * state) :=
  match n with
  | O => Some ([], s)
  | S n =>
      '(out, s1) ← turns n s;
      '(cbs, s2) ← tick s1;
      Some (out ++ [cbs], s2)
  end.

(** The slot [k] turns ahead *)
Definition slot_at (s : state) (k : nat) : nat :=
  Z.to_nat ((current_slot_ s + Z.of_nat k) `mod` slots_ s).

(** What the next full rotation will run, turn by turn *)
Definition rotation (s : state) : list (list CB) :=
  (fun k => wheel_ s !!! slot_at s k) <$> seq 0 (Z.to_nat (slots_ s)).

Lemma slot_at_lt s k : wheel_inv s -> (slot_at s k < length (wheel_ s))%nat.
Proof.
  intros []. unfold slot_at. pose proof (Z.mod_pos_bound (current_slot_ s + Z.of_nat k) (slots_ s)).
  lia.
Qed.

Lemma slot_at_inj s j k :
  wheel_inv s -> (Z.of_nat j < slots_ s) -> (Z.of_nat k < slots_ s) ->
  slot_at s j = slot_at s k -> j = k.
Proof.
  intros [] Hj Hk. unfold slot_at. intros E.
  pose proof (Z.mod_pos_bound (current_slot_ s + Z.of_nat j) (slots_ s)).
  pose proof (Z.mod_pos_bound (current_slot_ s + Z.of_nat k) (slots_ s)).
  assert ((current_slot_ s + Z.of_nat j) `mod` slots_ s =
          (current_slot_ s + Z.of_nat k) `mod` slots_ s) as E' by lia.
  rewrite (Z.mod_eq (_ + Z.of_nat j)), (Z.mod_eq (_ + Z.of_nat k)) in E' by lia.
  assert (slots_ s * ((current_slot_ s + Z.of_nat j) / slots_ s -
                      (current_slot_ s + Z.of_nat k) / slots_ s) = Z.of_nat j - Z.of_nat k) by lia.
  assert ((current_slot_ s + Z.of_nat j) / slots_ s =
          (current_slot_ s + Z.of_nat k) / slots_ s) by nia. lia.
Qed.

(** C++ remainder and mathematical modulus agree on what the wheel computes. *)
Lemma int_rem_mod a b :
  0 <= a <= INT_MAX -> 0 < b -> int_rem a b = Some (a `mod` b).
Proof.
  intros ? ?. unfold int_rem. rewrite (proj2 (Z.eqb_neq _ _)) by lia.
  rewrite Z.quot_div_nonneg by lia.
  assert (0 <= a / b <= a) by (split; [apply Z.div_pos; lia|apply Z.div_le_upper_bound; nia]).
  rewrite (proj2 (is_int_spec _)) by (unfold INT_MIN in *; lia).
  by rewrite Z.rem_mod_nonneg by lia.
Qed.

Lemma tick_ok s :
  wheel_inv s ->
  exists s', tick s = Some (wheel_ s !!! slot_at s 0, s') /\ wheel_inv s' /\
    slots_ s' = slots_ s /\ interval_ms_ s' = interval_ms_ s /\
    current_slot_ s' = (current_slot_ s + 1) `mod` slots_ s /\
    wheel_ s' = <[slot_at s 0 := []]> (wheel_ s).
Proof.
  intros I. pose proof I as [Hs Hi Hc Hl]. unfold tick.
  rewrite (proj2 (Z.leb_le _ _)) by lia.
  assert (slot_at s 0 = Z.to_nat (current_slot_ s)) as E0.
  { unfold slot_at. rewrite Z.add_0_r, Z.mod_small by lia. done. }
  destruct (lookup_lt_is_Some_2 (wheel_ s) (Z.to_nat (current_slot_ s))) as [l El]; [lia|].
  rewrite El; cbn. unfold int_add. rewrite chk_int_ok by (unfold INT_MIN, INT_MAX in *; lia).
  cbn. rewrite int_rem_mod by lia. cbn.
  rewrite E0. rewrite (list_lookup_total_correct _ _ _ El).
  eexists. split_and!; [done| |done..].
  split; cbn; [done|done| |by rewrite length_insert].
  apply Z.mod_pos_bound. lia.
Qed.

Lemma slot_at_succ s s' k :
  wheel_inv s -> slots_ s' = slots_ s ->
  current_slot_ s' = (current_slot_ s + Z.of_nat k) `mod` slots_ s ->
  forall j, slot_at s' j = slot_at s (k + j).
Proof.
  intros [] Hs Hc j. unfold slot_at. rewrite Hs, Hc, Zplus_mod_idemp_l. do 2 f_equal. lia.
Qed.

(** [n] turns, at most a rotation: turn [k] runs slot [k] of the original wheel. *)
Lemma turns_ok n s :
  wheel_inv s -> Z.of_nat n <= slots_ s ->
  exists s', turns n s = Some ((fun k => wheel_ s !!! slot_at s k) <$> seq 0 n, s') /\
    wheel_inv s' /\ slots_ s' = slots_ s /\
    current_slot_ s' = (current_slot_ s + Z.of_nat n) `mod` slots_ s /\
    forall j, (Z.of_nat j < slots_ s) ->
      wheel_ s' !!! slot_at s j = if decide (j < n)%nat then [] else wheel_ s !!! slot_at s j.
Proof.
  intros I. induction n as [|n IH]; intros Hn.
  - exists s. cbn. split_and!; [done|done|done| |].
    + rewrite Z.add_0_r, Z.mod_small; [done|apply I].
    + intros j _. by rewrite decide_False by lia.
  - destruct IH as (s1 & E1 & I1 & Hs1 & Hc1 & Hw1); [lia|].
    destruct (tick_ok s1 I1) as (s2 & E2 & I2 & Hs2 & _ & Hc2 & Hw2).
    pose proof (slot_at_succ s s1 n I Hs1 Hc1 0) as Hslot.
    replace (n + 0)%nat with n in Hslot by lia.
    exists s2. rewrite seq_S, fmap_app. cbn [turns]. rewrite E1; cbn. rewrite E2; cbn. split_and!.
    + do 4 f_equal. rewrite Hslot, Hw1 by lia. by rewrite decide_False by lia.
    + done.
    + congruence.
    + rewrite Hc2, Hs1, Hc1, Zplus_mod_idemp_l. f_equal. lia.
    + intros j Hj. rewrite Hw2, Hslot.
      destruct (decide (j = n)) as [->|Hne].
      * rewrite decide_True by lia. apply list_lookup_total_insert_eq.
        rewrite <- Hslot. by apply slot_at_lt.
      * rewrite list_lookup_total_insert_ne by (intros ?%slot_at_inj; [lia|done|lia|lia]).
        rewrite Hw1 by done. destruct (decide (j < n)%nat), (decide (j < S n)%nat); done || lia.
Qed.

(** A full rotation runs everything the wheel holds and leaves it empty. *)
Lemma turns_rotation s :
  wheel_inv s ->
  exists s', turns (Z.to_nat (slots_ s)) s = Some (rotation s, s') /\ wheel_inv s' /\
    slots_ s' = slots_ s /\ current_slot_ s' = current_slot_ s /\
    forall k, (Z.of_nat k < slots_ s) -> wheel_ s' !!! slot_at s k = [].
Proof.
  intros I. pose proof I as [? ? ? ?].
  destruct (turns_ok (Z.to_nat (slots_ s)) s I) as (s' & E & I' & Hs & Hc & Hw); [lia|].
  exists s'. split_and!; [done..| |].
  - rewrite Hc, Z2Nat.id by lia.
    replace (current_slot_ s + slots_ s) with (current_slot_ s + 1 * slots_ s) by lia.
    rewrite Z.mod_add by lia. by apply Z.mod_small.
  - intros k Hk. rewrite Hw by done. by rewrite decide_True by lia.
Qed.

Lemma ticks_of_ok s delay :
  wheel_inv s -> 0 <= delay -> delay + interval_ms_ s <= INT_MAX ->
  exists t, ticks_of s delay = Some t /\ 0 <= t /\
    (t - 1) * interval_ms_ s < delay <= t * interval_ms_ s /\ t <= delay.
Proof.
  intros [] Hd Hmax. unfold ticks_of, int_add, int_sub, int_div.
  rewrite chk_int_ok by (unfold INT_MIN; lia). cbn.
  rewrite chk_int_ok by (unfold INT_MIN; lia). cbn.
  rewrite (proj2 (Z.eqb_neq _ _)) by lia. rewrite Z.quot_div_nonneg by lia.
  set (t := (delay + interval_ms_ s - 1) / interval_ms_ s).
  assert (interval_ms_ s * t <= delay + interval_ms_ s - 1 < interval_ms_ s * (t + 1)) as Ht.
  { unfold t. split; [apply Z.mul_div_le; lia|].
    pose proof (Z.mul_succ_div_gt (delay + interval_ms_ s - 1) (interval_ms_ s)). lia. }
  assert (0 <= t) by (apply Z.div_pos; lia).
  assert (t <= delay) by nia.
  rewrite chk_int_ok by (unfold INT_MIN; lia).
  exists t. split_and!; [done|done|nia|nia|done].
Qed.

Lemma rotation_lookup s k :
  (k < Z.to_nat (slots_ s))%nat -> rotation s !! k = Some (wheel_ s !!! slot_at s k).
Proof. intros. unfold rotation. by rewrite list_lookup_fmap, lookup_seq_lt. Qed.

Lemma length_rotation s : length (rotation s) = Z.to_nat (slots_ s).
Proof. unfold rotation. by rewrite length_fmap, length_seq. Qed.

Lemma rotation_eq s (l : list (list CB)) :
  length l = Z.to_nat (slots_ s) ->
  (forall k, (k < Z.to_nat (slots_ s))%nat -> l !! k = Some (wheel_ s !!! slot_at s k)) ->
  rotation s = l.
Proof.
  intros Hl Hk. apply list_eq. intros k.
  destruct (decide (k < Z.to_nat (slots_ s))%nat) as [Hlt|Hge].
  - by rewrite rotation_lookup, Hk.
  - rewrite !lookup_ge_None_2; [done|lia|rewrite length_rotation; lia].
Qed.

(** Adding changes one turn of the rotation. *)
Lemma addTimer_rotation s delay cb t :
  wheel_inv s -> ticks_of s delay = Some t -> 0 <= t <= INT_MAX - slots_ s ->
  exists s' old, addTimer delay cb s = Some s' /\ wheel_inv s' /\ slots_ s' = slots_ s /\
    rotation s !! Z.to_nat (t `mod` slots_ s) = Some old /\
    rotation s' = <[Z.to_nat (t `mod` slots_ s) := old ++ [cb]]> (rotation s).
Proof.
  intros I Et Ht. pose proof I as [Hs Hi Hc Hl].
  set (slot := (current_slot_ s + t) `mod` slots_ s).
  assert (0 <= slot < slots_ s) as Hslot by (apply Z.mod_pos_bound; lia).
  set (turn := Z.to_nat (t `mod` slots_ s)).
  pose proof (Z.mod_pos_bound t (slots_ s) ltac:(lia)) as Hturn.
  assert (slot_at s turn = Z.to_nat slot) as Eturn.
  { unfold slot_at, turn, slot. by rewrite Z2Nat.id, Zplus_mod_idemp_r by lia. }
  destruct (lookup_lt_is_Some_2 (wheel_ s) (Z.to_nat slot)) as [old El]; [lia|].
  exists (mkState (slots_ s) (interval_ms_ s) (current_slot_ s) (running_ s)
            (<[Z.to_nat slot := old ++ [cb]]> (wheel_ s))), old.
  split_and!.
  - unfold addTimer, int_add. rewrite Et; cbn.
    rewrite chk_int_ok by (unfold INT_MIN; lia). cbn.
    rewrite int_rem_mod by lia. cbn. fold slot. rewrite (proj2 (Z.leb_le _ _)) by lia.
    by rewrite El.
  - split; cbn; [done..|by rewrite length_insert].
  - done.
  - rewrite rotation_lookup, Eturn by lia. f_equal. by apply list_lookup_total_correct.
  - apply rotation_eq; cbn; [by rewrite length_insert, length_rotation|]. intros k Hk.
    change (slot_at (mkState _ _ _ _ _) k) with (slot_at s k). rewrite <- Eturn.
    destruct (decide (turn = k)) as [<-|Hne].
    + rewrite list_lookup_insert_eq by (rewrite length_rotation; lia).
      rewrite list_lookup_total_insert_eq; [done|lia].
    + rewrite list_lookup_insert_ne, rotation_lookup by done.
      by rewrite list_lookup_total_insert_ne by (intros ?%slot_at_inj; [lia|done|lia|lia]).
Qed.

Lemma turns_cleared s :
  wheel_inv s -> exists s2, turns (Z.to_nat (slots_ s)) s = Some (rotation s, s2) /\
    rotation s2 = replicate (Z.to_nat (slots_ s)) [].
Proof.
  intros I. destruct (turns_rotation s I) as (s2 & E & I2 & Hs & Hc & Hw).
  exists s2. split; [done|]. apply rotation_eq; rewrite Hs; [by rewrite length_replicate|].
  intros k Hk. rewrite lookup_replicate_2 by done. f_equal.
  rewrite <- (Hw k) by lia. unfold slot_at. by rewrite Hs, Hc.
Qed.

(** adding a timer puts it into the turn of the next rotation that comes when its
    delay, rounded up to the interval, has passed, after the timers already there, and
    disturbs no other turn; a full rotation then runs it, once, with everything else and
    leaves the wheel empty.  A delay of [slots_] ticks or more is not counted in
    rotations: its turn is [ticks mod slots_]. *)
Theorem wheel_fires (s : state) (delay : Z) (cb : CB) :
  wheel_inv s -> 0 <= delay -> delay + interval_ms_ s + slots_ s <= INT_MAX ->
  exists t s' old, ticks_of s delay = Some t /\
    (t - 1) * interval_ms_ s < delay <= t * interval_ms_ s /\
    addTimer delay cb s = Some s' /\ wheel_inv s' /\
    rotation s !! Z.to_nat (t `mod` slots_ s) = Some old /\
    rotation s' = <[Z.to_nat (t `mod` slots_ s) := old ++ [cb]]> (rotation s) /\
    exists s2, turns (Z.to_nat (slots_ s)) s' = Some (rotation s', s2) /\
      rotation s2 = replicate (Z.to_nat (slots_ s)) [].
Proof.
  intros I Hd Hmax. pose proof I as [? ? ? ?].
  destruct (ticks_of_ok s delay I Hd) as (t & Et & Ht0 & Hb & Htd); [lia|].
  destruct (addTimer_rotation s delay cb t I Et) as (s' & old & Ea & I' & Hs & Eo & Er); [lia|].
  destruct (turns_cleared s' I') as (s2 & E2 & H2). rewrite Hs in E2, H2.
  exists t, s', old. split_and!; [done|lia|lia|done..|]. eauto.
Qed.

(** a delay that the wheel cannot hold fires early: a timer whose delay rounds to a
    full rotation or more runs before that many turns, hence before its delay. *)
Theorem wheel_long_delay_early (s : state) (delay t : Z) :
  wheel_inv s -> 0 <= delay -> delay + interval_ms_ s <= INT_MAX ->
  ticks_of s delay = Some t -> slots_ s <= t ->
  t `mod` slots_ s < t /\ t `mod` slots_ s * interval_ms_ s < delay.
Proof.
  intros I Hd Hmax Et Hle. pose proof I as [? ? ? ?].
  destruct (ticks_of_ok s delay I Hd Hmax) as (t' & Et' & _ & Hb & _).
  rewrite Et in Et'. injection Et' as <-. pose proof (Z.mod_pos_bound t (slots_ s) ltac:(lia)).
  assert (t `mod` slots_ s <= t - 1) by lia. split; [lia|nia].
Qed.
End Model.

Section Example.
Definition wheel8 : @state nat :=
  match ctor 8 10 with Some s => s | None => mkState 0 0 0 false [] end.

Lemma wheel8_inv : wheel_inv wheel8.
Proof. by apply (ctor_inv 8 10). Qed.

Lemma wheel_fires_witness :
  exists t s' old, ticks_of wheel8 25 = Some t /\
    (t - 1) * 10 < 25 <= t * 10 /\
    addTimer 25 7%nat wheel8 = Some s' /\ wheel_inv s' /\
    rotation wheel8 !! Z.to_nat (t `mod` 8) = Some old /\
    rotation s' = <[Z.to_nat (t `mod` 8) := old ++ [7%nat]]> (rotation wheel8) /\
    exists s2, turns (Z.to_nat 8) s' = Some (rotation s', s2) /\
      rotation s2 = replicate (Z.to_nat 8) [].
Proof. apply (wheel_fires wheel8 25 7%nat wheel8_inv); vm_compute; discriminate. Defined.

Lemma wheel_long_delay_early_witness :
  ticks_of wheel8 95 = Some 10 /\ 10 `mod` 8 < 10 /\ 10 `mod` 8 * 10 < 95.
Proof.
  split; [reflexivity|].
  apply (wheel_long_delay_early wheel8 95 10 wheel8_inv); vm_compute; discriminate || reflexivity.
Defined.

Example wheel_run :
  fst <$> (s ← addTimer 25 7%nat wheel8; s' ← addTimer 95 9%nat s; turns 8 s') =
    Some [[]; []; [9%nat]; [7%nat]; []; []; []; []].
Proof. vm_compute. reflexivity. Qed.
End Example.
End TimeWheel.
