(* ===== verification/SingleThreadTimer.v ===== *)
(** [TimerManager] of [src/other/timer/singleThreadPriQueue.cpp]: one-shot and
    periodic timers in a priority queue, run on one worker thread. *)
From S2P Require Import Prelude PQueue.

Module SingleThreadTimer.

Section Model.
Context {CB : Type}.

Record TimerTask := mkTask {
  expire_time : Z;
  callback_ : CB;
  intervals_ : Z;
  id : Z;
}.

(** [std::greater<TimerTask>], through [TimerTask::operator>]: the queue's top is the
    earliest. *)
Definition task_greater (t other : TimerTask) : bool := later expire_time t other.

#[export] Instance task_greater_swo : StrictWeakOrder task_greater := later_swo expire_time.

Context {Q : Type} {PQ : PriorityQueue TimerTask task_greater Q}.

Record state := mkState {
  tasks_ : Q;
  running_ : bool;
  next_id_ : Z;
}.

Definition ctor : state := mkState pq_empty false 0.
Definition start (s : state) : state := mkState (tasks_ s) true (next_id_ s).

(** [next_id_++] on an [int]: undefined when it overflows. *)
Definition addTimer (now delay_ms interval_ms : Z) (cb : CB) (s : state) : option (Z * state) :=
  next ← int_add (next_id_ s) 1;
  let task := mkTask (now + ns_of_ms delay_ms) cb interval_ms (next_id_ s) in
  Some (id task, mkState (pq_push task (tasks_ s)) (running_ s) next).

(** A periodic task goes back into the queue with this expiry: the interval counts
    as microseconds here. *)
Definition rearm (now : Z) (t : TimerTask) : TimerTask :=
  mkTask (now + ns_of_us (intervals_ t)) (callback_ t) (intervals_ t) (id t).

(** One iteration of the loop of [run]: the task whose callback it runs. *)
Definition run_iter (now : Z) (s : state) : option TimerTask * state :=
  if negb (running_ s) then (None, s)
  else match pq_top (tasks_ s) with
  | None => (None, s)
  | Some next_task =>
      if expire_time next_task <=? now then
        let q := pq_pop (tasks_ s) in
        (Some next_task,
         mkState (if 0 <? intervals_ next_task then pq_push (rearm now next_task) q else q)
           (running_ s) (next_id_ s))
      else (None, s)
  end.

(** ** Draining the queue at one clock value *)

Fixpoint run_iters (n : nat) (now : Z) (s : state) : list TimerTask * state :=
  match n with
  | O => ([], s)
  | S n =>
      let '(r, s1) := run_iter now s in
      let '(l, s2) := run_iters n now s1 in
      (match r with Some t => t :: l | None => l end, s2)
  end.

Definition is_due (now : Z) (t : TimerTask) : Prop := expire_time t <= now.

#[export] Instance is_due_dec now t : Decision (is_due now t).
Proof. unfold is_due. apply _. Defined.

Definition due_tasks (now : Z) (s : state) : list TimerTask :=
  filter (is_due now) (pq_elems (tasks_ s)).

Definition waiting_tasks (now : Z) (s : state) : list TimerTask :=
  filter (fun t => ~ is_due now t) (pq_elems (tasks_ s)).

(** The periodic ones among some tasks, rearmed. *)
Definition rearmed (now : Z) (l : list TimerTask) : list TimerTask :=
  rearm now <$> filter (fun t => 0 < intervals_ t) l.

Definition expire_le (t t' : TimerTask) : Prop := expire_time t <= expire_time t'.

Lemma rearm_not_due now t : 0 < intervals_ t -> ~ is_due now (rearm now t).
Proof. unfold is_due, rearm, ns_of_us; cbn. lia. Qed.

Lemma rearmed_one now t : rearmed now [t] = if 0 <? intervals_ t then [rearm now t] else [].
Proof.
  unfold rearmed. destruct (0 <? intervals_ t) eqn:Hi; zbool.
  - by rewrite filter_cons_True.
  - by rewrite filter_cons_False by lia.
Qed.

(** A due task at hand: the iteration runs the earliest one. *)
Lemma run_iter_due now s :
  running_ s = true -> due_tasks now s <> [] ->
  exists t s', run_iter now s = (Some t, s') /\ running_ s' = true /\ next_id_ s' = next_id_ s /\
    t :: due_tasks now s' ≡ₚ due_tasks now s /\
    (forall t', t' ∈ due_tasks now s -> expire_le t t') /\
    waiting_tasks now s' ≡ₚ rearmed now [t] ++ waiting_tasks now s.
Proof.
  intros Hr Hne. destruct (due_tasks now s) as [|t0 l0] eqn:Ed; [done|].
  assert (t0 ∈ due_tasks now s) as Ht0 by (rewrite Ed; apply list_elem_of_here).
  unfold due_tasks in Ht0. apply list_elem_of_filter in Ht0 as [Hd0 Hin0]. rewrite <- Ed. clear Hne Ed.
  destruct (pq_top_is_Some _ _ Hin0) as [t Ht].
  assert (forall t', t' ∈ pq_elems (tasks_ s) -> expire_le t t') as Hmin.
  { intros t' Hin. pose proof (pq_top_max _ _ _ Ht Hin) as H. unfold task_greater, later in H.
    rewrite Z.gtb_ltb in H. zbool. done. }
  pose proof (Hmin _ Hin0) as Hle.
  assert (is_due now t) as Hdue by (unfold is_due, expire_le in *; lia).
  setoid_rewrite rearmed_one. unfold run_iter. rewrite Hr, Ht; cbn.
  rewrite (proj2 (Z.leb_le _ _) Hdue). eexists _, _. split; [done|]. split_and!; [done|done| | | ].
  - unfold due_tasks; cbn. rewrite <- (pq_elems_pop _ _ Ht), filter_cons_True by done.
    destruct (0 <? intervals_ t) eqn:Hi; zbool; [|done].
    rewrite pq_elems_push, filter_cons_False; [done|by apply rearm_not_due].
  - intros t' [_ Hin]%list_elem_of_filter. auto.
  - unfold waiting_tasks; cbn. rewrite <- (pq_elems_pop _ _ Ht).
    rewrite (filter_cons_False (fun t => ~ is_due now t) t) by (intros H; by apply H).
    destruct (0 <? intervals_ t) eqn:Hi; zbool.
    + by rewrite pq_elems_push, filter_cons_True by (by apply rearm_not_due).
    + done.
Qed.

Lemma rearmed_app now l1 l2 : rearmed now (l1 ++ l2) = rearmed now l1 ++ rearmed now l2.
Proof. unfold rearmed. by rewrite filter_app, fmap_app. Qed.

Lemma rearmed_perm now l1 l2 : l1 ≡ₚ l2 -> rearmed now l1 ≡ₚ rearmed now l2.
Proof. intros E. unfold rearmed. by rewrite E. Qed.

(** at any clock value the worker's loop catches up: after as many iterations as
    there are due tasks it has run exactly these, each once and earliest first; no due
    task is left, the tasks not yet due are all still there, and the periodic ones it
    ran are queued again, strictly later. *)
Theorem single_thread_drain (now : Z) (s : state) :
  running_ s = true ->
  let '(l, s') := run_iters (length (due_tasks now s)) now s in
  l ≡ₚ due_tasks now s /\ StronglySorted expire_le l /\
  due_tasks now s' = [] /\
  waiting_tasks now s' ≡ₚ rearmed now (due_tasks now s) ++ waiting_tasks now s.
Proof.
  remember (length (due_tasks now s)) as n eqn:En. symmetry in En. revert s En.
  induction n as [|n IH]; intros s En Hr; cbn [run_iters].
  - apply nil_length_inv in En. rewrite En. split_and!; [done|constructor|done|done].
  - destruct (run_iter_due now s Hr) as (t & s1 & E & Hr1 & _ & Hp & Hmin & Hw); [by intros Hnil; rewrite Hnil in En|].
    rewrite E. specialize (IH s1).
    destruct (run_iters n now s1) as [l s2]. destruct IH as (Hl & Hs & Hd & Hwl); [|done|].
    { apply Permutation_length in Hp. cbn in Hp. lia. }
    split_and!.
    + by rewrite Hl.
    + constructor; [done|]. apply Forall_forall. intros t' Hin. apply Hmin.
      rewrite <- Hp. apply list_elem_of_further. by rewrite <- Hl.
    + done.
    + rewrite Hwl, Hw, <- (rearmed_perm now _ _ Hp).
      rewrite (rearmed_app now [t] (due_tasks now s1) : rearmed now (t :: due_tasks now s1) = _).
      rewrite !(assoc (++)). by rewrite (comm (++) (rearmed now (due_tasks now s1))).
Qed.

(** the interval of a periodic timer is taken for microseconds: a timer added with an
    interval of [interval_ms] that runs at [now] is queued for a thousandth of the
    interval later, so it is due again long before its interval has passed. *)
Theorem periodic_interval_in_us (now interval_ms : Z) (t : TimerTask) (s s' : state) :
  0 < interval_ms -> intervals_ t = interval_ms -> run_iter now s = (Some t, s') ->
  rearm now t ∈ pq_elems (tasks_ s') /\
  is_due (now + ns_of_us interval_ms) (rearm now t) /\
  1000 * (expire_time (rearm now t) - now) = ns_of_ms interval_ms.
Proof.
  intros Hi Ht. unfold run_iter. intros E. split_guards; zbool.
  - split; [|split].
    + apply pq_elem_push. by left.
    + unfold is_due, rearm; cbn. lia.
    + unfold rearm, ns_of_us, ns_of_ms; cbn. lia.
  - lia.
Qed.
End Model.

Section Example.
Let Q := list_queue (@task_greater nat).

Definition example : state (Q := Q) :=
  match (s ← snd <$> addTimer 0 1000 1000 1%nat (start ctor);
         snd <$> addTimer 0 5000 0 2%nat s) with
  | Some s => s | None => ctor
  end.

Lemma single_thread_drain_witness :
  running_ example = true /\
  let '(l, s') := run_iters (length (due_tasks 5000000000 example)) 5000000000 example in
  l ≡ₚ due_tasks 5000000000 example /\ StronglySorted expire_le l /\
  due_tasks 5000000000 s' = [] /\
  waiting_tasks 5000000000 s' ≡ₚ
    rearmed 5000000000 (due_tasks 5000000000 example) ++ waiting_tasks 5000000000 example.
Proof.
  split; [reflexivity|]. apply (single_thread_drain 5000000000 example). reflexivity.
Defined.

Lemma periodic_interval_in_us_witness :
  rearm 1000000000 (mkTask 1000000000 1%nat 1000 0) ∈
    pq_elems (tasks_ (run_iter 1000000000 example).2) /\
  is_due (1000000000 + ns_of_us 1000) (rearm 1000000000 (mkTask 1000000000 1%nat 1000 0)) /\
  1000 * (expire_time (rearm 1000000000 (mkTask 1000000000 1%nat 1000 0)) - 1000000000) =
    ns_of_ms 1000.
Proof.
  apply (periodic_interval_in_us 1000000000 1000 (mkTask 1000000000 1%nat 1000 0)
           example (run_iter 1000000000 example).2); [done|reflexivity|vm_compute; reflexivity].
Defined.

(** [main()]: the timer meant to run every second runs again a millisecond later. *)
Example runs_again_after_1ms :
  (run_iters 2 1001000000 (run_iter 1000000000 example).2).1 =
    [mkTask 1001000000 1%nat 1000 0].
Proof. vm_compute. reflexivity. Qed.
End Example.
End SingleThreadTimer.
