(* ===== verification/BasicTimer.v ===== *)
(** The class [Timer] of [basic_timer.cpp]: one thread at a time, which waits for its delay on a
    condition variable, and [stop], which clears the flag, notifies and joins.  Steps are single
    atomic actions; the mutex is locked by that thread only and orders nothing. *)
From S2P Require Import Prelude.

Module BasicTimer.

(** [setTimeout] and [setInterval] *)
Inductive kind := Once | Every.

(** The thread: the test of the loop, the entry of [wait_for], the test of its predicate, about
    to block, blocked until a time, the test after the time is over, the test before the
    callback, the callback; ended *)
Inductive wpc := WLoop | WEnter | WTest (until : Z) | WGoing (until : Z) | WAsleep (until : Z) | WTimedOut | WCheck | WCall | WDone.

Record worker := mkWorker {
  wkind : kind;
  id : nat;
  period : Z;
  place : wpc;
}.

(** The client: between two calls; in [stop]; what [setTimeout] and [setInterval] do after it *)
Inductive cpc := CIdle | CClear | CNotify | CJoin | CArm | CSpawn.

(** [next]: what the call sets after [stop], [None] for [stop], [reset] and the destructor;
    [made]: kind, delay and beginning of every thread, [fired]: which called its function and
    when, [stop_at]: when [stop] cleared the flag *)
Record timer := mkTimer {
  active_ : bool;
  thread_ : option worker;
  client : cpc;
  next : option (kind * Z);
  now : Z;
  made : list (kind * Z * Z);
  fired : list (nat * Z);
  stop_at : Z;
}.
Definition new_timer (t : Z) : timer := mkTimer false None CIdle None t [] [] t.

Definition set_client (c : cpc) (s : timer) : timer :=
  mkTimer (active_ s) (thread_ s) c (next s) (now s) (made s) (fired s) (stop_at s).
Definition set_place (w : worker) (p : wpc) (s : timer) : timer :=
  mkTimer (active_ s) (Some (mkWorker (wkind w) (id w) (period w) p)) (client s) (next s) (now s) (made s) (fired s) (stop_at s).

(** After the callback or without it *)
Definition again (k : kind) : wpc := match k with Once => WDone | Every => WLoop end.

Definition worker_step (s : timer) : option timer :=
  w ← thread_ s;
  match place w with
  | WLoop => Some (set_place w (if active_ s then WEnter else WDone) s)
  | WEnter => Some (set_place w (WTest (now s + period w)) s)
  | WTest until => Some (set_place w (if active_ s then WGoing until else WDone) s)
  | WGoing until => Some (set_place w (WAsleep until) s)
  | WAsleep until => if until <=? now s then Some (set_place w WTimedOut s) else None
  | WTimedOut => Some (set_place w (if active_ s then WCheck else WDone) s)
  | WCheck => Some (set_place w (if active_ s then WCall else again (wkind w)) s)
  | WCall =>
      Some (mkTimer (active_ s) (Some (mkWorker (wkind w) (id w) (period w) (again (wkind w)))) (client s) (next s) (now s) (made s)
              (fired s ++ [(id w, now s)]) (stop_at s))
  | WDone => None
  end.

Definition wake (s : timer) : timer :=
  match thread_ s with
  | Some w => match place w with WAsleep until => set_place w (WTest until) s | _ => s end
  | None => s
  end.

Definition first_place (k : kind) : wpc := match k with Once => WEnter | Every => WLoop end.

(** [stop] has joined the thread. *)
Definition joined (s : timer) : timer :=
  mkTimer (active_ s) None (match next s with None => CIdle | Some _ => CArm end) (next s) (now s) (made s) (fired s) (stop_at s).

Definition client_step (s : timer) : option timer :=
  match client s with
  | CIdle => None
  | CClear => Some (mkTimer false (thread_ s) CNotify (next s) (now s) (made s) (fired s) (now s))
  | CNotify => Some (set_client CJoin (wake s))
  | CJoin =>
      match thread_ s with
      | None => Some (joined s)
      | Some w => match place w with WDone => Some (joined s) | _ => None end
      end
  | CArm => Some (mkTimer true (thread_ s) CSpawn (next s) (now s) (made s) (fired s) (stop_at s))
  | CSpawn =>
      match next s with
      | None => None
      | Some (k, d) =>
          Some (mkTimer (active_ s) (Some (mkWorker k (length (made s)) d (first_place k))) CIdle (next s) (now s)
                  (made s ++ [(k, d, now s)]) (fired s) (stop_at s))
      end
  end.

(** A call of [setTimeout], [setInterval], [stop], [reset] or the destructor *)
Definition begin_call (c : option (kind * Z)) (s : timer) : option timer :=
  match client s with
  | CIdle => Some (mkTimer (active_ s) (thread_ s) CClear c (now s) (made s) (fired s) (stop_at s))
  | _ => None
  end.

Inductive action := Call (c : option (kind * Z)) | Client | Worker | Tick (d : Z) | Spurious.

Definition step (a : action) (s : timer) : option timer :=
  match a with
  | Call c => begin_call c s
  | Client => client_step s
  | Worker => worker_step s
  | Tick d =>
      if 0 <=? d
      then Some (mkTimer (active_ s) (thread_ s) (client s) (next s) (now s + d) (made s) (fired s) (stop_at s))
      else None
  | Spurious => Some (wake s)
  end.

(** The program of the file: 3 seconds, reset after 2; then every second *)
Definition set_ (k : kind) (d : Z) : list action := [Call (Some (k, d)); Client; Client; Client; Client; Client].
Definition turn (d : Z) : list action := [Worker; Worker; Worker; Worker; Tick d; Worker; Worker; Worker; Worker].
Example main_fires :
  (fun s => (fired s, active_ s)) <$> run_schedule step
    (set_ Once 3000 ++ [Worker; Worker; Worker; Tick 2000; Call None; Client; Client; Worker; Client] ++
     set_ Every 1000 ++ turn 1000 ++ turn 1000) (new_timer 0)
  = Some ([(1%nat, 3000); (1%nat, 4000)], true).
Proof. vm_compute. reflexivity. Qed.

(** ** What holds of all runs *)

(** When a timer called its function *)
Definition times (k : nat) (l : list (nat * Z)) : list Z := (filter (fun p => p.1 = k) l).*2.
#[local] Arguments times : simpl never.

Fixpoint spaced (d t : Z) (l : list Z) : Prop :=
  match l with [] => True | x :: l => t + d <= x /\ spaced d x l end.

Definition latest (t : Z) (l : list Z) : Z := default t (last l).

Lemma times_snoc k j t l : times k (l ++ [(j, t)]) = times k l ++ if decide (j = k) then [t] else [].
Proof. unfold times. rewrite filter_app, fmap_app. cbn. by destruct (decide _). Qed.

Lemma latest_snoc t l x : latest t (l ++ [x]) = x.
Proof. unfold latest. by rewrite last_snoc. Qed.

Lemma latest_cons t x l : latest t (x :: l) = latest x l.
Proof. unfold latest. rewrite last_cons. by destruct (last l). Qed.

Lemma spaced_snoc d l x : forall t, spaced d t (l ++ [x]) <-> spaced d t l /\ latest t l + d <= x.
Proof. induction l as [|y l IH]; intros t; cbn; [tauto|]. rewrite IH, latest_cons. tauto. Qed.

(** What a thread has waited for at its place *)
Definition place_ok (last_ : Z) (time : Z) (w : worker) (past : list Z) : Prop :=
  last_ <= time /\
  match place w with
  | WTest u | WGoing u | WAsleep u => last_ + period w <= u <= time + Z.max 0 (period w)
  | WTimedOut | WCheck | WCall => last_ + period w <= time
  | _ => True
  end /\
  (wkind w = Once -> place w <> WLoop /\ (place w <> WDone -> past = [])).

Definition timer_ok (s : timer) (k : nat) (m : kind * Z * Z) : Prop :=
  spaced m.1.2 m.2 (times k (fired s)) /\ (m.1.1 = Once -> (length (times k (fired s)) <= 1)%nat).

Record ok (s : timer) : Prop := {
  k_made : forall k m, made s !! k = Some m -> timer_ok s k m;
  k_future : forall k, (length (made s) <= k)%nat -> times k (fired s) = [];
  k_worker : forall w, thread_ s = Some w -> S (id w) = length (made s) /\
    exists t0, made s !! id w = Some (wkind w, period w, t0) /\
      place_ok (latest t0 (times (id w) (fired s))) (now s) w (times (id w) (fired s));
  k_client : match client s with
    | CIdle => next s = None -> thread_ s = None
    | CArm | CSpawn => thread_ s = None
    | _ => True
    end;
  k_active : match client s with CNotify | CJoin | CArm => active_ s = false | _ => True end;
  k_stop : match client s with CNotify | CJoin => stop_at s <= now s /\
      (forall w u, thread_ s = Some w -> place w = WGoing u \/ place w = WAsleep u -> u <= stop_at s + Z.max 0 (period w))
    | _ => True end;
}.

Lemma new_timer_ok t : ok (new_timer t).
Proof. split; cbn; try done. Qed.

(** Only the thread moves on, to a place where it has waited as long. *)
Lemma ok_place s w p :
  thread_ s = Some w -> ok s ->
  (wkind w = Once -> p <> WLoop /\ (p <> WDone -> place w <> WDone)) ->
  (forall t0, place_ok t0 (now s) w (times (id w) (fired s)) ->
     match p with
     | WTest u | WGoing u | WAsleep u => t0 + period w <= u <= now s + Z.max 0 (period w)
     | WTimedOut | WCheck | WCall => t0 + period w <= now s
     | _ => True
     end) ->
  (forall u, active_ s = false -> p = WGoing u \/ p = WAsleep u -> place w = WGoing u \/ place w = WAsleep u) ->
  ok (set_place w p s).
Proof.
  intros Ew [H1 H2 H3 H4 H5 H6] Ho Hp Hu. destruct (H3 w Ew) as (Hid & t0 & Hm & Hk). pose proof Hk as (G1 & G2 & G3).
  split; cbn; try done.
  - intros w' [= <-]. cbn. split; [done|]. exists t0. split; [done|]. split_and!; cbn; [done|by apply Hp|].
    intros E. destruct (Ho E) as [Ho1 Ho2], (G3 E) as [_ G4]. split; [done|]. intros Hd. by apply G4, Ho2.
  - destruct (client s); try done; [intros E; specialize (H4 E)|..]; congruence.
  - destruct (client s); try done; destruct H6 as [H6 H7]; (split; [done|]); intros w' u [= <-]; cbn; intros E;
      by apply (H7 w u Ew), Hu.
Qed.

Lemma wake_ok s : ok s -> ok (wake s).
Proof.
  intros I. unfold wake. destruct (thread_ s) as [w|] eqn:Ew; [|done]. destruct (place w) eqn:Ep; try done.
  apply ok_place; try done; [|by intros t0 (_ & G & _); rewrite Ep in G|by intros u _ [?|?]]. intros Hk. rewrite Ep. done.
Qed.

Lemma worker_step_ok s s' : ok s -> worker_step s = Some s' -> ok s'.
Proof.
  intros I E. unfold worker_step in E. apply bind_Some in E as (w & Ew & E).
  assert (Hone : wkind w = Once -> place w <> WLoop).
  { intros Hk. destruct (k_worker _ I w Ew) as (_ & t0 & _ & _ & _ & G). by apply G. }
  destruct (place w) as [| |u|u|u| | | |] eqn:Ep; try done; try (injection E as <-).
  - apply ok_place; try done; destruct (active_ s); try done; first [intros Hk; by specialize (Hone Hk eq_refl)|by intros v _ [?|?]].
  - apply ok_place; try done; [by rewrite Ep|intros t0 (G & _); lia|by intros ? _ [?|?]].
  - apply ok_place; try done; [rewrite Ep; by destruct (active_ s)|intros t0 (_ & G & _); rewrite Ep in G; by destruct (active_ s)|].
    intros v Ha. rewrite Ha. by intros [?|?].
  - apply ok_place; try done; [by rewrite Ep|by intros t0 (_ & G & _); rewrite Ep in G|].
    intros v _ [?|E]; [done|]. injection E as ->. by left.
  - destruct (Z.leb_spec u (now s)) as [Hu|]; [|done]. injection E as <-.
    apply ok_place; try done; [by rewrite Ep|intros t0 (_ & G & _); rewrite Ep in G; lia|by intros ? _ [?|?]].
  - apply ok_place; try done; [rewrite Ep; by destruct (active_ s)|intros t0 (_ & G & _); rewrite Ep in G; by destruct (active_ s)|].
    intros v _. by destruct (active_ s); intros [?|?].
  - apply ok_place; try done; [rewrite Ep; intros ->; by destruct (active_ s)| |].
    + intros t0 (_ & G & _). rewrite Ep in G. destruct (active_ s); [done|]. by destruct (wkind w).
    + intros v _. destruct (active_ s), (wkind w); by intros [?|?].
  - destruct I as [H1 H2 H3 H4 H5 H6]. destruct (H3 w Ew) as (Hid & t0 & Hm & G1 & G2 & G3). rewrite Ep in G2. split; cbn; try done.
    + intros k m Hk. specialize (H1 k m Hk). unfold timer_ok in *. cbn. rewrite times_snoc. destruct (decide (id w = k)) as [<-|]; [|by rewrite app_nil_r].
      rewrite Hm in Hk. injection Hk as <-. cbn in *. destruct H1 as [Hs Ho]. split; [by apply spaced_snoc|]. intros E. destruct (G3 E) as [_ G4].
      rewrite G4 by (by rewrite Ep). cbn. lia.
    + intros k Hk. rewrite times_snoc, decide_False by lia. rewrite app_nil_r. by apply H2.
    + intros w' [= <-]. cbn. split; [done|]. exists t0. split; [done|]. rewrite times_snoc, decide_True, latest_snoc by done.
      split_and!; cbn; [lia|by destruct (wkind w)|]. by intros ->.
    + destruct (client s); try done; [intros E; specialize (H4 E)|..]; congruence.
    + destruct (client s); try done; destruct H6 as [H6 _]; (split; [done|]); intros w' u [= <-]; cbn; by destruct (wkind w); intros [?|?].
Qed.

(** Steps that leave thread, timers and firings alone *)
Lemma ok_client s a c n t :
  ok s -> (now s <= t) ->
  match c with CIdle => n = None -> thread_ s = None | CArm | CSpawn => thread_ s = None | _ => True end ->
  match c with CNotify | CJoin | CArm => a = false | _ => True end ->
  forall st, match c with
  | CNotify | CJoin => st <= t /\
      (forall w u, thread_ s = Some w -> place w = WGoing u \/ place w = WAsleep u -> u <= st + Z.max 0 (period w))
  | _ => True end ->
  ok (mkTimer a (thread_ s) c n t (made s) (fired s) st).
Proof.
  intros [H1 H2 H3 H4 H5 H6] Ht Hc Ha st Hs. split; cbn; try done. intros w Ew.
  destruct (H3 w Ew) as (Hid & t0 & Hm & G1 & G2 & G3). split; [done|]. exists t0. split; [done|].
  split_and!; [lia| |done]. destruct (place w); lia || done.
Qed.

Lemma joined_ok s : client s = CJoin -> ok s -> ok (joined s).
Proof.
  intros Ec [H1 H2 H3 H4 H5 H6]. rewrite Ec in H5. split; cbn; try done; by destruct (next s).
Qed.

Lemma client_step_ok s s' : ok s -> client_step s = Some s' -> ok s'.
Proof.
  intros I E. unfold client_step in E. destruct (client s) eqn:Ec; try done.
  - injection E as <-. apply ok_client; try done. cbn. split; [lia|]. intros w u Ew Hp.
    destruct (k_worker _ I w Ew) as (_ & t0 & _ & _ & G & _). destruct Hp as [Hp|Hp]; rewrite Hp in G; lia.
  - injection E as <-. pose proof (wake_ok _ I) as J. pose proof (k_active _ J) as Ha. pose proof (k_stop _ J) as Hs.
    assert (Ew : client (wake s) = CNotify) by (unfold wake; by repeat case_match). rewrite Ew in Ha, Hs.
    apply (ok_client (wake s)); done.
  - destruct (thread_ s) as [w|] eqn:Ew; [|injection E as <-; by apply joined_ok].
    destruct (place w); try done. injection E as <-. by apply joined_ok.
  - injection E as <-. pose proof (k_client _ I) as Hc. rewrite Ec in Hc. apply ok_client; done.
  - destruct (next s) as [[k d]|]; [|done]. injection E as <-. pose proof I as [H1 H2 H3 H4 H5 H6].
    rewrite Ec in H4. assert (Hnew : times (length (made s)) (fired s) = []) by (apply H2; lia). split; cbn; try done.
    + intros j m Hj. destruct (decide (j < length (made s))%nat).
      * rewrite lookup_app_l in Hj by done. by apply H1.
      * unfold timer_ok. cbn. rewrite (H2 j) by lia. cbn. split; [done|lia].
    + intros j Hj. apply H2. rewrite length_app in Hj. lia.
    + intros w [= <-]. cbn. rewrite length_app. cbn. split; [lia|]. exists (now s). rewrite lookup_app_r, Nat.sub_diag by lia. split; [done|].
      unfold place_ok. cbn. rewrite Hnew. unfold latest. cbn. split_and!; [lia|by destruct k|]. by intros ->.
Qed.

Lemma step_ok_ a s s' : ok s -> step a s = Some s' -> ok s'.
Proof.
  intros I E. destruct a as [c| | |d|]; cbn in E.
  - unfold begin_call in E. destruct (client s) eqn:Ec; try done. injection E as <-. apply ok_client; done.
  - by eapply client_step_ok.
  - by eapply worker_step_ok.
  - destruct (Z.leb_spec 0 d); [|done]. injection E as <-. pose proof I as [H1 H2 H3 H4 H5 H6].
    apply ok_client; try done; [lia|]. destruct (client s); try done; destruct H6; (split; [lia|done]).
  - injection E as <-. by apply wake_ok.
Qed.

Lemma run_ok_ t l s : run_schedule step l (new_timer t) = Some s -> ok s.
Proof.
  intros E. apply run_schedule_reachable in E. revert s E. apply reachable_inv; [apply new_timer_ok|].
  intros s a s'. apply step_ok_.
Qed.

(** The fired list only grows, by timers that are the last made *)
Lemma step_fires a s s' : ok s -> step a s = Some s' ->
  (made s' = made s \/ exists m, made s' = made s ++ [m]) /\
  (fired s' = fired s \/ exists w, thread_ s = Some w /\ S (id w) = length (made s) /\ fired s' = fired s ++ [(id w, now s)]) /\
  (thread_ s = None -> thread_ s' = None \/ length (made s') = S (length (made s))).
Proof.
  intros I E. assert (Hw : forall s, made (wake s) = made s /\ fired (wake s) = fired s /\ (thread_ s = None -> thread_ (wake s) = None)).
  { intros s0. unfold wake. destruct (thread_ s0) as [w|] eqn:Ew; [destruct (place w)|]; by rewrite ?Ew. }
  destruct (Hw s) as (W1 & W2 & W3). destruct a as [c| | |d|]; cbn in E.
  - unfold begin_call in E. destruct (client s); try done. injection E as <-. cbn. auto.
  - unfold client_step in E. destruct (client s); try done; [injection E as <-; cbn; auto|injection E as <-; cbn; rewrite W1, W2; auto|..].
    + destruct (thread_ s) as [w|]; [destruct (place w); try done|]; injection E as <-; cbn; auto.
    + injection E as <-. cbn. auto.
    + destruct (next s) as [[k d]|]; [|done]. injection E as <-. cbn. split_and!; [eauto|auto|]. intros _. right. rewrite length_app. cbn. lia.
  - unfold worker_step in E. apply bind_Some in E as (w & Ew & E). rewrite Ew.
    destruct (place w) eqn:Ep; try done; try (injection E as <-; cbn; by split_and!; auto).
    + case_match; [|done]. injection E as <-. cbn. by split_and!; auto.
    + injection E as <-. cbn. split_and!; [auto| |done]. right. exists w. by destruct (k_worker _ I w Ew) as [Hid _].
  - case_match; [|done]. injection E as <-. cbn. auto.
  - injection E as <-. rewrite W1, W2. auto.
Qed.

(** Timers that were made before a moment without a thread *)
Lemma old_timers_silent n l : forall s s',
  ok s -> (n <= length (made s))%nat -> (thread_ s = None \/ (n < length (made s))%nat) -> run_schedule step l s = Some s' ->
  forall k, (k < n)%nat -> times k (fired s') = times k (fired s).
Proof.
  induction l as [|a l IH]; intros s s' I Hn Ht E k Hk; cbn [run_schedule] in E; [by simplify_eq|].
  destruct (step a s) as [s1|] eqn:E1; [|done]. destruct (step_fires _ _ _ I E1) as (F1 & F2 & F3).
  assert (Hlen : (length (made s) <= length (made s1))%nat) by (destruct F1 as [->|[m ->]]; rewrite ?length_app; lia).
  rewrite (IH s1 s'); try done; [|by eapply step_ok_|lia|].
  - destruct F2 as [->|(w & Ew & Hid & ->)]; [done|]. rewrite times_snoc, decide_False, app_nil_r; [done|].
    destruct Ht as [Ht|Ht]; [congruence|lia].
  - destruct Ht as [Ht|Ht]; [|right; lia]. destruct (F3 Ht) as [|F]; [by left|right; lia].
Qed.

(** ** [stop] *)

Definition out_of_stop (c : cpc) : bool := match c with CIdle | CArm | CSpawn => true | _ => false end.

(** The turns the thread has left when the flag is cleared *)
Definition left_turns (p : wpc) : nat :=
  match p with WDone => 0 | WLoop | WTest _ | WTimedOut => 1 | WEnter | WAsleep _ | WCheck | WCall => 2 | WGoing _ => 3 end.
Definition thread_turns (s : timer) : nat := match thread_ s with Some w => left_turns (place w) | None => 0 end.

Definition turns (l : list action) : nat := sum_list_with (fun a => match a with Worker => 1 | _ => 0 end)%nat l.

Lemma step_out a s s' : step a s = Some s' -> (forall c, a <> Call c) -> out_of_stop (client s) = true -> out_of_stop (client s') = true.
Proof.
  intros E Ha Ho. destruct a as [c| | |d|]; cbn in E; [by destruct (Ha c)|..].
  - unfold client_step in E. destruct (client s); try done; [by injection E as <-|].
    destruct (next s) as [[]|]; [|done]. by injection E as <-.
  - unfold worker_step in E. apply bind_Some in E as (w & _ & E). repeat case_match; by simplify_eq.
  - case_match; by simplify_eq.
  - injection E as <-. unfold wake. by repeat case_match.
Qed.

(** One step in [stop], and a step of the thread in it *)
Lemma step_join a s s' :
  step a s = Some s' -> client s = CJoin -> active_ s = false -> a <> Spurious -> (forall c, a <> Call c) ->
  out_of_stop (client s') = true \/
  client s' = CJoin /\ active_ s' = false /\ (turns [a] + thread_turns s' <= thread_turns s)%nat.
Proof.
  intros E Ec Ea Hs Ha. unfold thread_turns, turns. destruct a as [c| | |d|]; cbn in E |- *; try done; [by destruct (Ha c)|..].
  - left. unfold client_step in E. rewrite Ec in E. destruct (thread_ s) as [w|]; [destruct (place w); try done|];
      injection E as <-; cbn; by destruct (next s).
  - right. unfold worker_step in E. apply bind_Some in E as (w & Ew & E). rewrite Ew.
    destruct (place w); rewrite ?Ea in E; try done; try (injection E as <-; cbn; split_and!; try done; destruct (wkind w); cbn; lia).
    case_match; [|done]. injection E as <-. cbn. split_and!; done || lia.
  - right. case_match; [|done]. injection E as <-. done.
Qed.

Lemma turns_cons a l : turns (a :: l) = (turns [a] + turns l)%nat.
Proof. unfold turns. cbn. lia. Qed.

Lemma run_out l : forall s s', run_schedule step l s = Some s' -> (forall c, Call c ∉ l) -> out_of_stop (client s) = true ->
  out_of_stop (client s') = true.
Proof.
  induction l as [|a l IH]; intros s s' E Hc Ho; cbn [run_schedule] in E; [by simplify_eq|].
  destruct (step a s) as [s1|] eqn:E1; [|done]. apply (IH s1 s'); [done|set_solver|].
  apply (step_out a s); [done| |done]. intros c ->. destruct (Hc c). left.
Qed.

Lemma run_join l : forall s s',
  run_schedule step l s = Some s' -> client s = CJoin -> active_ s = false -> client s' = CJoin ->
  (Spurious ∉ l) -> (forall c, Call c ∉ l) -> (turns l <= thread_turns s)%nat.
Proof.
  induction l as [|a l IH]; intros s s' E Ec Ea Ec' Hs Hc; cbn [run_schedule] in E; [by apply Nat.le_0_l|].
  destruct (step a s) as [s1|] eqn:E1; [|done].
  assert (Ha : forall c, a <> Call c) by (intros c ->; destruct (Hc c); left).
  assert (Has : a <> Spurious) by (intros ->; destruct Hs; left).
  assert (Hcl : forall c, Call c ∉ l) by (intros c Hin; destruct (Hc c); by right).
  destruct (step_join a s s1 E1 Ec Ea Has Ha) as [Ho|(F1 & F2 & F3)].
  - pose proof (run_out l s1 s' E Hcl Ho) as Hout. by rewrite Ec' in Hout.
  - rewrite turns_cons. pose proof (IH s1 s' E F1 F2 Ec' ltac:(set_solver) Hcl). lia.
Qed.

(** C34: a timer calls its function never before its delay is over, [setTimeout] at most once and
    [setInterval] with at least its delay between two calls, and when [stop] has returned
    or a new timer is set no timer that was set before calls its function any more, whatever
    the order of the steps. *)
Theorem basic_timer_safe t l s :
  run_schedule step l (new_timer t) = Some s ->
  (forall k kd d t0, made s !! k = Some (kd, d, t0) ->
     spaced d t0 (times k (fired s)) /\ (kd = Once -> (length (times k (fired s)) <= 1)%nat)) /\
  (client s = CArm \/ client s = CIdle /\ next s = None ->
     forall l' s' k, run_schedule step l' s = Some s' -> (k < length (made s))%nat -> times k (fired s') = times k (fired s)).
Proof.
  intros E. pose proof (run_ok_ t l s E) as I. split.
  - intros k kd d t0 Hk. by apply (k_made _ I k (kd, d, t0)).
  - intros Hc l' s' k E' Hk. apply (old_timers_silent (length (made s)) l' s s'); try done. left.
    pose proof (k_client _ I) as H. destruct Hc as [Hc|[Hc Hn]]; rewrite Hc in H; auto.
Qed.

Definition three_seconds : list action := set_ Once 3 ++ [Worker; Worker; Worker; Tick 3; Worker; Worker; Worker; Worker; Call None; Client; Client; Client].
Lemma basic_timer_safe_witness :
  exists s, run_schedule step three_seconds (new_timer 0) = Some s /\ times 0 (fired s) = [3] /\
    forall l' s' k, run_schedule step l' s = Some s' -> (k < 1)%nat -> times k (fired s') = times k (fired s).
Proof.
  eexists. split; [vm_compute; reflexivity|]. split; [reflexivity|].
  apply (basic_timer_safe 0 three_seconds); [vm_compute; reflexivity|right; split; reflexivity].
Defined.

(** [stop] returns: once it waits for the thread this takes at most three more turns, if it
    is not woken for nothing, and never hangs: from the moment the delay has passed since
    the flag was cleared, one of the two can go on, with no notification needed. *)
Theorem basic_stop_returns t l0 s :
  run_schedule step l0 (new_timer t) = Some s -> client s = CJoin ->
  (forall l s', run_schedule step l s = Some s' -> client s' = CJoin -> (Spurious ∉ l) -> (forall c, Call c ∉ l) -> (turns l <= 3)%nat) /\
  ((forall w, thread_ s = Some w -> stop_at s + Z.max 0 (period w) <= now s) ->
     is_Some (step Worker s) \/ is_Some (step Client s)).
Proof.
  intros E Ec. pose proof (run_ok_ t l0 s E) as I. pose proof (k_active _ I) as Ha. pose proof (k_stop _ I) as Hs. rewrite Ec in Ha, Hs. split.
  - intros l s' El Ec' H1 H2. pose proof (run_join l s s' El Ec Ha Ec' H1 H2) as H. unfold thread_turns in H.
    destruct (thread_ s) as [w|]; [|lia]. destruct (place w); cbn in H; lia.
  - intros Hnow. cbn. unfold worker_step, client_step. rewrite Ec. destruct (thread_ s) as [w|] eqn:Ew; [|right; by eexists].
    cbn. destruct (place w) as [| |u|u|u| | | |] eqn:Ep; try (left; by eexists); [|right; by eexists].
    destruct Hs as [_ Hs]. specialize (Hs w u eq_refl (or_intror Ep)). specialize (Hnow w eq_refl).
    rewrite (proj2 (Z.leb_le u (now s))) by lia. left. by eexists.
Qed.

Lemma basic_stop_returns_witness :
  exists s, run_schedule step (set_ Once 3 ++ [Worker; Worker; Call None; Client; Client; Worker; Tick 3]) (new_timer 0) = Some s /\
    client s = CJoin /\ (is_Some (step Worker s) \/ is_Some (step Client s)).
Proof.
  eexists. split; [vm_compute; reflexivity|]. split; [reflexivity|].
  apply (basic_stop_returns 0 (set_ Once 3 ++ [Worker; Worker; Call None; Client; Client; Worker; Tick 3]));
    [vm_compute; reflexivity|reflexivity|]. intros w E. injection E as <-. cbn. lia.
Defined.

(** Asleep in [stop] until the delay is over *)
Definition late (d : Z) (s : timer) : Prop :=
  d <= now s \/ client s = CJoin /\ exists w, thread_ s = Some w /\ place w = WAsleep d.

Lemma step_late d a s s' : late d s -> a <> Spurious -> step a s = Some s' -> late d s'.
Proof.
  intros H Ha E. destruct H as [H|(Hc & w & Ew & Ep)].
  - left. enough (now s <= now s') by lia. destruct a as [c| | |e|]; cbn in E.
    + unfold begin_call in E. destruct (client s); try done. by injection E as <-.
    + unfold client_step, wake in E. repeat case_match; simplify_eq; done.
    + unfold worker_step in E. apply bind_Some in E as (w & _ & E). repeat case_match; simplify_eq; done.
    + destruct (Z.leb_spec 0 e); [|done]. injection E as <-. cbn. lia.
    + done.
  - destruct a as [c| | |e|]; cbn in E; try done.
    + unfold begin_call in E. by rewrite Hc in E.
    + unfold client_step in E. by rewrite Hc, Ew, Ep in E.
    + unfold worker_step in E. rewrite Ew in E. cbn in E. rewrite Ep in E.
      destruct (Z.leb_spec d (now s)); [|done]. injection E as <-. by left.
    + case_match; [|done]. injection E as <-. right. split; [done|]. by exists w.
Qed.

Lemma run_late d l : forall s s', late d s -> run_schedule step l s = Some s' -> (Spurious ∉ l) -> late d s'.
Proof.
  induction l as [|a l IH]; intros s s' H E Hs; cbn [run_schedule] in E; [by simplify_eq|].
  destruct (step a s) as [s1|] eqn:E1; [|done]. apply (IH s1 s'); [|done|set_solver].
  apply (step_late d a s s1); [done| |done]. intros ->. destruct Hs. left.
Qed.

(** [stop] can take the whole delay: its notification may fall between the test of the
    predicate and the sleep of the thread, which then sleeps to the end of its delay. *)
Theorem stop_takes_the_delay d :
  exists s, run_schedule step (set_ Once d ++ [Worker; Worker; Call None; Client; Client; Worker]) (new_timer 0) = Some s /\
    now s = 0 /\ client s = CJoin /\
    forall l s', run_schedule step l s = Some s' -> (Spurious ∉ l) -> client s' <> CJoin -> d <= now s'.
Proof.
  exists (mkTimer false (Some (mkWorker Once 0 d (WAsleep d))) CJoin None 0 [(Once, d, 0)] [] 0).
  split; [reflexivity|]. split; [done|]. split; [done|]. intros l s' E Hs Hc.
  assert (H : late d s') by (eapply run_late; [|exact E|exact Hs]; right; split; [done|by eexists]).
  by destruct H as [H|[H _]].
Qed.
End BasicTimer.
