(* ===== verification/AsyncTimer.v ===== *)
(** [Timer] of [src/other/timer/testtimer/Timer.hpp]: blocking, one-shot and periodic
    timers, each waiting in a thread of its own with a reference into the map
    [timers_].  [crashed] marks undefined behaviour (a use of a map entry that has been
    erased) and [std::terminate] (an exception that leaves a detached thread). *)
From S2P Require Import Prelude.

Module AsyncTimer.

Inductive State := IDLE | SCHEDULED | RUNNING | CANCELLED | EXPIRED.

Definition state_eqb (x y : State) : bool :=
  match x, y with
  | IDLE, IDLE | SCHEDULED, SCHEDULED | RUNNING, RUNNING | CANCELLED, CANCELLED
  | EXPIRED, EXPIRED => true
  | _, _ => false
  end.

Record TimerInfo := mkInfo {
  st : State;
  expiry : Z;
  interval : Z;
  callback : option nat;
  cv : bool;
  promise : bool;
  isPeriodic : bool;
}.

(** A default-constructed entry, as [timers_[id]] makes one. *)
Definition default_info : TimerInfo := mkInfo IDLE 0 0 None false false false.

Definition with_state (x : State) (i : TimerInfo) : TimerInfo :=
  mkInfo x (expiry i) (interval i) (callback i) (cv i) (promise i) (isPeriodic i).

(** Where the thread of a timer is.  [B..]: in [blockFor], between its two critical
    sections or waiting; [A..]: in [asyncTimerThread]; [P..]: in [periodicTimerThread],
    at the head of its loop, waiting, in the callback. *)
Inductive pc :=
| BMiddle | BWaiting
| ABegin | AWaiting | ACalling
| PBegin | PWaiting | PCalling
| Ended (result : option bool).

(** Identifiers are not reused, so a reference into [timers_] is valid exactly while
    its identifier is in the map.  [promises]: what each promise holds. *)
Record state := mkState {
  timers_ : gmap Z TimerInfo;
  nextId_ : Z;
  promises : gmap Z (option bool);
  threads : gmap Z pc;
  called : list Z;
  crashed : bool;
}.

Definition init : state := mkState ∅ 1 ∅ ∅ [] false.

Definition set_timers (m : gmap Z TimerInfo) (s : state) : state :=
  mkState m (nextId_ s) (promises s) (threads s) (called s) (crashed s).
Definition set_thread (id : Z) (p : pc) (s : state) : state :=
  mkState (timers_ s) (nextId_ s) (promises s) (<[id := p]> (threads s)) (called s) (crashed s).
Definition set_state (id : Z) (x : State) (i : TimerInfo) (s : state) : state :=
  set_timers (<[id := with_state x i]> (timers_ s)) s.
Definition erase (id : Z) (s : state) : state := set_timers (delete id (timers_ s)) s.
Definition call (id : Z) (s : state) : state :=
  mkState (timers_ s) (nextId_ s) (promises s) (threads s) (called s ++ [id]) (crashed s).
Definition crash (s : state) : state :=
  mkState (timers_ s) (nextId_ s) (promises s) (threads s) (called s) true.

(** [promise->set_value(v)]; [None] is the [future_error] of a promise already satisfied. *)
Definition set_value (id : Z) (v : bool) (s : state) : option state :=
  match promises s !! id with
  | Some None =>
      Some (mkState (timers_ s) (nextId_ s) (<[id := Some v]> (promises s)) (threads s)
              (called s) (crashed s))
  | _ => None
  end.

Definition generateId (s : state) : Z * state :=
  (nextId_ s, mkState (timers_ s) (wrapU 64 (nextId_ s + 1)) (promises s) (threads s)
                (called s) (crashed s)).

(** ** The client's operations *)

(** [blockFor] up to the end of its first critical section *)
Definition blockFor (now d : Z) (s : state) : Z * state :=
  let '(id, s) := generateId s in
  (id, set_thread id BMiddle
         (set_timers (<[id := mkInfo SCHEDULED (now + d) 0 None true false false]> (timers_ s)) s)).

Definition asyncAfter (now d : Z) (cb : option nat) (s : state) : Z * state :=
  let '(id, s) := generateId s in
  let s := set_timers (<[id := mkInfo SCHEDULED (now + d) 0 cb false true false]> (timers_ s)) s in
  (id, set_thread id ABegin
         (mkState (timers_ s) (nextId_ s) (<[id := None]> (promises s)) (threads s)
            (called s) (crashed s))).

Definition asyncEvery (now d : Z) (cb : nat) (s : state) : Z * state :=
  let '(id, s) := generateId s in
  (id, set_thread id PBegin
         (set_timers (<[id := mkInfo SCHEDULED (now + d) d (Some cb) false false true]> (timers_ s)) s)).

Definition active (x : State) : bool :=
  match x with SCHEDULED | RUNNING => true | _ => false end.

(** [None]: the [future_error] of [set_value] reaches the caller. *)
Definition cancel (id : Z) (s : state) : option bool * state :=
  match timers_ s !! id with
  | None => (Some false, s)
  | Some i =>
      if active (st i) then
        let s1 := set_state id CANCELLED i s in
        if promise i then
          match set_value id false s1 with
          | Some s2 => (Some true, erase id s2)
          | None => (None, s1)
          end
        else (Some true, erase id s1)
      else (Some false, s)
  end.

(** One round of the loop of [cancelAll]; a [future_error] is caught. *)
Definition cancel_one (id : Z) (i : TimerInfo) (s : state) : state :=
  if active (st i) then
    let s1 := set_state id CANCELLED i s in
    if promise i then default s1 (set_value id false s1) else s1
  else s.

Definition cancelAll (s : state) : state :=
  set_timers ∅ (map_fold cancel_one s (timers_ s)).

Definition getState (id : Z) (s : state) : State :=
  match timers_ s !! id with Some i => st i | None => IDLE end.

Definition activeCount (s : state) : nat := size (timers_ s).

(** ** The threads *)

(** A thread uses its reference to entry [id]. *)
Definition deref (id : Z) (s : state) (k : TimerInfo -> state) : state :=
  match timers_ s !! id with Some i => k i | None => crash s end.

(** [promise->set_value(v); timers_.erase(id); return] at the end of an async thread *)
Definition finish_async (id : Z) (v : bool) (s : state) : state :=
  match set_value id v s with
  | Some s1 => set_thread id (Ended None) (erase id s1)
  | None => crash s
  end.

(** [asyncTimerThread], to its wait *)
Definition async_begin (id : Z) (s : state) : state :=
  match timers_ s !! id with
  | None =>
      match set_value id false s with
      | Some s1 => set_thread id (Ended None) s1
      | None => crash s
      end
  | Some i => set_thread id AWaiting (set_state id RUNNING i s)
  end.

(** A wake-up in [asyncTimerThread]: after a timeout, or spurious *)
Definition async_wake (id : Z) (timeout : bool) (s : state) : state :=
  deref id s (fun i =>
    if state_eqb (st i) RUNNING then
      if timeout then
        let s1 := set_state id EXPIRED i s in
        match callback i with
        | Some _ => set_thread id ACalling s1
        | None => finish_async id true s1
        end
      else s
    else finish_async id false s).

(** The callback runs from the entry, the mutex released, then the thread ends. *)
Definition async_called (id : Z) (s : state) : state :=
  deref id s (fun _ => finish_async id true (call id s)).

(** The head of the loop of [periodicTimerThread] *)
Definition periodic_begin (id : Z) (s : state) : state :=
  match timers_ s !! id with
  | Some i =>
      if state_eqb (st i) SCHEDULED then set_thread id PWaiting (set_state id RUNNING i s)
      else set_thread id (Ended None) s
  | None => set_thread id (Ended None) s
  end.

(** Its wait: over when the interval has passed or the state is no longer [RUNNING]. *)
Definition periodic_wake (id : Z) (timeout : bool) (s : state) : state :=
  deref id s (fun i =>
    if state_eqb (st i) RUNNING then
      if timeout then set_thread id PCalling s else s
    else if state_eqb (st i) CANCELLED then set_thread id (Ended None) (erase id s)
    else set_thread id (if timeout then PCalling else PBegin) s).

(** The thread runs its own copy of the callback, then looks at the entry again. *)
Definition periodic_called (now : Z) (id : Z) (s : state) : state :=
  let s1 := call id s in
  deref id s1 (fun i =>
    set_thread id PBegin
      (if state_eqb (st i) RUNNING then
         set_timers (<[id := mkInfo SCHEDULED (now + interval i) (interval i) (callback i)
                               (cv i) (promise i) (isPeriodic i)]> (timers_ s1)) s1
       else s1)).

Definition block_finish (id : Z) (r : bool) (s : state) : state :=
  set_thread id (Ended (Some r)) (erase id s).

(** The second critical section of [blockFor], which looks the entry up again *)
Definition block_middle (id : Z) (s : state) : state :=
  let i := default default_info (timers_ s !! id) in
  if state_eqb (st i) SCHEDULED then set_thread id BWaiting s else block_finish id false s.

Definition block_wake (id : Z) (timeout : bool) (s : state) : state :=
  deref id s (fun i =>
    if state_eqb (st i) SCHEDULED then
      if timeout then block_finish id true s else s
    else block_finish id false s).

(** One step of the thread of timer [id]: [now] is the clock, [timeout] whether its wait
    has timed out. *)
Definition thread_step (now : Z) (timeout : bool) (id : Z) (s : state) : state :=
  match threads s !! id with
  | Some BMiddle => block_middle id s
  | Some BWaiting => block_wake id timeout s
  | Some ABegin => async_begin id s
  | Some AWaiting => async_wake id timeout s
  | Some ACalling => async_called id s
  | Some PBegin => periodic_begin id s
  | Some PWaiting => periodic_wake id timeout s
  | Some PCalling => periodic_called now id s
  | Some (Ended _) | None => s
  end.

Inductive op :=
| OBlockFor (now d : Z)
| OAsyncAfter (now d : Z) (cb : option nat)
| OAsyncEvery (now d : Z) (cb : nat)
| OStep (now : Z) (timeout : bool) (id : Z).

Definition exec (o : op) (s : state) : state * list unit :=
  (match o with
   | OBlockFor now d => (blockFor now d s).2
   | OAsyncAfter now d cb => (asyncAfter now d cb s).2
   | OAsyncEvery now d cb => (asyncEvery now d cb s).2
   | OStep now timeout id => thread_step now timeout id s
   end, []).

(** Everything but a cancellation, in any interleaving *)
Definition uncancelled (ops : list op) : state := (run exec ops init).1.

(** ** The invariant, timer by timer *)

Definition calls (id : Z) (s : state) : nat := length (filter (fun j => j = id) (called s)).

Definition entry (x : State) (pm : bool) (i : option TimerInfo) : Prop :=
  exists i', i = Some i' /\ st i' = x /\ promise i' = pm.

(** A thread with its timer's entry, promise and number of callback runs *)
Definition local_ok (p : option pc) (i : option TimerInfo) (pr : option (option bool))
    (n : nat) : Prop :=
  match p with
  | None => i = None /\ pr = None
  | Some BMiddle | Some BWaiting => entry SCHEDULED false i /\ pr = None
  | Some ABegin => entry SCHEDULED true i /\ pr = Some None /\ n = O
  | Some AWaiting => entry RUNNING true i /\ pr = Some None /\ n = O
  | Some ACalling => entry EXPIRED true i /\ pr = Some None /\ n = O
  | Some PBegin => entry SCHEDULED false i /\ pr = None
  | Some PWaiting | Some PCalling => entry RUNNING false i /\ pr = None
  | Some (Ended r) =>
      i = None /\ (r = Some true /\ pr = None \/ r = None /\ pr = Some (Some true) /\ (n <= 1)%nat)
  end.

Record sound (k : nat) (s : state) : Prop := {
  sd_fine : crashed s = false;
  sd_next : nextId_ s = Z.of_nat k + 1;
  sd_fresh : forall id, nextId_ s <= id -> threads s !! id = None;
  sd_called : forall id, id ∈ called s -> is_Some (threads s !! id);
  sd_local : forall id, local_ok (threads s !! id) (timers_ s !! id) (promises s !! id) (calls id s);
}.

(** What a step of one timer leaves alone *)
Record frame (id : Z) (s s' : state) : Prop := {
  fr_next : nextId_ s' = nextId_ s;
  fr_crashed : crashed s' = crashed s;
  fr_thread : is_Some (threads s' !! id);
  fr_called : called s' = called s \/ called s' = called s ++ [id];
  fr_others : forall j, j <> id ->
    threads s' !! j = threads s !! j /\ timers_ s' !! j = timers_ s !! j /\
    promises s' !! j = promises s !! j;
}.

Lemma calls_app id j s s' :
  called s' = called s ++ [id] -> calls j s' = (calls j s + if decide (id = j) then 1 else 0)%nat.
Proof.
  unfold calls. intros ->. rewrite filter_app, length_app. f_equal.
  destruct (decide (id = j)) as [->|Hne].
  - by rewrite filter_cons_True.
  - by rewrite filter_cons_False.
Qed.

Lemma sound_frame k id s s' :
  sound k s -> is_Some (threads s !! id) -> frame id s s' ->
  local_ok (threads s' !! id) (timers_ s' !! id) (promises s' !! id) (calls id s') ->
  sound k s'.
Proof.
  intros [Hf Hn Hfr Hc Hl] Hs [Fn Fc Ft Fcl Fo] Hid. split.
  - congruence.
  - congruence.
  - intros j Hj. rewrite Fn in Hj. destruct (decide (j = id)) as [->|Hne].
    + rewrite (Hfr _ Hj) in Hs. by destruct Hs.
    + destruct (Fo j Hne) as (-> & _). auto.
  - intros j Hj. destruct (decide (j = id)) as [->|Hne]; [done|].
    destruct (Fo j Hne) as (-> & _). apply Hc. destruct Fcl as [E|E]; rewrite E in Hj; [done|].
    apply elem_of_app in Hj as [?|?%list_elem_of_singleton]; done.
  - intros j. destruct (decide (j = id)) as [->|Hne]; [done|].
    destruct (Fo j Hne) as (-> & -> & ->).
    assert (calls j s' = calls j s) as ->; [|done].
    destruct Fcl as [E|E]; [unfold calls; by rewrite E|].
    rewrite (calls_app _ _ _ _ E), decide_False by done. lia.
Qed.

(** A step that sets a thread, and maybe the timer's entry, promise and calls. *)
Lemma frame_intro id p e (pr : gmap Z (option bool)) cl s :
  (forall j, j <> id -> e !! j = timers_ s !! j) ->
  (forall j, j <> id -> pr !! j = promises s !! j) ->
  cl = called s \/ cl = called s ++ [id] ->
  frame id s (mkState e (nextId_ s) pr (<[id := p]> (threads s)) cl (crashed s)).
Proof.
  intros He Hpr Hcl. split; cbn; [done|done|by rewrite lookup_insert_eq|done|].
  intros j Hj. by rewrite lookup_insert_ne, He, Hpr by done.
Qed.

Lemma frame_refl id s : is_Some (threads s !! id) -> frame id s s.
Proof. intros. split; auto. Qed.

Ltac frame_tac :=
  first [apply frame_refl; by eauto
        |apply frame_intro; cbn;
         [intros j Hj; by rewrite ?lookup_insert_ne, ?lookup_delete_ne, ?lookup_insert_ne by done
         |intros j Hj; by rewrite ?lookup_insert_ne by done|by auto]].

Ltac unfold_steps :=
  unfold thread_step, block_middle, block_wake, block_finish, async_begin, async_wake, async_called,
    finish_async, periodic_begin, periodic_wake, periodic_called, deref, set_value, set_state,
    erase, set_timers, set_thread, call, crash.

Lemma step_local now timeout id s p :
  threads s !! id = Some p ->
  local_ok (Some p) (timers_ s !! id) (promises s !! id) (calls id s) ->
  let s' := thread_step now timeout id s in
  frame id s s' /\
  local_ok (threads s' !! id) (timers_ s' !! id) (promises s' !! id) (calls id s').
Proof.
  intros Hp Hl s'. unfold s'; clear s'. unfold_steps. rewrite Hp.
  destruct p as [| | | | | | | |r]; cbn in Hl;
    try destruct Hl as [(i & Ei & Est & Epm) Hl]; cbn; rewrite ?Ei; cbn; rewrite ?Est; cbn.
  all: try match goal with |- context [if ?b then _ else _] => is_var b; destruct b end.
  all: try (destruct (callback i)); 
    match type of Hl with _ /\ _ => destruct Hl as [Hpr Hn] | _ => rename Hl into Hpr end;
    rewrite ?Hpr; cbn.
  all: split; [frame_tac|].
  all: cbn; rewrite ?lookup_insert_eq, ?lookup_delete_eq, ?Hp; cbn; rewrite ?Ei, ?Hpr.
  all: try done; split_and?; try done; try (eexists; split_and!; done).
  all: first [by left|right; split_and!; [done|done|]]; unfold calls in Hn; cbn;
    rewrite ?filter_app, ?length_app, ?filter_cons_True by done; cbn; lia.
Qed.

Lemma sound_fresh k s : sound k s ->
  threads s !! nextId_ s = None /\ timers_ s !! nextId_ s = None /\ promises s !! nextId_ s = None /\
  calls (nextId_ s) s = O.
Proof.
  intros I. assert (threads s !! nextId_ s = None) as Ht by (apply (sd_fresh _ _ I); lia).
  pose proof (sd_local _ _ I (nextId_ s)) as Hl. rewrite Ht in Hl. destruct Hl as [-> ->].
  split_and!; [done..|]. unfold calls.
  destruct (filter _ (called s)) as [|j l] eqn:E; [done|]. exfalso.
  assert (j ∈ filter (fun j => j = nextId_ s) (called s)) as Hj by (rewrite E; apply list_elem_of_here).
  apply list_elem_of_filter in Hj as [-> [p Hj]%(sd_called _ _ I)]. congruence.
Qed.

(** Creating a timer *)
Lemma sound_create k s p info pr :
  Z.of_nat k + 2 < 2 ^ 64 -> sound k s ->
  local_ok (Some p) (Some info) (pr !! nextId_ s) O ->
  (forall j, j <> nextId_ s -> pr !! j = promises s !! j) ->
  sound (S k) (mkState (<[nextId_ s := info]> (timers_ s)) (wrapU 64 (nextId_ s + 1)) pr
                 (<[nextId_ s := p]> (threads s)) (called s) (crashed s)).
Proof.
  intros Hk I Hl Hpr. destruct (sound_fresh _ _ I) as (Ht & Hti & Hp0 & Hc0).
  pose proof (sd_next _ _ I) as Hn.
  assert (wrapU 64 (nextId_ s + 1) = nextId_ s + 1) as Hw by (apply wrapU_small; lia).
  split; cbn; rewrite ?Hw.
  - apply I.
  - lia.
  - intros id Hid. rewrite lookup_insert_ne by lia. apply (sd_fresh _ _ I). lia.
  - intros id Hid. rewrite lookup_insert. case_decide; [eauto|]. by apply (sd_called _ _ I).
  - intros id. unfold calls in *; cbn.
    destruct (decide (nextId_ s = id)) as [<-|Hne].
    + by rewrite !lookup_insert_eq, Hc0.
    + rewrite !lookup_insert_ne, Hpr by done. apply (sd_local _ _ I).
Qed.

Lemma sound_exec k o s : Z.of_nat k + 2 < 2 ^ 64 -> sound k s ->
  exists k', (k' <= S k)%nat /\ sound k' (exec o s).1.
Proof.
  intros Hk I. destruct (sound_fresh _ _ I) as (_ & _ & Hp & _). destruct o as [now d|now d cb|now d cb|now t id]; cbn.
  - exists (S k). split; [done|].
    apply (sound_create k s BMiddle (mkInfo SCHEDULED (now + d) 0 None true false false) (promises s));
      [done|done|split; [by eexists|done]|done].
  - exists (S k). split; [done|].
    apply (sound_create k s ABegin (mkInfo SCHEDULED (now + d) 0 cb false true false)
             (<[nextId_ s := None]> (promises s))); [done|done| |].
    + cbn. rewrite lookup_insert_eq. split_and!; [by eexists|done|done].
    + intros j Hj. by rewrite lookup_insert_ne.
  - exists (S k). split; [done|].
    apply (sound_create k s PBegin (mkInfo SCHEDULED (now + d) d (Some cb) false false true) (promises s));
      [done|done|split; [by eexists|done]|done].
  - exists k. split; [lia|]. destruct (threads s !! id) as [p|] eqn:Ep.
    + pose proof (sd_local _ _ I id) as Hl. rewrite Ep in Hl.
      destruct (step_local now t id s p Ep Hl) as [Hfr Hl'].
      by eapply sound_frame; [|rewrite Ep; eauto|..].
    + unfold thread_step. by rewrite Ep.
Qed.

Lemma sound_uncancelled ops :
  Z.of_nat (length ops) + 2 < 2 ^ 64 ->
  exists k, (k <= length ops)%nat /\ sound k (uncancelled ops).
Proof.
  intros Hlen. unfold uncancelled.
  apply (run_inv_bounded exec (fun n s _ => exists k, (k <= n)%nat /\ sound k s) (length ops)).
  - exists O. split; [done|]. split; cbn; [done|done|by intros; apply lookup_empty| |].
    + by intros id ?%elem_of_nil.
    + intros id. by rewrite !lookup_empty.
  - intros n o s evs Hn (k & Hk & I).
    destruct (sound_exec k o s) as (k' & ? & ?); [lia|done|]. exists k'. split; [lia|done].
  - done.
Qed.

(** as long as nothing is cancelled, no interleaving of [blockFor], [asyncAfter],
    [asyncEvery] and the steps of their threads uses an erased entry or satisfies a
    promise twice; a thread that has ended has removed its entry, a one-shot callback
    has run at most once, and its promise is true (a blocking call returned true). *)
Theorem uncancelled_safe (ops : list op) :
  Z.of_nat (length ops) + 2 < 2 ^ 64 ->
  crashed (uncancelled ops) = false /\
  forall id r, threads (uncancelled ops) !! id = Some (Ended r) ->
    timers_ (uncancelled ops) !! id = None /\
    (r = Some true \/
     promises (uncancelled ops) !! id = Some (Some true) /\ (calls id (uncancelled ops) <= 1)%nat).
Proof.
  intros (k & _ & I)%sound_uncancelled. split; [apply I|]. intros id r Hr.
  pose proof (sd_local _ _ I id) as Hl. rewrite Hr in Hl. naive_solver.
Qed.

(** The steps a thread that does not repeat has left *)
Definition steps_left (p : pc) : option nat :=
  match p with
  | ABegin => Some 3%nat | BMiddle | AWaiting => Some 2%nat | BWaiting | ACalling => Some 1%nat
  | Ended _ => Some O
  | PBegin | PWaiting | PCalling => None
  end.

Lemma steps_left_step now id s p n :
  threads s !! id = Some p -> steps_left p = Some n ->
  local_ok (Some p) (timers_ s !! id) (promises s !! id) (calls id s) ->
  exists p' n', threads (thread_step now true id s) !! id = Some p' /\
    steps_left p' = Some n' /\ (n' <= pred n)%nat.
Proof.
  intros Hp Hn Hl. unfold_steps. rewrite Hp.
  destruct p as [| | | | | | | |r]; cbn in Hl, Hn; simplify_eq;
    try destruct Hl as [(i & Ei & Est & Epm) Hl]; cbn; rewrite ?Ei; cbn; rewrite ?Est; cbn.
  all: try (destruct (callback i));
    match type of Hl with _ /\ _ => destruct Hl as [Hpr Hn] | _ => rename Hl into Hpr end;
    rewrite ?Hpr; cbn; rewrite ?lookup_insert_eq, ?Hp.
  all: eexists _, _; split; [done|]; split; [done|]; lia.
Qed.

Lemma sound_step k now timeout id s p :
  sound k s -> threads s !! id = Some p -> sound k (thread_step now timeout id s).
Proof.
  intros I Hp. pose proof (sd_local _ _ I id) as Hl. rewrite Hp in Hl.
  destruct (step_local now timeout id s p Hp Hl) as [Hfr Hl'].
  by eapply sound_frame; [|rewrite Hp; eauto|..].
Qed.

Lemma sound_runs_out k now id m : forall s p n,
  sound k s -> threads s !! id = Some p -> steps_left p = Some n -> (n <= m)%nat ->
  exists r, threads (Nat.iter m (thread_step now true id) s) !! id = Some (Ended r).
Proof.
  induction m as [|m IH]; intros s p n I Hp Hn Hle.
  - destruct p; cbn in *; simplify_eq; lia || eauto.
  - pose proof (sd_local _ _ I id) as Hl. rewrite Hp in Hl.
    destruct (steps_left_step now id s p n Hp Hn Hl) as (p' & n' & Hp' & Hn' & ?).
    rewrite Nat.iter_succ_r. eapply IH; [by eapply sound_step|exact Hp'|exact Hn'|lia].
Qed.

(** every blocking call and one-shot timer comes to its end: whatever has happened
    before, three steps of its thread in which its waits time out end the thread. *)
Theorem uncancelled_completes (ops : list op) (now id : Z) (p : pc) :
  Z.of_nat (length ops) + 2 < 2 ^ 64 ->
  threads (uncancelled ops) !! id = Some p -> is_Some (steps_left p) ->
  exists r, threads (Nat.iter 3 (thread_step now true id) (uncancelled ops)) !! id = Some (Ended r).
Proof.
  intros (k & _ & I)%sound_uncancelled Hp [n Hn].
  apply (sound_runs_out k now id 3 _ p n I Hp Hn). by destruct p; cbn in Hn; simplify_eq; lia.
Qed.

(** ** Cancellation *)

(** What the thread of a cancelled timer runs into with its next step: only one that has
    not yet taken its reference gets away. *)
Definition cancel_crashes (p : pc) : bool :=
  match p with BMiddle | PBegin | Ended _ => false | _ => true end.

Lemma orphan_step now timeout id s p :
  threads s !! id = Some p -> crashed s = false -> timers_ s !! id = None ->
  (p = ABegin -> exists v, promises s !! id = Some (Some v)) ->
  crashed (thread_step now timeout id s) = cancel_crashes p.
Proof.
  intros Hp Hc Ht Hpr. unfold_steps. rewrite Hp.
  destruct p; cbn; rewrite ?Ht; cbn; try done.
  destruct Hpr as [v ->]; done.
Qed.

(** cancelling a timer breaks its thread: a successful [cancel] erases the entry that
    the thread refers to, so the thread's next step, whenever it comes, uses freed memory
    or, if it has not begun, satisfies a promise already satisfied and terminates the
    program.  Only a periodic timer at the head of its loop and a [blockFor] between its
    critical sections survive. *)
Theorem cancel_breaks_thread (ops : list op) (id now : Z) (timeout : bool) (s' : state) :
  Z.of_nat (length ops) + 2 < 2 ^ 64 ->
  cancel id (uncancelled ops) = (Some true, s') ->
  exists p, threads s' !! id = Some p /\
    crashed (thread_step now timeout id s') = cancel_crashes p.
Proof.
  intros (k & _ & I)%sound_uncancelled. generalize dependent (uncancelled ops). intros s I.
  pose proof (sd_local _ _ I id) as Hl. unfold cancel.
  destruct (timers_ s !! id) as [i|] eqn:Ei; [|done].
  destruct (active (st i)) eqn:Ha; [|done].
  destruct (threads s !! id) as [p|] eqn:Ep; [|by destruct Hl].
  exists p. revert H. unfold set_value. cbn.
  destruct (promise i) eqn:Hpm.
  - destruct (promises s !! id) as [[]|] eqn:Epr; intros [= <-]. cbn. split; [done|].
    apply orphan_step; cbn; [done|apply I|apply lookup_delete_eq|].
    intros _. exists false. apply lookup_insert_eq.
  - intros [= <-]. cbn. split; [done|].
    apply orphan_step; cbn; [done|apply I|apply lookup_delete_eq|].
    intros ->. destruct Hl as [(i' & [= <-] & _ & ?) _]. congruence.
Qed.

Lemma cancelAll_fold id s :
  let r := map_fold cancel_one s (timers_ s) in
  threads r = threads s /\ crashed r = crashed s /\
  (promises r !! id = promises s !! id \/ promises r !! id = Some (Some false)) /\
  (forall i, timers_ s !! id = Some i -> active (st i) = true -> promise i = true ->
     promises s !! id = Some None -> promises r !! id = Some (Some false)).
Proof.
  cbn. apply (map_fold_weak_ind (fun r m => threads r = threads s /\ crashed r = crashed s /\
    (promises r !! id = promises s !! id \/ promises r !! id = Some (Some false)) /\
    (forall i, m !! id = Some i -> active (st i) = true -> promise i = true ->
       promises s !! id = Some None -> promises r !! id = Some (Some false)))).
  - split_and!; [done|done|by left|]. intros i. by rewrite lookup_empty.
  - intros j x m r Hj (Ht & Hc & Hpr & Hid). unfold cancel_one, set_value, set_state, set_timers; cbn.
    destruct (active (st x)) eqn:Ha; [|split_and!; [done..|]].
    2:{ intros i. rewrite lookup_insert. case_decide; [|eauto]. intros [= <-]. congruence. }
    destruct (promise x) eqn:Hpm; [|cbn; split_and!; [done..|]].
    2:{ intros i. rewrite lookup_insert. case_decide; [|eauto]. intros [= <-]. congruence. }
    destruct (promises r !! j) as [[v|]|] eqn:Ej; cbn; (split; [done|split; [done|split]]);
      try done; try (intros i; rewrite !lookup_insert; case_decide; [subst j|by eauto]).
    + intros [= <-] _ _ Hs. destruct Hpr as [E|E]; congruence.
    + rewrite lookup_insert. case_decide; [by right|done].
    + done.
    + intros [= <-] _ _ Hs. destruct Hpr as [E|E]; congruence.
Qed.

(** [cancelAll], which the destructor calls, breaks every thread that has not ended in
    the same way. *)
Theorem cancelAll_breaks_threads (ops : list op) (id now : Z) (timeout : bool) (p : pc) :
  Z.of_nat (length ops) + 2 < 2 ^ 64 ->
  threads (uncancelled ops) !! id = Some p ->
  crashed (thread_step now timeout id (cancelAll (uncancelled ops))) = cancel_crashes p.
Proof.
  intros (k & _ & I)%sound_uncancelled. generalize (uncancelled ops) as s, I. clear I.
  intros s I Hp. pose proof (sd_local _ _ I id) as Hl. rewrite Hp in Hl.
  destruct (cancelAll_fold id s) as (Ht & Hc & _ & Hpr).
  apply orphan_step; unfold cancelAll; cbn.
  - by rewrite Ht.
  - rewrite Hc. apply I.
  - apply lookup_empty.
  - intros ->. destruct Hl as [(i & Ei & Est & Epm) [Hp0 _]]. exists false.
    apply (Hpr i); [done|by rewrite Est|done|done].
Qed.

(** ** The timers at work *)
Section Example.
(** A one-shot timer (1) that runs to its end, a blocking call (2) and a periodic timer
    (3) that wait. *)
Definition example_ops : list op :=
  [OAsyncAfter 0 5 (Some 7%nat); OBlockFor 0 9; OAsyncEvery 0 4 8%nat;
   OStep 0 false 1; OStep 0 false 2; OStep 0 false 3; OStep 5 true 1; OStep 5 false 1].

Lemma uncancelled_safe_witness :
  crashed (uncancelled example_ops) = false /\
  forall id r, threads (uncancelled example_ops) !! id = Some (Ended r) ->
    timers_ (uncancelled example_ops) !! id = None /\
    (r = Some true \/
     promises (uncancelled example_ops) !! id = Some (Some true) /\
     (calls id (uncancelled example_ops) <= 1)%nat).
Proof. apply (uncancelled_safe example_ops). reflexivity. Defined.

Lemma uncancelled_completes_witness :
  exists r, threads (Nat.iter 3 (thread_step 9 true 2) (uncancelled example_ops)) !! 2 = Some (Ended r).
Proof.
  apply (uncancelled_completes example_ops 9 2 BWaiting);
    [reflexivity|vm_compute; reflexivity|by eexists].
Defined.

Lemma cancel_breaks_thread_witness :
  exists p, threads (cancel 3 (uncancelled example_ops)).2 !! 3 = Some p /\
    crashed (thread_step 9 true 3 (cancel 3 (uncancelled example_ops)).2) = cancel_crashes p.
Proof.
  apply (cancel_breaks_thread example_ops 3 9 true); [reflexivity|vm_compute; reflexivity].
Defined.

Lemma cancelAll_breaks_threads_witness :
  crashed (thread_step 9 true 2 (cancelAll (uncancelled example_ops))) = cancel_crashes BWaiting.
Proof.
  apply (cancelAll_breaks_threads example_ops 2 9 true BWaiting); [reflexivity|vm_compute; reflexivity].
Defined.

Example example_result :
  threads (uncancelled example_ops) !! 1 = Some (Ended None) /\
  promises (uncancelled example_ops) !! 1 = Some (Some true) /\
  called (uncancelled example_ops) = [1] /\ activeCount (uncancelled example_ops) = 2%nat /\
  getState 2 (uncancelled example_ops) = SCHEDULED /\ getState 1 (uncancelled example_ops) = IDLE.
Proof. split_and!; vm_compute; reflexivity. Qed.

Example cancel_crash :
  crashed (thread_step 9 true 2 (cancel 2 (uncancelled example_ops)).2) = true.
Proof. vm_compute. reflexivity. Qed.
End Example.
End AsyncTimer.
