(* ===== verification/CanMonitors.v ===== *)
(** The two monitors of the P gear in [src/other/timer/]: [GearMonitor] of [pState.cpp]
    with its simulator, thread by thread, and [PstateMonitor] of [pstate.cpp]. *)
From S2P Require Import Prelude.

(** * [pState.cpp] *)
Module GearMonitor.

Inductive GearPosition := P | NON_P.

#[export] Instance GearPosition_eq_dec : EqDecision GearPosition.
Proof. solve_decision. Defined.

(** Who holds [timer_mutex_]. *)
Inductive owner := Free | ByTimer | ByCan.

(** The timer thread: not started or ended, at the test of [timer_active_], about to lock,
    inside, in the timed wait, about to lock again after it. *)
Inductive timer_pc := TEnded | THead | TLock | TInside | TWait | TRelock.

(** The thread that delivers CAN messages: between messages, about to lock [timer_mutex_]
    in [resetTimer], in [timer_thread_.join()] there, about to lock again in [stopTimer],
    which [start5MinuteTimer] calls. *)
Inductive can_pc := CIdle | CReset | CJoin | CRelock.

(** The thread that calls [stopMonitoring]: about to lock [mutex_], about to lock
    [timer_mutex_] in [stopTimer], about to join, returned. *)
Inductive stop_pc := SMutex | SClear | SJoin | SDone.

(** [mutex_] is held by the CAN thread from the start of a message to its end. *)
Record state := mkState {
  monitoring_active_ : bool;
  timer_active_ : bool;
  current_gear_ : GearPosition;
  last_gear_ : GearPosition;
  timer_mutex_ : owner;
  timer : timer_pc;
  can : can_pc;
  stopper : stop_pc;
  timeouts : nat;
}.

(** After [startMonitoring] *)
Definition monitoring : state := mkState true true P P Free THead CIdle SMutex 0.

(** A message with a gear, a step of the CAN thread inside [resetTimer], a step of the
    timer thread (whether its five minutes are over), the end of its wait, a step of
    [stopMonitoring]. *)
Inductive tid := Message (g : GearPosition) | Can | Timer (expired : bool) | Wakeup | Stop.

Definition set_timer (o : owner) (active : bool) (t : timer_pc) (s : state) : state :=
  mkState (monitoring_active_ s) active (current_gear_ s) (last_gear_ s) o t (can s) (stopper s)
    (timeouts s).

Definition set_can (o : owner) (c : can_pc) (s : state) : state :=
  mkState (monitoring_active_ s) (timer_active_ s) (current_gear_ s) (last_gear_ s) o (timer s) c
    (stopper s) (timeouts s).

(** [notify_all] on [timer_cv_] *)
Definition wake (t : timer_pc) : timer_pc := match t with TWait => TRelock | _ => t end.

Definition jump (last current : GearPosition) : bool :=
  match last, current with P, NON_P => true | _, _ => false end.

(** [processCanMessage] up to [resetTimer] *)
Definition processCanMessage (g : GearPosition) (s : state) : option state :=
  match can s with
  | CIdle =>
      if monitoring_active_ s then
        Some (mkState (monitoring_active_ s) (timer_active_ s) g (current_gear_ s) (timer_mutex_ s)
                (timer s) (if jump (current_gear_ s) g then CReset else CIdle) (stopper s) (timeouts s))
      else Some s
  | _ => None
  end.

(** [resetTimer], and [start5MinuteTimer] from within it *)
Definition can_step (s : state) : option state :=
  match can s, timer_mutex_ s with
  | CReset, Free =>
      if timer_active_ s then
        Some (mkState (monitoring_active_ s) (timer_active_ s) (current_gear_ s) (last_gear_ s) ByCan
                (wake (timer s)) CJoin (stopper s) (timeouts s))
      else Some (set_can Free CIdle s)
  | CJoin, _ => match timer s with TEnded => Some (set_can ByCan CRelock s) | _ => None end
  | CRelock, Free => Some (mkState (monitoring_active_ s) true (current_gear_ s) (last_gear_ s) Free
                             THead CIdle (stopper s) (timeouts s))
  | _, _ => None
  end.

(** The thread function of [start5MinuteTimer] *)
Definition timer_step (expired : bool) (s : state) : option state :=
  match timer s, timer_mutex_ s with
  | THead, o => Some (set_timer o (timer_active_ s) (if timer_active_ s then TLock else TEnded) s)
  | TLock, Free => Some (set_timer ByTimer (timer_active_ s) TInside s)
  | TInside, _ =>
      if expired then
        Some (mkState (monitoring_active_ s) false (current_gear_ s) (last_gear_ s) Free TEnded
                (can s) (stopper s) (S (timeouts s)))
      else Some (set_timer Free (timer_active_ s) (if timer_active_ s then TWait else TEnded) s)
  | TRelock, Free => Some (set_timer Free (timer_active_ s) (if timer_active_ s then THead else TEnded) s)
  | _, _ => None
  end.

Definition mutex_free (s : state) : bool := match can s with CIdle => true | _ => false end.

(** [stopMonitoring] with [stopTimer] *)
Definition stop_step (s : state) : option state :=
  match stopper s with
  | SMutex =>
      if mutex_free s then
        Some (mkState false (timer_active_ s) (current_gear_ s) (last_gear_ s) (timer_mutex_ s)
                (timer s) (can s) SClear (timeouts s))
      else None
  | SClear =>
      match timer_mutex_ s with
      | Free => Some (mkState (monitoring_active_ s) false (current_gear_ s) (last_gear_ s) Free
                        (wake (timer s)) (can s) SJoin (timeouts s))
      | _ => None
      end
  | SJoin =>
      match timer s with
      | TEnded => Some (mkState (monitoring_active_ s) (timer_active_ s) (current_gear_ s)
                          (last_gear_ s) (timer_mutex_ s) (timer s) (can s) SDone (timeouts s))
      | _ => None
      end
  | SDone => None
  end.

Definition step (t : tid) (s : state) : option state :=
  match t with
  | Message g => processCanMessage g s
  | Can => can_step s
  | Timer expired => timer_step expired s
  | Wakeup => match timer s with TWait => Some (set_timer (timer_mutex_ s) (timer_active_ s) TRelock s) | _ => None end
  | Stop => stop_step s
  end.

(** ** The invariant *)
Definition ok (s : state) : bool :=
  (match timer s, timer_mutex_ s with
   | TInside, ByTimer => true | TInside, _ => false | _, ByTimer => false | _, _ => true end) &&
  (match can s, timer_mutex_ s with
   | CJoin, ByCan => timer_active_ s && match timer s with TEnded => false | _ => true end
   | CJoin, _ => false | CRelock, _ => false | _, ByCan => false | _, _ => true end) &&
  (match timer s with TEnded => negb (timer_active_ s) | _ => true end).

Lemma ok_step s t s' : ok s = true -> step t s = Some s' -> ok s' = true.
Proof.
  destruct s as [m a g l o tm c p n], t as [g'| |x| |]; cbn; intros Hok H;
    unfold processCanMessage, can_step, timer_step, stop_step, mutex_free in H; cbn in H;
    destruct o, tm, c; cbn in *; try discriminate; destruct a; cbn in *; try discriminate;
    split_guards; try done; by simplify_eq/=.
Qed.

Lemma reachable_ok s : reachable step monitoring s -> ok s = true.
Proof. apply (reachable_inv step (fun s => ok s = true)); [done|apply ok_step]. Qed.

(** The CAN thread in [join()], [timer_mutex_] in its hands. *)
Definition hung (s : state) : Prop := can s = CJoin /\ ok s = true.

Lemma hung_step s t s' : hung s -> step t s = Some s' -> hung s'.
Proof.
  intros [Hc Hok] H. split; [|by eapply ok_step].
  destruct s as [m a g l o tm c p n]; cbn in *; subst c.
  unfold step, processCanMessage, can_step, timer_step, stop_step, mutex_free in H; cbn in H.
  destruct t as [g'| |x| |], o, tm; cbn in *; try discriminate; destruct a; cbn in *; try discriminate;
    split_guards; try done; by simplify_eq/=.
Qed.

Lemma hung_forever s s' : hung s -> reachable step s s' -> hung s'.
Proof.
  intros Hs Hr. revert Hr. apply (reachable_inv step hung); [done|]. intros. by eapply hung_step.
Qed.

(** the first change out of P hangs the monitor: once [resetTimer] finds the timer
    active it waits, [timer_mutex_] held, for a thread that needs this mutex to end; so from
    then on, in every continuation, that call never returns, no timeout is reported, and a
    [stopMonitoring] that has not yet passed [mutex_] never returns either. *)
Theorem reset_hangs (s s1 s2 : state) :
  reachable step monitoring s -> can s = CReset -> timer_active_ s = true ->
  step Can s = Some s1 -> reachable step s1 s2 ->
  can s2 = CJoin /\ timeouts s2 = timeouts s1 /\
  (stopper s1 = SMutex -> stopper s2 = SMutex).
Proof.
  intros Hok%reachable_ok Hc Ha H1 Hr.
  assert (hung s1) as Hh.
  { split; [|by eapply ok_step]. revert H1. cbn. unfold can_step. rewrite Hc, Ha.
    destruct (timer_mutex_ s); intros; by simplify_eq. }
  assert (hung s2 /\ timeouts s2 = timeouts s1 /\ (stopper s1 = SMutex -> stopper s2 = SMutex))
    as (? & ? & ?); [|by split; [apply H|]].
  revert Hr. apply (reachable_inv step (fun s2 => hung s2 /\ timeouts s2 = timeouts s1 /\
    (stopper s1 = SMutex -> stopper s2 = SMutex))); [done|].
  intros x t y (Hx & Ht & Hst) Hxy. split; [by eapply hung_step|].
  destruct Hx as [Hcx Hokx]. rewrite <- Ht. clear Ht H1 Hh Ha Hc Hok.
  destruct x as [m a g l o tm c p n]; cbn in *; subst c.
  unfold step, processCanMessage, can_step, timer_step, stop_step, mutex_free in Hxy; cbn in Hxy.
  destruct t as [g'| |e| |], o, tm; cbn in *; try discriminate; destruct a; cbn in *; try discriminate;
    split_guards; simplify_eq/=; try done; (split; [done|]); intros E; by specialize (Hst E).
Qed.

(** [processCanMessage] asks for a reset exactly at a change from P to another gear. *)
Lemma message_jump g s s' :
  step (Message g) s = Some s' -> monitoring_active_ s = true ->
  current_gear_ s' = g /\ last_gear_ s' = current_gear_ s /\
  (can s' = CReset <-> current_gear_ s = P /\ g = NON_P).
Proof.
  cbn. unfold processCanMessage. destruct (can s) eqn:Hc; try done. intros H Hm.
  rewrite Hm in H. simplify_eq. cbn.
  split; [done|split; [done|]]. destruct (current_gear_ s), g; cbn; naive_solver.
Qed.

Definition reset_schedule : list tid := [Timer false; Timer false; Timer false; Message NON_P].

Definition before_reset : state := mkState true true NON_P P Free TWait CReset SMutex 0.
Definition in_join : state := mkState true true NON_P P ByCan TRelock CJoin SMutex 0.

Lemma reset_hangs_witness :
  can in_join = CJoin /\ timeouts in_join = timeouts in_join /\
  (stopper in_join = SMutex -> stopper in_join = SMutex).
Proof.
  apply (reset_hangs before_reset in_join in_join); [|reflexivity..|apply rtc_refl].
  apply (run_schedule_reachable step reset_schedule). reflexivity.
Defined.

(** Without a reset the timer fires and [stopMonitoring] returns. *)
Example stop_without_reset :
  (fun s => (stopper s, timeouts s)) <$>
    run_schedule step [Message P; Timer false; Timer false; Timer false; Stop; Stop; Timer false; Stop]
      monitoring = Some (SDone, 0%nat).
Proof. reflexivity. Qed.

(** ** [CanSimulator] *)

(** The thread's loop: the cycle count and gear, and the gear of the message it sends. *)
Definition sim_step (st : Z * GearPosition) : option (Z * GearPosition) :=
  c ← int_add st.1 1;
  r ← int_rem c 300;
  Some (c, if r =? 0 then match st.2 with P => NON_P | NON_P => P end else st.2).

Fixpoint sim_run (n : nat) : option (Z * GearPosition) :=
  match n with
  | O => Some (0, P)
  | S n => st ← sim_run n; sim_step st
  end.

(** the simulator's gear after [n] messages is P while [n / 300] is even: it leaves P
    first with message 300, thirty seconds after the start. *)
Theorem sim_gear (n : nat) :
  Z.of_nat n <= INT_MAX ->
  sim_run n = Some (Z.of_nat n, if Z.even (Z.of_nat n / 300) then P else NON_P).
Proof.
  induction n as [|n IH]; intros Hn; [reflexivity|].
  change (sim_run (S n)) with (st ← sim_run n; sim_step st). rewrite IH by lia. cbn.
  unfold sim_step, int_add, int_rem; cbn.
  replace (Z.of_nat (S n)) with (Z.of_nat n + 1) in * by lia.
  rewrite chk_int_ok by (unfold INT_MIN, INT_MAX in *; lia). cbn.
  rewrite Z.quot_div_nonneg, Z.rem_mod_nonneg by lia.
  pose proof (Z_div_mod_eq_full (Z.of_nat n + 1) 300) as E1.
  pose proof (Z.mod_pos_bound (Z.of_nat n + 1) 300 ltac:(lia)) as B1.
  pose proof (Z_div_mod_eq_full (Z.of_nat n) 300) as E0.
  pose proof (Z.mod_pos_bound (Z.of_nat n) 300 ltac:(lia)) as B0.
  rewrite (proj2 (is_int_spec _)) by (unfold INT_MIN, INT_MAX in *; lia). cbn.
  destruct ((Z.of_nat n + 1) `mod` 300 =? 0) eqn:Hr; zbool.
  - assert ((Z.of_nat n + 1) / 300 = Z.succ (Z.of_nat n / 300)) as -> by lia.
    rewrite Z.even_succ, <- Z.negb_even. by destruct (Z.even (Z.of_nat n / 300)).
  - by assert ((Z.of_nat n + 1) / 300 = Z.of_nat n / 300) as -> by lia.
Qed.

Lemma sim_gear_witness : sim_run 300 = Some (300, NON_P).
Proof. apply (sim_gear 300). vm_compute. discriminate. Defined.
End GearMonitor.

(** * [pstate.cpp] *)
Module PstateMonitor.

Inductive PState := P | NON_P.
Inductive TimerState := STOPPED | RUNNING | EXPIRED.

#[export] Instance PState_eq_dec : EqDecision PState.
Proof. solve_decision. Defined.
#[export] Instance TimerState_eq_dec : EqDecision TimerState.
Proof. solve_decision. Defined.

(** [start_time] is the local of [timerLoop]; [joinable] says whether [timer_thread_] holds a
    thread, [callbacks] counts the calls of [on_timeout_callback_]. *)
Record state := mkState {
  current_p_state_ : PState;
  last_p_state_ : PState;
  timer_state_ : TimerState;
  remaining_ms_ : Z;
  total_duration_ms_ : Z;
  start_time : Z;
  joinable : bool;
  callbacks : nat;
}.

Definition default_duration_ms : Z := 30000.

Definition ctor (duration_ms : Z) : state :=
  mkState P P STOPPED duration_ms duration_ms 0 false 0.

(** Bit 0 of the first byte *)
Definition parseCanSignal (byte0 : Z) : PState :=
  if Z.land byte0 1 =? 0 then P else NON_P.

Definition checkPToNonPJump (s : state) : bool :=
  match last_p_state_ s, current_p_state_ s with P, NON_P => true | _, _ => false end.

Definition resetTimer (s : state) : state :=
  match timer_state_ s with
  | RUNNING =>
      mkState (current_p_state_ s) (last_p_state_ s) (timer_state_ s) (total_duration_ms_ s)
        (total_duration_ms_ s) (start_time s) (joinable s) (callbacks s)
  | _ => s
  end.

Definition processCanMessage (byte0 : Z) (s : state) : state :=
  let s1 := mkState (parseCanSignal byte0) (current_p_state_ s) (timer_state_ s) (remaining_ms_ s)
              (total_duration_ms_ s) (start_time s) (joinable s) (callbacks s) in
  if checkPToNonPJump s1 then resetTimer s1 else s1.

(** [startMonitor], with the clock the new thread reads first *)
Definition startMonitor (now : Z) (s : state) : state :=
  match timer_state_ s with
  | STOPPED =>
      mkState (current_p_state_ s) (last_p_state_ s) RUNNING (remaining_ms_ s)
        (total_duration_ms_ s) now true (callbacks s)
  | _ => s
  end.

(** Whole milliseconds since [start_time]; the signed count is compared as [uint64_t]. *)
Definition elapsed_ms (now : Z) (s : state) : Z := wrapU 64 (Z.quot (now - start_time s) 1000000).

(** One iteration of [timerLoop] *)
Definition timerLoop_iter (now : Z) (s : state) : state :=
  match timer_state_ s with
  | RUNNING =>
      if total_duration_ms_ s <=? elapsed_ms now s then
        mkState (current_p_state_ s) (last_p_state_ s) EXPIRED (remaining_ms_ s)
          (total_duration_ms_ s) (start_time s) (joinable s) (S (callbacks s))
      else if remaining_ms_ s =? total_duration_ms_ s then s
      else mkState (current_p_state_ s) (last_p_state_ s) (timer_state_ s) (total_duration_ms_ s)
             (total_duration_ms_ s) now (joinable s) (callbacks s)
  | _ => s
  end.

(** [stopMonitor] joins the thread only while the timer runs. *)
Definition stopMonitor (s : state) : state :=
  match timer_state_ s with
  | RUNNING =>
      mkState (current_p_state_ s) (last_p_state_ s) STOPPED (remaining_ms_ s)
        (total_duration_ms_ s) (start_time s) false (callbacks s)
  | _ => s
  end.

(** The destructor: false when the program is terminated because [timer_thread_] is
    destroyed while it still holds a thread. *)
Definition dtor (s : state) : bool := negb (joinable (stopMonitor s)).

Inductive op := Message (byte0 : Z) | Iter (now : Z).

Definition exec (s : state) (o : op) : state :=
  match o with Message b => processCanMessage b s | Iter now => timerLoop_iter now s end.

(** Everything the monitor does between [startMonitor] at [t0] and [stopMonitor] *)
Definition monitored (duration_ms t0 : Z) (ops : list op) : state :=
  foldl exec (startMonitor t0 (ctor duration_ms)) ops.

(** The reset has no effect: what it sets is what is there already. *)
Record steady (duration_ms t0 : Z) (seen : bool) (s : state) : Prop := {
  sy_remaining : remaining_ms_ s = duration_ms;
  sy_total : total_duration_ms_ s = duration_ms;
  sy_start : start_time s = t0;
  sy_joinable : joinable s = true;
  sy_state : timer_state_ s = if seen then EXPIRED else RUNNING;
  sy_callbacks : callbacks s = if seen then 1%nat else O;
}.

Definition over (duration_ms t0 : Z) (o : op) : bool :=
  match o with
  | Iter now => duration_ms <=? wrapU 64 (Z.quot (now - t0) 1000000)
  | Message _ => false
  end.

Lemma message_steady d t0 seen b s : steady d t0 seen s -> steady d t0 seen (processCanMessage b s).
Proof.
  intros []. unfold processCanMessage, resetTimer. cbn.
  destruct (checkPToNonPJump _); [destruct (timer_state_ s) eqn:E|]; split; cbn; congruence.
Qed.

Lemma iter_steady d t0 seen now s :
  steady d t0 seen s -> steady d t0 (seen || over d t0 (Iter now)) (timerLoop_iter now s).
Proof.
  intros I. pose proof I as [Hr Ht Hs Hj Hst Hc]. unfold timerLoop_iter, over, elapsed_ms.
  rewrite Hst, Hr, Ht, Hs. destruct seen; cbn; [done|].
  destruct (d <=? _) eqn:E; [by split; cbn; congruence|]. by rewrite Z.eqb_refl.
Qed.

Lemma steady_run d t0 ops s seen :
  steady d t0 seen s -> steady d t0 (seen || existsb (over d t0) ops) (foldl exec s ops).
Proof.
  revert s seen. induction ops as [|o ops IH]; cbn; intros s seen I; [by rewrite orb_false_r|].
  rewrite orb_assoc. apply IH. destruct o; cbn; [rewrite orb_false_r; by apply message_steady|].
  by apply iter_steady.
Qed.

(** the monitor's timer is never reset: whatever messages arrive, changes from P to
    another gear included, it expires at the first check at which the duration has passed
    since [startMonitor], and calls its callback exactly once. *)
Theorem reset_has_no_effect (duration_ms t0 : Z) (ops : list op) :
  let s := monitored duration_ms t0 ops in
  timer_state_ s = (if existsb (over duration_ms t0) ops then EXPIRED else RUNNING) /\
  callbacks s = (if existsb (over duration_ms t0) ops then 1 else 0)%nat /\
  start_time s = t0.
Proof.
  intros s. destruct (steady_run duration_ms t0 ops (startMonitor t0 (ctor duration_ms)) false)
    as []; [by split|]. done.
Qed.

(** a monitor whose timer has expired cannot be destroyed: [stopMonitor] leaves the
    thread unjoined and its destructor terminates the program; one whose timer still runs
    is destroyed without harm. *)
Theorem expired_dtor_terminates (duration_ms t0 : Z) (ops : list op) :
  dtor (monitored duration_ms t0 ops) = negb (existsb (over duration_ms t0) ops).
Proof.
  destruct (steady_run duration_ms t0 ops (startMonitor t0 (ctor duration_ms)) false)
    as [_ _ _ Hj Hs _]; [by split|]. rewrite orb_false_l in Hs.
  unfold dtor, stopMonitor, monitored. rewrite Hs.
  destruct (existsb (over duration_ms t0) ops); [by rewrite Hj|done].
Qed.

(** The messages themselves are decoded and compared as intended. *)
Lemma parseCanSignal_spec b : parseCanSignal b = if Z.testbit b 0 then NON_P else P.
Proof.
  unfold parseCanSignal. change 1 with (Z.ones 1) at 1. rewrite Z.land_ones by lia.
  change (2 ^ 1) with 2.
  rewrite Z.bit0_odd, Zmod_odd. by destruct (Z.odd b).
Qed.

Lemma jump_detected b s :
  checkPToNonPJump (processCanMessage b s) = true <->
  current_p_state_ s = P /\ Z.testbit b 0 = true.
Proof.
  unfold processCanMessage, checkPToNonPJump, resetTimer. rewrite parseCanSignal_spec. rewrite Z.bit0_odd. cbn.
  destruct (current_p_state_ s), (Z.odd b), (timer_state_ s); cbn;
    (split; [intros ?; first [by split|done]|intros [? ?]; done]).
Qed.

(** [main()]: the jump after three of the five minutes the messages take comes long after
    the timer, set to 30 seconds by default, has expired. *)
Example main_run :
  timer_state_ (monitored default_duration_ms 0
    [Message 0; Iter (ns_of_s 29); Message 1; Iter (ns_of_s 30)]) = EXPIRED.
Proof. vm_compute. reflexivity. Qed.
End PstateMonitor.
