(* ===== verification/CanSignal.v ===== *)
(** [CanSignalJumpDetector] of [src/other/timer/state.cpp]: extraction of a signal from the
    bytes of a CAN frame, and the detection of jumps between consecutive valid values.  The
    configuration types are not declared in the repository, so the fields that the code reads
    are parameters, and so is the [float] arithmetic on them. *)
From S2P Require Import Prelude.

Module CanSignal.

(** ** [parseRawValue] *)
Section Parse.
Context (start_bit signal_length : Z) (is_signed : bool).

(** The loop from index [i] on, [n] indices before [signal_length].  [None]: a shift of an
    [int] by 32 or more.  [uint8_t] positions wrap. *)
Fixpoint parse_loop (data : list Z) (data_len : Z) (n : nat) (i raw_val : Z) : option Z :=
  match n with
  | O => Some raw_val
  | S n =>
      let bit_pos := wrapU 8 (start_bit + i) in
      let byte_idx := bit_pos / 8 in
      let bit_in_byte := bit_pos `mod` 8 in
      if data_len <=? byte_idx then Some raw_val
      else if 32 <=? i then None
      else
        byte ← data !! Z.to_nat byte_idx;
        let bit := Z.land (Z.shiftr byte bit_in_byte) 1 in
        parse_loop data data_len n (i + 1)
          (Z.lor raw_val (wrapS 32 (Z.shiftl bit i)))
  end.

(** [1 << n] for an [int]: undefined for a negative [n] and from 32 on; [1 << 31] is [INT_MIN]. *)
Definition int_shl1 (n : Z) : option Z :=
  if (0 <=? n) && (n <? 32) then Some (wrapS 32 (Z.shiftl 1 n)) else None.

(** The sign is tested only for a signed signal. *)
Definition parseRawValue (data : list Z) (data_len : Z) : option Z :=
  raw_val ← parse_loop data data_len (Z.to_nat signal_length) 0 0;
  if is_signed then
    sign ← int_shl1 (signal_length - 1);
    if negb (Z.land raw_val sign =? 0) then range ← int_shl1 signal_length; int_sub raw_val range
    else Some raw_val
  else Some raw_val.

(** The frame as one little-endian number *)
Fixpoint le_value (data : list Z) : Z :=
  match data with [] => 0 | b :: data => b + 2 ^ 8 * le_value data end.

Definition is_byte (b : Z) : Prop := 0 <= b < 2 ^ 8.

Lemma le_value_bound data : Forall is_byte data -> 0 <= le_value data < 2 ^ (8 * Z.of_nat (length data)).
Proof.
  induction 1 as [|b l Hb _ IH]; cbn [le_value length]; [done|].
  unfold is_byte in Hb. rewrite Nat2Z.inj_succ, Z.mul_succ_r, Z.pow_add_r by lia. nia.
Qed.

Lemma le_value_testbit data j :
  Forall is_byte data -> 0 <= j ->
  Z.testbit (le_value data) j = Z.testbit (default 0 (data !! Z.to_nat (j / 8))) (j `mod` 8).
Proof.
  intros Hd. revert j. induction Hd as [|b l Hb _ IH]; intros j Hj; cbn [le_value].
  - by rewrite !Z.bits_0.
  - unfold is_byte in Hb. destruct (Z.lt_ge_cases j 8) as [Hlt|Hge].
    + rewrite Z.div_small, Z.mod_small by lia. cbn.
      rewrite <- (Z.mod_pow2_bits_low _ 8) by lia. f_equal.
      rewrite Z.mul_comm, Z.mod_add, Z.mod_small by lia. done.
    + replace j with (j - 8 + 8) at 1 by lia.
      rewrite <- Z.div_pow2_bits by lia.
      rewrite Z.mul_comm, Z.div_add, Z.div_small by lia. rewrite Z.add_0_l, IH by lia.
      replace (Z.to_nat (j / 8)) with (S (Z.to_nat ((j - 8) / 8))).
      * cbn. f_equal. replace j with (j - 8 + 1 * 8) at 2 by lia. by rewrite Z.mod_add by lia.
      * replace j with (j - 8 + 1 * 8) at 2 by lia. rewrite Z.div_add by lia.
        pose proof (Z.div_pos (j - 8) 8). lia.
Qed.

(** One more bit of a number *)
Lemma mod_pow2_snoc x i :
  0 <= i -> x `mod` 2 ^ (i + 1) = Z.lor (x `mod` 2 ^ i) (Z.shiftl (Z.b2z (Z.testbit x i)) i).
Proof.
  intros Hi. apply Z.bits_inj'. intros k Hk. rewrite Z.lor_spec, Z.shiftl_spec by done.
  destruct (Z.lt_trichotomy k i) as [?|[->|?]].
  - rewrite !Z.mod_pow2_bits_low by lia. rewrite (Z.testbit_neg_r _ (k - i)) by lia.
    by rewrite orb_false_r.
  - rewrite Z.mod_pow2_bits_low, Z.mod_pow2_bits_high by lia. rewrite Z.sub_diag.
    by destruct (Z.testbit x i).
  - rewrite !Z.mod_pow2_bits_high by lia. symmetry. cbn.
    destruct (Z.testbit x i); cbn; [|by rewrite Z.bits_0].
    replace 1 with (2 ^ 0) by done. by rewrite Z.pow2_bits_false by lia.
Qed.

(** The test of the sign bit, for a number of [k + 1] bits *)
Lemma sign_test u k :
  0 <= k -> 0 <= u < 2 * 2 ^ k -> negb (Z.land u (2 ^ k) =? 0) = (2 ^ k <=? u).
Proof.
  intros Hk Hu. pose proof (Z.pow_pos_nonneg 2 k ltac:(lia) ltac:(lia)).
  assert (Z.land u (2 ^ k) = Z.shiftl (Z.b2z (Z.testbit u k)) k) as ->.
  { apply Z.bits_inj'. intros j Hj. rewrite Z.land_spec, Z.shiftl_spec by done.
    destruct (Z.lt_trichotomy j k) as [?|[->|?]].
    - rewrite Z.pow2_bits_false by lia. rewrite (Z.testbit_neg_r _ (_ - _)) by lia. apply andb_false_r.
    - rewrite Z.pow2_bits_true, Z.sub_diag, andb_true_r by lia. by destruct (Z.testbit u _).
    - rewrite Z.pow2_bits_false by lia. rewrite andb_false_r. symmetry.
      destruct (Z.testbit u _); cbn; [|by rewrite Z.bits_0].
      replace 1 with (2 ^ 0) by done. by rewrite Z.pow2_bits_false by lia. }
  rewrite Z.shiftl_mul_pow2 by lia. destruct (Z.leb_spec (2 ^ k) u).
  - rewrite (proj2 (Z.testbit_true u k Hk)); [cbn; apply negb_true_iff, Z.eqb_neq; lia|].
    assert (u / 2 ^ k = 1) as ->; [|done].
    symmetry. apply (Z.div_unique_pos _ _ _ (u - 2 ^ k)); lia.
  - rewrite (proj2 (Z.testbit_false u k Hk)); [done|]. by rewrite Z.div_small by lia.
Qed.

Lemma parse_loop_spec data n i :
  Forall is_byte data -> 0 <= start_bit -> 0 <= i -> i + Z.of_nat n <= 31 ->
  start_bit + i + Z.of_nat n <= 2 ^ 8 ->
  parse_loop data (Z.of_nat (length data)) n i ((le_value data / 2 ^ start_bit) `mod` 2 ^ i) =
    Some ((le_value data / 2 ^ start_bit) `mod` 2 ^ (i + Z.of_nat n)).
Proof.
  intros Hd Hs. revert i. set (x := le_value data / 2 ^ start_bit).
  assert (forall k, 0 <= k -> Z.testbit x k = Z.testbit (le_value data) (start_bit + k)) as Hx.
  { intros k Hk. unfold x. rewrite Z.div_pow2_bits by lia. f_equal. lia. }
  induction n as [|n IH]; intros i Hi Hn Hpos; cbn [parse_loop]; [by rewrite Z.add_0_r|].
  rewrite wrapU_small by lia.
  destruct (Z.of_nat (length data) <=? (start_bit + i) / 8) eqn:Hlen; zbool.
  - f_equal. apply Z.bits_inj'. intros k Hk.
    destruct (Z.lt_ge_cases k i); [by rewrite !Z.mod_pow2_bits_low by lia|].
    rewrite Z.mod_pow2_bits_high by lia.
    destruct (Z.lt_ge_cases k (i + Z.of_nat (S n)));
      [|by rewrite Z.mod_pow2_bits_high by lia].
    rewrite Z.mod_pow2_bits_low, Hx, le_value_testbit by lia || done.
    pose proof (Z.div_le_mono (start_bit + i) (start_bit + k) 8 ltac:(lia) ltac:(lia)).
    rewrite lookup_ge_None_2 by lia. cbn. by rewrite Z.bits_0.
  - rewrite (proj2 (Z.leb_gt _ _)) by lia.
    pose proof (Z.div_pos (start_bit + i) 8 ltac:(lia) ltac:(lia)).
    destruct (lookup_lt_is_Some_2 data (Z.to_nat ((start_bit + i) / 8))) as [byte Eb]; [lia|].
    rewrite Eb. cbn [mbind option_bind].
    assert (Z.land (Z.shiftr byte ((start_bit + i) `mod` 8)) 1 = Z.b2z (Z.testbit x i)) as ->.
    { change 1 with (Z.ones 1) at 1. rewrite Z.land_ones by lia. change (2 ^ 1) with 2.
      rewrite Hx, le_value_testbit, Eb by lia || done. cbn.
      rewrite Zmod_odd, <- Z.bit0_odd, Z.shiftr_spec, Z.add_0_l by lia.
      by destruct (Z.testbit byte _). }
    assert (0 <= Z.shiftl (Z.b2z (Z.testbit x i)) i < 2 ^ 31) as Hb.
    { rewrite Z.shiftl_mul_pow2 by lia.
      pose proof (Z.pow_lt_mono_r 2 i 31 ltac:(lia) ltac:(lia) ltac:(lia)).
      pose proof (Z.pow_pos_nonneg 2 i ltac:(lia) ltac:(lia)).
      destruct (Z.testbit x i); cbn [Z.b2z]; lia. }
    rewrite wrapS_small by (change (32 - 1) with 31; lia). rewrite <- mod_pow2_snoc by lia.
    replace (i + Z.of_nat (S n)) with (i + 1 + Z.of_nat n) by lia. apply IH; lia.
Qed.

Lemma int_shl1_small n : 0 <= n < 31 -> int_shl1 n = Some (2 ^ n).
Proof.
  intros Hn. unfold int_shl1. rewrite (proj2 (Z.leb_le _ _)), (proj2 (Z.ltb_lt _ _)) by lia. cbn [andb].
  pose proof (Z.pow_lt_mono_r 2 n 31 ltac:(lia) ltac:(lia) ltac:(lia)).
  pose proof (Z.pow_pos_nonneg 2 n ltac:(lia) ltac:(lia)).
  rewrite Z.shiftl_1_l, wrapS_small; [done| |]; change (32 - 1) with 31; lia.
Qed.

End Parse.


Example parse_negative : parseRawValue 6 12 true [0; 252; 255] 3 = Some (-16).
Proof. vm_compute. reflexivity. Qed.

(** ** The detector *)
Section Detector.
Context {F : Type} (feq fle : F -> F -> bool).

Inductive JumpType := JUMP_ANY | JUMP_FROM_TO | JUMP_RANGE_TO_RANGE.

Record JumpCondition := mkCondition {
  type : JumpType;
  from_val : F; to_val : F;
  from_min : F; from_max : F; to_min : F; to_max : F;
}.

(** The fields of [signal_cfg]; [physical] is [raw_val * factor + offset]. *)
Context (can_id start_bit signal_length : Z) (is_signed : bool).
Context (physical : Z -> F) (min_val max_val : F) (jump_condition : JumpCondition).

Record state := mkState {
  last_valid_val : F;
  current_val : F;
  is_initialized : bool;
}.

Definition isValidValue (val : F) : bool := fle min_val val && fle val max_val.

Definition checkJumpCondition (prev curr : F) : bool :=
  match type jump_condition with
  | JUMP_ANY => negb (feq prev curr)
  | JUMP_FROM_TO => feq prev (from_val jump_condition) && feq curr (to_val jump_condition)
  | JUMP_RANGE_TO_RANGE =>
      fle (from_min jump_condition) prev && fle prev (from_max jump_condition) &&
      (fle (to_min jump_condition) curr && fle curr (to_max jump_condition))
  end.

(** The state after a frame, and the arguments of [on_jump] if it is called. *)
Definition processCanMessage (id : Z) (data : list Z) (s : state) : option (state * list (F * F)) :=
  if negb (id =? can_id) then Some (s, [])
  else
    raw_val ← parseRawValue start_bit signal_length is_signed data (Z.of_nat (length data));
    let v := physical raw_val in
    Some (if negb (isValidValue v) then
            (mkState (last_valid_val s) v (is_initialized s), [])
          else if negb (is_initialized s) then (mkState v v true, [])
          else (mkState v v true,
                if checkJumpCondition (last_valid_val s) v then [(last_valid_val s, v)] else [])).

Fixpoint process_all (frames : list (Z * list Z)) (s : state) : option (state * list (F * F)) :=
  match frames with
  | [] => Some (s, [])
  | (id, data) :: frames =>
      '(s1, j1) ← processCanMessage id data s;
      '(s2, j2) ← process_all frames s1;
      Some (s2, j1 ++ j2)
  end.

(** The valid values a sequence of frames carries *)
Definition frame_value (f : Z * list Z) : option F :=
  if f.1 =? can_id then
    raw_val ← parseRawValue start_bit signal_length is_signed f.2 (Z.of_nat (length f.2));
    if isValidValue (physical raw_val) then Some (physical raw_val) else None
  else None.

Definition values (frames : list (Z * list Z)) : list F := omap frame_value frames.

(** The consecutive pairs of a list *)
Definition pairs (l : list F) : list (F * F) := zip l (tail l).

Definition jumps_of (l : list F) : list (F * F) :=
  filter (fun p => checkJumpCondition p.1 p.2 = true) (pairs l).

Definition parses (f : Z * list Z) : Prop :=
  f.1 = can_id -> is_Some (parseRawValue start_bit signal_length is_signed f.2 (Z.of_nat (length f.2))).

Lemma jumps_cons v w l :
  jumps_of (v :: w :: l) = (if checkJumpCondition v w then [(v, w)] else []) ++ jumps_of (w :: l).
Proof.
  unfold jumps_of, pairs. cbn [tail zip zip_with].
  destruct (checkJumpCondition v w) eqn:E.
  - by rewrite filter_cons_True.
  - by rewrite filter_cons_False by (cbn; congruence).
Qed.

Lemma process_all_spec frames s :
  Forall parses frames ->
  exists s', process_all frames s =
    Some (s', jumps_of ((if is_initialized s then [last_valid_val s] else []) ++ values frames)).
Proof.
  intros Hf. revert s. induction Hf as [|[id data] frames Hp _ IH]; intros s.
  - exists s. cbn. by destruct (is_initialized s).
  - unfold values, parses in *. cbn [process_all omap list_omap]. cbn in Hp.
    unfold processCanMessage, frame_value at 1. cbn [fst snd].
    destruct (id =? can_id) eqn:Hid; zbool; cbn [negb].
    2:{ cbn. destruct (IH s) as [s' ->]. by exists s'. }
    destruct (Hp Hid) as [raw ->]. cbn [mbind option_bind].
    destruct (isValidValue (physical raw)) eqn:Hv; cbn [negb].
    2:{ match goal with |- context [mkState ?a ?b ?c] => destruct (IH (mkState a b c)) as [s' E] end.
        exists s'. by rewrite E. }
    destruct (IH (mkState (physical raw) (physical raw) true)) as [s' E]. exists s'.
    destruct (is_initialized s); cbn [negb]; rewrite E; cbn [mbind option_bind last_valid_val is_initialized app];
      [|done].
    by rewrite jumps_cons.
Qed.

(** the detector reports exactly the pairs of consecutive valid values of its signal that
    satisfy the jump condition, in order: frames of other signals and values out of range
    are skipped, and the first valid value is only remembered. *)
Theorem jumps_reported (frames : list (Z * list Z)) (v0 : F) :
  Forall parses frames ->
  exists s', process_all frames (mkState v0 v0 false) = Some (s', jumps_of (values frames)).
Proof. intros Hf. apply (process_all_spec frames (mkState v0 v0 false) Hf). Qed.
End Detector.

(** A detector of changes from 1 to 2 of the low nibble of frame 5. *)
Section DetectorExample.
Let frames : list (Z * list Z) :=
  [(5, [1]); (5, [2]); (6, [1]); (5, [15]); (5, [1]); (5, [9]); (5, [2])].

Lemma jumps_reported_witness :
  exists s', process_all Z.eqb Z.leb 5 0 4 false (fun z => z) 0 10
      (mkCondition JUMP_FROM_TO 1 2 0 0 0 0) frames (mkState 0 0 false) =
    Some (s', jumps_of Z.eqb Z.leb (mkCondition JUMP_FROM_TO 1 2 0 0 0 0)
                (values Z.leb 5 0 4 false (fun z => z) 0 10 frames)).
Proof.
  apply (jumps_reported Z.eqb Z.leb 5 0 4 false (fun z => z) 0 10 (mkCondition JUMP_FROM_TO 1 2 0 0 0 0)).
  repeat constructor; intros _; vm_compute; eexists; reflexivity.
Defined.

Example jumps_example :
  snd <$> process_all Z.eqb Z.leb 5 0 4 false (fun z => z) 0 10
      (mkCondition JUMP_FROM_TO 1 2 0 0 0 0) frames (mkState 0 0 false) = Some [(1, 2)].
Proof. vm_compute. reflexivity. Qed.
End DetectorExample.
End CanSignal.
