(* ===== verification/PowerFlags.v ===== *)
(** Threads that share flags, in [src/other/timer/]: the power states of [state_check.cpp]
    and the four flags of [producer_consumer.cpp]. *)
From S2P Require Import Prelude.

(** * [state_check.cpp] *)
Module PowerState.

Inductive pwrState := OFF | ACC | ON | START.

#[export] Instance pwrState_eq_dec : EqDecision pwrState.
Proof. solve_decision. Defined.

(** The globals; [checker] says whether [state_check] has taken its first copy of
    [current_state]. *)
Record state := mkState {
  flag : bool;
  auto_slpmod_flag : bool;
  current_state : pwrState;
  last_state : pwrState;
  i : Z;
  checker : bool;
}.

(** Globals are zero-initialised; [main] stores false. *)
Definition init : state := mkState true false OFF OFF 0 false.

(** One iteration of [state_change] *)
Definition state_change (s : state) : state :=
  if (i s <? 4) && flag s then
    let c := match i s with 3 => OFF | 2 => ACC | 1 => ON | 0 => START | _ => current_state s end in
    let j := i s + 1 in
    mkState (flag s) (auto_slpmod_flag s) c (last_state s) (if j =? 4 then 0 else j) (checker s)
  else s.

(** The entry of [state_check] *)
Definition state_check_begin (s : state) : state :=
  mkState (flag s) (auto_slpmod_flag s) (current_state s) (current_state s) (i s) true.

(** One iteration of its loop *)
Definition state_check (s : state) : state :=
  if flag s && checker s then
    if negb (bool_decide (last_state s = current_state s)) then
      if negb (auto_slpmod_flag s) && negb (bool_decide (last_state s = OFF)) &&
         bool_decide (current_state s = OFF)
      then mkState (flag s) true (current_state s) (last_state s) (i s) (checker s)
      else s
    else s
  else s.

Definition state_flag (s : state) : state :=
  mkState false (auto_slpmod_flag s) (current_state s) (last_state s) (i s) (checker s).

(** What [slpmod_nonoff_run] does in an iteration: [Some true]: reports the flag and
    returns; [Some false]: reports that it was never set. *)
Definition slpmod_nonoff_run (s : state) : option bool :=
  if flag s then if auto_slpmod_flag s then Some true else None else Some false.

Inductive op := Change | Check | Finish.

Definition exec (s : state) (o : op) : state :=
  match o with Change => state_change s | Check => state_check s | Finish => state_flag s end.

(** [state_check] starts after [pre] and takes its copy; then anything. *)
Definition run_program (pre post : list op) : state :=
  foldl exec (state_check_begin (foldl exec init pre)) post.

Lemma exec_last s o : last_state (exec s o) = last_state s.
Proof. destruct o; cbn; unfold state_change, state_check; split_guards; done. Qed.

Lemma exec_checker s o : checker (exec s o) = checker s.
Proof. destruct o; cbn; unfold state_change, state_check; split_guards; done. Qed.

(** When a step leaves the sleep flag set *)
Definition sets (s : state) : Prop :=
  flag s = true /\ last_state s <> OFF /\ current_state s = OFF.

Lemma exec_auto s o :
  checker s = true ->
  auto_slpmod_flag (exec s o) = true <-> auto_slpmod_flag s = true \/ (o = Check /\ sets s).
Proof.
  intros Hc. unfold sets. destruct o; cbn.
  - unfold state_change. destruct ((i s <? 4) && flag s); cbn; naive_solver.
  - unfold state_check. rewrite Hc, andb_true_r.
    destruct (flag s) eqn:Hf, (auto_slpmod_flag s) eqn:Ha; cbn; rewrite ?Ha.
    + split; [auto|]. intros _. repeat case_bool_decide; cbn; done.
    + repeat case_bool_decide; cbn; rewrite ?Ha; naive_solver congruence.
    + by split; [auto|].
    + naive_solver.
  - naive_solver.
Qed.

Lemma run_auto post s :
  checker s = true ->
  auto_slpmod_flag (foldl exec s post) = true <->
  auto_slpmod_flag s = true \/
  exists post1 post2, post = post1 ++ Check :: post2 /\ sets (foldl exec s post1).
Proof.
  revert s. induction post as [|o post IH]; intros s Hc; cbn.
  - split; [auto|]. intros [?|(p1 & p2 & E & _)]; [done|]. by destruct p1.
  - rewrite IH, exec_auto by (by rewrite ?exec_checker). split.
    + intros [[?|[-> ?]]|(p1 & p2 & -> & ?)]; [by left|right; by exists [], post|].
      right. by exists (o :: p1), p2.
    + intros [?|([|o' p1] & p2 & [= -> ->] & ?)]; [by left; left|by left; right|].
      right. by exists p1, p2.
Qed.

Lemma run_last post s : last_state (foldl exec s post) = last_state s.
Proof. revert s. induction post as [|o post IH]; intros s; [done|]. cbn. by rewrite IH, exec_last. Qed.

Lemma unset_before pre s :
  auto_slpmod_flag s = false -> checker s = false -> auto_slpmod_flag (foldl exec s pre) = false.
Proof.
  revert s. induction pre as [|o pre IH]; intros s Ha Hc; [done|]. cbn.
  apply IH; [|by rewrite exec_checker].
  destruct o; cbn; unfold state_change, state_check; rewrite ?Hc, ?andb_false_r; split_guards; done.
Qed.

(** [state_check] compares with the state it saw when it started, and never with the one
    before: the sleep flag is set exactly when that first state was not [OFF] and a check
    meets [OFF] while the program runs.  A [state_check] that starts before the first change
    saw the initial [OFF] and never sets the flag, whatever turns to [OFF] later. *)
Theorem sleep_flag (pre post : list op) :
  auto_slpmod_flag (run_program pre post) = true <->
  current_state (foldl exec init pre) <> OFF /\
  exists post1 post2, post = post1 ++ Check :: post2 /\
    flag (run_program pre post1) = true /\ current_state (run_program pre post1) = OFF.
Proof.
  unfold run_program. rewrite run_auto by done. cbn. rewrite unset_before by done.
  split.
  - intros [?|(p1 & p2 & -> & Hf & Hl & Hc)]; [done|].
    rewrite run_last in Hl. split; [done|]. by exists p1, p2.
  - intros (Hne & p1 & p2 & -> & Hf & Hc). right. exists p1, p2. split; [done|].
    split; [done|]. by rewrite run_last.
Qed.

(** Two rounds of the four states, checked after every change, with the two orders of the
    first steps. *)
Definition rounds : list op := concat (replicate 8 [Change; Check]).

Example flag_set : auto_slpmod_flag (run_program [Change] rounds) = true.
Proof. vm_compute. reflexivity. Qed.

Example flag_missed : auto_slpmod_flag (run_program [] rounds) = false.
Proof. vm_compute. reflexivity. Qed.
End PowerState.

(** * [producer_consumer.cpp] *)
Module FlagRelay.

(** The flags 1 to 4, the two threads' positions, and the flags handled so far. *)
Record state := mkState {
  flags : list bool;
  produce_at : nat;
  consume_at : nat;
  produced : nat;
  consumed : nat;
}.

Definition init : state := mkState [false; false; false; false] 0 0 0 0.

Definition next (i : nat) : nat := if (S i =? 4)%nat then O else S i.

Definition up (l : list bool) (i : nat) : bool := default false (l !! i).

(** One turn of [producer_thread] *)
Definition producer_thread (s : state) : state :=
  mkState (<[produce_at s := true]> (flags s)) (next (produce_at s)) (consume_at s)
    (if up (flags s) (produce_at s) then produced s else S (produced s)) (consumed s).

(** [flag.store("false")]: a string literal is a pointer that is not null, so it converts to
    true. *)
Definition store_literal : bool := true.

(** One turn of [consumer_thread], when its wait lets it pass ([None] otherwise) *)
Definition consumer_thread (s : state) : option state :=
  if up (flags s) (consume_at s) then
    Some (mkState (<[consume_at s := store_literal]> (flags s)) (produce_at s) (next (consume_at s))
            (produced s) (S (consumed s)))
  else None.

Inductive tid := Producer | Consumer.

Definition step (t : tid) (s : state) : option state :=
  match t with Producer => Some (producer_thread s) | Consumer => consumer_thread s end.

Record relay_inv (s : state) : Prop := {
  ri_length : length (flags s) = 4%nat;
  ri_produce : (produce_at s < 4)%nat;
  ri_consume : (consume_at s < 4)%nat;
  ri_raised : length (filter (fun b => b = true) (flags s)) = produced s;
}.

Lemma next_lt i : (i < 4)%nat -> (next i < 4)%nat.
Proof. unfold next. intros. destruct (Nat.eqb_spec (S i) 4); lia. Qed.

Lemma raise_count l j :
  (j < length l)%nat ->
  length (filter (fun b => b = true) (<[j := true]> l)) =
    (if up l j then length (filter (fun b => b = true) l)
     else S (length (filter (fun b => b = true) l))).
Proof.
  revert j. induction l as [|b l IH]; intros [|j] Hj; cbn in Hj; [lia|lia| |].
  - cbn [insert list_insert]. change (up (b :: l) 0) with b.
    rewrite filter_cons_True by done. destruct b.
    + by rewrite filter_cons_True.
    + by rewrite (filter_cons_False _ false) by done.
  - change (<[S j := true]> (b :: l)) with (b :: <[j := true]> l).
    change (up (b :: l) (S j)) with (up l j). specialize (IH j ltac:(lia)).
    destruct b.
    + rewrite !filter_cons_True by done. cbn [length]. rewrite IH. by destruct (up l j).
    + by rewrite !(filter_cons_False _ false) by done.
Qed.

Lemma relay_step s t s' : relay_inv s -> step t s = Some s' -> relay_inv s'.
Proof.
  intros [Hl Hp Hc Hr]. destruct t; cbn; unfold producer_thread, consumer_thread.
  - intros [= <-]. split; cbn; [by rewrite length_insert|by apply next_lt|done|].
    rewrite raise_count by lia. destruct (up (flags s) (produce_at s)); congruence.
  - destruct (up (flags s) (consume_at s)) eqn:E; intros [= <-].
    split; cbn; [by rewrite length_insert|done|by apply next_lt|].
    unfold store_literal. rewrite raise_count, E by lia. done.
Qed.

Lemma relay_reachable s : reachable step init s -> relay_inv s.
Proof. apply reachable_inv; [|intros; by eapply relay_step]. split; cbn; lia || done. Qed.

(** the consumer never clears a flag: the flags that are up are as many as were ever
    raised, at most four in the whole run, and once all four have been raised the consumer
    is never held again and handles as many rounds as it likes without the producer. *)
Theorem relay_never_blocks (s : state) (n : nat) :
  reachable step init s ->
  (produced s <= 4)%nat /\
  (produced s = 4%nat -> exists s', run_schedule step (replicate n Consumer) s = Some s' /\
     produced s' = 4%nat /\ consumed s' = (consumed s + n)%nat).
Proof.
  intros I%relay_reachable. split.
  - rewrite <- (ri_raised _ I), <- (ri_length _ I). apply length_filter.
  - revert s I. induction n as [|n IH]; intros s I Hp; cbn [replicate run_schedule].
    + exists s. split_and!; [done..|lia].
    + assert (up (flags s) (consume_at s) = true) as E.
      { pose proof (ri_raised _ I) as Hr. pose proof (ri_length _ I) as Hl. rewrite Hp in Hr.
        destruct (flags s) as [|[] [|[] [|[] [|[] [|]]]]]; try done.
        pose proof (ri_consume _ I) as Hc.
        by destruct (consume_at s) as [|[|[|[|]]]]; [..|lia]. }
      cbn [step]. unfold consumer_thread at 1. rewrite E.
      match goal with |- context [run_schedule _ _ ?x] =>
        destruct (IH x) as (s' & Hrun & Hp' & Hc'); [|done|] end.
      { eapply (relay_step s Consumer); [done|]. cbn. unfold consumer_thread. by rewrite E. }
      exists s'. split_and!; [done|done|]. cbn in Hc'. lia.
Qed.

Definition four_raised : state := mkState [true; true; true; true] 0 0 4 0.

Lemma relay_never_blocks_witness :
  (produced four_raised <= 4)%nat /\
  (produced four_raised = 4%nat -> exists s', run_schedule step (replicate 9 Consumer) four_raised = Some s' /\
     produced s' = 4%nat /\ consumed s' = (consumed four_raised + 9)%nat).
Proof.
  apply (relay_never_blocks four_raised 9).
  apply (run_schedule_reachable step [Producer; Producer; Producer; Producer]). reflexivity.
Defined.
End FlagRelay.
