(* ===== verification/MsgQueue.v ===== *)
(** Threads that exchange data in [src/other/share_data/]: [ThreadSafeQueue], [AdvancedA] and
    [AdvancedB] of [multicom.cpp], and the proxy classes [A], [B], [C] of [shdata.cpp]. *)
From S2P Require Import Prelude.

(** * [ThreadSafeQueue] *)
Module ThreadSafeQueue.
Section Model.
Context {T : Type}.

(** [pushing]: the calls of [push] that have seen the stop flag down and are about to take
    the mutex, with their values. *)
Record state := mkState {
  queue_ : list T;
  stop_flag_ : bool;
  pushing : gmap nat T;
}.

Definition init : state := mkState [] false ∅.

Inductive op :=
| PushCheck (call : nat) (value : T)
| PushLocked (call : nat)
| TryPop
| WaitAndPop
| Stop.

(** [Refused]: a pop that returned false. *)
Inductive event := Pushed (value : T) | Dropped (value : T) | Popped (value : T) | Refused | Stopped.

(** [push], to its test of the flag and then under the mutex *)
Definition push_check (call : nat) (value : T) (s : state) : state * list event :=
  if stop_flag_ s then (s, [Dropped value])
  else match pushing s !! call with
       | Some _ => (s, [])
       | None => (mkState (queue_ s) (stop_flag_ s) (<[call := value]> (pushing s)), [])
       end.

Definition push_locked (call : nat) (s : state) : state * list event :=
  match pushing s !! call with
  | Some value =>
      (mkState (queue_ s ++ [value]) (stop_flag_ s) (delete call (pushing s)), [Pushed value])
  | None => (s, [])
  end.

Definition pop_front (s : state) : state * list event :=
  match queue_ s with
  | value :: q => (mkState q (stop_flag_ s) (pushing s), [Popped value])
  | [] => (s, [Refused])
  end.

Definition try_pop (s : state) : state * list event :=
  if match queue_ s with [] => true | _ => false end || stop_flag_ s then (s, [Refused])
  else pop_front s.

(** What the wait of [wait_and_pop] waits for; without it the wait goes on or times out,
    which refuses. *)
Definition wait_pred (s : state) : bool :=
  negb (match queue_ s with [] => true | _ => false end) || stop_flag_ s.

Definition wait_and_pop (s : state) : state * list event :=
  if negb (wait_pred s) then (s, [Refused])
  else if stop_flag_ s || match queue_ s with [] => true | _ => false end then (s, [Refused])
  else pop_front s.

Definition stop (s : state) : state * list event :=
  (mkState (queue_ s) true (pushing s), [Stopped]).

Definition empty (s : state) : bool := match queue_ s with [] => true | _ => false end.
Definition is_stopped (s : state) : bool := stop_flag_ s.

Definition exec (o : op) (s : state) : state * list event :=
  match o with
  | PushCheck call value => push_check call value s
  | PushLocked call => push_locked call s
  | TryPop => try_pop s
  | WaitAndPop => wait_and_pop s
  | Stop => stop s
  end.

Definition pushed_of (e : event) : option T := match e with Pushed v => Some v | _ => None end.
Definition popped_of (e : event) : option T := match e with Popped v => Some v | _ => None end.
Definition is_stop (e : event) : bool := match e with Stopped => true | _ => false end.

Record queue_inv (s : state) (evs : list event) : Prop := {
  qi_fifo : omap pushed_of evs = omap popped_of evs ++ queue_ s;
  qi_stopped : stop_flag_ s = existsb is_stop evs;
  qi_quiet : forall evs1 evs2, evs = evs1 ++ Stopped :: evs2 -> omap popped_of evs2 = [];
  qi_dropped : forall evs1 v evs2, evs = evs1 ++ Dropped v :: evs2 -> Stopped ∈ evs1;
}.

Lemma existsb_stop evs : existsb is_stop evs = true <-> Stopped ∈ evs.
Proof.
  rewrite existsb_exists. split.
  - intros (e & Hin & He). destruct e; try done. by apply list_elem_of_In.
  - intros Hin. exists Stopped. split; [by apply list_elem_of_In|done].
Qed.

(** One event more, with the queue it leaves *)
Lemma queue_inv_snoc s s' evs e :
  queue_inv s evs ->
  omap pushed_of [e] = [] /\ queue_ s = omap popped_of [e] ++ queue_ s' \/
  (exists v, e = Pushed v /\ queue_ s' = queue_ s ++ [v]) ->
  stop_flag_ s' = stop_flag_ s || is_stop e ->
  (is_Some (popped_of e) -> stop_flag_ s = false) ->
  (forall v, e = Dropped v -> stop_flag_ s = true) ->
  queue_inv s' (evs ++ [e]).
Proof.
  intros [Hf Hs Hq Hd] He Hs' Hp Hdr. split.
  - rewrite !omap_app. destruct He as [[-> E]|(v & -> & ->)].
    + rewrite app_nil_r, Hf, E. by rewrite (assoc (++)).
    + cbn. rewrite Hf, app_nil_r. by rewrite (assoc (++)).
  - rewrite Hs', Hs, existsb_app. cbn. by rewrite orb_false_r.
  - intros evs1 evs2 E. destruct evs2 as [|e2 evs2 _] using rev_ind; [done|].
    rewrite app_comm_cons, app_assoc in E. apply app_inj_tail in E as [-> <-].
    rewrite omap_app, (Hq evs1 evs2) by done. cbn.
    destruct (popped_of e) as [v|] eqn:Ep; [|done].
    assert (stop_flag_ s = true) as Ht; [|rewrite Hp in Ht by eauto; done].
    rewrite Hs. apply existsb_stop. apply elem_of_app. right. apply list_elem_of_here.
  - intros evs1 v evs2 E. destruct evs2 as [|e2 evs2 _] using rev_ind.
    + apply app_inj_tail in E as [<- ->]. apply existsb_stop. rewrite <- Hs. by apply (Hdr v).
    + rewrite app_comm_cons, app_assoc in E. apply app_inj_tail in E as [-> <-]. by eapply Hd.
Qed.

Lemma queue_inv_exec o s evs :
  queue_inv s evs -> queue_inv (exec o s).1 (evs ++ (exec o s).2).
Proof.
  intros I. destruct o as [call v|call| | |]; cbn.
  - unfold push_check. destruct (stop_flag_ s) eqn:E; cbn.
    + apply (queue_inv_snoc s); cbn; rewrite ?E; [done|by left|done|by intros []|done].
    + destruct (pushing s !! call); cbn; rewrite app_nil_r; [done|].
      destruct I as [? Hs ? ?]. split; cbn; congruence || done.
  - unfold push_locked. destruct (pushing s !! call) as [v|]; cbn; [|by rewrite app_nil_r].
    apply (queue_inv_snoc s); cbn; [done|right; by exists v|by rewrite orb_false_r|by intros []|done].
  - unfold try_pop, pop_front. destruct (queue_ s) as [|v q] eqn:Eq, (stop_flag_ s) eqn:E; cbn;
      apply (queue_inv_snoc s); cbn; rewrite ?E; try done; try (left; by rewrite ?Eq); by intros [].
  - unfold wait_and_pop, wait_pred, pop_front.
    destruct (queue_ s) as [|v q] eqn:Eq, (stop_flag_ s) eqn:E; cbn;
      apply (queue_inv_snoc s); cbn; rewrite ?E; try done; try (left; by rewrite ?Eq); by intros [].
  - apply (queue_inv_snoc s); cbn; [done|by left|by rewrite orb_true_r|by intros []|done].
Qed.

(** C20: whatever the interleaving of pushes, pops and the stop, values come out once and in
    the order in which they went in (those still inside are the last ones), no pop succeeds
    after the stop, and no value is refused before it. *)
Theorem queue_fifo (ops : list op) :
  let '(s, evs) := run exec ops init in
  omap pushed_of evs = omap popped_of evs ++ queue_ s /\
  (forall evs1 evs2, evs = evs1 ++ Stopped :: evs2 -> omap popped_of evs2 = []) /\
  (forall evs1 v evs2, evs = evs1 ++ Dropped v :: evs2 -> Stopped ∈ evs1).
Proof.
  assert (queue_inv init []) as I0
    by (split; cbn; [done|done|by intros []|by intros []]).
  pose proof (run_inv exec queue_inv init I0 (fun o s evs I => queue_inv_exec o s evs I) ops) as I.
  destruct (run exec ops init) as [s evs]. by destruct I.
Qed.
End Model.

(** A push that saw the flag down just before the stop leaves its value in the queue for
    good. *)
Example push_after_stop :
  run exec [PushCheck 0 7%nat; Stop; PushLocked 0; TryPop] init =
    (mkState [7%nat] true ∅, [Stopped; Pushed 7%nat; Refused]).
Proof. vm_compute. reflexivity. Qed.
End ThreadSafeQueue.

(** * [AdvancedA] and [AdvancedB] *)
Module Advanced.
Import ThreadSafeQueue.

(** [printed] and [last_param] are the output and the local of [pollingMode]; [handled] the
    parameters that [eventDrivenMode] has processed. *)
Record state := mkState {
  shared_param_ : Z;
  running_ : bool;
  param_queue_ : @ThreadSafeQueue.state Z;
  generated : list Z;
  last_param : Z;
  printed : list Z;
  handled : list Z;
}.

Definition init : state := mkState 0 true ThreadSafeQueue.init [] (-1) [] [].

(** One turn of [generateParam], [r] the value of [std::rand()]: the queue is used by this
    thread alone for pushing, so its push is one step. *)
Definition generateParam (r : Z) (s : state) : state :=
  if running_ s then
    let param := Z.rem r 100 in
    let q := param_queue_ s in
    let q' := if is_stopped q then q
              else (push_locked 0 (push_check 0 param q).1).1 in
    mkState param (running_ s) q' (generated s ++ [param]) (last_param s) (printed s) (handled s)
  else s.

Definition getSharedParam (s : state) : Z := shared_param_ s.

(** One turn of [pollingMode] *)
Definition pollingMode (s : state) : state :=
  if running_ s then
    let current_param := getSharedParam s in
    if negb (current_param =? last_param s) then
      mkState (shared_param_ s) (running_ s) (param_queue_ s) (generated s) current_param
        (printed s ++ [current_param]) (handled s)
    else s
  else s.

Inductive verdict := TooHigh | TooLow | Normal.
Definition processParam (param : Z) : verdict :=
  if 80 <? param then TooHigh else if param <? 20 then TooLow else Normal.

(** One turn of [eventDrivenMode] *)
Definition eventDrivenMode (s : state) : state :=
  if running_ s then
    let '(q, evs) := wait_and_pop (param_queue_ s) in
    mkState (shared_param_ s) (running_ s) q (generated s) (last_param s) (printed s)
      (handled s ++ omap popped_of evs)
  else s.

(** [AdvancedA::stop] *)
Definition stop (s : state) : state :=
  mkState (shared_param_ s) false (ThreadSafeQueue.stop (param_queue_ s)).1 (generated s)
    (last_param s) (printed s) (handled s).

Inductive op := Generate (r : Z) | Poll | Event | StopA.

Definition exec (s : state) (o : op) : state :=
  match o with
  | Generate r => generateParam r s
  | Poll => pollingMode s
  | Event => eventDrivenMode s
  | StopA => stop s
  end.

(** No two neighbours are equal. *)
Fixpoint no_repeat (l : list Z) : Prop :=
  match l with
  | x :: ((y :: _) as l') => x <> y /\ no_repeat l'
  | _ => True
  end.

Lemma no_repeat_snoc l x : no_repeat l -> last l <> Some x -> no_repeat (l ++ [x]).
Proof.
  induction l as [|a [|b l] IH]; cbn; [done|intros _ H; split; [congruence|done]|].
  intros [Hab Hl] Hlast. split; [done|]. by apply IH.
Qed.

Record advanced_inv (s : state) : Prop := {
  ai_fifo : generated s = handled s ++ queue_ (param_queue_ s);
  ai_shared : shared_param_ s = default 0 (last (generated s));
  ai_range : Forall (fun p => 0 <= p < 100) (generated s);
  ai_stop : stop_flag_ (param_queue_ s) = negb (running_ s);
  ai_pushing : pushing (param_queue_ s) = ∅;
  ai_last : last_param s = default (-1) (last (printed s));
  ai_printed : no_repeat (printed s);
  ai_seen : Forall (fun p => p = 0 \/ p ∈ generated s) (printed s);
}.

Definition natural_rand (o : op) : Prop := match o with Generate r => 0 <= r | _ => True end.

Lemma generate_inv r s : 0 <= r -> advanced_inv s -> advanced_inv (generateParam r s).
Proof.
  intros Hr I. unfold generateParam. destruct (running_ s) eqn:Hrun; [|done].
  destruct I as [Hf Hsh Hra Hst Hpu Hla Hpr Hse]. rewrite Hrun in Hst.
  unfold is_stopped. rewrite Hst. unfold push_check. rewrite Hst, Hpu, lookup_empty. cbn.
  unfold push_locked. cbn. rewrite lookup_insert_eq. cbn.
  split; cbn; [|by rewrite last_snoc| |done|by rewrite delete_insert_eq, delete_empty|done|done|].
  - rewrite Hf. by rewrite (assoc (++)).
  - apply Forall_app. split; [done|]. apply Forall_singleton.
    rewrite Z.rem_mod_nonneg by lia. apply Z.mod_pos_bound. lia.
  - eapply Forall_impl; [exact Hse|]. intros p [?|?]; [by left|right; set_solver].
Qed.

Lemma exec_inv o s : natural_rand o -> advanced_inv s -> advanced_inv (exec s o).
Proof.
  intros Ho I. destruct o as [r| | |]; cbn.
  - by apply generate_inv.
  - unfold pollingMode, getSharedParam. destruct (running_ s) eqn:Hrun; [|done].
    destruct (shared_param_ s =? last_param s) eqn:E; zbool; cbn; [done|].
    destruct I as [Hf Hsh Hra Hst Hpu Hla Hpr Hse].
    split; cbn; try done; [by rewrite Hst, Hrun|by rewrite last_snoc| |].
    + apply no_repeat_snoc; [done|]. intros El. rewrite El in Hla. done.
    + apply Forall_app. split; [done|]. apply Forall_singleton. rewrite Hsh.
      destruct (last (generated s)) as [p|] eqn:El; [|by left].
      right. apply last_Some in El as [l ->]. set_solver.
  - unfold eventDrivenMode. destruct (running_ s) eqn:Hrun; [|done].
    destruct I as [Hf Hsh Hra Hst Hpu Hla Hpr Hse]. rewrite Hrun in Hst.
    unfold wait_and_pop, wait_pred, pop_front. rewrite Hst.
    destruct (queue_ (param_queue_ s)) as [|v q] eqn:Eq; cbn;
      (split; cbn; [|done..]).
    + by rewrite app_nil_r, Eq.
    + rewrite Hf. by rewrite <- (assoc (++)).
  - destruct I as [Hf Hsh Hra Hst Hpu Hla Hpr Hse]. by split.
Qed.

(** [AdvancedB]'s event mode handles the generated parameters in order and none twice,
    the rest still queued; its polling mode prints only values the shared parameter had,
    and never the same one twice in a row; every parameter is in 0..99. *)
Theorem advanced_exchange (ops : list op) :
  Forall natural_rand ops ->
  let s := foldl exec init ops in
  generated s = handled s ++ queue_ (param_queue_ s) /\
  Forall (fun p => 0 <= p < 100) (generated s) /\
  no_repeat (printed s) /\ Forall (fun p => p = 0 \/ p ∈ generated s) (printed s).
Proof.
  intros Hops s. assert (advanced_inv s) as []; [|done]. unfold s.
  assert (advanced_inv init) as I by (by split; cbn).
  revert I. generalize init. induction Hops as [|o ops Ho _ IH]; intros s0 I; [done|].
  cbn. by apply IH, exec_inv.
Qed.

Lemma advanced_exchange_witness :
  let s := foldl exec init [Generate 183; Poll; Generate 42; Event; Poll; Poll; StopA; Generate 7] in
  generated s = handled s ++ queue_ (param_queue_ s) /\
  Forall (fun p => 0 <= p < 100) (generated s) /\
  no_repeat (printed s) /\ Forall (fun p => p = 0 \/ p ∈ generated s) (printed s).
Proof.
  apply (advanced_exchange [Generate 183; Poll; Generate 42; Event; Poll; Poll; StopA; Generate 7]).
  by repeat constructor.
Defined.

Example advanced_run :
  let s := foldl exec init [Generate 183; Poll; Generate 42; Event; Poll; Poll] in
  (generated s, handled s, printed s) = ([83; 42], [83], [83; 42]).
Proof. vm_compute. reflexivity. Qed.
End Advanced.

(** * [shdata.cpp] *)
Module ProxyData.

(** [data_] of [C], the [counter] of [A]'s worker, what [B]'s worker has read and not yet
    acted on; [added] counts the complex operations since the last update. *)
Record state := mkState {
  data_ : Z;
  counter : Z;
  c_data : option Z;
  added : nat;
}.

Definition init : state := mkState 0 0 None 0.

(** [C::updateData] with [++counter] of [A::workerThread] *)
Definition a_worker (s : state) : option state :=
  c ← int_add (counter s) 1;
  Some (mkState c c (c_data s) 0).

Definition getCData (s : state) : Z := data_ s.

(** [C::complexOperation], through [A::executeCComplexOperation] *)
Definition complexOperation (value : Z) (s : state) : option state :=
  d ← int_add (data_ s) value;
  Some (mkState d (counter s) (c_data s) (S (added s))).

(** [B::workerThread]: the read, and what follows it *)
Definition b_read (s : state) : option state :=
  match c_data s with
  | None => Some (mkState (data_ s) (counter s) (Some (getCData s)) (added s))
  | Some _ => None
  end.

Definition b_act (s : state) : option state :=
  match c_data s with
  | Some d =>
      r ← int_rem d 5;
      let s1 := mkState (data_ s) (counter s) None (added s) in
      if r =? 0 then complexOperation 10 s1 else Some s1
  | None => None
  end.

Inductive tid := AWorker | BRead | BAct.

Definition step (t : tid) (s : state) : option state :=
  match t with AWorker => a_worker s | BRead => b_read s | BAct => b_act s end.

(** the shared datum is the counter of [A]'s worker plus ten for every complex operation
    of [B] since the last update: an update throws away all that [B] has added. *)
Theorem proxy_data (s : state) :
  reachable step init s ->
  data_ s = counter s + 10 * Z.of_nat (added s) /\ 0 <= counter s <= INT_MAX /\
  (forall s', step AWorker s = Some s' -> data_ s' = counter s + 1).
Proof.
  intros Hr.
  assert (data_ s = counter s + 10 * Z.of_nat (added s) /\ 0 <= counter s <= INT_MAX) as [Hd Hc].
  { revert Hr. apply (reachable_inv step
      (fun s => data_ s = counter s + 10 * Z.of_nat (added s) /\ 0 <= counter s <= INT_MAX)).
    - by split; cbn; [|unfold INT_MAX; lia].
    - intros x t y [Hd Hc] H. destruct t; cbn in H.
      + unfold a_worker, int_add in H. apply bind_Some in H as (c & Hck & H).
        apply chk_int_Some in Hck as [-> ?]. simplify_eq; cbn. lia.
      + unfold b_read in H. destruct (c_data x); simplify_eq; cbn. done.
      + unfold b_act in H. destruct (c_data x) as [d|]; [|done].
        apply bind_Some in H as (r & _ & H). destruct (r =? 0); simplify_eq; [|done].
        unfold complexOperation, int_add in H; cbn in H. apply bind_Some in H as (d' & Hck & H).
        apply chk_int_Some in Hck as [-> ?]. simplify_eq; cbn. lia. }
  split; [done|]. split; [done|]. intros s' H. cbn in H.
  unfold a_worker, int_add in H. apply bind_Some in H as (c & Hck & H).
  apply chk_int_Some in Hck as [-> ?]. by simplify_eq.
Qed.

Lemma proxy_data_witness :
  data_ (mkState 15 5 None 1) = 5 + 10 * Z.of_nat 1 /\ 0 <= 5 <= INT_MAX /\
  (forall s', step AWorker (mkState 15 5 None 1) = Some s' -> data_ s' = 5 + 1).
Proof.
  apply (proxy_data (mkState 15 5 None 1)).
  apply (run_schedule_reachable step [AWorker; AWorker; AWorker; AWorker; AWorker; BRead; BAct]).
  reflexivity.
Defined.
End ProxyData.
