(* ===== verification/Heap.v ===== *)
(** A heap of blocks for the classes that own memory through raw pointers ([new], [delete] and
    array accesses), and the ownership discipline their special member functions are to keep:
    every block belongs to exactly one live object. *)
From S2P Require Import Prelude.

Section Heap.
Context {A : Type}.

(** Blocks by address; [next_addr] is an address not used so far (addresses are not used
    again, so a freed block stays invalid). *)
Record heap := mkHeap {
  cells : gmap nat (list A);
  next_addr : nat;
}.

Definition empty_heap : heap := mkHeap ∅ 0.

(** A pointer; [None] is [nullptr]. *)
Definition ptr := option nat.

Definition alloc (l : list A) (h : heap) : nat * heap :=
  (next_addr h, mkHeap (<[next_addr h := l]> (cells h)) (S (next_addr h))).

(** [delete [] p]: nothing for [nullptr], undefined ([None]) for a block that is not there. *)
Definition free (p : ptr) (h : heap) : option heap :=
  match p with
  | None => Some h
  | Some a =>
      match cells h !! a with
      | Some _ => Some (mkHeap (delete a (cells h)) (next_addr h))
      | None => None
      end
  end.

(** [p[i]], undefined outside a live block. *)
Definition load (p : ptr) (i : nat) (h : heap) : option A :=
  a ← p; l ← cells h !! a; l !! i.

Definition store (p : ptr) (i : nat) (v : A) (h : heap) : option heap :=
  a ← p; l ← cells h !! a;
  if (i <? length l)%nat then Some (mkHeap (<[a := <[i := v]> l]> (cells h)) (next_addr h)) else None.

(** [for (k = 0; k < n; k++) dst[d + k] = src[s + k]] *)
Fixpoint copy_loop (n : nat) (dst : ptr) (d : nat) (src : ptr) (s : nat) (h : heap) : option heap :=
  match n with
  | O => Some h
  | S n =>
      v ← load src s h;
      h' ← store dst d v h;
      copy_loop n dst (S d) src (S s) h'
  end.

Definition heap_ok (h : heap) : Prop := forall a, a ∈ dom (cells h) -> (a < next_addr h)%nat.

Lemma heap_ok_empty : heap_ok empty_heap.
Proof. intros a Ha. cbn in Ha. set_solver. Qed.

Lemma heap_ok_alloc l h : heap_ok h -> heap_ok (alloc l h).2.
Proof.
  intros H a. cbn. rewrite dom_insert, elem_of_union, elem_of_singleton.
  intros [->|?%H]; lia.
Qed.

Lemma alloc_fresh h : heap_ok h -> cells h !! next_addr h = None.
Proof.
  intros H. apply not_elem_of_dom. intros Ha%H. lia.
Qed.

Lemma heap_ok_free p h h' : heap_ok h -> free p h = Some h' -> heap_ok h'.
Proof.
  intros H. unfold free. destruct p as [a|]; [|by intros [= <-]].
  destruct (cells h !! a); intros [= <-]. intros b. cbn. rewrite dom_delete. set_solver.
Qed.

Lemma store_cells a i v h l :
  cells h !! a = Some l -> (i < length l)%nat ->
  store (Some a) i v h = Some (mkHeap (<[a := <[i := v]> l]> (cells h)) (next_addr h)).
Proof.
  intros Hl Hi. unfold store. cbn -[Nat.ltb]. rewrite Hl. cbn -[Nat.ltb].
  by rewrite (proj2 (Nat.ltb_lt _ _) Hi).
Qed.

(** Copying between two blocks, or onto the first part of the same one *)
Lemma copy_loop_spec n a d ld ls src s h :
  cells h !! a = Some ld -> cells h !! src = Some ls -> a <> src ->
  (d + n <= length ld)%nat -> (s + n <= length ls)%nat ->
  copy_loop n (Some a) d (Some src) s h =
    Some (mkHeap (<[a := take d ld ++ take n (drop s ls) ++ drop (d + n) ld]> (cells h)) (next_addr h)).
Proof.
  revert d s ld h. induction n as [|n IH]; intros d s ld h Ha Hs Hne Hd Hl; cbn [copy_loop].
  - rewrite take_0, app_nil_l. rewrite Nat.add_0_r, take_drop.
    rewrite insert_id by done. by destruct h.
  - destruct (lookup_lt_is_Some_2 ls s) as [v Hv]; [lia|].
    assert (load (Some src) s h = Some v) as -> by (unfold load; cbn; by rewrite Hs).
    cbn [mbind option_bind].
    rewrite (store_cells a d v h ld) by (done || lia). cbn [mbind option_bind].
    rewrite (IH (S d) (S s) (<[d:=v]> ld)); cbn.
    + f_equal. f_equal. rewrite insert_insert_eq. f_equal.
      rewrite (take_S_r _ _ v) by (by apply list_lookup_insert_eq; lia).
      rewrite take_insert_ge by done. rewrite drop_insert_lt by lia.
      rewrite (drop_S ls v s Hv), <- (assoc (++)). cbn. by rewrite Nat.add_succ_r.
    + by rewrite lookup_insert_eq.
    + by rewrite lookup_insert_ne.
    + done.
    + rewrite length_insert. lia.
    + lia.
Qed.
End Heap.
Arguments heap : clear implicits.

(** * Ownership *)
Section Owned.
Context {A Obj : Type} (blocks : Obj -> gset nat).
Implicit Types (h : heap A) (objs : gmap nat Obj).

Record owned h objs : Prop := {
  ow_ok : heap_ok h;
  ow_live : forall i o, objs !! i = Some o -> blocks o ⊆ dom (cells h);
  ow_disjoint : forall i j oi oj,
    objs !! i = Some oi -> objs !! j = Some oj -> i <> j -> blocks oi ## blocks oj;
  ow_cover : forall a, a ∈ dom (cells h) -> exists i o, objs !! i = Some o /\ a ∈ blocks o;
}.

Lemma owned_empty : owned empty_heap ∅.
Proof. split; [apply heap_ok_empty|..]; cbn; set_solver. Qed.

Definition blocks_at (objs : gmap nat Obj) (i : nat) : gset nat :=
  match objs !! i with Some o => blocks o | None => ∅ end.

Lemma blocks_at_other h objs i j o :
  owned h objs -> objs !! j = Some o -> i <> j -> blocks o ## blocks_at objs i.
Proof.
  intros I Hj Hne. unfold blocks_at. destruct (objs !! i) as [oi|] eqn:Hi; [|set_solver].
  apply symmetry. by eapply ow_disjoint.
Qed.

(** Object [i], new or not, ends up with the blocks of [o]: what it had is freed unless it is
    kept, and what is new was not in use. *)
Lemma owned_set h h' objs i o :
  owned h objs -> heap_ok h' ->
  dom (cells h') = (dom (cells h) ∖ blocks_at objs i) ∪ blocks o ->
  blocks o ## dom (cells h) ∖ blocks_at objs i ->
  owned h' (<[i := o]> objs).
Proof.
  intros I Hok Hdom Hnew. split; [done|..].
  - intros j oj. rewrite lookup_insert. case_decide as Hij.
    + intros [= <-]. rewrite Hdom. set_solver.
    + intros Hj. pose proof (ow_live _ _ I _ _ Hj). pose proof (blocks_at_other _ _ i j _ I Hj Hij).
      rewrite Hdom. set_solver.
  - assert (forall j oj, objs !! j = Some oj -> i <> j -> blocks o ## blocks oj) as Hd.
    { intros j oj Hj Hij. pose proof (ow_live _ _ I _ _ Hj).
      pose proof (blocks_at_other _ _ i j _ I Hj Hij). set_solver. }
    intros j k oj ok. rewrite !lookup_insert. repeat case_decide; intros Hj Hk Hjk; simplify_eq; eauto.
    + apply symmetry; eauto.
    + by eapply ow_disjoint.
  - intros a. rewrite Hdom, elem_of_union, elem_of_difference. intros [[Ha Hn]|Ha].
    + destruct (ow_cover _ _ I _ Ha) as (j & oj & Hj & Haj). exists j, oj. split; [|done].
      rewrite lookup_insert_ne; [done|]. intros ->. unfold blocks_at in Hn. by rewrite Hj in Hn.
    + exists i, o. by rewrite lookup_insert_eq.
Qed.

Lemma owned_delete h h' objs i :
  owned h objs -> heap_ok h' -> dom (cells h') = dom (cells h) ∖ blocks_at objs i ->
  owned h' (delete i objs).
Proof.
  intros I Hok Hdom. split; [done|..].
  - intros j oj [Hij Hj]%lookup_delete_Some. rewrite Hdom.
    pose proof (ow_live _ _ I _ _ Hj). pose proof (blocks_at_other _ _ i j _ I Hj Hij). set_solver.
  - intros j k oj ok [_ Hj]%lookup_delete_Some [_ Hk]%lookup_delete_Some. by eapply ow_disjoint.
  - intros a. rewrite Hdom, elem_of_difference. intros [Ha Hn].
    destruct (ow_cover _ _ I _ Ha) as (j & oj & Hj & Haj). exists j, oj. split; [|done].
    apply lookup_delete_Some. split; [|done]. intros ->. unfold blocks_at in Hn. by rewrite Hj in Hn.
Qed.

(** Object [i] takes the blocks of [j], which keeps none. *)
Lemma owned_move h h' objs i j oj oi' oj' :
  owned h objs -> heap_ok h' -> i <> j -> objs !! j = Some oj ->
  dom (cells h') = dom (cells h) ∖ blocks_at objs i ->
  blocks oi' = blocks oj -> blocks oj' = ∅ ->
  owned h' (<[i := oi']> (<[j := oj']> objs)).
Proof.
  intros I Hok Hij Hj Hdom Hi' Hj'.
  pose proof (blocks_at_other _ _ i j _ I Hj Hij) as Hdis.
  assert (forall k ok, k <> i -> k <> j -> objs !! k = Some ok ->
    blocks ok ## blocks oj /\ blocks ok ⊆ dom (cells h')) as Hk.
  { intros k ok Hki Hkj Hk. split; [by eapply (ow_disjoint _ _ I k j)|].
    rewrite Hdom. intros x Hx. apply elem_of_difference.
    split; [by apply (ow_live _ _ I _ _ Hk)|]. intros Hb.
    by apply (blocks_at_other _ _ i k _ I Hk (not_eq_sym Hki) x). }
  split; [done|..].
  - intros k ok. rewrite !lookup_insert. repeat case_decide; intros E; simplify_eq.
    + rewrite Hi', Hdom. intros x Hx. apply elem_of_difference.
      split; [by apply (ow_live _ _ I _ _ Hj)|]. intros Hb. by apply (Hdis x).
    + rewrite Hj'. set_solver.
    + by apply (Hk k).
  - intros k l ok ol. rewrite !lookup_insert. repeat case_decide; intros E1 E2 Hkl; simplify_eq;
      rewrite ?Hi', ?Hj'; try done; try apply disjoint_empty_l; try apply disjoint_empty_r.
    + apply symmetry, (Hk l); done.
    + apply (Hk k); done.
    + by eapply (ow_disjoint _ _ I k l).
  - intros a. rewrite Hdom, elem_of_difference. intros [Ha Hn].
    destruct (ow_cover _ _ I _ Ha) as (k & ok & Hkk & Hak).
    destruct (decide (k = j)) as [->|Hkj].
    + exists i, oi'. rewrite lookup_insert_eq, Hi'. simplify_eq. done.
    + exists k, ok. split; [|done].
      rewrite !lookup_insert_ne; [done|done|]. intros ->.
      unfold blocks_at in Hn. by rewrite Hkk in Hn.
Qed.

(** When no object is left, nothing is left in the heap. *)
Lemma owned_no_leak h : owned h ∅ -> cells h = ∅.
Proof.
  intros I. apply dom_empty_iff_L, elem_of_equiv_empty_L. intros a Ha.
  destruct (ow_cover _ _ I _ Ha) as (i & o & Hi & _). by rewrite lookup_empty in Hi.
Qed.
End Owned.

Definition ptr_blocks (p : ptr) : gset nat := match p with Some a => {[a]} | None => ∅ end.

Lemma free_spec {A} p (h : heap A) :
  ptr_blocks p ⊆ dom (cells h) ->
  exists h1, free p h = Some h1 /\ next_addr h1 = next_addr h /\
    dom (cells h1) = dom (cells h) ∖ ptr_blocks p /\
    forall a, a ∉ ptr_blocks p -> cells h1 !! a = cells h !! a.
Proof.
  intros Hp. destruct p as [a|]; cbn in *.
  - assert (is_Some (cells h !! a)) as [l Hl] by (apply elem_of_dom; set_solver).
    rewrite Hl. eexists. split; [done|]. cbn. split; [done|]. split; [apply dom_delete_L|].
    intros b Hb. rewrite lookup_delete_ne; [done|]. intros ->. set_solver.
  - exists h. split_and!; [done|done|set_solver|done].
Qed.

(** * Objects that stand for values

    [repr h o v]: object [o] in heap [h] stands for [v]; it looks at its own blocks only. *)
Section Values.
Context {A Obj V : Type} (blocks : Obj -> gset nat) (repr : heap A -> Obj -> V -> Prop).
Context (repr_frame : forall h h' o v,
  (forall a, a ∈ blocks o -> cells h' !! a = cells h !! a) -> repr h o v -> repr h' o v).
Implicit Types (h : heap A) (objs : gmap nat Obj) (vals : gmap nat V).

Record stands h objs vals : Prop := {
  sf_owned : owned blocks h objs;
  sf_repr : forall i, option_Forall2 (repr h) (objs !! i) (vals !! i);
}.

Lemma stands_empty : stands empty_heap ∅ ∅.
Proof using Type. split; [apply owned_empty|]. intros i. rewrite !lookup_empty. constructor. Qed.

Lemma stands_lookup h objs vals i v :
  stands h objs vals -> vals !! i = Some v -> exists o, objs !! i = Some o /\ repr h o v.
Proof using Type.
  intros [_ H] Hv. specialize (H i). rewrite Hv in H. inversion H; subst. eauto.
Qed.

Lemma stands_none h objs vals i : stands h objs vals -> vals !! i = None -> objs !! i = None.
Proof using Type. intros [_ H] Hv. specialize (H i). rewrite Hv in H. by inversion H. Qed.

(** What lies outside the blocks of [i] is untouched, so every other object stands for what
    it did. *)
Lemma others_stand h h' objs vals i :
  stands h objs vals ->
  (forall a, a ∈ dom (cells h) -> a ∉ blocks_at blocks objs i -> cells h' !! a = cells h !! a) ->
  forall j, i <> j -> option_Forall2 (repr h') (objs !! j) (vals !! j).
Proof.
  intros I Hsame j Hij. pose proof (sf_repr _ _ _ I j) as H.
  destruct (objs !! j) as [o|] eqn:Ej; inversion H as [? v Hv|]; subst; constructor.
  apply (repr_frame h); [|done]. intros a Ha. apply Hsame.
  - by apply (ow_live _ _ _ (sf_owned _ _ _ I) _ _ Ej).
  - intros Hb. exact (blocks_at_other blocks h objs i j o (sf_owned _ _ _ I) Ej Hij a Ha Hb).
Qed.

Lemma stands_set h h' objs vals i o v :
  stands h objs vals -> heap_ok h' ->
  dom (cells h') = (dom (cells h) ∖ blocks_at blocks objs i) ∪ blocks o ->
  blocks o ## dom (cells h) ∖ blocks_at blocks objs i ->
  (forall a, a ∈ dom (cells h) -> a ∉ blocks_at blocks objs i -> cells h' !! a = cells h !! a) ->
  repr h' o v ->
  stands h' (<[i := o]> objs) (<[i := v]> vals).
Proof.
  intros I Hok Hdom Hnew Hsame Hv. split.
  - by eapply owned_set; [apply I|..].
  - intros j. rewrite !lookup_insert. case_decide; [by constructor|]. by eapply others_stand.
Qed.

Lemma stands_delete h h' objs vals i :
  stands h objs vals -> heap_ok h' ->
  dom (cells h') = dom (cells h) ∖ blocks_at blocks objs i ->
  (forall a, a ∈ dom (cells h) -> a ∉ blocks_at blocks objs i -> cells h' !! a = cells h !! a) ->
  stands h' (delete i objs) (delete i vals).
Proof.
  intros I Hok Hdom Hsame. split.
  - by eapply owned_delete; [apply I|..].
  - intros j. rewrite !lookup_delete. case_decide; [by constructor|]. by eapply others_stand.
Qed.

Lemma stands_move h h' objs vals i j oj oi' oj' vi vj :
  stands h objs vals -> heap_ok h' -> i <> j -> objs !! j = Some oj ->
  dom (cells h') = dom (cells h) ∖ blocks_at blocks objs i ->
  blocks oi' = blocks oj -> blocks oj' = ∅ ->
  (forall a, a ∈ dom (cells h) -> a ∉ blocks_at blocks objs i -> cells h' !! a = cells h !! a) ->
  repr h' oi' vi -> repr h' oj' vj ->
  stands h' (<[i := oi']> (<[j := oj']> objs)) (<[i := vi]> (<[j := vj]> vals)).
Proof.
  intros I Hok Hij Hj Hdom Hbi Hbj Hsame Hvi Hvj. split.
  - by eapply owned_move; [apply I|..].
  - intros k. rewrite !lookup_insert. repeat case_decide; try by constructor.
    by eapply others_stand.
Qed.

Lemma stands_ok h objs vals : stands h objs vals -> heap_ok h.
Proof using Type. intros I. apply (ow_ok _ _ _ (sf_owned _ _ _ I)). Qed.

Lemma stands_live h objs vals i o : stands h objs vals -> objs !! i = Some o -> blocks o ⊆ dom (cells h).
Proof using Type. intros I Hi. apply (ow_live _ _ _ (sf_owned _ _ _ I) _ _ Hi). Qed.

Lemma blocks_at_none h objs vals i :
  stands h objs vals -> vals !! i = None -> blocks_at blocks objs i = ∅.
Proof using Type. intros I Hi. unfold blocks_at. by rewrite (stands_none _ _ _ _ I Hi). Qed.

Lemma blocks_at_some objs i o : objs !! i = Some o -> blocks_at blocks objs i = blocks o.
Proof using Type. intros Hi. unfold blocks_at. by rewrite Hi. Qed.

(** Object [i] gives up the blocks [D] and gets a fresh one, [blk]; [h] is the heap after
    the blocks of [D] were freed. *)
Lemma stands_realloc D h0 h objs vals i blk o v :
  stands h0 objs vals -> D ⊆ blocks_at blocks objs i -> next_addr h = next_addr h0 ->
  dom (cells h) = dom (cells h0) ∖ D -> (forall a, a ∉ D -> cells h !! a = cells h0 !! a) ->
  blocks o = (blocks_at blocks objs i ∖ D) ∪ {[next_addr h]} ->
  repr (mkHeap (<[next_addr h := blk]> (cells h)) (S (next_addr h))) o v ->
  stands (mkHeap (<[next_addr h := blk]> (cells h)) (S (next_addr h))) (<[i := o]> objs) (<[i := v]> vals).
Proof.
  intros I HD Hn Hdom Hsame Hb Hv.
  assert (next_addr h ∉ dom (cells h0)) as Hf
    by (rewrite Hn, not_elem_of_dom; by eapply alloc_fresh, stands_ok).
  assert (blocks_at blocks objs i ⊆ dom (cells h0)) as Hlive.
  { unfold blocks_at. destruct (objs !! i) as [oi|] eqn:Hi; [by eapply stands_live|set_solver]. }
  assert (forall a, a ∈ dom (cells h0) -> a ∉ D -> cells h !! a = cells h0 !! a) as Hs by auto.
  eapply stands_set; [exact I| | | | |done]; cbn.
  - intros a. cbn. rewrite dom_insert, elem_of_union, elem_of_singleton, Hdom, Hn.
    intros [->|[Ha _]%elem_of_difference]; [lia|]. eapply stands_ok in Ha; [lia|done].
  - rewrite dom_insert_L, Hdom, Hb. apply set_eq. intros a.
    rewrite !elem_of_union, !elem_of_difference, !elem_of_singleton.
    destruct (decide (a ∈ blocks_at blocks objs i)) as [Ha|Ha]; [|set_solver].
    pose proof (Hlive a Ha). tauto.
  - rewrite Hb. set_solver.
  - intros a Ha Hna. cbn. rewrite lookup_insert_ne by (intros <-; done). apply Hsame. set_solver.
Qed.

(** Object [i] on a fresh block [blk]; [h] is the heap after its old blocks were freed. *)
Lemma stands_fresh h0 h objs vals i blk o v :
  stands h0 objs vals -> next_addr h = next_addr h0 ->
  dom (cells h) = dom (cells h0) ∖ blocks_at blocks objs i ->
  (forall a, a ∉ blocks_at blocks objs i -> cells h !! a = cells h0 !! a) ->
  blocks o = {[next_addr h]} ->
  repr (mkHeap (<[next_addr h := blk]> (cells h)) (S (next_addr h))) o v ->
  stands (mkHeap (<[next_addr h := blk]> (cells h)) (S (next_addr h))) (<[i := o]> objs) (<[i := v]> vals).
Proof.
  intros I Hn Hdom Hsame Hb Hv. eapply (stands_realloc (blocks_at blocks objs i)); try done.
  rewrite Hb. by rewrite difference_diag_L, union_empty_l_L.
Qed.

(** Object [i] keeps its blocks, with other contents. *)
Lemma stands_update h0 h objs vals i o o' v :
  stands h0 objs vals -> objs !! i = Some o -> blocks o' = blocks o ->
  next_addr h = next_addr h0 -> dom (cells h) = dom (cells h0) ->
  (forall a, a ∉ blocks o -> cells h !! a = cells h0 !! a) ->
  repr h o' v -> stands h (<[i := o']> objs) (<[i := v]> vals).
Proof.
  intros I Ho Hb Hn Hdom Hsame Hv. pose proof (blocks_at_some _ _ _ Ho) as Ha.
  pose proof (stands_live _ _ _ _ _ I Ho) as Hlive.
  eapply stands_set; [exact I| | | | |done].
  - intros a. rewrite Hdom, Hn. by apply (stands_ok _ _ _ I).
  - rewrite Hdom, Ha, Hb. apply set_eq. intros a.
    rewrite elem_of_union, elem_of_difference. destruct (decide (a ∈ blocks o)); naive_solver.
  - rewrite Ha, Hb. set_solver.
  - intros a _ Hna. apply Hsame. by rewrite Ha in Hna.
Qed.

Lemma stands_no_leak h objs vals : stands h objs vals -> vals = ∅ -> objs = ∅ /\ cells h = ∅.
Proof using Type.
  intros I ->. assert (objs = ∅) as ->.
  { apply map_eq. intros i. rewrite lookup_empty. eapply stands_none; [done|apply lookup_empty]. }
  split; [done|]. eapply owned_no_leak, I.
Qed.
End Values.
Arguments stands {A Obj V} blocks repr h objs vals.

(** * Linked lists

    A node is a block of one cell, [mk x p] with the item [x] and the next pointer [p];
    [seg h p l q]: from [p] the nodes of [l], which are addresses and items, lead to [q]. *)
Section Chain.
Context {Item Node : Type} (mk : Item -> ptr -> Node).

Fixpoint seg (h : heap Node) (p : ptr) (l : list (nat * Item)) (q : ptr) : Prop :=
  match l with
  | [] => p = q
  | (a, x) :: l => p = Some a /\ exists r, cells h !! a = Some [mk x r] /\ seg h r l q
  end.

Fixpoint chain (h : heap Node) (p : ptr) (l : list (nat * Item)) : Prop :=
  match l with
  | [] => p = None
  | (a, x) :: l => p = Some a /\ exists q, cells h !! a = Some [mk x q] /\ chain h q l
  end.

Lemma chain_app h p l1 l2 : chain h p (l1 ++ l2) <-> exists q, seg h p l1 q /\ chain h q l2.
Proof.
  revert p. induction l1 as [|[a x] l1 IH]; intros p; cbn.
  - split; [eauto|by intros (q & -> & ?)].
  - split.
    + intros (-> & r & Ha & (q & Hs & Hc)%IH). eauto 10.
    + intros (q & (-> & r & Ha & Hs) & Hc). split; [done|]. exists r. split; [done|]. apply IH. eauto.
Qed.

Lemma seg_app h p l1 l2 q : seg h p (l1 ++ l2) q <-> exists r, seg h p l1 r /\ seg h r l2 q.
Proof.
  revert p. induction l1 as [|[a x] l1 IH]; intros p; cbn.
  - split; [eauto|by intros (r & -> & ?)].
  - split.
    + intros (-> & r & Ha & (q' & Hs & Hc)%IH). eauto 10.
    + intros (q' & (-> & r & Ha & Hs) & Hc). split; [done|]. exists r. split; [done|]. apply IH. eauto.
Qed.

Lemma seg_frame h h' p l q :
  (forall a, a ∈ l.*1 -> cells h' !! a = cells h !! a) -> seg h p l q -> seg h' p l q.
Proof.
  revert p. induction l as [|[a x] l IH]; intros p Hs; [done|]. cbn in *.
  intros (-> & r & Ha & Hc). split; [done|]. exists r. rewrite Hs by set_solver.
  split; [done|]. apply IH; [|done]. intros b Hb. apply Hs. set_solver.
Qed.

Lemma chain_frame h h' p l :
  (forall a, a ∈ l.*1 -> cells h' !! a = cells h !! a) -> chain h p l -> chain h' p l.
Proof.
  revert p. induction l as [|[a x] l IH]; intros p Hs; [done|]. cbn in *.
  intros (-> & q & Ha & Hc). split; [done|]. exists q. rewrite Hs by set_solver.
  split; [done|]. apply IH; [|done]. intros b Hb. apply Hs. set_solver.
Qed.

(** Linking a new node behind the last one *)
Lemma chain_snoc h h' p l a x b y q :
  chain h p (l ++ [(a, x)]) -> NoDup (l ++ [(a, x)]).*1 ->
  (forall c, c ∈ l.*1 -> cells h' !! c = cells h !! c) ->
  cells h' !! a = Some [mk x (Some b)] -> cells h' !! b = Some [mk y q] -> q = None ->
  chain h' p ((l ++ [(a, x)]) ++ [(b, y)]).
Proof.
  intros Hc ND Hs Ha Hb ->. revert p Hc ND Hs. induction l as [|[c z] l IH]; intros p Hc ND Hs; cbn in *.
  - destruct Hc as (-> & q & _ & _). eauto 10.
  - destruct Hc as (-> & q & Hq & Hc). apply NoDup_cons in ND as [_ ND].
    split; [done|]. exists q. rewrite Hs by set_solver. split; [done|].
    apply IH; [done|done|]. intros d Hd. apply Hs. set_solver.
Qed.

Lemma chain_last h p l a x : chain h p (l ++ [(a, x)]) -> cells h !! a = Some [mk x None].
Proof.
  revert p. induction l as [|[b y] l IH]; intros p; cbn.
  - by intros (_ & q & Ha & ->).
  - intros (_ & q & _ & Hc). by eapply IH.
Qed.
End Chain.
Arguments chain {Item Node} mk h p l.
Arguments seg {Item Node} mk h p l q.
