(* ===== verification/Useless.v ===== *)
(** [Useless] of [src/primer_plus/chap18/18_3/stdmove.cpp] (and, without the assignments,
    [18_2/useless.cpp]): a buffer of characters behind a raw pointer, with copy and move
    constructors and assignments.  The static counter [ct] and the output are left out. *)
From S2P Require Import Prelude Heap.

Module Useless.

(** A character; [None] is one that was never written. *)
Abbreviation char := (option Z).

Record Useless := mk { n : Z; pc : ptr }.

(** The objects in scope, by name, and the heap *)
Record state := mkState { hp : heap char; objs : gmap nat Useless }.

Definition init : state := mkState empty_heap ∅.

Definition set_obj (i : nat) (o : Useless) (h : heap char) (s : state) : state :=
  mkState h (<[i := o]> (objs s)).

(** [for (i = 0; i < n; i++) pc[i] = ch] *)
Fixpoint fill_loop (k : nat) (p : ptr) (i : nat) (ch : char) (h : heap char) : option (heap char) :=
  match k with
  | O => Some h
  | S k => h' ← store p i ch h; fill_loop k p (S i) ch h'
  end.

(** [new char[k]], not initialised; a negative size throws ([None]). *)
Definition new_chars (k : Z) (h : heap char) : option (nat * heap char) :=
  if k <? 0 then None else Some (alloc (replicate (Z.to_nat k) None) h).

(** [Useless()] *)
Definition construct (i : nat) (s : state) : option state :=
  Some (set_obj i (mk 0 None) (hp s) s).

(** [Useless(int k)] *)
Definition construct_size (i : nat) (k : Z) (s : state) : option state :=
  '(a, h) ← new_chars k (hp s);
  Some (set_obj i (mk k (Some a)) h s).

(** [Useless(int k, char ch)] *)
Definition construct_fill (i : nat) (k : Z) (ch : Z) (s : state) : option state :=
  '(a, h) ← new_chars k (hp s);
  h' ← fill_loop (Z.to_nat k) (Some a) 0 (Some ch) h;
  Some (set_obj i (mk k (Some a)) h' s).

(** [Useless(const Useless & f)] *)
Definition construct_copy (i j : nat) (s : state) : option state :=
  f ← objs s !! j;
  '(a, h) ← new_chars (n f) (hp s);
  h' ← copy_loop (Z.to_nat (n f)) (Some a) 0 (pc f) 0 h;
  Some (set_obj i (mk (n f) (Some a)) h' s).

(** [Useless(Useless && f)] *)
Definition construct_move (i j : nat) (s : state) : option state :=
  f ← objs s !! j;
  Some (mkState (hp s) (<[i := mk (n f) (pc f)]> (<[j := mk 0 None]> (objs s)))).

Definition destroy (i : nat) (s : state) : option state :=
  o ← objs s !! i;
  h ← free (pc o) (hp s);
  Some (mkState h (delete i (objs s))).

(** [operator+]: [temp] becomes the result. *)
Definition plus (i a b : nat) (s : state) : option state :=
  x ← objs s !! a;
  f ← objs s !! b;
  m ← int_add (n x) (n f);
  '(p, h) ← new_chars m (hp s);
  h1 ← copy_loop (Z.to_nat (n x)) (Some p) 0 (pc x) 0 h;
  h2 ← copy_loop (Z.to_nat (m - n x)) (Some p) (Z.to_nat (n x)) (pc f) 0 h1;
  Some (set_obj i (mk m (Some p)) h2 s).

(** [operator=(const Useless & f)] *)
Definition assign_copy (i j : nat) (s : state) : option state :=
  o ← objs s !! i;
  f ← objs s !! j;
  if (i =? j)%nat then Some s
  else
    h ← free (pc o) (hp s);
    '(a, h1) ← new_chars (n f) h;
    h2 ← copy_loop (Z.to_nat (n f)) (Some a) 0 (pc f) 0 h1;
    Some (set_obj i (mk (n f) (Some a)) h2 s).

(** [operator=(Useless && f)] *)
Definition assign_move (i j : nat) (s : state) : option state :=
  o ← objs s !! i;
  f ← objs s !! j;
  if (i =? j)%nat then Some s
  else
    h ← free (pc o) (hp s);
    Some (mkState h (<[i := mk (n f) (pc f)]> (<[j := mk 0 None]> (objs s)))).

(** The statements of a program that uses the class *)
Inductive stmt :=
| Default (i : nat) | Size (i : nat) (k : Z) | Fill (i : nat) (k : Z) (ch : Z)
| Copy (i j : nat) | Move (i j : nat) | Destroy (i : nat) | Plus (i a b : nat)
| AssignCopy (i j : nat) | AssignMove (i j : nat).

Definition exec (c : stmt) (s : state) : option state :=
  match c with
  | Default i => construct i s
  | Size i k => construct_size i k s
  | Fill i k ch => construct_fill i k ch s
  | Copy i j => construct_copy i j s
  | Move i j => construct_move i j s
  | Destroy i => destroy i s
  | Plus i a b => plus i a b s
  | AssignCopy i j => assign_copy i j s
  | AssignMove i j => assign_move i j s
  end.

Fixpoint exec_all (cs : list stmt) (s : state) : option state :=
  match cs with [] => Some s | c :: cs => s' ← exec c s; exec_all cs s' end.

(** ** What the class is to be: values without pointers

    An object is the list of its characters; a constructor needs a name not in scope, every
    other operand must be in scope, and lengths are [int]s. *)
Definition new_value (i : nat) (l : list char) (vals : gmap nat (list char)) :
    option (gmap nat (list char)) :=
  match vals !! i with Some _ => None | None => Some (<[i := l]> vals) end.

Definition spec (c : stmt) (vals : gmap nat (list char)) : option (gmap nat (list char)) :=
  match c with
  | Default i => new_value i [] vals
  | Size i k => if k <? 0 then None else new_value i (replicate (Z.to_nat k) None) vals
  | Fill i k ch => if k <? 0 then None else new_value i (replicate (Z.to_nat k) (Some ch)) vals
  | Copy i j => l ← vals !! j; new_value i l vals
  | Move i j => l ← vals !! j; vals' ← new_value i l vals; Some (<[i := l]> (<[j := []]> vals))
  | Destroy i => _ ← vals !! i; Some (delete i vals)
  | Plus i a b =>
      la ← vals !! a; lb ← vals !! b;
      if is_int (Z.of_nat (length la) + Z.of_nat (length lb)) then new_value i (la ++ lb) vals
      else None
  | AssignCopy i j => _ ← vals !! i; l ← vals !! j; Some (<[i := l]> vals)
  | AssignMove i j =>
      _ ← vals !! i; l ← vals !! j;
      if (i =? j)%nat then Some vals else Some (<[i := l]> (<[j := []]> vals))
  end.

Fixpoint spec_all (cs : list stmt) (vals : gmap nat (list char)) : option (gmap nat (list char)) :=
  match cs with [] => Some vals | c :: cs => v ← spec c vals; spec_all cs v end.

(** ** The representation *)
Definition blocks (o : Useless) : gset nat := ptr_blocks (pc o).

Definition repr (h : heap char) (o : Useless) (l : list char) : Prop :=
  n o = Z.of_nat (length l) /\
  match pc o with Some a => cells h !! a = Some l | None => l = [] end.

Lemma usl_repr_frame h h' o l :
  (forall a, a ∈ blocks o -> cells h' !! a = cells h !! a) -> repr h o l -> repr h' o l.
Proof.
  intros Hs [Hn Hp]. split; [done|]. destruct (pc o) as [a|] eqn:E; [|done].
  rewrite Hs; [done|]. unfold blocks. rewrite E. cbn. set_solver.
Qed.

Definition rel (s : state) (vals : gmap nat (list char)) : Prop :=
  stands blocks repr (hp s) (objs s) vals.

Lemma fill_loop_spec k a i ch l h :
  cells h !! a = Some l -> (i + k = length l)%nat ->
  fill_loop k (Some a) i ch h =
    Some (mkHeap (<[a := take i l ++ replicate k ch]> (cells h)) (next_addr h)).
Proof.
  revert i l h. induction k as [|k IH]; intros i l h Ha Hl; cbn [fill_loop].
  - rewrite take_ge by lia. cbn. rewrite app_nil_r, insert_id by done. by destruct h.
  - rewrite (store_cells a i ch h l) by (done || lia). cbn [mbind option_bind].
    rewrite (IH _ (<[i:=ch]> l)); cbn.
    + f_equal. f_equal. rewrite insert_insert_eq. f_equal.
      rewrite (take_S_r _ _ ch) by (by apply list_lookup_insert_eq; lia).
      rewrite take_insert_ge by done. by rewrite <- (assoc (++)).
    + by rewrite lookup_insert_eq.
    + rewrite length_insert. lia.
Qed.

(** Copying all of an object to the front, or to the end, of a fresh block *)
Lemma copy_object h o l a d ld :
  repr h o l -> cells h !! a = Some ld -> Some a <> pc o -> (d + length l <= length ld)%nat ->
  copy_loop (length l) (Some a) d (pc o) 0 h =
    Some (mkHeap (<[a := take d ld ++ l ++ drop (d + length l) ld]> (cells h)) (next_addr h)).
Proof.
  intros [_ Hp] Ha Hne Hd. destruct (pc o) as [src|] eqn:E.
  - rewrite (copy_loop_spec _ _ _ ld l) by (congruence || lia || done).
    by rewrite drop_0, (take_ge l) by lia.
  - subst l. cbn. rewrite Nat.add_0_r, take_drop, insert_id by done. by destruct h.
Qed.

(** A fresh block for object [i], its old one freed: the common end of all operations that
    allocate. *)
Lemma usl_rel_fresh s vals i h l :
  rel s vals -> next_addr h = next_addr (hp s) ->
  dom (cells h) = dom (cells (hp s)) ∖ blocks_at blocks (objs s) i ->
  (forall a, a ∉ blocks_at blocks (objs s) i -> cells h !! a = cells (hp s) !! a) ->
  rel (set_obj i (mk (Z.of_nat (length l)) (Some (next_addr h)))
         (mkHeap (<[next_addr h := l]> (cells h)) (S (next_addr h))) s) (<[i := l]> vals).
Proof.
  intros I Hn Hdom Hsame. eapply (stands_fresh blocks repr usl_repr_frame); [exact I|done..|].
  split; cbn; [done|]. apply lookup_insert_eq.
Qed.

(** A new object with a block of its own *)
Lemma rel_new s vals i l :
  rel s vals -> vals !! i = None ->
  rel (set_obj i (mk (Z.of_nat (length l)) (Some (next_addr (hp s))))
         (mkHeap (<[next_addr (hp s) := l]> (cells (hp s))) (S (next_addr (hp s)))) s) (<[i := l]> vals).
Proof.
  intros I Hi. apply usl_rel_fresh; [done|done| |done].
  rewrite (blocks_at_none _ _ _ _ _ _ I Hi). by rewrite difference_empty_L.
Qed.

Lemma new_chars_ok (l : nat) (h : heap char) :
  new_chars (Z.of_nat l) h = Some (next_addr h, (alloc (replicate l None) h).2).
Proof. unfold new_chars. rewrite (proj2 (Z.ltb_ge _ _)) by lia. by rewrite Nat2Z.id. Qed.

(** An object read through after an allocation *)
Lemma repr_alloc h o l x :
  heap_ok h -> ptr_blocks (pc o) ⊆ dom (cells h) -> repr h o l ->
  repr (alloc x h).2 o l /\ Some (next_addr h) <> pc o.
Proof.
  intros Hok Hl Hr. assert (Some (next_addr h) <> pc o) as Hne.
  { intros E. rewrite <- E in Hl. cbn in Hl.
    assert (next_addr h ∈ dom (cells h)) as Ha%Hok by set_solver. lia. }
  split; [|done]. apply (usl_repr_frame h); [|done]. intros a Ha. cbn.
  rewrite lookup_insert_ne; [done|]. intros <-. unfold blocks in Ha.
  destruct (pc o); cbn in Ha; [|set_solver]. apply elem_of_singleton in Ha. congruence.
Qed.

(** A fresh copy of an object *)
Lemma usl_copy_fresh h o l :
  heap_ok h -> ptr_blocks (pc o) ⊆ dom (cells h) -> repr h o l ->
  copy_loop (length l) (Some (next_addr h)) 0 (pc o) 0 (alloc (replicate (length l) None) h).2 =
    Some (mkHeap (<[next_addr h := l]> (cells h)) (S (next_addr h))).
Proof.
  intros Hok Hl Hr. destruct (repr_alloc h o l (replicate (length l) None) Hok Hl Hr) as [Hr' Hne].
  rewrite (copy_object _ o l _ 0 (replicate (length l) None)); [|done|apply lookup_insert_eq|done|].
  - cbn. rewrite drop_ge by (rewrite length_replicate; lia). by rewrite app_nil_r, insert_insert_eq.
  - rewrite length_replicate. lia.
Qed.

Lemma new_value_Some i l vals vals' :
  new_value i l vals = Some vals' -> vals !! i = None /\ vals' = <[i := l]> vals.
Proof. unfold new_value. destruct (vals !! i); [done|]. by intros [= <-]. Qed.

Lemma usl_construct_ok s vals i :
  rel s vals -> vals !! i = None -> exists s', construct i s = Some s' /\ rel s' (<[i := []]> vals).
Proof.
  intros I Hi. eexists. split; [done|]. unfold rel; cbn.
  eapply (stands_set blocks repr usl_repr_frame); [exact I|by eapply stands_ok| | |done|done].
  - rewrite (blocks_at_none _ _ _ _ _ _ I Hi). unfold blocks; cbn. set_solver.
  - unfold blocks; cbn. set_solver.
Qed.

Lemma construct_size_ok s vals i (k : nat) :
  rel s vals -> vals !! i = None ->
  exists s', construct_size i (Z.of_nat k) s = Some s' /\ rel s' (<[i := replicate k None]> vals).
Proof.
  intros I Hi. unfold construct_size. rewrite new_chars_ok; cbn. eexists. split; [done|].
  pose proof (rel_new s vals i (replicate k None) I Hi) as H.
  by rewrite length_replicate in H.
Qed.

Lemma construct_fill_ok s vals i (k : nat) ch :
  rel s vals -> vals !! i = None ->
  exists s', construct_fill i (Z.of_nat k) ch s = Some s' /\
    rel s' (<[i := replicate k (Some ch)]> vals).
Proof.
  intros I Hi. unfold construct_fill. rewrite new_chars_ok, Nat2Z.id. cbn [mbind option_bind].
  rewrite (fill_loop_spec _ _ _ _ (replicate k None)); cbn [mbind option_bind];
    [|apply lookup_insert_eq|by rewrite length_replicate].
  eexists. split; [done|]. cbn. rewrite insert_insert_eq.
  pose proof (rel_new s vals i (replicate k (Some ch)) I Hi) as H.
  by rewrite length_replicate in H.
Qed.

Lemma usl_construct_copy_ok s vals i j l :
  rel s vals -> vals !! i = None -> vals !! j = Some l ->
  exists s', construct_copy i j s = Some s' /\ rel s' (<[i := l]> vals).
Proof.
  intros I Hi Hj. destruct (stands_lookup _ _ _ _ _ _ _ I Hj) as (f & Hf & Hr).
  unfold construct_copy. rewrite Hf. cbn [mbind option_bind]. rewrite (proj1 Hr), new_chars_ok, Nat2Z.id.
  cbn [mbind option_bind].
  rewrite (usl_copy_fresh (hp s) f l (stands_ok _ _ _ _ _ I) (stands_live _ _ _ _ _ _ _ I Hf) Hr).
  eexists. split; [done|]. by apply rel_new.
Qed.

Lemma construct_move_ok s vals i j l :
  rel s vals -> vals !! i = None -> vals !! j = Some l ->
  exists s', construct_move i j s = Some s' /\ rel s' (<[i := l]> (<[j := []]> vals)).
Proof.
  intros I Hi Hj. destruct (stands_lookup _ _ _ _ _ _ _ I Hj) as (f & Hf & Hr).
  unfold construct_move. rewrite Hf. eexists. split; [done|]. unfold rel; cbn.
  assert (blocks_at blocks (objs s) i = ∅) as Hb by (by eapply blocks_at_none).
  eapply (stands_move blocks repr usl_repr_frame); [exact I|by eapply stands_ok| |exact Hf| |done|done|done| |done].
  - intros ->. congruence.
  - rewrite Hb. by rewrite difference_empty_L.
  - done.
Qed.

Lemma usl_destroy_ok s vals i l :
  rel s vals -> vals !! i = Some l ->
  exists s', destroy i s = Some s' /\ rel s' (delete i vals).
Proof.
  intros I Hi. destruct (stands_lookup _ _ _ _ _ _ _ I Hi) as (o & Ho & _).
  unfold destroy. rewrite Ho. cbn [mbind option_bind].
  destruct (free_spec (pc o) (hp s) (stands_live _ _ _ _ _ _ _ I Ho)) as (h1 & E & _ & Hdom & Hsame).
  rewrite E. eexists. split; [done|]. unfold rel; cbn.
  eapply (stands_delete blocks repr usl_repr_frame); [exact I|eapply heap_ok_free; [by eapply stands_ok|done]| |].
  - by rewrite (blocks_at_some blocks _ _ _ Ho).
  - intros a _ Ha. apply Hsame. by rewrite (blocks_at_some blocks _ _ _ Ho) in Ha.
Qed.

Lemma assign_copy_ok s vals i j li l :
  rel s vals -> vals !! i = Some li -> vals !! j = Some l ->
  exists s', assign_copy i j s = Some s' /\ rel s' (<[i := l]> vals).
Proof.
  intros I Hi Hj. destruct (stands_lookup _ _ _ _ _ _ _ I Hi) as (o & Ho & Hro).
  destruct (stands_lookup _ _ _ _ _ _ _ I Hj) as (f & Hf & Hr).
  unfold assign_copy. rewrite Ho, Hf. cbn [mbind option_bind].
  destruct (Nat.eqb_spec i j) as [->|Hij].
  { exists s. split; [done|]. by rewrite insert_id. }
  destruct (free_spec (pc o) (hp s) (stands_live _ _ _ _ _ _ _ I Ho)) as (h1 & E & Hn & Hdom & Hsame).
  rewrite E. cbn [mbind option_bind]. rewrite (proj1 Hr), new_chars_ok, Nat2Z.id.
  assert (ptr_blocks (pc f) ## ptr_blocks (pc o)) as Hdis.
  { apply (ow_disjoint _ _ _ (sf_owned _ _ _ _ _ I) j i); done. }
  pose proof (stands_live _ _ _ _ _ _ _ I Hf) as Hlive.
  assert (repr h1 f l) as Hr1.
  { apply (usl_repr_frame (hp s)); [|done]. intros a Ha. apply Hsame. intros Hb. by apply (Hdis a). }
  assert (heap_ok h1) as Hok1 by (eapply heap_ok_free; [by eapply stands_ok|done]).
  assert (ptr_blocks (pc f) ⊆ dom (cells h1)) as Hlive1 by (rewrite Hdom; set_solver).
  cbn [mbind option_bind]. rewrite (usl_copy_fresh h1 f l Hok1 Hlive1 Hr1). eexists. split; [done|].
  apply usl_rel_fresh; [done|done| |]; rewrite (blocks_at_some blocks _ _ _ Ho); done.
Qed.

Lemma assign_move_ok s vals i j li l :
  rel s vals -> vals !! i = Some li -> vals !! j = Some l -> i <> j ->
  exists s', assign_move i j s = Some s' /\ rel s' (<[i := l]> (<[j := []]> vals)).
Proof.
  intros I Hi Hj Hij. destruct (stands_lookup _ _ _ _ _ _ _ I Hi) as (o & Ho & Hro).
  destruct (stands_lookup _ _ _ _ _ _ _ I Hj) as (f & Hf & Hr).
  unfold assign_move. rewrite Ho, Hf. cbn [mbind option_bind].
  rewrite (proj2 (Nat.eqb_neq i j) Hij).
  destruct (free_spec (pc o) (hp s) (stands_live _ _ _ _ _ _ _ I Ho)) as (h1 & E & Hn & Hdom & Hsame).
  rewrite E. eexists. split; [done|]. unfold rel; cbn.
  pose proof (blocks_at_some blocks _ _ _ Ho) as Hb.
  eapply (stands_move blocks repr usl_repr_frame);
    [exact I|eapply heap_ok_free; [by eapply stands_ok|done]|done|exact Hf|by rewrite Hb|done|done| | |done].
  - intros a _ Ha. apply Hsame. by rewrite Hb in Ha.
  - apply (usl_repr_frame (hp s)); [|by destruct Hr]. intros a Ha. apply Hsame. intros Hao.
    by apply (ow_disjoint _ _ _ (sf_owned _ _ _ _ _ I) j i f o Hf Ho (not_eq_sym Hij) a).
Qed.

Lemma plus_ok s vals i a b la lb :
  rel s vals -> vals !! i = None -> vals !! a = Some la -> vals !! b = Some lb ->
  is_int (Z.of_nat (length la) + Z.of_nat (length lb)) = true ->
  exists s', plus i a b s = Some s' /\ rel s' (<[i := la ++ lb]> vals).
Proof.
  intros I Hi Ha Hb Hint. destruct (stands_lookup _ _ _ _ _ _ _ I Ha) as (x & Hx & Hrx).
  destruct (stands_lookup _ _ _ _ _ _ _ I Hb) as (f & Hf & Hrf).
  unfold plus. rewrite Hx, Hf. cbn [mbind option_bind]. rewrite (proj1 Hrx), (proj1 Hrf).
  unfold int_add, chk_int. rewrite Hint. cbn [mbind option_bind].
  rewrite <- Nat2Z.inj_add, new_chars_ok, Nat2Z.id. cbn [mbind option_bind].
  replace (Z.to_nat (Z.of_nat (length la + length lb) - Z.of_nat (length la))) with (length lb) by lia.
  set (blank := replicate (length la + length lb) None).
  destruct (repr_alloc (hp s) x la blank (stands_ok _ _ _ _ _ I) (stands_live _ _ _ _ _ _ _ I Hx) Hrx) as [Hx1 Hnx].
  destruct (repr_alloc (hp s) f lb blank (stands_ok _ _ _ _ _ I) (stands_live _ _ _ _ _ _ _ I Hf) Hrf) as [Hf1 Hnf].
  assert (length blank = length la + length lb)%nat as Hlen by apply length_replicate.
  rewrite (copy_object _ x la _ 0 blank); [|done|apply lookup_insert_eq|done|lia].
  cbn [mbind option_bind].
  set (h1 := mkHeap _ _).
  assert (repr h1 f lb) as Hf2.
  { apply (usl_repr_frame (alloc blank (hp s)).2); [|done]. intros c Hc. cbn.
    rewrite lookup_insert_ne; [done|]. intros <-. unfold blocks in Hc.
    destruct (pc f); cbn in Hc; [|set_solver]. apply elem_of_singleton in Hc. congruence. }
  rewrite (copy_object _ f lb _ (length la) (la ++ drop (length la) blank));
    [|done|cbn; by rewrite lookup_insert_eq|done|rewrite length_app, length_drop; lia].
  eexists. split; [done|]. cbn. rewrite !insert_insert_eq.
  rewrite take_app_length, drop_ge, app_nil_r by (rewrite length_app, length_drop; lia).
  pose proof (rel_new s vals i (la ++ lb) I Hi) as H. by rewrite length_app in H.
Qed.

Lemma usl_exec_refines c s vals vals' :
  rel s vals -> spec c vals = Some vals' -> exists s', exec c s = Some s' /\ rel s' vals'.
Proof.
  intros I. destruct c as [i|i k|i k ch|i j|i j|i|i a b|i j|i j]; cbn; intros H.
  - apply new_value_Some in H as [? ->]. by apply usl_construct_ok.
  - destruct (k <? 0) eqn:Hk; [done|]. zbool. apply new_value_Some in H as [? ->].
    destruct (construct_size_ok s vals i (Z.to_nat k)) as (s' & E & ?); [done|done|].
    rewrite Z2Nat.id in E by lia. eauto.
  - destruct (k <? 0) eqn:Hk; [done|]. zbool. apply new_value_Some in H as [? ->].
    destruct (construct_fill_ok s vals i (Z.to_nat k) ch) as (s' & E & ?); [done|done|].
    rewrite Z2Nat.id in E by lia. eauto.
  - apply bind_Some in H as (l & Hj & [? ->]%new_value_Some). by apply usl_construct_copy_ok.
  - apply bind_Some in H as (l & Hj & (v & [? ->]%new_value_Some & E)%bind_Some).
    injection E as <-. by apply construct_move_ok.
  - apply bind_Some in H as (l & Hi & H). injection H as <-. by eapply usl_destroy_ok.
  - apply bind_Some in H as (la & Ha & (lb & Hb & Hn)%bind_Some).
    destruct (is_int _) eqn:E; [|done]. apply new_value_Some in Hn as [? ->]. by apply plus_ok.
  - apply bind_Some in H as (li & Hi & (l & Hj & E)%bind_Some). injection E as <-.
    by eapply assign_copy_ok.
  - apply bind_Some in H as (li & Hi & (l & Hj & E)%bind_Some).
    destruct (Nat.eqb_spec i j) as [->|Hij]; injection E as <-.
    + exists s. split; [|done]. destruct (stands_lookup _ _ _ _ _ _ _ I Hj) as (f & Hf & _).
      unfold assign_move. rewrite Hf. cbn. by rewrite Nat.eqb_refl.
    + by eapply assign_move_ok.
Qed.

Lemma usl_exec_all_refines cs s vals vals' :
  rel s vals -> spec_all cs vals = Some vals' -> exists s', exec_all cs s = Some s' /\ rel s' vals'.
Proof.
  revert s vals. induction cs as [|c cs IH]; cbn; intros s v I H.
  - injection H as <-. by exists s.
  - apply bind_Some in H as (v1 & H1 & H). destruct (usl_exec_refines _ _ _ _ I H1) as (s1 & -> & I1).
    by apply (IH s1 v1).
Qed.

(** C2: the class is a value type.  Every program of constructions, copies, moves,
    concatenations, assignments (to itself included) and destructions that is well scoped runs
    without undefined behaviour (no access outside a live block, no double free), its objects
    hold the characters that the pointer-free specification gives them, and when all of them
    are destroyed no memory is left allocated. *)
Theorem useless_is_value (cs : list stmt) (vals : gmap nat (list char)) :
  spec_all cs ∅ = Some vals ->
  exists s, exec_all cs init = Some s /\ rel s vals /\ (vals = ∅ -> cells (hp s) = ∅).
Proof.
  intros H. destruct (usl_exec_all_refines cs init ∅ vals (stands_empty _ _) H) as (s & E & I).
  exists s. split; [done|]. split; [done|]. intros ->. by destruct (stands_no_leak _ _ _ _ _ I eq_refl).
Qed.

(** [main()], with its names 1 to 4 and 5 for the temporary, up to the end of the scope *)
Definition main_stmts : list stmt :=
  [Fill 1 10 120; Plus 2 1 1; Default 3; Default 4; AssignCopy 3 1; Plus 5 1 2; AssignMove 4 5;
   Destroy 5; AssignMove 4 1; Destroy 4; Destroy 3; Destroy 2; Destroy 1].

Lemma useless_is_value_witness :
  exists s, exec_all main_stmts init = Some s /\ rel s ∅ /\ ((∅ : gmap nat (list char)) = ∅ -> cells (hp s) = ∅).
Proof. apply (useless_is_value main_stmts ∅). vm_compute. reflexivity. Defined.
End Useless.
