(* ===== verification/Containers.v ===== *)
(** The containers of [src/primer_plus/]: the array stacks of [chap10/stack.cpp],
    [chap14/14_4/stacktp.h] and [14_4_3/tstack.h], the stack with a dynamic array of
    [14_4_3/stcktp1.h], and the linked queue of [chap15/15.2/queuetp.h]. *)
From S2P Require Import Prelude Heap.

(** * The bounded stack and queue that all of them are to be *)
Section Spec.
Context {T : Type}.

(** A stack as the list of its items, the top last *)
Definition spec_push (size : Z) (x : T) (l : list T) : bool * list T :=
  if Z.of_nat (length l) <? size then (true, l ++ [x]) else (false, l).

Definition spec_pop (l : list T) : option T * list T :=
  match last l with Some x => (Some x, take (length l - 1) l) | None => (None, l) end.

(** A queue as the list of its items, the front first *)
Definition spec_enqueue (size : Z) (x : T) (l : list T) : bool * list T :=
  if Z.of_nat (length l) =? size then (false, l) else (true, l ++ [x]).

Definition spec_dequeue (l : list T) : option T * list T :=
  match l with x :: l' => (Some x, l') | [] => (None, l) end.

Lemma last_take_snoc (l : list T) x : last l = Some x -> l = take (length l - 1) l ++ [x].
Proof.
  intros (l' & ->)%last_Some. rewrite length_app; cbn. rewrite Nat.add_sub, take_app_length. done.
Qed.
End Spec.

(** * The array of ten items *)
Module ArrayStack.
Section Model.
Context {T : Type}.

Definition MAX : Z := 10.

(** [items] has ten cells, [None] where nothing was written. *)
Record Stack := mkStack { items : list (option T); top : Z }.

Definition ctor : Stack := mkStack (replicate 10 None) 0.
Definition isempty (s : Stack) : bool := top s =? 0.
Definition isfull (s : Stack) : bool := top s =? MAX.

(** [None]: an access outside the array *)
Definition push (x : T) (s : Stack) : option (bool * Stack) :=
  if top s <? MAX then
    if (0 <=? top s) && (top s <? Z.of_nat (length (items s))) then
      Some (true, mkStack (<[Z.to_nat (top s) := Some x]> (items s)) (top s + 1))
    else None
  else Some (false, s).

(** The item is [None] when the array cell was never written. *)
Definition pop (s : Stack) : option (option (option T) * Stack) :=
  if 0 <? top s then
    x ← items s !! Z.to_nat (top s - 1);
    Some (Some x, mkStack (items s) (top s - 1))
  else Some (None, s).

Definition holds (s : Stack) (l : list T) : Prop :=
  length (items s) = 10%nat /\ top s = Z.of_nat (length l) /\ (length l <= 10)%nat /\
  take (length l) (items s) = Some <$> l.

Lemma arr_push_ok x s l :
  holds s l -> exists s', push x s = Some ((spec_push MAX x l).1, s') /\ holds s' (spec_push MAX x l).2.
Proof.
  intros (Hi & Ht & Hl & Hc). unfold push, spec_push. rewrite Ht, Hi. unfold MAX.
  destruct (Z.ltb_spec (Z.of_nat (length l)) 10) as [Hlt|Hge]; cbn.
  - rewrite (proj2 (Z.leb_le _ _)), (proj2 (Z.ltb_lt _ _)) by lia. cbn. eexists. split; [done|].
    split_and!; cbn; [by rewrite length_insert|rewrite length_app; cbn; lia|rewrite length_app; cbn; lia|].
    rewrite Nat2Z.id, length_app, fmap_app; cbn. rewrite Nat.add_1_r.
    rewrite (take_S_r _ _ (Some x)) by (apply list_lookup_insert_eq; lia).
    by rewrite take_insert_ge, Hc by done.
  - eexists. split; [done|]. done.
Qed.

Lemma arr_pop_ok s l :
  holds s l -> exists s', pop s = Some (Some <$> (spec_pop l).1, s') /\ holds s' (spec_pop l).2.
Proof.
  intros (Hi & Ht & Hl & Hc). unfold pop, spec_pop. rewrite Ht.
  destruct (last l) as [x|] eqn:E.
  - pose proof (last_take_snoc _ _ E) as El. set (l' := take (length l - 1) l) in *.
    assert (length l = S (length l')) as Hlen by (rewrite El, length_app; cbn; lia).
    rewrite (proj2 (Z.ltb_lt _ _)) by lia.
    replace (Z.to_nat (Z.of_nat (length l) - 1)) with (length l') by lia.
    assert (items s !! length l' = Some (Some x)) as ->.
    { rewrite <- (lookup_take_lt (items s) (length l)) by lia. rewrite Hc, El, fmap_app.
      rewrite lookup_app_r by (by rewrite length_fmap). by rewrite length_fmap, Nat.sub_diag. }
    cbn. eexists. split; [done|]. split_and!; cbn; [done|lia|lia|].
    replace (length l') with (Nat.min (length l') (length l)) by lia.
    rewrite <- take_take, Hc.
    assert (Some <$> l = (Some <$> l') ++ [Some x]) as -> by (rewrite El, fmap_app; done).
    rewrite take_app_le by (rewrite length_fmap; lia). rewrite take_ge; [done|rewrite length_fmap; lia].
  - apply last_None in E. subst l. cbn. eexists. split; [done|]. done.
Qed.
End Model.
End ArrayStack.

(** * The linked queue *)
Module QueueTP.
Section Model.
Context {Item : Type}.

(** A node, as a block of one cell *)
Record Node := mkNode { item : Item; next : ptr }.

Record QueueTP := mkQueue { front : ptr; rear : ptr; items : Z; qsize : Z }.

(** The queue and the heap with its nodes *)
Definition state : Type := QueueTP * heap Node.

Definition ctor (qs : Z) : state := (mkQueue None None 0 qs, empty_heap).

Definition isempty (q : QueueTP) : bool := items q =? 0.
Definition isfull (q : QueueTP) : bool := items q =? qsize q.
Definition queuecount (q : QueueTP) : Z := items q.

(** [None] is undefined behaviour: a bad pointer or an overflow. *)
Definition enqueue (x : Item) (s : state) : option (bool * state) :=
  let '(q, h) := s in
  if isfull q then Some (false, s)
  else
    let '(add, h1) := alloc [mkNode x None] h in
    n ← int_add (items q) 1;
    match front q with
    | None => Some (true, (mkQueue (Some add) (Some add) n (qsize q), h1))
    | Some _ =>
        last ← load (rear q) 0 h1;
        h2 ← store (rear q) 0 (mkNode (item last) (Some add)) h1;
        Some (true, (mkQueue (front q) (Some add) n (qsize q), h2))
    end.

Definition dequeue (s : state) : option (option Item * state) :=
  let '(q, h) := s in
  match front q with
  | None => Some (None, s)
  | Some _ =>
      node ← load (front q) 0 h;
      n ← int_sub (items q) 1;
      h1 ← free (front q) h;
      Some (Some (item node), (mkQueue (next node) (if n =? 0 then None else rear q) n (qsize q), h1))
  end.

(** The loop of the destructor *)
Fixpoint dtor_loop (fuel : nat) (p : ptr) (h : heap Node) : option (heap Node) :=
  match fuel with
  | O => None
  | S fuel =>
      match p with
      | None => Some h
      | Some _ => node ← load p 0 h; h1 ← free p h; dtor_loop fuel (next node) h1
      end
  end.

(** ** The representation: the addresses of the nodes, in order *)
Abbreviation chain := (Heap.chain mkNode).

Record repr (s : state) (qs : Z) (l : list (nat * Item)) : Prop := {
  qr_size : qsize s.1 = qs;
  qr_items : items s.1 = Z.of_nat (length l);
  qr_bound : Z.of_nat (length l) <= qs;
  qr_chain : chain s.2 (front s.1) l;
  qr_rear : rear s.1 = fst <$> last l;
  qr_nodup : NoDup l.*1;
  qr_heap : heap_ok s.2;
  qr_dom : forall a, a ∈ dom (cells s.2) <-> a ∈ l.*1;
}.

Lemma enqueue_ok x s qs l :
  repr s qs l -> qs <= INT_MAX ->
  exists s' l', enqueue x s = Some ((spec_enqueue qs x l.*2).1, s') /\ repr s' qs l' /\
    l'.*2 = (spec_enqueue qs x l.*2).2.
Proof.
  intros R Hmax. destruct s as [q h]. pose proof R as [Hqs Hi Hb Hc Hr ND Hok Hd]. cbn in *.
  unfold enqueue, spec_enqueue, isfull. rewrite Hi, Hqs, length_fmap.
  destruct (Z.eqb_spec (Z.of_nat (length l)) qs) as [He|Hne].
  { exists (q, h), l. done. }
  unfold int_add. rewrite chk_int_ok by (unfold INT_MIN; lia). cbn [mbind option_bind alloc fst snd].
  pose proof (alloc_fresh h Hok) as Hf. set (b := next_addr h) in *.
  assert (b ∉ l.*1) as Hbl by (rewrite <- Hd; by apply not_elem_of_dom).
  destruct l as [|[a0 x0] l0 _] using rev_ind.
  - cbn in Hc. rewrite Hc. eexists _, [(b, x)]. split; [done|]. split; [|done].
    split; cbn; try done; [lia| |by apply NoDup_singleton|by apply (heap_ok_alloc [mkNode x None])|].
    + split; [done|]. exists None. by rewrite lookup_insert_eq.
    + intros a. rewrite dom_insert, elem_of_union, elem_of_singleton, Hd. set_solver.
  - rewrite last_snoc in Hr. cbn in Hr.
    pose proof (chain_last mkNode _ _ _ _ _ Hc) as Ha0.
    assert (a0 <> b) as Hab by (intros ->; congruence).
    assert (exists p, front q = Some p) as [p Hp].
    { destruct l0 as [|[c z] ?]; cbn in Hc; destruct Hc as (-> & _); eauto. }
    rewrite Hp, Hr. unfold load, store. cbn [mbind option_bind cells].
    rewrite lookup_insert_ne, Ha0 by done. cbn.
    eexists _, ((l0 ++ [(a0, x0)]) ++ [(b, x)]). split; [done|].
    assert (forall c, c ∈ l0.*1 -> c <> a0 /\ c <> b) as Hl0.
    { intros c Hcl. rewrite fmap_app in ND, Hbl. cbn in *. split; [|set_solver].
      intros ->. apply NoDup_app in ND as (_ & ND & _). by apply (ND a0); [|set_solver]. }
    split; [|by rewrite !fmap_app].
    split; cbn.
    + done.
    + rewrite !length_app; cbn. rewrite length_app in *; cbn in *. lia.
    + rewrite !length_app in *; cbn in *. lia.
    + rewrite <- Hp. eapply (chain_snoc mkNode h); [done|done| | | |done].
      * intros c [??]%Hl0. cbn. by rewrite !lookup_insert_ne by done.
      * cbn. by rewrite lookup_insert_eq.
      * cbn. by rewrite lookup_insert_ne, lookup_insert_eq by done.
    + by rewrite last_snoc.
    + rewrite fmap_app. apply NoDup_app. split; [done|]. split; [|apply NoDup_singleton].
      intros c Hcl Hcb. cbn in Hcb. apply list_elem_of_singleton in Hcb as ->. done.
    + intros c. cbn. rewrite !dom_insert, !elem_of_union, !elem_of_singleton.
      intros [->|[->|Hcd%Hok]]; [|lia|unfold b; lia].
      assert (a0 ∈ dom (cells h)) as Had%Hok by (apply elem_of_dom; eauto). unfold b. lia.
    + intros c. rewrite !dom_insert, !elem_of_union, !elem_of_singleton, Hd.
      rewrite !fmap_app, !elem_of_app. cbn. rewrite !list_elem_of_singleton. tauto.
Qed.

Lemma dequeue_ok s qs l :
  repr s qs l -> qs <= INT_MAX ->
  exists s' l', dequeue s = Some ((spec_dequeue l.*2).1, s') /\ repr s' qs l' /\
    l'.*2 = (spec_dequeue l.*2).2.
Proof.
  intros R Hmax. destruct s as [q h]. pose proof R as [Hqs Hi Hb Hc Hr ND Hok Hd]. cbn in *.
  unfold dequeue. destruct l as [|[a x] l]; cbn in *.
  - rewrite Hc. exists (q, h), []. done.
  - destruct Hc as (Hp & nx & Ha & Hc). rewrite Hp. unfold load. cbn [mbind option_bind].
    rewrite Ha. cbn [mbind option_bind lookup list_lookup item next].
    unfold int_sub. rewrite Hi, chk_int_ok by (unfold INT_MIN; lia). cbn [mbind option_bind free].
    rewrite Ha. cbn [mbind option_bind].
    apply NoDup_cons in ND as [Hna ND].
    eexists _, l. split; [done|]. split; [|done]. split; cbn; try done; try lia.
    + eapply (chain_frame mkNode h); [|done]. intros c Hcl. cbn. rewrite lookup_delete_ne; [done|].
      intros ->. done.
    + destruct l as [|y l]; [done|]. cbn [length]. rewrite (proj2 (Z.eqb_neq _ _)) by lia. done.
    + intros c. cbn. rewrite dom_delete. intros [Hcd _]%elem_of_difference. by apply Hok.
    + intros c. rewrite dom_delete, elem_of_difference, Hd, elem_of_cons, elem_of_singleton.
      split; [tauto|]. intros Hcl. split; [by right|]. intros ->. done.
Qed.

Lemma dtor_ok fuel p h (l : list (nat * Item)) :
  chain h p l -> NoDup l.*1 -> (forall a, a ∈ dom (cells h) <-> a ∈ l.*1) -> (length l < fuel)%nat ->
  exists h', dtor_loop fuel p h = Some h' /\ cells h' = ∅.
Proof.
  revert p h fuel. induction l as [|[a x] l IH]; intros p h [|fuel] Hc ND Hd Hf; cbn in *; try lia.
  - subst p. exists h. split; [done|]. apply dom_empty_iff_L, elem_of_equiv_empty_L.
    intros a. rewrite Hd. apply not_elem_of_nil.
  - destruct Hc as (-> & nx & Ha & Hc). unfold load. cbn [mbind option_bind].
    rewrite Ha. cbn. rewrite Ha. cbn. apply NoDup_cons in ND as [Hna ND].
    apply IH; [|done| |lia].
    + eapply (chain_frame mkNode h); [|done]. intros c Hcl. cbn. rewrite lookup_delete_ne; [done|].
      intros ->. done.
    + intros c. cbn. rewrite dom_delete, elem_of_difference, Hd, elem_of_cons, elem_of_singleton.
      split; [tauto|]. intros Hcl. split; [by right|]. intros ->. done.
Qed.

(** ** Programs *)
Inductive op := Enqueue (x : Item) | Dequeue.

(** Whether an enqueue was accepted; what a dequeue gave *)
Inductive result := Accepted (b : bool) | Got (x : option Item).

Definition exec (o : op) (s : state) : option (result * state) :=
  match o with
  | Enqueue x => '(b, s') ← enqueue x s; Some (Accepted b, s')
  | Dequeue => '(x, s') ← dequeue s; Some (Got x, s')
  end.

Definition spec (qs : Z) (o : op) (l : list Item) : result * list Item :=
  match o with
  | Enqueue x => let '(b, l') := spec_enqueue qs x l in (Accepted b, l')
  | Dequeue => let '(x, l') := spec_dequeue l in (Got x, l')
  end.

Fixpoint exec_all (os : list op) (s : state) : option (list result * state) :=
  match os with
  | [] => Some ([], s)
  | o :: os =>
      '(r, s1) ← exec o s; '(rs, s2) ← exec_all os s1; Some (r :: rs, s2)
  end.

Fixpoint spec_all (qs : Z) (os : list op) (l : list Item) : list result * list Item :=
  match os with
  | [] => ([], l)
  | o :: os =>
      let '(r, l1) := spec qs o l in let '(rs, l2) := spec_all qs os l1 in (r :: rs, l2)
  end.

Lemma exec_all_ok qs os s l :
  qs <= INT_MAX -> repr s qs l ->
  exists s' l', exec_all os s = Some ((spec_all qs os l.*2).1, s') /\ repr s' qs l' /\
    l'.*2 = (spec_all qs os l.*2).2.
Proof.
  intros Hmax. revert s l. induction os as [|o os IH]; intros s l R; [by exists s, l|].
  assert (exists s1 l1, exec o s = Some ((spec qs o l.*2).1, s1) /\ repr s1 qs l1 /\
    l1.*2 = (spec qs o l.*2).2) as (s1 & l1 & E & R1 & El).
  { destruct o as [x|]; cbn.
    - destruct (enqueue_ok x s qs l R Hmax) as (s1 & l1 & -> & ? & ?). exists s1, l1.
      by destruct (spec_enqueue qs x l.*2).
    - destruct (dequeue_ok s qs l R Hmax) as (s1 & l1 & -> & ? & ?). exists s1, l1.
      by destruct (spec_dequeue l.*2). }
  cbn [exec_all spec_all]. rewrite E. cbn [mbind option_bind].
  destruct (spec qs o l.*2) as [r l1']. cbn in El |- *. subst l1'.
  destruct (IH s1 l1 R1) as (s2 & l2 & -> & R2 & E2). cbn [mbind option_bind].
  destruct (spec_all qs os l1.*2) as [rs l2']. cbn in *. eauto.
Qed.

(** C5: the linked queue is a bounded first-in first-out queue: every program of enqueues and
    dequeues on a new queue runs without a bad pointer or an overflow and gives the answers of
    the queue as a list of at most [qs] items; the count is the number of items inside, and
    the destructor then ends and frees every node. *)
Theorem queue_is_fifo (qs : Z) (os : list op) :
  0 <= qs <= INT_MAX ->
  let '(rs, l) := spec_all qs os [] in
  exists s, exec_all os (ctor qs) = Some (rs, s) /\
    queuecount s.1 = Z.of_nat (length l) /\ Z.of_nat (length l) <= qs /\
    exists h, dtor_loop (S (length l)) (front s.1) s.2 = Some h /\ cells h = ∅.
Proof.
  intros Hqs. assert (repr (ctor qs) qs []) as R.
  { split; cbn; try done; try lia; [by apply NoDup_nil|].
    intros a. rewrite dom_empty. set_solver. }
  destruct (exec_all_ok qs os (ctor qs) [] (proj2 Hqs) R) as (s & l & E & R' & El).
  cbn in E, El. destruct (spec_all qs os []) as [rs l']. cbn in *. subst l'.
  exists s. rewrite length_fmap. split_and!; [done|apply R'|apply R'|].
  apply (dtor_ok (S (length l)) (front s.1) s.2 l); [apply R'..|lia].
Qed.
End Model.

Lemma queue_is_fifo_witness :
  let '(rs, l) := spec_all 2 [Enqueue 5%nat; Enqueue 6%nat; Enqueue 7%nat; Dequeue; Enqueue 8%nat] [] in
  exists s, exec_all [Enqueue 5%nat; Enqueue 6%nat; Enqueue 7%nat; Dequeue; Enqueue 8%nat] (ctor 2) = Some (rs, s) /\
    queuecount s.1 = Z.of_nat (length l) /\ Z.of_nat (length l) <= 2 /\
    exists h, dtor_loop (S (length l)) (front s.1) s.2 = Some h /\ cells h = ∅.
Proof.
  apply (queue_is_fifo 2 [Enqueue 5%nat; Enqueue 6%nat; Enqueue 7%nat; Dequeue; Enqueue 8%nat]).
  split; vm_compute; discriminate.
Defined.
End QueueTP.
