(* ===== verification/DynStack.v ===== *)
(** The stack template with a dynamic array of [src/primer_plus/chap14/14_4/14_4_3/stcktp1.h],
    with its copy constructor, assignment and destructor. *)
From S2P Require Import Prelude Heap Containers.

Module DynStack.
Section Model.
Context {T : Type}.

(** A cell of the array; [None] is one that was never written. *)
Abbreviation cell := (option T).

Record Stack := mkStack { stacksize : Z; items : ptr; top : Z }.

(** The stacks in scope, by name, and the heap *)
Record state := mkState { hp : heap cell; objs : gmap nat Stack }.

Definition init : state := mkState empty_heap ∅.

Definition set_obj (i : nat) (o : Stack) (h : heap cell) (s : state) : state :=
  mkState h (<[i := o]> (objs s)).

(** [new Type [k]]; a negative size throws ([None]). *)
Definition new_items (k : Z) (h : heap cell) : option (nat * heap cell) :=
  if k <? 0 then None else Some (alloc (replicate (Z.to_nat k) None) h).

(** [Stack(int ss)] *)
Definition construct (i : nat) (ss : Z) (s : state) : option state :=
  '(a, h) ← new_items ss (hp s);
  Some (set_obj i (mkStack ss (Some a) 0) h s).

(** [Stack(const Stack & st)] *)
Definition construct_copy (i j : nat) (s : state) : option state :=
  st ← objs s !! j;
  '(a, h) ← new_items (stacksize st) (hp s);
  h' ← copy_loop (Z.to_nat (top st)) (Some a) 0 (items st) 0 h;
  Some (set_obj i (mkStack (stacksize st) (Some a) (top st)) h' s).

Definition destroy (i : nat) (s : state) : option state :=
  o ← objs s !! i;
  h ← free (items o) (hp s);
  Some (mkState h (delete i (objs s))).

Definition isempty (o : Stack) : bool := top o =? 0.
Definition isfull (o : Stack) : bool := top o =? stacksize o.

Definition push (i : nat) (x : T) (s : state) : option (bool * state) :=
  o ← objs s !! i;
  if top o <? stacksize o then
    h ← store (items o) (Z.to_nat (top o)) (Some x) (hp s);
    t ← int_add (top o) 1;
    Some (true, set_obj i (mkStack (stacksize o) (items o) t) h s)
  else Some (false, s).

(** The item read is a cell of the array. *)
Definition pop (i : nat) (s : state) : option (option cell * state) :=
  o ← objs s !! i;
  if 0 <? top o then
    t ← int_sub (top o) 1;
    x ← load (items o) (Z.to_nat t) (hp s);
    Some (Some x, set_obj i (mkStack (stacksize o) (items o) t) (hp s) s)
  else Some (None, s).

(** [operator=] *)
Definition assign (i j : nat) (s : state) : option state :=
  o ← objs s !! i;
  st ← objs s !! j;
  if (i =? j)%nat then Some s
  else
    h ← free (items o) (hp s);
    '(a, h1) ← new_items (stacksize st) h;
    h2 ← copy_loop (Z.to_nat (top st)) (Some a) 0 (items st) 0 h1;
    Some (set_obj i (mkStack (stacksize st) (Some a) (top st)) h2 s).

Inductive stmt :=
| New (i : nat) (ss : Z) | Copy (i j : nat) | Assign (i j : nat) | Destroy (i : nat)
| Push (i : nat) (x : T) | Pop (i : nat).

(** What a statement answers *)
Inductive answer := Done | Pushed (b : bool) | Popped (x : option cell).

Definition done_ (s : option state) : option (answer * state) := s' ← s; Some (Done, s').

Definition exec (c : stmt) (s : state) : option (answer * state) :=
  match c with
  | New i ss => done_ (construct i ss s)
  | Copy i j => done_ (construct_copy i j s)
  | Assign i j => done_ (assign i j s)
  | Destroy i => done_ (destroy i s)
  | Push i x => '(b, s') ← push i x s; Some (Pushed b, s')
  | Pop i => '(x, s') ← pop i s; Some (Popped x, s')
  end.

Fixpoint exec_all (cs : list stmt) (s : state) : option (list answer * state) :=
  match cs with
  | [] => Some ([], s)
  | c :: cs => '(r, s1) ← exec c s; '(rs, s2) ← exec_all cs s1; Some (r :: rs, s2)
  end.

(** ** Without pointers: a stack is its size and its items, the top last. *)
Definition value : Type := Z * list T.

Definition spec (c : stmt) (vals : gmap nat value) : option (answer * gmap nat value) :=
  match c with
  | New i ss =>
      if (0 <=? ss) && (ss <=? INT_MAX) then
        match vals !! i with Some _ => None | None => Some (Done, <[i := (ss, [])]> vals) end
      else None
  | Copy i j =>
      v ← vals !! j;
      match vals !! i with Some _ => None | None => Some (Done, <[i := v]> vals) end
  | Assign i j => _ ← vals !! i; v ← vals !! j; Some (Done, <[i := v]> vals)
  | Destroy i => _ ← vals !! i; Some (Done, delete i vals)
  | Push i x =>
      v ← vals !! i; let '(b, l) := spec_push v.1 x v.2 in Some (Pushed b, <[i := (v.1, l)]> vals)
  | Pop i =>
      v ← vals !! i;
      let '(x, l) := spec_pop v.2 in Some (Popped (Some <$> x), <[i := (v.1, l)]> vals)
  end.

Fixpoint spec_all (cs : list stmt) (vals : gmap nat value) : option (list answer * gmap nat value) :=
  match cs with
  | [] => Some ([], vals)
  | c :: cs => '(r, v1) ← spec c vals; '(rs, v2) ← spec_all cs v1; Some (r :: rs, v2)
  end.

(** ** The representation *)
Definition blocks (o : Stack) : gset nat := ptr_blocks (items o).

Record repr (h : heap cell) (o : Stack) (v : value) : Prop := {
  rp_size : stacksize o = v.1 /\ v.1 <= INT_MAX;
  rp_top : top o = Z.of_nat (length v.2) /\ Z.of_nat (length v.2) <= v.1;
  rp_items : exists a blk, items o = Some a /\ cells h !! a = Some blk /\
    Z.of_nat (length blk) = v.1 /\ take (length v.2) blk = Some <$> v.2;
}.

Lemma stk_repr_frame h h' o v :
  (forall a, a ∈ blocks o -> cells h' !! a = cells h !! a) -> repr h o v -> repr h' o v.
Proof.
  intros Hs [? ? (a & blk & E & Ha & ?)]. split; [done|done|]. exists a, blk.
  rewrite Hs; [done|]. unfold blocks. rewrite E. cbn. set_solver.
Qed.

Definition rel (s : state) (vals : gmap nat value) : Prop :=
  stands blocks repr (hp s) (objs s) vals.

Lemma new_items_ok k (h : heap cell) :
  0 <= k -> new_items k h = Some (next_addr h, (alloc (replicate (Z.to_nat k) None) h).2).
Proof. intros. unfold new_items. by rewrite (proj2 (Z.ltb_ge _ _)) by lia. Qed.

(** Object [i] on a fresh block *)
Lemma stk_rel_fresh s vals i h ss l blk :
  rel s vals -> next_addr h = next_addr (hp s) ->
  dom (cells h) = dom (cells (hp s)) ∖ blocks_at blocks (objs s) i ->
  (forall a, a ∉ blocks_at blocks (objs s) i -> cells h !! a = cells (hp s) !! a) ->
  ss <= INT_MAX -> Z.of_nat (length blk) = ss -> Z.of_nat (length l) <= ss ->
  take (length l) blk = Some <$> l ->
  rel (set_obj i (mkStack ss (Some (next_addr h)) (Z.of_nat (length l)))
         (mkHeap (<[next_addr h := blk]> (cells h)) (S (next_addr h))) s) (<[i := (ss, l)]> vals).
Proof.
  intros I Hn Hdom Hsame Hmax Hblk Hl Ht.
  eapply (stands_fresh blocks repr stk_repr_frame); [exact I|done..|].
  split; cbn; [done|done|]. exists (next_addr h), blk. split; [done|].
  split; [apply lookup_insert_eq|done].
Qed.

(** The copying loop into a fresh block of the same size *)
Lemma stk_copy_fresh h o v :
  heap_ok h -> ptr_blocks (items o) ⊆ dom (cells h) -> repr h o v ->
  exists blk,
    copy_loop (length v.2) (Some (next_addr h)) 0 (items o) 0
      (alloc (replicate (Z.to_nat v.1) None) h).2 =
      Some (mkHeap (<[next_addr h := blk]> (cells h)) (S (next_addr h))) /\
    Z.of_nat (length blk) = v.1 /\ take (length v.2) blk = Some <$> v.2.
Proof.
  intros Hok Hlive [_ [_ Hl] (a & src & Ei & Ha & Hlen & Hsrc)].
  assert (next_addr h <> a) as Hne.
  { intros <-. rewrite alloc_fresh in Ha by done. done. }
  exists (take (length v.2) src ++ drop (length v.2) (replicate (Z.to_nat v.1) None)).
  rewrite Ei, (copy_loop_spec _ _ _ (replicate (Z.to_nat v.1) None) src); cbn.
  - rewrite insert_insert_eq, drop_0. split; [done|]. split.
    + rewrite length_app, length_take, length_drop, length_replicate. lia.
    + rewrite take_app_le by (rewrite length_take; lia). by rewrite take_take, Nat.min_id.
  - apply lookup_insert_eq.
  - by rewrite lookup_insert_ne.
  - done.
  - rewrite length_replicate. lia.
  - lia.
Qed.

Lemma stk_construct_ok s vals i ss :
  rel s vals -> vals !! i = None -> 0 <= ss <= INT_MAX ->
  exists s', construct i ss s = Some s' /\ rel s' (<[i := (ss, [])]> vals).
Proof.
  intros I Hi Hss. unfold construct. rewrite new_items_ok by lia. cbn [mbind option_bind].
  eexists. split; [done|].
  pose proof (blocks_at_none _ _ _ _ _ _ I Hi) as Hb.
  apply (stk_rel_fresh s vals i (hp s) ss [] (replicate (Z.to_nat ss) None)); try done; try lia.
  - by rewrite Hb, difference_empty_L.
  - rewrite length_replicate. lia.
  - cbn. lia.
Qed.

Lemma stk_construct_copy_ok s vals i j v :
  rel s vals -> vals !! i = None -> vals !! j = Some v ->
  exists s', construct_copy i j s = Some s' /\ rel s' (<[i := v]> vals).
Proof.
  intros I Hi Hj. destruct (stands_lookup _ _ _ _ _ _ _ I Hj) as (o & Ho & Hr).
  destruct (stk_copy_fresh (hp s) o v (stands_ok _ _ _ _ _ I) (stands_live _ _ _ _ _ _ _ I Ho) Hr) as (blk & E & Hlen & Ht).
  destruct Hr as [[Hs Hmax] [Htop Hl] _].
  unfold construct_copy. rewrite Ho. cbn [mbind option_bind]. rewrite Hs, Htop, Nat2Z.id.
  rewrite new_items_ok by lia. cbn [mbind option_bind]. rewrite E. eexists. split; [done|].
  pose proof (blocks_at_none _ _ _ _ _ _ I Hi) as Hb.
  destruct v as [ss l]. apply stk_rel_fresh; try done. by rewrite Hb, difference_empty_L.
Qed.

Lemma stk_assign_ok s vals i j v0 v :
  rel s vals -> vals !! i = Some v0 -> vals !! j = Some v ->
  exists s', assign i j s = Some s' /\ rel s' (<[i := v]> vals).
Proof.
  intros I Hi Hj. destruct (stands_lookup _ _ _ _ _ _ _ I Hi) as (o & Ho & _).
  destruct (stands_lookup _ _ _ _ _ _ _ I Hj) as (f & Hf & Hr).
  unfold assign. rewrite Ho, Hf. cbn [mbind option_bind].
  destruct (Nat.eqb_spec i j) as [->|Hij].
  { exists s. split; [done|]. by rewrite insert_id. }
  destruct (free_spec (items o) (hp s) (stands_live _ _ _ _ _ _ _ I Ho)) as (h1 & E & Hn & Hdom & Hsame).
  rewrite E. cbn [mbind option_bind].
  assert (ptr_blocks (items f) ## ptr_blocks (items o)) as Hdis.
  { apply (ow_disjoint _ _ _ (sf_owned _ _ _ _ _ I) j i); done. }
  pose proof (stands_live _ _ _ _ _ _ _ I Hf) as Hlive.
  assert (repr h1 f v) as Hr1.
  { apply (stk_repr_frame (hp s)); [|done]. intros a Ha. apply Hsame. intros Hb. by apply (Hdis a). }
  assert (heap_ok h1) as Hok1 by (eapply heap_ok_free; [by eapply stands_ok|done]).
  assert (ptr_blocks (items f) ⊆ dom (cells h1)) as Hlive1 by (rewrite Hdom; set_solver).
  destruct (stk_copy_fresh h1 f v Hok1 Hlive1 Hr1) as (blk & Ec & Hlen & Ht).
  destruct Hr as [[Hs Hmax] [Htop Hl] _]. rewrite Hs, Htop, Nat2Z.id.
  rewrite new_items_ok by lia. cbn [mbind option_bind]. rewrite Ec. eexists. split; [done|].
  destruct v as [ss l].
  apply stk_rel_fresh; try done; rewrite (blocks_at_some blocks _ _ _ Ho); done.
Qed.

Lemma stk_destroy_ok s vals i v :
  rel s vals -> vals !! i = Some v -> exists s', destroy i s = Some s' /\ rel s' (delete i vals).
Proof.
  intros I Hi. destruct (stands_lookup _ _ _ _ _ _ _ I Hi) as (o & Ho & _).
  unfold destroy. rewrite Ho. cbn [mbind option_bind].
  destruct (free_spec (items o) (hp s) (stands_live _ _ _ _ _ _ _ I Ho)) as (h1 & E & _ & Hdom & Hsame).
  rewrite E. eexists. split; [done|]. unfold rel; cbn.
  eapply (stands_delete blocks repr stk_repr_frame); [exact I|eapply heap_ok_free; [by eapply stands_ok|done]| |].
  - by rewrite (blocks_at_some blocks _ _ _ Ho).
  - intros a _ Ha. apply Hsame. by rewrite (blocks_at_some blocks _ _ _ Ho) in Ha.
Qed.

Lemma stk_push_ok s vals i x v :
  rel s vals -> vals !! i = Some v ->
  exists s', push i x s = Some ((spec_push v.1 x v.2).1, s') /\
    rel s' (<[i := (v.1, (spec_push v.1 x v.2).2)]> vals).
Proof.
  intros I Hi. destruct (stands_lookup _ _ _ _ _ _ _ I Hi) as (o & Ho & Hr).
  pose proof Hr as [[Hs Hmax] [Htop Hl] (a & blk & Ei & Ha & Hlen & Ht)].
  destruct v as [ss l]; cbn in *. unfold push, spec_push. rewrite Ho. cbn [mbind option_bind].
  rewrite Hs, Htop, Nat2Z.id. destruct (Z.ltb_spec (Z.of_nat (length l)) ss) as [Hlt|Hge].
  - rewrite Ei, (store_cells a _ _ _ blk) by (done || lia). cbn [mbind option_bind].
    unfold int_add. rewrite chk_int_ok by (unfold INT_MIN; lia). cbn [mbind option_bind fst snd].
    eexists. split; [done|].
    eapply (stands_update blocks repr stk_repr_frame (hp s)); [done|done|by unfold blocks; cbn; rewrite Ei|done| | |].
    + cbn. rewrite dom_insert_L. assert (a ∈ dom (cells (hp s))) by (apply elem_of_dom; eauto). set_solver.
    + intros b Hb. cbn. rewrite lookup_insert_ne; [done|]. intros <-. unfold blocks in Hb.
      rewrite Ei in Hb. cbn in Hb. set_solver.
    + split; cbn; [done|rewrite length_app; cbn; lia|]. eexists a, _. split; [done|].
      rewrite lookup_insert_eq. split; [done|]. split; [by rewrite length_insert|].
      rewrite length_app, fmap_app; cbn. rewrite Nat.add_1_r.
      rewrite (take_S_r _ _ (Some x)) by (apply list_lookup_insert_eq; lia).
      by rewrite take_insert_ge, Ht by done.
  - exists s. split; [done|]. cbn. by rewrite insert_id.
Qed.

Lemma stk_pop_ok s vals i v :
  rel s vals -> vals !! i = Some v ->
  exists s', pop i s = Some (Some <$> (spec_pop v.2).1, s') /\
    rel s' (<[i := (v.1, (spec_pop v.2).2)]> vals).
Proof.
  intros I Hi. destruct (stands_lookup _ _ _ _ _ _ _ I Hi) as (o & Ho & Hr).
  pose proof Hr as [[Hs Hmax] [Htop Hl] (a & blk & Ei & Ha & Hlen & Ht)].
  destruct v as [ss l]; cbn in *. unfold pop, spec_pop. rewrite Ho. cbn [mbind option_bind].
  rewrite Htop. destruct (last l) as [x|] eqn:E.
  - pose proof (last_take_snoc _ _ E) as El. set (l' := take (length l - 1) l) in *.
    assert (length l = S (length l')) as Hll by (rewrite El, length_app; cbn; lia).
    assert (Some <$> l = (Some <$> l') ++ [Some x]) as Em by (rewrite El, fmap_app; done).
    rewrite (proj2 (Z.ltb_lt _ _)) by lia. unfold int_sub.
    rewrite chk_int_ok by (unfold INT_MIN; lia). cbn [mbind option_bind].
    replace (Z.to_nat (Z.of_nat (length l) - 1)) with (length l') by lia.
    assert (load (items o) (length l') (hp s) = Some (Some x)) as ->.
    { unfold load. rewrite Ei. cbn. rewrite Ha. cbn.
      rewrite <- (lookup_take_lt blk (length l)) by lia. rewrite Ht, Em.
      rewrite lookup_app_r by (by rewrite length_fmap). by rewrite length_fmap, Nat.sub_diag. }
    cbn [mbind option_bind fst snd]. eexists. split; [done|].
    eapply (stands_update blocks repr stk_repr_frame (hp s)); try done.
    split; cbn; [done|lia|]. exists a, blk. split; [done|]. split; [done|]. split; [done|].
    replace (length l') with (Nat.min (length l') (length l)) by lia.
    rewrite <- take_take, Ht, Em.
    rewrite take_app_le by (rewrite length_fmap; lia). rewrite take_ge; [done|rewrite length_fmap; lia].
  - apply last_None in E. subst l. cbn. exists s. split; [done|]. by rewrite insert_id.
Qed.

Lemma stk_exec_refines c s vals r vals' :
  rel s vals -> spec c vals = Some (r, vals') ->
  exists s', exec c s = Some (r, s') /\ rel s' vals'.
Proof.
  intros I. destruct c as [i ss|i j|i j|i|i x|i]; cbn [spec exec]; unfold done_; intros H.
  - destruct ((0 <=? ss) && (ss <=? INT_MAX)) eqn:E; [|done]. zbool.
    destruct (vals !! i) eqn:Hi; simplify_eq.
    destruct (stk_construct_ok s vals i ss) as (s' & -> & ?); [done..|]. eauto.
  - apply bind_Some in H as (v & Hj & H). destruct (vals !! i) eqn:Hi; simplify_eq.
    destruct (stk_construct_copy_ok s vals i j v) as (s' & -> & ?); [done..|]. eauto.
  - apply bind_Some in H as (v0 & Hi & (v & Hj & H)%bind_Some). simplify_eq.
    destruct (stk_assign_ok s vals i j v0 v) as (s' & -> & ?); [done..|]. eauto.
  - apply bind_Some in H as (v & Hi & H). simplify_eq.
    destruct (stk_destroy_ok s vals i v) as (s' & -> & ?); [done..|]. eauto.
  - apply bind_Some in H as (v & Hi & H).
    destruct (stk_push_ok s vals i x v) as (s' & -> & ?); [done..|].
    destruct (spec_push v.1 x v.2). simplify_eq. eauto.
  - apply bind_Some in H as (v & Hi & H).
    destruct (stk_pop_ok s vals i v) as (s' & -> & ?); [done..|].
    destruct (spec_pop v.2). simplify_eq. eauto.
Qed.

Lemma stk_exec_all_refines cs s vals rs vals' :
  rel s vals -> spec_all cs vals = Some (rs, vals') ->
  exists s', exec_all cs s = Some (rs, s') /\ rel s' vals'.
Proof.
  revert s vals rs. induction cs as [|c cs IH]; cbn; intros s v rs I H.
  - simplify_eq. by exists s.
  - apply bind_Some in H as ([r v1] & H1 & ([rs' v2] & H2 & H)%bind_Some). simplify_eq.
    destruct (stk_exec_refines _ _ _ _ _ I H1) as (s1 & -> & I1).
    destruct (IH _ _ _ I1 H2) as (s2 & E & I2). cbn. rewrite E. cbn. eauto.
Qed.

(** C6: the stack is a value type that stacks: every well-scoped program that creates,
    copies, assigns (to itself included), pushes to, pops from and destroys stacks runs
    without a bad access and without a double free, answers like bounded lists, each stack
    with contents of its own, and when all are destroyed no memory is left allocated. *)
Theorem stack_is_value (cs : list stmt) (rs : list answer) (vals : gmap nat value) :
  spec_all cs ∅ = Some (rs, vals) ->
  exists s, exec_all cs init = Some (rs, s) /\ rel s vals /\ (vals = ∅ -> cells (hp s) = ∅).
Proof.
  intros H. destruct (stk_exec_all_refines cs init ∅ rs vals (stands_empty _ _) H) as (s & E & I).
  exists s. split; [done|]. split; [done|]. intros ->. by destruct (stands_no_leak _ _ _ _ _ I eq_refl).
Qed.
End Model.

Definition example : list (@stmt Z) :=
  [New 1 2; Push 1 5; Copy 2 1; Push 1 6; Push 1 7; Pop 2; Pop 2; Assign 2 1; Pop 2; Assign 1 1;
   Pop 1; Destroy 1; Destroy 2].

Lemma stack_is_value_witness :
  exists s, exec_all example init =
      Some ([Done; Pushed true; Done; Pushed true; Pushed false; Popped (Some (Some 5)); Popped None;
             Done; Popped (Some (Some 6)); Done; Popped (Some (Some 6)); Done; Done], s) /\
    rel s ∅ /\ ((∅ : gmap nat (value (T := Z))) = ∅ -> cells (hp s) = ∅).
Proof. apply (stack_is_value example). vm_compute. reflexivity. Defined.
End DynStack.
