(* ===== verification/CString.v ===== *)
(** C strings on the heap: the functions of [<cstring>] that the classes of
    [src/primer_plus/chap12] and [chap13] call, and reading a line from a stream. *)
From S2P Require Import Prelude Heap.

(** A cell of a [char] array, [None] if it was never written. A [char] has eight bits and a
    sign. *)
Abbreviation cell := (option Z).

(** The characters before the first NUL; [None] if there is no NUL in the written part. *)
Fixpoint c_str (blk : list cell) : option (list Z) :=
  match blk with
  | Some c :: blk => if c =? 0 then Some [] else cons c <$> c_str blk
  | _ => None
  end.

(** The string in a [char] array of the caller that holds [s] and a NUL. *)
Fixpoint cut (s : list Z) : list Z :=
  match s with
  | c :: s => if c =? 0 then [] else c :: cut s
  | [] => []
  end.

(** The string at [p], undefined for a bad pointer or an array without a NUL. *)
Definition text (p : ptr) (h : heap cell) : option (list Z) :=
  a ← p; blk ← cells h !! a; c_str blk.

Definition strlen (p : ptr) (h : heap cell) : option Z := Z.of_nat ∘ length <$> text p h.

(** [new char [k]]; a negative size throws ([None]). *)
Definition new_chars (k : Z) (h : heap cell) : option (nat * heap cell) :=
  if k <? 0 then None else Some (alloc (replicate (Z.to_nat k) None) h).

(** Copying the string [l] and its NUL to [dst]: undefined if it does not fit. *)
Definition put_str (dst : ptr) (l : list Z) (h : heap cell) : option (heap cell) :=
  a ← dst; blk ← cells h !! a;
  if (length l <? length blk)%nat then
    Some (mkHeap (<[a := (Some <$> l) ++ Some 0 :: drop (S (length l)) blk]> (cells h)) (next_addr h))
  else None.

(** [strcpy(dst, src)]; overlapping arrays are undefined. *)
Definition strcpy (dst src : ptr) (h : heap cell) : option (heap cell) :=
  if bool_decide (dst = src) then None else l ← text src h; put_str dst l h.

(** [strncpy(dst, src, n)] into an array of the caller: [n] characters, NUL after the end of
    the string. *)
Definition strncpy (dst : list cell) (src : list Z) (n : nat) : option (list cell) :=
  if (n <=? length dst)%nat then
    Some (take n ((Some <$> cut src) ++ replicate n (Some 0)) ++ drop n dst)
  else None.

(** [p = new char[strlen(l) + 1]; strcpy(p, l);] for an array of the caller and for a string
    on the heap *)
Definition dup_arg (l : list Z) (h : heap cell) : option (nat * heap cell) :=
  '(a, h1) ← new_chars (Z.of_nat (length (cut l)) + 1) h;
  h2 ← put_str (Some a) (cut l) h1;
  Some (a, h2).

Definition dup_ptr (p : ptr) (h : heap cell) : option (nat * heap cell) :=
  n ← strlen p h;
  '(a, h1) ← new_chars (n + 1) h;
  h2 ← strcpy (Some a) p h1;
  Some (a, h2).

(** [strcmp] compares characters as [unsigned char]; only the sign of its result is used. *)
Fixpoint strcmp (l1 l2 : list Z) : Z :=
  match l1, l2 with
  | [], [] => 0
  | [], _ :: _ => -1
  | _ :: _, [] => 1
  | c1 :: l1, c2 :: l2 =>
      if wrapU 8 c1 <? wrapU 8 c2 then -1
      else if wrapU 8 c2 <? wrapU 8 c1 then 1
      else strcmp l1 l2
  end.

(** ** Lines of a stream *)

(** What is left to read, and whether the stream has failed *)
Record istream := mkStream { input : list Z; failed : bool }.

Definition newline : Z := 10.

(** [is.get(buf, n)]: up to [n - 1] characters and not the newline; the stream fails when
    there are none. *)
Fixpoint get_chars (n : nat) (s : list Z) : list Z * list Z :=
  match n, s with
  | S n, c :: s' =>
      if c =? newline then ([], s)
      else let '(l, rest) := get_chars n s' in (c :: l, rest)
  | _, _ => ([], s)
  end.

Definition get_line (n : nat) (sm : istream) : list Z * istream :=
  if failed sm then ([], sm)
  else
    let '(l, rest) := get_chars (n - 1) (input sm) in
    (l, mkStream rest (match l with [] => true | _ => false end)).

(** [while (is && is.get() != '\n') continue;]: reading past the end fails the stream. *)
Fixpoint skip_chars (s : list Z) : istream :=
  match s with
  | [] => mkStream [] true
  | c :: s => if c =? newline then mkStream s false else skip_chars s
  end.

Definition skip_line (sm : istream) : istream :=
  if failed sm then sm else skip_chars (input sm).

(** * Facts *)
Definition no_nul (l : list Z) : Prop := Forall (fun c => c <> 0) l.

Lemma cut_no_nul s : no_nul (cut s).
Proof.
  induction s as [|c s IH]; cbn; [constructor|].
  destruct (Z.eqb_spec c 0); constructor; done.
Qed.

Lemma cut_id l : no_nul l -> cut l = l.
Proof.
  induction 1 as [|c l Hc _ IH]; cbn; [done|]. by rewrite (proj2 (Z.eqb_neq _ _)), IH.
Qed.

Lemma length_cut s : (length (cut s) <= length s)%nat.
Proof. induction s as [|c s IH]; cbn; [done|]. destruct (c =? 0); cbn; lia. Qed.

Lemma c_str_app l blk : no_nul l -> c_str ((Some <$> l) ++ Some 0 :: blk) = Some l.
Proof.
  induction 1 as [|c l Hc _ IH]; cbn; [done|]. by rewrite (proj2 (Z.eqb_neq _ _)), IH.
Qed.

Lemma c_str_no_nul blk l : c_str blk = Some l -> no_nul l.
Proof.
  revert l. induction blk as [|[c|] blk IH]; intros l; cbn; [done| |done].
  destruct (Z.eqb_spec c 0); [intros [= <-]; constructor|].
  intros (l' & El & ->)%fmap_Some. constructor; [done|by apply IH].
Qed.

Lemma c_str_split blk l :
  c_str blk = Some l -> blk = (Some <$> l) ++ Some 0 :: drop (S (length l)) blk.
Proof.
  revert l. induction blk as [|[c|] blk IH]; intros l; cbn; [done| |done].
  destruct (Z.eqb_spec c 0) as [->|]; [by intros [= <-]|].
  intros (l' & El & ->)%fmap_Some. cbn. f_equal. by apply IH.
Qed.

Lemma c_str_length blk l : c_str blk = Some l -> (length l < length blk)%nat.
Proof.
  intros ->%c_str_split. rewrite length_app, length_fmap. cbn. lia.
Qed.

(** Writing a character of the string *)
Lemma c_str_set blk l k c :
  c_str blk = Some l -> (k < length l)%nat -> c <> 0 -> c_str (<[k := Some c]> blk) = Some (<[k := c]> l).
Proof.
  intros H Hk Hc. pose proof (c_str_no_nul _ _ H) as Hn. rewrite (c_str_split _ _ H).
  rewrite insert_app_l by (by rewrite length_fmap). rewrite <- list_fmap_insert.
  apply c_str_app. by apply Forall_insert.
Qed.

Lemma c_str_lookup blk l k :
  c_str blk = Some l -> (k <= length l)%nat -> blk !! k = Some <$> (l ++ [0]) !! k.
Proof.
  intros H Hk. rewrite (c_str_split _ _ H) at 1. destruct (decide (k = length l)) as [->|].
  - rewrite lookup_app_r, length_fmap, Nat.sub_diag by (by rewrite length_fmap). cbn.
    by rewrite lookup_app_r, Nat.sub_diag.
  - rewrite lookup_app_l by (rewrite length_fmap; lia). rewrite lookup_app_l by lia.
    by rewrite list_lookup_fmap.
Qed.

Lemma put_str_spec a blk l (h : heap cell) :
  cells h !! a = Some blk -> (length l < length blk)%nat ->
  put_str (Some a) l h =
    Some (mkHeap (<[a := (Some <$> l) ++ Some 0 :: drop (S (length l)) blk]> (cells h)) (next_addr h)).
Proof.
  intros Ha Hl. unfold put_str. cbn [mbind option_bind]. rewrite Ha. cbn [mbind option_bind].
  by rewrite (proj2 (Nat.ltb_lt _ _) Hl).
Qed.

(** A string in a fresh array of [k] characters *)
Definition fresh_text (l : list Z) (k : Z) : list cell :=
  (Some <$> l) ++ Some 0 :: replicate (Z.to_nat k - S (length l)) None.

Lemma length_fresh_text l k :
  Z.of_nat (length l) < k -> Z.of_nat (length (fresh_text l k)) = k.
Proof. intros. unfold fresh_text. rewrite length_app, length_fmap. cbn. rewrite length_replicate. lia. Qed.

Lemma new_put_spec k l (h : heap cell) :
  Z.of_nat (length l) < k ->
  ('(a, h1) ← new_chars k h; h2 ← put_str (Some a) l h1; Some (a, h2)) =
    Some (next_addr h, mkHeap (<[next_addr h := fresh_text l k]> (cells h)) (S (next_addr h))).
Proof.
  intros Hk. unfold new_chars. rewrite (proj2 (Z.ltb_ge _ _)) by lia. cbn [mbind option_bind alloc].
  rewrite (put_str_spec _ (replicate (Z.to_nat k) None)) by (apply lookup_insert_eq || (rewrite length_replicate; lia)).
  cbn [mbind option_bind cells next_addr]. rewrite insert_insert_eq. unfold fresh_text.
  rewrite drop_replicate. done.
Qed.

Lemma text_some a blk l (h : heap cell) : cells h !! a = Some blk -> c_str blk = Some l -> text (Some a) h = Some l.
Proof. intros Ha Hl. unfold text. cbn. by rewrite Ha. Qed.

(** Copying a string of the heap to a fresh array *)
Lemma new_strcpy_spec k p l (h : heap cell) :
  heap_ok h -> text p h = Some l -> Z.of_nat (length l) < k ->
  ('(a, h1) ← new_chars k h; h2 ← strcpy (Some a) p h1; Some (a, h2)) =
    Some (next_addr h, mkHeap (<[next_addr h := fresh_text l k]> (cells h)) (S (next_addr h))).
Proof.
  intros Hok Ht Hk. rewrite <- (new_put_spec k l h Hk). unfold new_chars.
  rewrite (proj2 (Z.ltb_ge _ _)) by lia. cbn [mbind option_bind alloc].
  pose proof Ht as Ht'. unfold text in Ht'. apply bind_Some in Ht' as (a & -> & (blk & Ha & Hs)%bind_Some).
  assert (next_addr h <> a) as Hne by (intros <-; by rewrite alloc_fresh in Ha).
  unfold strcpy. rewrite bool_decide_false by congruence.
  by rewrite (text_some a blk l) by first [done|cbn; by rewrite lookup_insert_ne].
Qed.

Lemma fresh_text_str l k : no_nul l -> c_str (fresh_text l k) = Some l.
Proof. apply c_str_app. Qed.

Lemma text_no_nul p l (h : heap cell) : text p h = Some l -> no_nul l.
Proof. unfold text. intros (a & _ & (blk & _ & Hs)%bind_Some)%bind_Some. by eapply c_str_no_nul. Qed.

(** Both ways to duplicate a string give a fresh array that holds it. *)
Lemma dup_arg_spec l (h : heap cell) :
  exists blk, c_str blk = Some (cut l) /\
    dup_arg l h = Some (next_addr h, mkHeap (<[next_addr h := blk]> (cells h)) (S (next_addr h))).
Proof.
  exists (fresh_text (cut l) (Z.of_nat (length (cut l)) + 1)).
  split; [apply fresh_text_str, cut_no_nul|]. unfold dup_arg. apply new_put_spec. lia.
Qed.

Lemma dup_ptr_spec p l (h : heap cell) :
  heap_ok h -> text p h = Some l ->
  exists blk, c_str blk = Some l /\
    dup_ptr p h = Some (next_addr h, mkHeap (<[next_addr h := blk]> (cells h)) (S (next_addr h))).
Proof.
  intros Hok Ht. exists (fresh_text l (Z.of_nat (length l) + 1)).
  split; [by eapply fresh_text_str, text_no_nul|]. unfold dup_ptr, strlen. rewrite Ht.
  cbn [fmap option_fmap option_map mbind option_bind]. apply new_strcpy_spec; [done|done|cbn; lia].
Qed.

(** [strncpy] of [n] characters and a NUL in the array of [n + 1] *)
Lemma strncpy_str (src : list Z) n :
  exists blk, strncpy (replicate (S n) None) src n = Some blk /\ length blk = S n /\
    c_str (<[n := Some 0]> blk) = Some (take n (cut src)).
Proof.
  unfold strncpy. rewrite length_replicate, (proj2 (Nat.leb_le _ _)) by lia.
  set (l := take n (cut src)).
  assert (take n ((Some <$> cut src) ++ replicate n (Some 0)) =
    (Some <$> l) ++ replicate (n - length l) (Some 0)) as ->.
  { rewrite take_app, length_fmap, <- fmap_take. fold l. f_equal. rewrite take_replicate. f_equal.
    unfold l. rewrite length_take. lia. }
  eexists. split; [done|]. rewrite drop_replicate.
  assert (length l <= n)%nat as Hl by (unfold l; rewrite length_take; lia).
  split; [rewrite !length_app, length_fmap, !length_replicate; lia|].
  replace (S n - n)%nat with 1%nat by lia. cbn [replicate].
  rewrite insert_app_r_alt by (rewrite length_app, length_fmap, length_replicate; lia).
  rewrite length_app, length_fmap, length_replicate.
  replace (n - (length l + (n - length l)))%nat with 0%nat by lia.
  cbn [list_insert insert]. rewrite <- (assoc (++)).
  assert (no_nul l) as Hnn by (unfold l; apply Forall_take, cut_no_nul).
  destruct (n - length l)%nat as [|d]; cbn [replicate app]; by apply c_str_app.
Qed.

(** [strcmp] is the lexicographic order of the characters as unsigned bytes. *)
Definition bytes_of (l : list Z) : list Z := wrapU 8 <$> l.

Lemma bytes_of_cons c l : bytes_of (c :: l) = wrapU 8 c :: bytes_of l.
Proof. done. Qed.

Inductive lex_lt : list Z -> list Z -> Prop :=
| lex_nil c l : lex_lt [] (c :: l)
| lex_head c1 c2 l1 l2 : c1 < c2 -> lex_lt (c1 :: l1) (c2 :: l2)
| lex_tail c l1 l2 : lex_lt l1 l2 -> lex_lt (c :: l1) (c :: l2).

Lemma strcmp_neg l1 l2 : strcmp l1 l2 < 0 <-> lex_lt (bytes_of l1) (bytes_of l2).
Proof.
  revert l2. induction l1 as [|c1 l1 IH]; intros [|c2 l2]; cbn [strcmp]; rewrite ?bytes_of_cons.
  - split; [lia|inversion 1].
  - split; [constructor|lia].
  - split; [lia|inversion 1].
  - destruct (Z.ltb_spec (wrapU 8 c1) (wrapU 8 c2)); [split; [by constructor|lia]|].
    destruct (Z.ltb_spec (wrapU 8 c2) (wrapU 8 c1)); [split; [lia|inversion 1; subst; lia]|].
    assert (wrapU 8 c1 = wrapU 8 c2) as E by lia. rewrite IH, E. split; [by constructor|].
    inversion 1; subst; [lia|done].
Qed.

Lemma strcmp_zero l1 l2 : strcmp l1 l2 = 0 <-> bytes_of l1 = bytes_of l2.
Proof.
  revert l2. induction l1 as [|c1 l1 IH]; intros [|c2 l2]; cbn [strcmp]; rewrite ?bytes_of_cons; [done|done|done|].
  destruct (Z.ltb_spec (wrapU 8 c1) (wrapU 8 c2)); [split; [lia|intros [=]; lia]|].
  destruct (Z.ltb_spec (wrapU 8 c2) (wrapU 8 c1)); [split; [lia|intros [=]; lia]|].
  rewrite IH. split; [intros ->; f_equal; lia|by intros [=]].
Qed.

Lemma strcmp_flip l1 l2 : strcmp l2 l1 = - strcmp l1 l2.
Proof.
  revert l2. induction l1 as [|c1 l1 IH]; intros [|c2 l2]; cbn; [done|done|done|].
  destruct (Z.ltb_spec (wrapU 8 c1) (wrapU 8 c2)), (Z.ltb_spec (wrapU 8 c2) (wrapU 8 c1)); try lia.
  apply IH.
Qed.

Lemma lex_lt_trans l1 l2 l3 : lex_lt l1 l2 -> lex_lt l2 l3 -> lex_lt l1 l3.
Proof.
  intros H. revert l3. induction H as [c l|c1 c2 l1 l2 Hc|c l1 l2 H IH]; intros l3 H2; inversion H2; subst;
    try (apply lex_tail; by apply IH); constructor; try lia; try (by apply IH).
Qed.

(** On characters the bytes determine the string. *)
Definition is_char (c : Z) : Prop := -128 <= c < 128.

Lemma bytes_of_inj l1 l2 : Forall is_char l1 -> Forall is_char l2 -> bytes_of l1 = bytes_of l2 -> l1 = l2.
Proof.
  intros H. revert l2. induction H as [|c l Hc _ IH]; intros [|c2 l2] H2 E; try done.
  inversion H2 as [|? ? Hc2 Hl2]; subst. injection E as E1 E2. f_equal; [|by apply IH].
  unfold wrapU, is_char in *. change (2 ^ 8) with 256 in E1.
  pose proof (Z_div_mod_eq_full c 256). pose proof (Z_div_mod_eq_full c2 256).
  assert (c - c2 = 256 * (c / 256 - c2 / 256)) by lia.
  assert (c / 256 - c2 / 256 = 0) by nia. lia.
Qed.
