(* ===== verification/StringClass.v ===== *)
(** The class [String] of [src/primer_plus/chap12/12_3/string1.cpp], and its first version
    [StringBad] of [12_2/strngbad.cpp], which has no copy constructor and no assignment. *)
From S2P Require Import Prelude Heap CString.

Module StringClass.
Record String := mk { str : ptr; len : Z }.

(** The strings in scope, by name, the heap, and the static counter *)
Record state := mkState { hp : heap cell; objs : gmap nat String; num_strings : Z }.

Definition CINLIM : nat := 80.

Definition init : state := mkState empty_heap ∅ 0.

Definition set_obj (i : nat) (o : String) (h : heap cell) (s : state) : state :=
  mkState h (<[i := o]> (objs s)) (num_strings s).

Definition count (d : Z) (s : state) : option state :=
  n ← int_add (num_strings s) d; Some (mkState (hp s) (objs s) n).

Definition HowMany (s : state) : Z := num_strings s.

(** The length of a string as an [int] *)
Definition int_len (l : list Z) : Z := wrapS 32 (Z.of_nat (length l)).

(** [String(const char* s)]; [s] is the array of the caller. *)
Definition construct (i : nat) (s : list Z) (st : state) : option state :=
  k ← int_add (int_len (cut s)) 1;
  '(a, h) ← new_chars k (hp st);
  h' ← put_str (Some a) (cut s) h;
  count 1 (set_obj i (mk (Some a) (int_len (cut s))) h' st).

(** [String()]: one character, and a length of four. *)
Definition construct_default (i : nat) (st : state) : option state :=
  '(a, h) ← new_chars 1 (hp st);
  h' ← store (Some a) 0 (Some 0) h;
  count 1 (set_obj i (mk (Some a) 4) h' st).

(** [String(const String & st)] *)
Definition construct_copy (i j : nat) (s : state) : option state :=
  st ← objs s !! j;
  s1 ← count 1 s;
  k ← int_add (len st) 1;
  '(a, h) ← new_chars k (hp s1);
  h' ← strcpy (Some a) (str st) h;
  Some (set_obj i (mk (Some a) (len st)) h' s1).

(** [~String()] prints the string before it frees it. *)
Definition destroy (i : nat) (s : state) : option state :=
  o ← objs s !! i;
  _ ← text (str o) (hp s);
  s1 ← count (-1) s;
  h ← free (str o) (hp s1);
  Some (mkState h (delete i (objs s1)) (num_strings s1)).

(** [operator=(const String & st)] *)
Definition assign (i j : nat) (s : state) : option state :=
  o ← objs s !! i;
  st ← objs s !! j;
  if (i =? j)%nat then Some s
  else
    h ← free (str o) (hp s);
    k ← int_add (len st) 1;
    '(a, h1) ← new_chars k h;
    h2 ← strcpy (Some a) (str st) h1;
    Some (set_obj i (mk (Some a) (len st)) h2 s).

(** [operator=(const char * s)] *)
Definition assign_chars (i : nat) (l : list Z) (s : state) : option state :=
  o ← objs s !! i;
  h ← free (str o) (hp s);
  k ← int_add (int_len (cut l)) 1;
  '(a, h1) ← new_chars k h;
  h2 ← put_str (Some a) (cut l) h1;
  Some (set_obj i (mk (Some a) (int_len (cut l))) h2 s).

Definition length_ (i : nat) (s : state) : option Z := o ← objs s !! i; Some (len o).

(** [st[k]] on the right and on the left of an assignment; [None] inside is a character that
    was never written. *)
Definition index_get (i k : nat) (s : state) : option cell :=
  o ← objs s !! i; load (str o) k (hp s).

Definition index_set (i k : nat) (c : Z) (s : state) : option state :=
  o ← objs s !! i;
  h ← store (str o) k (Some c) (hp s);
  Some (set_obj i o h s).

Definition compare (i j : nat) (s : state) : option Z :=
  st ← objs s !! i; st2 ← objs s !! j;
  l ← text (str st) (hp s); l2 ← text (str st2) (hp s);
  Some (strcmp l l2).

Definition op_lt (i j : nat) (s : state) : option bool := c ← compare i j s; Some (c <? 0).
Definition op_gt (i j : nat) (s : state) : option bool := op_lt j i s.
Definition op_eq (i j : nat) (s : state) : option bool := c ← compare i j s; Some (c =? 0).

(** [os << st] *)
Definition output (i : nat) (s : state) : option (list Z) := o ← objs s !! i; text (str o) (hp s).

(** [is >> st] *)
Definition input_ (i : nat) (sm : istream) (s : state) : option (istream * state) :=
  let '(temp, sm1) := get_line CINLIM sm in
  s' ← (if failed sm1 then Some s else assign_chars i temp s);
  Some (skip_line sm1, s').

(** ** Programs *)
Inductive stmt :=
| New (i : nat) (s : list Z) | Default (i : nat) | Copy (i j : nat) | Destroy (i : nat)
| Assign (i j : nat) | AssignChars (i : nat) (l : list Z)
| Length (i : nat) | Get (i k : nat) | Set_ (i k : nat) (c : Z)
| Lt (i j : nat) | Gt (i j : nat) | Eq (i j : nat) | Output (i : nat) | Input (i : nat) (sm : istream)
| Many.

Inductive answer :=
| Done | Int (n : Z) | Char (c : cell) | Bool (b : bool) | Text (l : list Z) | Stream (sm : istream).

Definition exec (c : stmt) (s : state) : option (answer * state) :=
  let done s' := s' ← s'; Some (Done, s') in
  let ask {T} (f : T -> answer) (x : option T) := x ← x; Some (f x, s) in
  match c with
  | New i l => done (construct i l s)
  | Default i => done (construct_default i s)
  | Copy i j => done (construct_copy i j s)
  | Destroy i => done (destroy i s)
  | Assign i j => done (assign i j s)
  | AssignChars i l => done (assign_chars i l s)
  | Length i => ask Int (length_ i s)
  | Get i k => ask Char (index_get i k s)
  | Set_ i k c => done (index_set i k c s)
  | Lt i j => ask Bool (op_lt i j s)
  | Gt i j => ask Bool (op_gt i j s)
  | Eq i j => ask Bool (op_eq i j s)
  | Output i => ask Text (output i s)
  | Input i sm => '(sm', s') ← input_ i sm s; Some (Stream sm', s')
  | Many => Some (Int (HowMany s), s)
  end.

Fixpoint exec_all (cs : list stmt) (s : state) : option (list answer * state) :=
  match cs with
  | [] => Some ([], s)
  | c :: cs => '(r, s1) ← exec c s; '(rs, s2) ← exec_all cs s1; Some (r :: rs, s2)
  end.

(** ** Without pointers: a string is its text, and what [length()] answers for it, which is
    the length of the text except for an object that comes from the default constructor. *)
Definition value : Type := list Z * Z.

Definition fits (l : list Z) : bool := Z.of_nat (length l) <? INT_MAX.

Definition text_value (s : list Z) : option value :=
  if fits (cut s) then Some (cut s, Z.of_nat (length (cut s))) else None.

Definition new_value (i : nat) (v : value) (vals : gmap nat value) : option (gmap nat value) :=
  match vals !! i with
  | Some _ => None
  | None => if Z.of_nat (size vals) <? INT_MAX then Some (<[i := v]> vals) else None
  end.

(** Reading a line into a string *)
Definition spec_input (v : value) (sm : istream) : option (istream * value) :=
  let '(temp, sm1) := get_line CINLIM sm in
  if failed sm1 then Some (skip_line sm1, v)
  else v' ← text_value temp; Some (skip_line sm1, v').

Definition spec (c : stmt) (vals : gmap nat value) : option (answer * gmap nat value) :=
  let done vals' := vals' ← vals'; Some (Done, vals') in
  let compare f i j := v ← vals !! i; w ← vals !! j; Some (Bool (f (strcmp v.1 w.1)), vals) in
  match c with
  | New i s => done (v ← text_value s; new_value i v vals)
  | Default i => done (new_value i ([], 4) vals)
  | Copy i j => done (v ← vals !! j; new_value i v vals)
  | Destroy i => _ ← vals !! i; Some (Done, delete i vals)
  | Assign i j => _ ← vals !! i; v ← vals !! j; Some (Done, <[i := v]> vals)
  | AssignChars i l => _ ← vals !! i; v ← text_value l; Some (Done, <[i := v]> vals)
  | Length i => v ← vals !! i; Some (Int v.2, vals)
  | Get i k => v ← vals !! i; c ← (v.1 ++ [0]) !! k; Some (Char (Some c), vals)
  | Set_ i k c =>
      v ← vals !! i;
      if (k <? length v.1)%nat && negb (c =? 0) then Some (Done, <[i := (<[k := c]> v.1, v.2)]> vals)
      else None
  | Lt i j => compare (fun x => x <? 0) i j
  | Gt i j => compare (fun x => 0 <? x) i j
  | Eq i j => compare (fun x => x =? 0) i j
  | Output i => v ← vals !! i; Some (Text v.1, vals)
  | Input i sm =>
      v ← vals !! i; '(sm', v') ← spec_input v sm; Some (Stream sm', <[i := v']> vals)
  | Many => Some (Int (Z.of_nat (size vals)), vals)
  end.

Fixpoint spec_all (cs : list stmt) (vals : gmap nat value) : option (list answer * gmap nat value) :=
  match cs with
  | [] => Some ([], vals)
  | c :: cs => '(r, v1) ← spec c vals; '(rs, v2) ← spec_all cs v1; Some (r :: rs, v2)
  end.

(** ** The representation *)
Definition blocks (o : String) : gset nat := ptr_blocks (str o).

Record repr (h : heap cell) (o : String) (v : value) : Prop := {
  rp_len : len o = v.2;
  rp_bound : Z.of_nat (length v.1) <= v.2 < INT_MAX;
  rp_text : exists a blk, str o = Some a /\ cells h !! a = Some blk /\ c_str blk = Some v.1;
}.

Lemma str_repr_frame h h' o v :
  (forall a, a ∈ blocks o -> cells h' !! a = cells h !! a) -> repr h o v -> repr h' o v.
Proof.
  intros Hs [? ? (a & blk & E & Ha & ?)]. split; [done|done|]. exists a, blk.
  rewrite Hs; [done|]. unfold blocks. rewrite E. cbn. set_solver.
Qed.

Record rel (s : state) (vals : gmap nat value) : Prop := {
  rel_stands : stands blocks repr (hp s) (objs s) vals;
  rel_count : num_strings s = Z.of_nat (size vals);
  rel_bound : Z.of_nat (size vals) <= INT_MAX;
}.

(** ** The operations *)
Lemma count_ok d s :
  INT_MIN <= num_strings s + d <= INT_MAX ->
  count d s = Some (mkState (hp s) (objs s) (num_strings s + d)).
Proof. intros. unfold count, int_add. by rewrite chk_int_ok. Qed.

Lemma count_of_new s vals i v vals' :
  rel s vals -> new_value i v vals = Some vals' ->
  vals !! i = None /\ vals' = <[i := v]> vals /\ INT_MIN <= num_strings s + 1 <= INT_MAX /\
  num_strings s + 1 = Z.of_nat (size vals') /\ Z.of_nat (size vals') <= INT_MAX.
Proof.
  intros [_ Hc _]. unfold new_value. destruct (vals !! i) eqn:Hi; [done|].
  destruct (Z.ltb_spec (Z.of_nat (size vals)) INT_MAX); [|done]. intros [= <-].
  rewrite map_size_insert_None by done. unfold INT_MIN in *. split_and!; try done; lia.
Qed.

Lemma text_value_some l v :
  text_value l = Some v ->
  v = (cut l, Z.of_nat (length (cut l))) /\ int_len (cut l) = v.2 /\ Z.of_nat (length v.1) <= v.2 < INT_MAX.
Proof.
  unfold text_value, fits. destruct (Z.ltb_spec (Z.of_nat (length (cut l))) INT_MAX); [|done].
  intros [= <-]. cbn. split; [done|]. split; [|lia]. unfold int_len. apply wrapS_small; [lia|].
  unfold INT_MAX in *. change (2 ^ (32 - 1)) with (2 ^ 31). lia.
Qed.

Lemma len_plus_one n : 0 <= n < INT_MAX -> int_add n 1 = Some (n + 1).
Proof. intros. unfold int_add. apply chk_int_ok. unfold INT_MIN. lia. Qed.

(** Object [i] on a fresh array *)
Lemma fresh_string h0 h objs vals i blk l n :
  stands blocks repr h0 objs vals -> next_addr h = next_addr h0 ->
  dom (cells h) = dom (cells h0) ∖ blocks_at blocks objs i ->
  (forall a, a ∉ blocks_at blocks objs i -> cells h !! a = cells h0 !! a) ->
  c_str blk = Some l -> Z.of_nat (length l) <= n < INT_MAX ->
  stands blocks repr (mkHeap (<[next_addr h := blk]> (cells h)) (S (next_addr h)))
    (<[i := mk (Some (next_addr h)) n]> objs) (<[i := (l, n)]> vals).
Proof.
  intros I Hn Hdom Hsame Hl Hb. eapply (stands_fresh blocks repr str_repr_frame); [exact I|done..|].
  split; cbn; [done|done|]. exists (next_addr h), blk. split; [done|]. by rewrite lookup_insert_eq.
Qed.

Lemma str_construct_ok s vals i l v vals' :
  rel s vals -> text_value l = Some v -> new_value i v vals = Some vals' ->
  exists s', construct i l s = Some s' /\ rel s' vals'.
Proof.
  intros R Hv Hn. pose proof (count_of_new _ _ _ _ _ R Hn) as (Hi & -> & Hc & Hs & Hm).
  destruct (text_value_some _ _ Hv) as (-> & Hl & Hb). destruct R as [I _ _]. cbn in Hl, Hb.
  unfold construct. rewrite Hl, len_plus_one by lia. cbn [mbind option_bind].
  pose proof (new_put_spec (Z.of_nat (length (cut l)) + 1) (cut l) (hp s) ltac:(lia)) as E.
  apply bind_Some in E as ([a h] & -> & (h2 & E2 & E3)%bind_Some). cbn [mbind option_bind].
  rewrite E2. simplify_eq. cbn [mbind option_bind]. rewrite count_ok by done.
  eexists. split; [done|]. split; cbn; [|done|done].
  eapply fresh_string; try done; rewrite ?(blocks_at_none _ _ _ _ _ _ I Hi); try done.
  - by rewrite difference_empty_L.
  - apply fresh_text_str, cut_no_nul.
Qed.

Lemma construct_default_ok s vals i vals' :
  rel s vals -> new_value i ([], 4) vals = Some vals' ->
  exists s', construct_default i s = Some s' /\ rel s' vals'.
Proof.
  intros R Hn. pose proof (count_of_new _ _ _ _ _ R Hn) as (Hi & -> & Hc & Hs & Hm).
  destruct R as [I _ _]. unfold construct_default. cbn [new_chars Z.ltb Z.compare mbind option_bind alloc].
  rewrite (store_cells _ _ _ _ [None]) by (apply lookup_insert_eq || (cbn; lia)). cbn [mbind option_bind cells next_addr].
  rewrite insert_insert_eq. rewrite count_ok by done. eexists. split; [done|]. split; cbn; [|done|done].
  eapply fresh_string; try done; rewrite ?(blocks_at_none _ _ _ _ _ _ I Hi); try done.
  by rewrite difference_empty_L.
Qed.

(** The string of another object, copied to a fresh array *)
Lemma str_copy_fresh h o v :
  heap_ok h -> repr h o v ->
  exists blk, c_str blk = Some v.1 /\
    ('(a, h1) ← new_chars (len o + 1) h; h2 ← strcpy (Some a) (str o) h1; Some (a, h2)) =
      Some (next_addr h, mkHeap (<[next_addr h := blk]> (cells h)) (S (next_addr h))).
Proof.
  intros Hok [Hl Hb (a & blk & Ea & Ha & Hs)]. exists (fresh_text v.1 (len o + 1)).
  split; [by apply fresh_text_str, (c_str_no_nul blk)|].
  apply new_strcpy_spec; [done| |lia]. rewrite Ea. by eapply text_some.
Qed.

Lemma str_construct_copy_ok s vals i j v vals' :
  rel s vals -> vals !! j = Some v -> new_value i v vals = Some vals' ->
  exists s', construct_copy i j s = Some s' /\ rel s' vals'.
Proof.
  intros R Hj Hn. pose proof (count_of_new _ _ _ _ _ R Hn) as (Hi & -> & Hc & Hs & Hm).
  destruct R as [I _ _]. destruct (stands_lookup _ _ _ _ _ _ _ I Hj) as (o & Ho & Hr).
  destruct (str_copy_fresh (hp s) o v (stands_ok _ _ _ _ _ I) Hr) as (blk & Hblk & E).
  destruct Hr as [Hl Hb _]. unfold construct_copy. rewrite Ho. cbn [mbind option_bind].
  rewrite count_ok by done. cbn [mbind option_bind hp objs num_strings].
  rewrite len_plus_one by lia. cbn [mbind option_bind].
  apply bind_Some in E as ([a h] & -> & (h2 & E2 & E3)%bind_Some). cbn [mbind option_bind].
  rewrite E2. simplify_eq. eexists. split; [done|]. destruct v as [l n]; cbn in *. split; cbn; [|done|done].
  rewrite Hl. eapply fresh_string; try done; rewrite ?(blocks_at_none _ _ _ _ _ _ I Hi); try done.
  by rewrite difference_empty_L.
Qed.

Lemma str_destroy_ok s vals i v :
  rel s vals -> vals !! i = Some v -> exists s', destroy i s = Some s' /\ rel s' (delete i vals).
Proof.
  intros [I Hc Hm] Hi. destruct (stands_lookup _ _ _ _ _ _ _ I Hi) as (o & Ho & Hr).
  pose proof (map_size_delete_Some i vals (mk_is_Some _ _ Hi)) as Hsz.
  assert (size vals <> 0%nat) as Hz by (rewrite map_size_non_empty_iff; intros ->; by rewrite lookup_empty in Hi).
  destruct Hr as [_ _ (a & blk & Ea & Ha & Hs)].
  unfold destroy. rewrite Ho. cbn [mbind option_bind]. rewrite Ea, (text_some _ _ _ _ Ha Hs).
  cbn [mbind option_bind]. rewrite count_ok by (unfold INT_MIN; lia). cbn [mbind option_bind hp objs num_strings].
  destruct (free_spec (str o) (hp s) (stands_live _ _ _ _ _ _ _ I Ho)) as (h1 & E & _ & Hdom & Hsame).
  rewrite Ea in E. rewrite E. eexists. split; [done|].
  split; cbn; [|lia|lia].
  eapply (stands_delete blocks repr str_repr_frame); [exact I|eapply heap_ok_free; [by eapply stands_ok|exact E]| |].
  - by rewrite (blocks_at_some blocks _ _ _ Ho).
  - intros b _ Hb. apply Hsame. by rewrite (blocks_at_some blocks _ _ _ Ho) in Hb.
Qed.

(** Writing to an existing object changes no count. *)
Lemma rel_update s h i o v v0 vals :
  rel s vals -> vals !! i = Some v0 -> stands blocks repr h (<[i := o]> (objs s)) (<[i := v]> vals) ->
  rel (set_obj i o h s) (<[i := v]> vals).
Proof.
  intros [_ Hc Hm] Hi I. split; cbn; [done| |]; by rewrite map_size_insert_Some by eauto.
Qed.

Lemma str_assign_ok s vals i j v0 v :
  rel s vals -> vals !! i = Some v0 -> vals !! j = Some v ->
  exists s', assign i j s = Some s' /\ rel s' (<[i := v]> vals).
Proof.
  intros R Hi Hj. pose proof (rel_stands _ _ R) as I.
  destruct (stands_lookup _ _ _ _ _ _ _ I Hi) as (o & Ho & _).
  destruct (stands_lookup _ _ _ _ _ _ _ I Hj) as (f & Hf & Hr).
  unfold assign. rewrite Ho, Hf. cbn [mbind option_bind].
  destruct (Nat.eqb_spec i j) as [->|Hij]; [exists s; split; [done|]; by rewrite insert_id|].
  destruct (free_spec (str o) (hp s) (stands_live _ _ _ _ _ _ _ I Ho)) as (h1 & E & Hn & Hdom & Hsame).
  rewrite E. cbn [mbind option_bind].
  assert (ptr_blocks (str f) ## ptr_blocks (str o)) as Hdis.
  { apply (ow_disjoint _ _ _ (sf_owned _ _ _ _ _ I) j i); done. }
  assert (repr h1 f v) as Hr1.
  { apply (str_repr_frame (hp s)); [|done]. intros a Ha. apply Hsame. intros Hb. by apply (Hdis a). }
  assert (heap_ok h1) as Hok1 by (eapply heap_ok_free; [by eapply stands_ok|done]).
  destruct (str_copy_fresh h1 f v Hok1 Hr1) as (blk & Hblk & Ec). destruct Hr as [Hl Hb _].
  rewrite len_plus_one by lia. cbn [mbind option_bind].
  apply bind_Some in Ec as ([a h] & -> & (h2 & E2 & E3)%bind_Some). cbn [mbind option_bind].
  rewrite E2. simplify_eq. eexists. split; [done|]. eapply rel_update; [done..|].
  destruct v as [l n]; cbn in *. rewrite Hl.
  apply (fresh_string (hp s)); try done; by rewrite (blocks_at_some blocks _ _ _ Ho).
Qed.

Lemma assign_chars_ok s vals i l v0 v :
  rel s vals -> vals !! i = Some v0 -> text_value l = Some v ->
  exists s', assign_chars i l s = Some s' /\ rel s' (<[i := v]> vals).
Proof.
  intros R Hi Hv. pose proof (rel_stands _ _ R) as I.
  destruct (stands_lookup _ _ _ _ _ _ _ I Hi) as (o & Ho & _).
  destruct (text_value_some _ _ Hv) as (-> & Hl & Hb). cbn in Hl, Hb.
  unfold assign_chars. rewrite Ho. cbn [mbind option_bind].
  destruct (free_spec (str o) (hp s) (stands_live _ _ _ _ _ _ _ I Ho)) as (h1 & E & Hn & Hdom & Hsame).
  rewrite E, Hl, len_plus_one by lia. cbn [mbind option_bind].
  pose proof (new_put_spec (Z.of_nat (length (cut l)) + 1) (cut l) h1 ltac:(lia)) as Ec.
  apply bind_Some in Ec as ([a h] & -> & (h2 & E2 & E3)%bind_Some). cbn [mbind option_bind].
  rewrite E2. simplify_eq. eexists. split; [done|]. eapply rel_update; [done..|].
  apply (fresh_string (hp s)); try done; try by rewrite (blocks_at_some blocks _ _ _ Ho).
  apply fresh_text_str, cut_no_nul.
Qed.

Lemma index_set_ok s vals i k c v :
  rel s vals -> vals !! i = Some v -> (k < length v.1)%nat -> c <> 0 ->
  exists s', index_set i k c s = Some s' /\ rel s' (<[i := (<[k := c]> v.1, v.2)]> vals).
Proof.
  intros R Hi Hk Hc. pose proof (rel_stands _ _ R) as I.
  destruct (stands_lookup _ _ _ _ _ _ _ I Hi) as (o & Ho & Hr).
  destruct Hr as [Hl Hb (a & blk & Ea & Ha & Hs)]. pose proof (c_str_length _ _ Hs) as Hlen.
  unfold index_set. rewrite Ho. cbn [mbind option_bind]. rewrite Ea, (store_cells a _ _ _ blk) by (done || lia).
  eexists. split; [done|]. eapply rel_update; [done..|].
  eapply (stands_update blocks repr str_repr_frame (hp s)); try done; cbn.
  - rewrite dom_insert_L. assert (a ∈ dom (cells (hp s))) by (apply elem_of_dom; eauto). set_solver.
  - intros b Hbb. rewrite lookup_insert_ne; [done|]. intros <-. unfold blocks in Hbb.
    rewrite Ea in Hbb. cbn in Hbb. set_solver.
  - split; cbn; [done|by rewrite length_insert|]. eexists a, _. split; [done|].
    rewrite lookup_insert_eq. split; [done|]. by apply c_str_set.
Qed.

(** What an object answers *)
Lemma object_ok s vals i v :
  rel s vals -> vals !! i = Some v ->
  exists o a blk, objs s !! i = Some o /\ len o = v.2 /\ str o = Some a /\
    cells (hp s) !! a = Some blk /\ c_str blk = Some v.1 /\ text (str o) (hp s) = Some v.1.
Proof.
  intros [I _ _] Hi. destruct (stands_lookup _ _ _ _ _ _ _ I Hi) as (o & Ho & [Hl _ (a & blk & Ea & Ha & Hs)]).
  exists o, a, blk. rewrite Ea, (text_some _ _ _ _ Ha Hs). done.
Qed.

Lemma compare_ok s vals i j v w :
  rel s vals -> vals !! i = Some v -> vals !! j = Some w -> compare i j s = Some (strcmp v.1 w.1).
Proof.
  intros R Hi Hj. unfold compare.
  destruct (object_ok s vals i v R Hi) as (o & ? & ? & -> & _ & _ & _ & _ & Et).
  destruct (object_ok s vals j w R Hj) as (o2 & ? & ? & -> & _ & _ & _ & _ & Et2).
  cbn [mbind option_bind]. rewrite Et, Et2. done.
Qed.

Lemma index_get_ok s vals i k v c :
  rel s vals -> vals !! i = Some v -> (v.1 ++ [0]) !! k = Some c -> index_get i k s = Some (Some c).
Proof.
  intros R Hi Hk. unfold index_get.
  destruct (object_ok s vals i v R Hi) as (o & a & blk & -> & _ & Ea & Ha & Hs & _).
  cbn [mbind option_bind]. unfold load. rewrite Ea. cbn [mbind option_bind]. rewrite Ha. cbn [mbind option_bind].
  rewrite (c_str_lookup _ _ _ Hs), Hk; [done|].
  apply lookup_lt_Some in Hk. rewrite length_app in Hk. cbn in Hk. lia.
Qed.

Lemma input_ok s vals i sm v sm' v' :
  rel s vals -> vals !! i = Some v -> spec_input v sm = Some (sm', v') ->
  exists s', input_ i sm s = Some (sm', s') /\ rel s' (<[i := v']> vals).
Proof.
  intros R Hi. unfold spec_input, input_. destruct (get_line CINLIM sm) as [temp sm1].
  destruct (failed sm1).
  - intros [= <- <-]. exists s. split; [done|]. by rewrite insert_id.
  - intros (w & Hw & [= <- <-])%bind_Some.
    destruct (assign_chars_ok s vals i temp v w R Hi Hw) as (s' & -> & ?). eauto.
Qed.

Lemma str_exec_refines c s vals r vals' :
  rel s vals -> spec c vals = Some (r, vals') ->
  exists s', exec c s = Some (r, s') /\ rel s' vals'.
Proof.
  intros R. destruct c as [i l|i|i j|i|i j|i l|i|i k|i k c|i j|i j|i j|i|i sm|]; cbn [spec exec]; intros H.
  - apply bind_Some in H as (vals1 & (v & Hv & Hn)%bind_Some & [= <- <-]).
    destruct (str_construct_ok _ _ _ _ _ _ R Hv Hn) as (s' & -> & ?). eauto.
  - apply bind_Some in H as (vals1 & Hn & [= <- <-]).
    destruct (construct_default_ok _ _ _ _ R Hn) as (s' & -> & ?). eauto.
  - apply bind_Some in H as (vals1 & (v & Hv & Hn)%bind_Some & [= <- <-]).
    destruct (str_construct_copy_ok _ _ _ _ _ _ R Hv Hn) as (s' & -> & ?). eauto.
  - apply bind_Some in H as (v & Hi & [= <- <-]).
    destruct (str_destroy_ok _ _ _ _ R Hi) as (s' & -> & ?). eauto.
  - apply bind_Some in H as (v0 & Hi & (v & Hj & [= <- <-])%bind_Some).
    destruct (str_assign_ok _ _ _ _ _ _ R Hi Hj) as (s' & -> & ?). eauto.
  - apply bind_Some in H as (v0 & Hi & (v & Hv & [= <- <-])%bind_Some).
    destruct (assign_chars_ok _ _ _ _ _ _ R Hi Hv) as (s' & -> & ?). eauto.
  - apply bind_Some in H as (v & Hi & [= <- <-]). unfold length_.
    destruct (object_ok _ _ _ _ R Hi) as (o & ? & ? & -> & Hl & _). cbn. rewrite Hl. eauto.
  - apply bind_Some in H as (v & Hi & (c & Hk & [= <- <-])%bind_Some).
    rewrite (index_get_ok _ _ _ _ _ _ R Hi Hk). eauto.
  - apply bind_Some in H as (v & Hi & H).
    destruct (Nat.ltb_spec k (length v.1)), (Z.eqb_spec c 0); simplify_eq/=.
    destruct (index_set_ok _ _ _ k c _ R Hi) as (s' & -> & ?); [done..|]. eauto.
  - apply bind_Some in H as (v & Hi & (w & Hj & [= <- <-])%bind_Some). unfold op_lt.
    rewrite (compare_ok _ _ _ _ _ _ R Hi Hj). eauto.
  - apply bind_Some in H as (v & Hi & (w & Hj & [= <- <-])%bind_Some). unfold op_gt, op_lt.
    rewrite (compare_ok _ _ _ _ _ _ R Hj Hi), strcmp_flip. cbn. eexists. split; [|done].
    f_equal. f_equal. f_equal.
    destruct (Z.ltb_spec (- strcmp v.1 w.1) 0), (Z.ltb_spec 0 (strcmp v.1 w.1)); done || lia.
  - apply bind_Some in H as (v & Hi & (w & Hj & [= <- <-])%bind_Some). unfold op_eq.
    rewrite (compare_ok _ _ _ _ _ _ R Hi Hj). eauto.
  - apply bind_Some in H as (v & Hi & [= <- <-]). unfold output.
    destruct (object_ok _ _ _ _ R Hi) as (o & ? & ? & -> & _ & _ & _ & _ & E). cbn. rewrite E. eauto.
  - apply bind_Some in H as (v & Hi & ([sm' v'] & Hs & [= <- <-])%bind_Some).
    destruct (input_ok _ _ _ _ _ _ _ R Hi Hs) as (s' & -> & ?). eauto.
  - injection H as <- <-. unfold HowMany. rewrite (rel_count _ _ R). eauto.
Qed.

Lemma str_exec_all_refines cs s vals rs vals' :
  rel s vals -> spec_all cs vals = Some (rs, vals') ->
  exists s', exec_all cs s = Some (rs, s') /\ rel s' vals'.
Proof.
  revert s vals rs. induction cs as [|c cs IH]; cbn; intros s v rs R H.
  - simplify_eq. by exists s.
  - apply bind_Some in H as ([r v1] & H1 & ([rs' v2] & H2 & H)%bind_Some). simplify_eq.
    destruct (str_exec_refines _ _ _ _ _ R H1) as (s1 & -> & R1).
    destruct (IH _ _ _ R1 H2) as (s2 & E & R2). cbn. rewrite E. cbn. eauto.
Qed.

Lemma rel_init : rel init ∅.
Proof. split; [apply stands_empty|done|done]. Qed.

(** C7: [String] is a value type: every program of constructions, copies, assignments (to
    itself, and from character arrays), element writes inside the text, comparisons and stream
    operations runs without a bad access and without a double free and answers as texts do;
    [num_strings] counts the objects, and when all are destroyed nothing is left allocated. *)
Theorem string_is_value (cs : list stmt) (rs : list answer) (vals : gmap nat value) :
  spec_all cs ∅ = Some (rs, vals) ->
  exists s, exec_all cs init = Some (rs, s) /\ rel s vals /\ HowMany s = Z.of_nat (size vals) /\
    (vals = ∅ -> cells (hp s) = ∅).
Proof.
  intros H. destruct (str_exec_all_refines cs init ∅ rs vals rel_init H) as (s & E & R).
  exists s. split; [done|]. split; [done|]. split; [apply R|]. intros ->.
  by destruct (stands_no_leak _ _ _ _ _ (rel_stands _ _ R) eq_refl).
Qed.

(** "ab", "b", an unset object; a copy, self-assignment and a line of a stream *)
Definition example : list stmt :=
  [New 1 [97; 98]; Default 2; Length 2; Copy 3 1; Set_ 1 0 98; Gt 1 3; Assign 3 3; Assign 2 3;
   Length 2; Eq 2 3; AssignChars 3 [99; 0; 100]; Output 3; Input 2 (mkStream [120; 121; 10; 122] false);
   Output 2; Get 2 2; Many; Destroy 1; Destroy 2; Destroy 3].

Lemma string_is_value_witness :
  exists s, exec_all example init =
      Some ([Done; Done; Int 4; Done; Done; Bool true; Done; Done; Int 2; Bool true; Done; Text [99];
             Stream (mkStream [122] false); Text [120; 121]; Char (Some 0); Int 3; Done; Done; Done], s) /\
    rel s ∅ /\ HowMany s = Z.of_nat (size (∅ : gmap nat value)) /\
    ((∅ : gmap nat value) = ∅ -> cells (hp s) = ∅).
Proof. apply (string_is_value example). vm_compute. reflexivity. Defined.

(** The length of a string is that of its text, but for an object of the default constructor
    (and its copies), which has the length four of the text "C++" of an earlier version. *)
Example default_length : fst <$> exec_all [Default 1; Length 1; Output 1] init = Some [Done; Int 4; Text []].
Proof. reflexivity. Qed.

(* Assigning an object its own characters reads freed memory: [assign_chars] is given the
    array of the caller, and [operator=(const char * s)] frees [str] before it reads [s]. *)

(** ** The comparisons of whole objects *)

(** the comparison operators are a strict total order on texts: of two strings exactly
    one of <, > and == holds, == is equality of the texts, > is < the other way round, and <
    is transitive. *)
Theorem string_order (s : state) (vals : gmap nat value) (i j k : nat) (v w u : value) :
  rel s vals -> vals !! i = Some v -> vals !! j = Some w -> vals !! k = Some u ->
  Forall is_char v.1 -> Forall is_char w.1 ->
  (op_eq i j s = Some (bool_decide (v.1 = w.1))) /\
  (exists lt gt, op_lt i j s = Some lt /\ op_gt i j s = Some gt /\ op_lt j i s = Some gt /\
     ((v.1 = w.1 /\ lt = false /\ gt = false) \/ (v.1 <> w.1 /\ lt = negb gt))) /\
  (op_lt i j s = Some true -> op_lt j k s = Some true -> op_lt i k s = Some true).
Proof.
  intros R Hi Hj Hk Cv Cw. unfold op_eq, op_gt, op_lt.
  rewrite (compare_ok _ _ _ _ _ _ R Hi Hj), (compare_ok _ _ _ _ _ _ R Hj Hi),
    (compare_ok _ _ _ _ _ _ R Hj Hk), (compare_ok _ _ _ _ _ _ R Hi Hk), (strcmp_flip v.1 w.1).
  cbn [mbind option_bind].
  assert (strcmp v.1 w.1 = 0 <-> v.1 = w.1) as Hz.
  { rewrite strcmp_zero. split; [by apply bytes_of_inj|by intros ->]. }
  split_and!.
  - f_equal. destruct (Z.eqb_spec (strcmp v.1 w.1) 0) as [E|E]; case_bool_decide; tauto.
  - eexists _, _. split_and!; [done|done|done|].
    destruct (decide (v.1 = w.1)) as [E|E].
    + left. apply Hz in E as E0. by rewrite E0.
    + right. split; [done|]. assert (strcmp v.1 w.1 <> 0) by tauto.
      destruct (Z.ltb_spec (strcmp v.1 w.1) 0), (Z.ltb_spec (- strcmp v.1 w.1) 0); done || lia.
  - intros [= H1%Z.ltb_lt] [= H2%Z.ltb_lt]. f_equal. apply Z.ltb_lt.
    apply strcmp_neg in H1, H2. apply strcmp_neg. by eapply lex_lt_trans.
Qed.

Definition two_texts : list stmt := [New 1 [97; -61]; New 2 [97; 98]; New 3 [97; -60]].

Lemma string_order_witness :
  exists s vals, exec_all two_texts init = Some ([Done; Done; Done], s) /\ rel s vals /\
    op_eq 2 1 s = Some (bool_decide ([97; 98] = [97; -61])) /\
    op_lt 2 1 s = Some true /\ op_lt 2 3 s = Some true.
Proof.
  destruct (str_exec_all_refines two_texts init ∅ [Done; Done; Done]
    (<[3%nat := ([97; -60], 2)]> (<[2%nat := ([97; 98], 2)]> (<[1%nat := ([97; -61], 2)]> ∅))) rel_init) as (s & E & R);
    [reflexivity|].
  assert (Forall is_char [97; 98]) as C2 by (repeat constructor; unfold is_char; lia).
  assert (Forall is_char [97; -61]) as C1 by (repeat constructor; unfold is_char; lia).
  pose proof (string_order s _ 2 1 3 ([97; 98], 2) ([97; -61], 2) ([97; -60], 2) R eq_refl eq_refl eq_refl C2 C1)
    as (He & _ & Ht).
  eexists s, _. split; [exact E|]. split; [exact R|]. split; [exact He|].
  assert (op_lt 2 1 s = Some true) as H1.
  { unfold op_lt. rewrite (compare_ok s _ 2 1 ([97; 98], 2) ([97; -61], 2) R eq_refl eq_refl). reflexivity. }
  split; [exact H1|]. apply Ht; [exact H1|].
  unfold op_lt. rewrite (compare_ok s _ 1 3 ([97; -61], 2) ([97; -60], 2) R eq_refl eq_refl). reflexivity.
Defined.
End StringClass.
