(* ===== verification/StringBad.v ===== *)
(** The class [StringBad] of [src/primer_plus/chap12/12_2/strngbad.cpp], which owns an array
    but leaves the copy constructor and the assignment to the compiler, and the program
    [vegnews.cpp] that shows it. *)
From S2P Require Import Prelude Heap CString StringClass.

Module StringBad.
(** The members are those of [String], and the static counter. *)
Record StringBad := mk { str : ptr; len : Z }.

Record state := mkState { hp : heap cell; objs : gmap nat StringBad; num_strings : Z }.

Definition init : state := mkState empty_heap ∅ 0.

Definition set_obj (i : nat) (o : StringBad) (h : heap cell) (s : state) : state :=
  mkState h (<[i := o]> (objs s)) (num_strings s).

Definition count (d : Z) (s : state) : option state :=
  n ← int_add (num_strings s) d; Some (mkState (hp s) (objs s) n).

(** [StringBad(const char* s)] *)
Definition construct (i : nat) (s : list Z) (st : state) : option state :=
  k ← int_add (StringClass.int_len (cut s)) 1;
  '(a, h) ← new_chars k (hp st);
  h' ← put_str (Some a) (cut s) h;
  count 1 (set_obj i (mk (Some a) (StringClass.int_len (cut s))) h' st).

(** [StringBad()]: the text "c++" *)
Definition construct_default (i : nat) (st : state) : option state :=
  '(a, h) ← new_chars 4 (hp st);
  h' ← put_str (Some a) [99; 43; 43] h;
  count 1 (set_obj i (mk (Some a) 4) h' st).

(** [~StringBad()] prints the string before it frees it. *)
Definition destroy (i : nat) (s : state) : option state :=
  o ← objs s !! i;
  _ ← text (str o) (hp s);
  s1 ← count (-1) s;
  h ← free (str o) (hp s1);
  Some (mkState h (delete i (objs s1)) (num_strings s1)).

(** The copy constructor and the assignment of the compiler copy the members. *)
Definition copy_members (i j : nat) (s : state) : option state :=
  o ← objs s !! j; Some (set_obj i o (hp s) s).

Definition output (i : nat) (s : state) : option (list Z) := o ← objs s !! i; text (str o) (hp s).

Inductive stmt :=
| New (i : nat) (s : list Z) | Default (i : nat) | Destroy (i : nat)
| Copy (i j : nat) | Assign (i j : nat) | Output (i : nat).

#[export] Instance stmt_eq_dec : EqDecision stmt.
Proof. solve_decision. Defined.

Definition exec (c : stmt) (s : state) : option (list (list Z) * state) :=
  let silent s' := s' ← s'; Some ([], s') in
  match c with
  | New i l => silent (construct i l s)
  | Default i => silent (construct_default i s)
  | Destroy i => silent (destroy i s)
  | Copy i j | Assign i j => silent (copy_members i j s)
  | Output i => l ← output i s; Some ([l], s)
  end.

(** What is printed with [<<], and the state *)
Fixpoint exec_all (cs : list stmt) (s : state) : option (list (list Z) * state) :=
  match cs with
  | [] => Some ([], s)
  | c :: cs => '(r, s1) ← exec c s; '(rs, s2) ← exec_all cs s1; Some (r ++ rs, s2)
  end.

(** [main] with [callme1] and [callme2]: headline1, headline2, sports, sb, sailor and knot are
    the objects 1 to 6; the block destroys them in the opposite order. *)
Definition vegnews (headline1 headline2 sports : list Z) : list stmt :=
  [New 1 headline1; New 2 headline2; New 3 sports; Output 1; Output 2; Output 1; Output 1;
   Copy 4 2; Output 4; Destroy 4; Output 2;
   Copy 5 3; Output 5; Default 6; Assign 6 1; Output 6;
   Destroy 6; Destroy 5; Destroy 3; Destroy 2; Destroy 1].

(** ** Two objects with one array *)
Definition written (c : stmt) : option nat :=
  match c with New i _ | Default i | Copy i _ | Assign i _ => Some i | _ => None end.

(** Every array of an object was allocated. *)
Record inv (s : state) : Prop := {
  iv_heap : heap_ok (hp s);
  iv_objs : forall i o, objs s !! i = Some o -> exists a, str o = Some a /\ (a < next_addr (hp s))%nat;
}.

(** Steps only allocate: the next address grows, and a dead block stays dead. *)
Definition grows (s s' : state) : Prop :=
  (next_addr (hp s) <= next_addr (hp s'))%nat /\
  forall a, (a < next_addr (hp s))%nat -> cells (hp s) !! a = None -> cells (hp s') !! a = None.

Lemma put_new_ok k l (h h1 h' : heap cell) a :
  heap_ok h -> new_chars k h = Some (a, h1) -> put_str (Some a) l h1 = Some h' ->
  a = next_addr h /\ next_addr h' = S a /\ heap_ok h' /\
  forall b, (b < a)%nat -> cells h' !! b = cells h !! b.
Proof.
  intros Hok. unfold new_chars. destruct (k <? 0); [done|]. intros [= <- <-]. unfold put_str.
  cbn [mbind option_bind cells]. rewrite lookup_insert_eq. cbn [mbind option_bind].
  case_match; [|done]. intros [= <-]. cbn. rewrite insert_insert_eq. split_and!; [done|done| |].
  - exact (heap_ok_alloc _ h Hok).
  - intros b Hb. rewrite lookup_insert_ne by lia. done.
Qed.

Lemma count_state d s s' : count d s = Some s' -> hp s' = hp s /\ objs s' = objs s.
Proof. unfold count. intros (n & _ & [= <-])%bind_Some. done. Qed.

(** A new object on a fresh array *)
Lemma inv_fresh s s' h i n k l h1 a d :
  inv s -> new_chars k (hp s) = Some (a, h1) -> put_str (Some a) l h1 = Some h ->
  count d (set_obj i (mk (Some a) n) h s) = Some s' ->
  inv s' /\ grows s s' /\ objs s' = <[i := mk (Some a) n]> (objs s).
Proof.
  intros [Hok Ho] Hn Hp (Eh & Eo)%count_state. cbn in Eh, Eo.
  destruct (put_new_ok _ _ _ _ _ _ Hok Hn Hp) as (-> & Hnext & Hok' & Hsame).
  rewrite Eo. split_and!; [split|split|done].
  - by rewrite Eh.
  - rewrite Eo, Eh, Hnext. intros j o. rewrite lookup_insert. case_decide.
    + intros [= <-]. cbn. eexists. split; [done|lia].
    + intros (b & Hb & ?)%Ho. exists b. split; [done|lia].
  - rewrite Eh. lia.
  - intros b Hb Hd. rewrite Eh, Hsame by done. done.
Qed.

Lemma inv_step c s r s' :
  inv s -> exec c s = Some (r, s') ->
  inv s' /\ grows s s' /\ (forall i, written c <> Some i -> c <> Destroy i -> objs s' !! i = objs s !! i).
Proof.
  intros I. destruct c as [i l|i|i|i j|i j|i]; cbn [exec written]; intros H;
    try (apply bind_Some in H as (s1 & H & [= <- <-])).
  - apply bind_Some in H as (k & _ & ([a h] & Hn & (h' & Hp & Hc)%bind_Some)%bind_Some).
    destruct (inv_fresh _ _ _ _ _ _ _ _ _ _ I Hn Hp Hc) as (? & ? & ->). split_and!; try done.
    intros j Hj _. rewrite lookup_insert_ne; [done|congruence].
  - apply bind_Some in H as ([a h] & Hn & (h' & Hp & Hc)%bind_Some).
    destruct (inv_fresh _ _ _ _ _ _ _ _ _ _ I Hn Hp Hc) as (? & ? & ->). split_and!; try done.
    intros j Hj _. rewrite lookup_insert_ne; [done|congruence].
  - apply bind_Some in H as (o & Ho & (? & _ & (s2 & (Eh & Eo)%count_state & (h & Hf & [= <-])%bind_Some)%bind_Some)%bind_Some).
    rewrite Eh in Hf. destruct I as [Hok HI]. pose proof (heap_ok_free _ _ _ Hok Hf) as Hok'.
    unfold free in Hf. destruct (str o) as [a|]; [|].
    + destruct (cells (hp s) !! a); [|done]. injection Hf as <-. rewrite Eo. split_and!.
      * split; cbn; [done|]. intros j oj [_ Hj]%lookup_delete_Some. by apply (HI j).
      * split; cbn; [done|]. intros b _ Hb. rewrite lookup_delete. by case_decide.
      * intros j _ Hj. cbn. rewrite lookup_delete_ne; [done|congruence].
    + injection Hf as <-. rewrite Eo. split_and!; [|done|].
      * split; cbn; [done|]. intros j oj [_ Hj]%lookup_delete_Some. by apply (HI j).
      * intros j _ Hj. cbn. rewrite lookup_delete_ne; [done|congruence].
  - apply bind_Some in H as (o & Ho & [= <-]). destruct I as [Hok HI]. split_and!; [split|done|]; cbn; [done| |].
    + intros k ok. rewrite lookup_insert. case_decide; [intros [= <-]; by apply (HI j)|apply HI].
    + intros k Hk _. rewrite lookup_insert_ne; [done|congruence].
  - apply bind_Some in H as (o & Ho & [= <-]). destruct I as [Hok HI]. split_and!; [split|done|]; cbn; [done| |].
    + intros k ok. rewrite lookup_insert. case_decide; [intros [= <-]; by apply (HI j)|apply HI].
    + intros k Hk _. rewrite lookup_insert_ne; [done|congruence].
  - done.
Qed.

Lemma inv_run cs s rs s' : inv s -> exec_all cs s = Some (rs, s') -> inv s'.
Proof.
  revert s rs. induction cs as [|c cs IH]; cbn; intros s rs I H; [by simplify_eq|].
  apply bind_Some in H as ([r s1] & H1 & ([rs' s2] & H2 & [= _ ->])%bind_Some).
  apply (IH s1 rs'); [by eapply inv_step|done].
Qed.

Lemma inv_init : inv init.
Proof. split; [apply heap_ok_empty|]. intros i o H. cbn in H; by rewrite lookup_empty in H. Qed.

Definition leaves (i : nat) (cs : list stmt) : Prop := Forall (fun c => written c <> Some i) cs.

Lemma destroy_live i s r s' :
  exec (Destroy i) s = Some (r, s') ->
  exists o a, objs s !! i = Some o /\ str o = Some a /\ cells (hp s) !! a <> None /\ cells (hp s') !! a = None.
Proof.
  cbn [exec]. intros (s1 & (o & Ho & (t & Ht & (s2 & (Eh & Eo)%count_state & (h & Hf & [= <-])%bind_Some)%bind_Some)%bind_Some)%bind_Some & [= <- <-])%bind_Some.
  unfold text in Ht. apply bind_Some in Ht as (a & Ha & (blk & Hb & _)%bind_Some).
  exists o, a. rewrite Eh, Ha in Hf. cbn in Hf. rewrite Hb in Hf. injection Hf as <-. cbn.
  rewrite Hb, lookup_delete_eq. done.
Qed.

(** An object whose array is gone cannot be destroyed any more. *)
Lemma dangling_breaks i a cs s o :
  inv s -> objs s !! i = Some o -> str o = Some a -> (a < next_addr (hp s))%nat ->
  cells (hp s) !! a = None -> leaves i cs -> Destroy i ∈ cs -> exec_all cs s = None.
Proof.
  revert s. induction cs as [|c cs IH]; cbn [exec_all]; intros s I Ho Ha Hlt Hd Hl Hin; [set_solver|].
  destruct (exec c s) as [[r s1]|] eqn:E; [|done]. cbn [mbind option_bind].
  inversion Hl as [|? ? Hc Hcs]; subst.
  destruct (decide (c = Destroy i)) as [->|Hci].
  - destruct (destroy_live _ _ _ _ E) as (o' & a' & ? & ? & Hb & _). simplify_eq.
  - destruct (inv_step _ _ _ _ I E) as (I1 & [Hn Hg] & Hkeep).
    rewrite (IH s1); [done|done|by rewrite Hkeep|done|lia|by apply Hg|done|]. set_solver.
Qed.

(** Two objects with the same array cannot both be destroyed. *)
Lemma shared_breaks i j a cs s oi oj :
  inv s -> i <> j -> objs s !! i = Some oi -> objs s !! j = Some oj -> str oi = Some a -> str oj = Some a ->
  leaves i cs -> leaves j cs -> Destroy i ∈ cs -> Destroy j ∈ cs -> exec_all cs s = None.
Proof.
  revert s. induction cs as [|c cs IH]; cbn [exec_all]; intros s I Hij Hi Hj Hai Haj Hli Hlj Hini Hinj; [set_solver|].
  destruct (exec c s) as [[r s1]|] eqn:E; [|done]. cbn [mbind option_bind].
  inversion Hli as [|? ? Hci Hcsi]; subst. inversion Hlj as [|? ? Hcj Hcsj]; subst.
  destruct (inv_step _ _ _ _ I E) as (I1 & [Hn Hg] & Hkeep).
  assert (a < next_addr (hp s))%nat as Hlt by (destruct (iv_objs _ I i oi Hi) as (b & Hb & ?); congruence).
  destruct (decide (c = Destroy i)) as [->|Hdi]; [|destruct (decide (c = Destroy j)) as [->|Hdj]].
  - destruct (destroy_live _ _ _ _ E) as (o' & a' & ? & ? & _ & Hd). simplify_eq.
    rewrite (dangling_breaks j a cs s1 oj); [done|done|rewrite Hkeep; [done..|congruence]|done|lia|done|done|set_solver].
  - destruct (destroy_live _ _ _ _ E) as (o' & a' & ? & ? & _ & Hd). simplify_eq.
    rewrite (dangling_breaks i a cs s1 oi); [done|done|rewrite Hkeep; [done..|congruence]|done|lia|done|done|set_solver].
  - rewrite (IH s1); try done; try (rewrite Hkeep; done); set_solver.
Qed.

(** C12: a copy of a [StringBad] is fatal: after a copy construction or an assignment (both the
    compiler's) of one object to another in a program that has run so far, no continuation
    that destroys both objects runs to its end, in whatever order and whatever else it does,
    as long as neither is written again: the second destructor reads and frees a dead array. *)
Theorem copy_is_fatal (before after : list stmt) (printed : list (list Z)) (s s1 : state) (i j : nat) (c : stmt) :
  exec_all before init = Some (printed, s) ->
  c = Copy i j \/ c = Assign i j -> exec c s = Some ([], s1) -> i <> j ->
  leaves i after -> leaves j after -> Destroy i ∈ after -> Destroy j ∈ after ->
  exec_all after s1 = None.
Proof.
  intros Hb Hc E Hij Hli Hlj Hi Hj. pose proof (inv_run _ _ _ _ inv_init Hb) as I.
  destruct (inv_step _ _ _ _ I E) as (I1 & _ & _).
  assert (exists o, objs s !! j = Some o /\ s1 = set_obj i o (hp s) s) as (o & Ho & ->).
  { destruct Hc as [-> | ->]; cbn [exec] in E; apply bind_Some in E as (s2 & (o & Ho & [= <-])%bind_Some & [= <-]); eauto. }
  destruct (iv_objs _ I j o Ho) as (a & Ha & _).
  apply (shared_breaks i j a after _ o o); try done; cbn; [by rewrite lookup_insert_eq|by rewrite lookup_insert_ne].
Qed.

Lemma copy_is_fatal_witness :
  exists printed s s1, exec_all [New 1 [97]; New 2 [98]] init = Some (printed, s) /\
    exec (Copy 4 2) s = Some ([], s1) /\
    exec_all [Output 4; Destroy 4; Output 1; Destroy 2; Destroy 1] s1 = None.
Proof.
  eexists _, _, _. split; [vm_compute; reflexivity|]. split; [vm_compute; reflexivity|].
  eapply (copy_is_fatal [New 1 [97]; New 2 [98]] [Output 4; Destroy 4; Output 1; Destroy 2; Destroy 1] _ _ _ 4 2 (Copy 4 2));
    [vm_compute; reflexivity|left; reflexivity|vm_compute; reflexivity|discriminate
    |repeat constructor; discriminate|repeat constructor; discriminate|set_solver|set_solver].
Defined.

(** The program of the book reads freed memory as soon as [callme2] has returned. *)
Example vegnews_breaks : exec_all (vegnews [67; 101] [76; 101] [83; 112]) init = None.
Proof. reflexivity. Qed.

Example vegnews_prefix :
  fst <$> exec_all (take 10 (vegnews [67; 101] [76; 101] [83; 112])) init =
    Some [[67; 101]; [76; 101]; [67; 101]; [67; 101]; [76; 101]].
Proof. reflexivity. Qed.

(** The copy was not counted when it was made, but it is when it is destroyed. *)
Example count_is_short :
  num_strings ∘ snd <$> exec_all [New 1 [97]; New 2 [98]; Copy 4 2; Destroy 4] init = Some 1.
Proof. reflexivity. Qed.

(** The text "c++" has three characters, not four. *)
Example default_len : (fun s => (len <$> objs s !! 1%nat, output 1 s)) <$> construct_default 1 init = Some (Some 4, Some [99; 43; 43]).
Proof. reflexivity. Qed.
End StringBad.
