(* ===== verification/Sayings.v ===== *)
(** The program [src/primer_plus/chap12/12_3/sayings1.cpp], a client of [String]: it reads a
    name and up to ten lines, and prints the shortest and the alphabetically first. *)
From S2P Require Import Prelude Heap CString StringClass.

Module Sayings.
Import StringClass.

Definition ArSize : nat := 10.
Definition MaxLen : nat := 81.

(** [name] is object 0, [sayings[i]] is object [S i]. *)
Abbreviation name := 0%nat.
Abbreviation sayings i := (S i).

(** [String sayings[ArSize];] *)
Fixpoint construct_array (n i : nat) (s : state) : option state :=
  match n with
  | O => Some s
  | S n => s' ← construct_default (sayings i) s; construct_array n (S i) s'
  end.

(** The reading loop: the number of sayings *)
Fixpoint read_loop (n i : nat) (cin : istream) (s : state) : option (nat * state) :=
  match n with
  | O => Some (i, s)
  | S n =>
      let '(temp, cin1) := get_line MaxLen cin in
      let cin2 := skip_line cin1 in
      match failed cin2, cut temp with
      | true, _ | _, [] => Some (i, s)
      | false, _ => s' ← assign_chars (sayings i) temp s; read_loop n (S i) cin2 s'
      end
  end.

(** The loop that prints [sayings[i][0]] and [sayings[i]] *)
Fixpoint print_loop (n i : nat) (s : state) : option (list (cell * list Z)) :=
  match n with
  | O => Some []
  | S n =>
      c ← index_get (sayings i) 0 s;
      l ← output (sayings i) s;
      rest ← print_loop n (S i) s;
      Some ((c, l) :: rest)
  end.

(** The loop for the shortest and the first *)
Fixpoint find_loop (n i shortest first : nat) (s : state) : option (nat * nat) :=
  match n with
  | O => Some (shortest, first)
  | S n =>
      li ← length_ (sayings i) s;
      ls ← length_ (sayings shortest) s;
      b ← op_lt (sayings i) (sayings first) s;
      find_loop n (S i) (if li <? ls then i else shortest) (if b : bool then i else first) s
  end.

(** What is printed about the sayings *)
Record report := mkReport {
  printed : list (cell * list Z); the_shortest : list Z; the_first : list Z; how_many : Z }.

(** The end of a block destroys its objects, the last one first. *)
Fixpoint destroy_array (n : nat) (s : state) : option state :=
  match n with
  | O => Some s
  | S n => s' ← destroy (sayings n) s; destroy_array n s'
  end.

(** [main]: the name printed, the report ([None]: no input), and the state at the end *)
Definition main (cin : istream) : option (list Z * option report * state) :=
  s0 ← construct_default name init;
  '(cin1, s1) ← input_ name cin s0;
  who ← output name s1;
  s2 ← construct_array ArSize 0 s1;
  '(total, s3) ← read_loop ArSize 0 cin1 s2;
  r ← (if (0 <? total)%nat then
         lines ← print_loop total 0 s3;
         '(shortest, first) ← find_loop (total - 1) 1 0 0 s3;
         l1 ← output (sayings shortest) s3;
         l2 ← output (sayings first) s3;
         Some (Some (mkReport lines l1 l2 (HowMany s3)))
       else Some None);
  s4 ← destroy_array ArSize s3;
  s5 ← destroy name s4;
  Some (who, r, s5).

(** ** Without objects *)

(** The lines that are taken *)
Fixpoint read_lines (n : nat) (cin : istream) : list (list Z) :=
  match n with
  | O => []
  | S n =>
      let '(temp, cin1) := get_line MaxLen cin in
      let cin2 := skip_line cin1 in
      match failed cin2, cut temp with
      | true, _ | _, [] => []
      | false, l => l :: read_lines n cin2
      end
  end.

(** The first index with the least value *)
Section Argmin.
Context (lt : nat -> nat -> bool).
Context (lt_asym : forall x y, lt x y = true -> lt y x = false).
Context (lt_weak : forall x b m, lt x b = true -> lt m b = false -> lt x m = true).

Fixpoint argmin (n i best : nat) : nat :=
  match n with O => best | S n => argmin n (S i) (if lt i best then i else best) end.

Definition least (n k : nat) : Prop :=
  (k < n)%nat /\ forall m, (m < n)%nat -> lt m k = false /\ ((m < k)%nat -> lt k m = true).

Lemma argmin_least n i best : least i best -> least (i + n) (argmin n i best).
Proof.
  revert i best. induction n as [|n IH]; cbn; intros i best [Hk Hm]; [by rewrite Nat.add_0_r|].
  rewrite Nat.add_succ_r. apply (IH (S i)). destruct (lt i best) eqn:E.
  - split; [lia|]. intros m Hmi. assert (lt i i = false) as Hirr.
    { destruct (lt i i) eqn:Ei; [|done]. by rewrite (lt_asym _ _ Ei) in Ei. }
    destruct (decide (m = i)) as [->|]; [split; [done|lia]|].
    assert (lt i m = true) as Him by (apply (lt_weak _ best); [done|apply Hm; lia]).
    split; [by apply lt_asym|done].
  - split; [lia|]. intros m Hmi. destruct (decide (m = i)) as [->|]; [split; [done|lia]|]. apply Hm. lia.
Qed.
End Argmin.

Definition line (lines : list (list Z)) (k : nat) : list Z := lines !!! k.

Definition shorter (lines : list (list Z)) (i j : nat) : bool :=
  (length (line lines i) <? length (line lines j))%nat.
Definition before (lines : list (list Z)) (i j : nat) : bool := strcmp (line lines i) (line lines j) <? 0.

Lemma shorter_least lines n : (0 < n)%nat -> least (shorter lines) n (argmin (shorter lines) (n - 1) 1 0).
Proof.
  intros Hn. replace n with (1 + (n - 1))%nat at 1 by lia. apply argmin_least; unfold shorter.
  - intros x y ?%Nat.ltb_lt. apply Nat.ltb_ge. lia.
  - intros x b m ?%Nat.ltb_lt ?%Nat.ltb_ge. apply Nat.ltb_lt. lia.
  - split; [lia|]. intros m Hm. split; [|lia]. replace m with 0%nat by lia. apply Nat.ltb_irrefl.
Qed.

Lemma strcmp_weak x b m : strcmp x b < 0 -> 0 <= strcmp m b -> strcmp x m < 0.
Proof.
  intros Hx Hm. rewrite strcmp_flip in Hm. apply strcmp_neg. apply strcmp_neg in Hx.
  destruct (decide (strcmp b m = 0)) as [E|E].
  - apply strcmp_zero in E. by rewrite <- E.
  - eapply lex_lt_trans; [done|]. apply strcmp_neg. lia.
Qed.

Lemma before_least lines n : (0 < n)%nat -> least (before lines) n (argmin (before lines) (n - 1) 1 0).
Proof.
  intros Hn. replace n with (1 + (n - 1))%nat at 1 by lia. apply argmin_least; unfold before.
  - intros x y ?%Z.ltb_lt. apply Z.ltb_ge. rewrite strcmp_flip. lia.
  - intros x b m ?%Z.ltb_lt ?%Z.ltb_ge. apply Z.ltb_lt. by eapply strcmp_weak.
  - split; [lia|]. intros m Hm. split; [|lia]. replace m with 0%nat by lia. apply Z.ltb_ge.
    assert (strcmp (line lines 0) (line lines 0) = 0) as -> by (by apply strcmp_zero). done.
Qed.

(** ** The objects hold the lines *)

Lemma get_chars_ok n s : (length (get_chars n s).1 <= n)%nat /\ newline ∉ (get_chars n s).1.
Proof.
  revert s. induction n as [|n IH]; intros [|c s]; cbn; try (split; [lia|set_solver]).
  destruct (Z.eqb_spec c newline); [cbn; split; [lia|set_solver]|].
  destruct (IH s). destruct (get_chars n s) as [l rest]; cbn in *. split; [lia|]. set_solver.
Qed.

Lemma get_line_ok n sm : (length (get_line n sm).1 <= n - 1)%nat /\ newline ∉ (get_line n sm).1.
Proof.
  unfold get_line. destruct (failed sm); [cbn; split; [lia|set_solver]|].
  destruct (get_chars_ok (n - 1) (input sm)). by destruct (get_chars (n - 1) (input sm)).
Qed.

Lemma cut_sublist s : cut s `sublist_of` s.
Proof.
  induction s as [|c s IH]; cbn; [constructor|]. destruct (c =? 0); [apply sublist_nil_l|by constructor].
Qed.

(** A line of the input is a text of one to eighty characters without a newline. *)
Definition is_line (l : list Z) : Prop := l <> [] /\ (length l <= 80)%nat /\ (newline ∉ l) /\ no_nul l.

Lemma read_lines_ok n cin : (length (read_lines n cin) <= n)%nat /\ Forall is_line (read_lines n cin).
Proof.
  revert cin. induction n as [|n IH]; cbn [read_lines]; intros cin; [split; [done|constructor]|].
  destruct (get_line_ok MaxLen cin) as [Hl Hn]. destruct (get_line MaxLen cin) as [temp cin1].
  cbn [fst] in Hl, Hn. unfold MaxLen in Hl. pose proof (cut_no_nul temp). pose proof (cut_sublist temp) as Hc.
  pose proof (sublist_length _ _ Hc) as Hlc.
  destruct (failed (skip_line cin1)); [split; [cbn; lia|constructor]|].
  destruct (cut temp) as [|c l] eqn:E; [split; [cbn; lia|constructor]|].
  destruct (IH (skip_line cin1)). split; [cbn; lia|]. constructor; [|done].
  split_and!; [done|lia| |done]. intros Hin. apply Hn. eapply elem_of_submseteq; [exact Hin|].
  by apply sublist_submseteq.
Qed.

Lemma line_text_value n sm :
  (n <= 100)%nat ->
  text_value (get_line n sm).1 =
    Some (cut (get_line n sm).1, Z.of_nat (length (cut (get_line n sm).1))).
Proof.
  intros Hn. destruct (get_line_ok n sm) as [Hl _]. pose proof (length_cut (get_line n sm).1).
  unfold text_value, fits. by rewrite (proj2 (Z.ltb_lt _ _)) by (unfold INT_MAX; lia).
Qed.

Record holds (s : state) (lines : list (list Z)) : Prop := {
  hl_vals : exists vals, rel s vals /\ dom vals = set_seq 0 11 /\
    forall k l, lines !! k = Some l -> vals !! sayings k = Some (l, Z.of_nat (length l));
}.

Lemma construct_array_ok n i s vals :
  rel s vals -> dom vals = set_seq 0 (S i) -> (i + n <= 10)%nat ->
  exists s' vals', construct_array n i s = Some s' /\ rel s' vals' /\ dom vals' = set_seq 0 (S (i + n)) /\
    vals' !! name = vals !! name.
Proof.
  revert i s vals. induction n as [|n IH]; cbn [construct_array]; intros i s vals R Hd Hn.
  { exists s, vals. by rewrite Nat.add_0_r. }
  assert (vals !! sayings i = None) as Hi.
  { apply not_elem_of_dom. rewrite Hd, elem_of_set_seq. lia. }
  assert (size vals = S i) as Hsz by (rewrite <- size_dom, Hd, size_set_seq; done).
  destruct (construct_default_ok s vals (sayings i) (<[sayings i := ([], 4)]> vals) R) as (s1 & -> & R1).
  { unfold new_value. rewrite Hi, Hsz. by rewrite (proj2 (Z.ltb_lt _ _)) by (unfold INT_MAX; lia). }
  cbn [mbind option_bind]. destruct (IH (S i) s1 _ R1) as (s2 & vals2 & E & R2 & Hd2 & Hk); [|lia|].
  - rewrite dom_insert_L, Hd, (set_seq_S_end_union_L 0 (S i)). done.
  - exists s2, vals2. rewrite E. split_and!; [done|done|by rewrite Nat.add_succ_r|].
    by rewrite Hk, lookup_insert_ne.
Qed.

Lemma read_loop_ok n i cin s lines :
  holds s lines -> length lines = i -> (i + n = 10)%nat ->
  exists s', read_loop n i cin s = Some (length (lines ++ read_lines n cin), s') /\
    holds s' (lines ++ read_lines n cin).
Proof.
  revert i cin s lines. induction n as [|n IH]; cbn [read_loop read_lines]; intros i cin s lines H Hl Hn.
  { exists s. rewrite app_nil_r, Hl. done. }
  pose proof (line_text_value MaxLen cin ltac:(unfold MaxLen; lia)) as Ht.
  destruct (get_line MaxLen cin) as [temp cin1]. cbn [fst] in Ht.
  assert (exists s', Some (i, s) = Some (length (lines ++ []), s') /\ holds s' (lines ++ [])) as Hstop.
  { exists s. rewrite app_nil_r, Hl. done. }
  destruct (failed (skip_line cin1)); [done|]. destruct (cut temp) as [|c l] eqn:Ec; [done|]. clear Hstop.
  destruct H as [(vals & R & Hd & Hv)].
  assert (is_Some (vals !! sayings i)) as [v0 Hi] by (apply elem_of_dom; rewrite Hd, elem_of_set_seq; lia).
  destruct (assign_chars_ok s vals (sayings i) temp v0 _ R Hi Ht) as (s1 & -> & R1). cbn [mbind option_bind].
  destruct (IH (S i) (skip_line cin1) s1 (lines ++ [c :: l])) as (s2 & E & H2).
  - split. eexists. split; [exact R1|]. split.
    + rewrite dom_insert_lookup_L; [done|by exists v0].
    + intros k m [Hk|[Hk Hm]]%lookup_app_Some.
      * rewrite lookup_insert_ne; [by apply Hv|]. apply lookup_lt_Some in Hk. lia.
      * apply list_lookup_singleton_Some in Hm as [? <-]. replace k with i by lia. apply lookup_insert_eq.
  - rewrite length_app. cbn. lia.
  - lia.
  - exists s2. rewrite E, <- !(assoc (++)). by rewrite <- (assoc (++)) in H2.
Qed.

(** The line of index [k] and its object *)
Lemma holds_line s lines k :
  holds s lines -> (k < length lines)%nat ->
  exists vals, rel s vals /\ vals !! sayings k = Some (line lines k, Z.of_nat (length (line lines k))).
Proof.
  intros [(vals & R & _ & Hv)] Hk. exists vals. split; [done|]. apply Hv.
  by apply list_lookup_lookup_total_lt.
Qed.

Lemma output_line s lines k : holds s lines -> (k < length lines)%nat -> output (sayings k) s = Some (line lines k).
Proof.
  intros H Hk. destruct (holds_line _ _ _ H Hk) as (vals & R & Hv).
  destruct (object_ok _ _ _ _ R Hv) as (o & ? & ? & Ho & _ & _ & _ & _ & E). unfold output. by rewrite Ho.
Qed.

(** What is printed for a line *)
Definition shown (l : list Z) : cell * list Z := (Some (default 0 (head l)), l).

Lemma print_loop_ok n i s lines :
  holds s lines -> (i + n = length lines)%nat -> print_loop n i s = Some (shown <$> drop i lines).
Proof.
  revert i. induction n as [|n IH]; cbn [print_loop]; intros i H Hn.
  { rewrite drop_ge by lia. done. }
  rewrite (drop_S lines (line lines i) i) by (apply list_lookup_lookup_total_lt; lia).
  destruct (holds_line s lines i H ltac:(lia)) as (vals & R & Hv).
  rewrite (index_get_ok s vals (sayings i) 0 _ (default 0 (head (line lines i))) R Hv) by (by destruct (line lines i)).
  cbn [mbind option_bind]. rewrite (output_line s lines) by (done || lia). cbn [mbind option_bind].
  by rewrite IH by (done || lia).
Qed.

Lemma find_loop_ok n i shortest first s lines :
  holds s lines -> (i + n = length lines)%nat -> (shortest < length lines)%nat -> (first < length lines)%nat ->
  find_loop n i shortest first s = Some (argmin (shorter lines) n i shortest, argmin (before lines) n i first).
Proof.
  revert i shortest first. induction n as [|n IH]; cbn [find_loop argmin]; intros i sh f H Hn Hs Hf; [done|].
  destruct (holds_line s lines i H ltac:(lia)) as (vals & R & Hv).
  pose proof H as [(vals' & R' & _ & Hv')].
  assert (forall k, (k < length lines)%nat -> vals' !! sayings k = Some (line lines k, Z.of_nat (length (line lines k)))) as Hk.
  { intros k Hk. apply Hv'. by apply list_lookup_lookup_total_lt. }
  assert (forall k, (k < length lines)%nat -> length_ (sayings k) s = Some (Z.of_nat (length (line lines k)))) as Hlen.
  { intros k Hkl. destruct (object_ok _ _ _ _ R' (Hk k Hkl)) as (o & ? & ? & Ho & Hl & _).
    unfold length_. rewrite Ho. cbn. by rewrite Hl. }
  rewrite !Hlen by lia. cbn [mbind option_bind]. unfold op_lt.
  rewrite (compare_ok _ _ _ _ _ _ R' (Hk i ltac:(lia)) (Hk f Hf)). cbn [mbind option_bind fst].
  assert ((Z.of_nat (length (line lines i)) <? Z.of_nat (length (line lines sh))) = shorter lines i sh) as ->.
  { unfold shorter. destruct (Nat.ltb_spec (length (line lines i)) (length (line lines sh)));
      [apply Z.ltb_lt|apply Z.ltb_ge]; lia. }
  change (strcmp (line lines i) (line lines f) <? 0) with (before lines i f).
  apply IH; [done|lia|destruct (shorter _ _ _); lia|destruct (before _ _ _); lia].
Qed.

Lemma destroy_array_ok n s vals :
  rel s vals -> dom vals = set_seq 0 (S n) ->
  exists s' vals', destroy_array n s = Some s' /\ rel s' vals' /\ dom vals' = {[name]}.
Proof.
  revert s vals. induction n as [|n IH]; cbn [destroy_array]; intros s vals R Hd.
  { exists s, vals. split_and!; [done|done|]. rewrite Hd. cbn. set_solver. }
  assert (is_Some (vals !! sayings n)) as [v Hv] by (apply elem_of_dom; rewrite Hd, elem_of_set_seq; lia).
  destruct (str_destroy_ok _ _ _ _ R Hv) as (s1 & -> & R1). cbn [mbind option_bind]. apply (IH _ _ R1).
  rewrite dom_delete_L, Hd. apply set_eq. intros x.
  rewrite elem_of_difference, elem_of_singleton, !elem_of_set_seq. lia.
Qed.

(** C13: the program of the sayings, on any input: it runs without undefined behaviour, takes at
    most ten lines of one to eighty characters, prints each with its first character, and names
    the first of the shortest and the first of the alphabetically least; it counts eleven
    objects while they live, and at its end none is left and no memory is allocated. *)
Theorem main_spec (cin : istream) :
  let '(temp, cin1) := get_line CINLIM cin in
  let lines := read_lines ArSize (skip_line cin1) in
  exists r s, main cin = Some (if failed cin1 then [] else cut temp, r, s) /\
    (length lines <= 10)%nat /\ Forall is_line lines /\
    match r with
    | None => lines = []
    | Some r => exists k f,
        least (shorter lines) (length lines) k /\ least (before lines) (length lines) f /\
        r = mkReport (shown <$> lines) (line lines k) (line lines f) 11
    end /\ HowMany s = 0 /\ cells (hp s) = ∅.
Proof.
  unfold main. destruct (construct_default_ok init ∅ name {[name := ([], 4)]} rel_init eq_refl) as (s0 & -> & R0).
  pose proof (line_text_value CINLIM cin ltac:(unfold CINLIM; lia)) as Ht.
  pose proof (input_ok s0 {[name := ([], 4)]} name cin ([], 4)) as Hin. unfold spec_input in Hin. cbn [mbind option_bind].
  destruct (get_line CINLIM cin) as [temp cin1]. cbn [fst] in Ht. rewrite Ht in Hin.
  set (v := if failed cin1 then ([], 4) else (cut temp, Z.of_nat (length (cut temp)))).
  destruct (Hin (skip_line cin1) v R0 (lookup_singleton_eq _ _)) as (s1 & -> & R1);
    [unfold v; by destruct (failed cin1)|]. clear Hin. cbn [mbind option_bind].
  assert (output name s1 = Some v.1) as ->.
  { destruct (object_ok s1 _ name v R1 (lookup_insert_eq _ _ _)) as (o & ? & ? & Ho & _ & _ & _ & _ & E).
    unfold output. by rewrite Ho. }
  replace v.1 with (if failed cin1 then [] else cut temp) by (unfold v; by destruct (failed cin1)).
  cbn [mbind option_bind].
  destruct (construct_array_ok ArSize 0 s1 _ R1) as (s2 & vals2 & -> & R2 & Hd2 & _);
    [by rewrite dom_insert_L, dom_singleton_L|done|]. cbn [mbind option_bind].
  destruct (read_loop_ok ArSize 0 (skip_line cin1) s2 []) as (s3 & -> & H3); [|done|done|].
  { split. exists vals2. split_and!; [done|done|]. intros k l Hk. by rewrite lookup_nil in Hk. }
  destruct (read_lines_ok ArSize (skip_line cin1)) as [Hlen Hlines].
  cbn [app mbind option_bind] in *. set (lines := read_lines ArSize (skip_line cin1)) in *.
  assert (exists s5, (s4 ← destroy_array ArSize s3; destroy name s4) = Some s5 /\ HowMany s5 = 0 /\ cells (hp s5) = ∅)
    as (s5 & (s4 & E4 & E5)%bind_Some & Hc & Hh).
  { destruct H3 as [(vals3 & R3 & Hd3 & _)]. destruct (destroy_array_ok ArSize s3 vals3 R3 Hd3) as (s4 & vals4 & -> & R4 & Hd4).
    assert (is_Some (vals4 !! name)) as [w Hw] by (apply elem_of_dom; set_solver).
    cbn [mbind option_bind]. destruct (str_destroy_ok _ _ _ _ R4 Hw) as (s5 & -> & R5). exists s5.
    assert (delete name vals4 = ∅) as E0 by (apply dom_empty_inv_L; rewrite dom_delete_L, Hd4; set_solver).
    rewrite E0 in R5. split; [done|]. split; [apply R5|]. by destruct (stands_no_leak _ _ _ _ _ (rel_stands _ _ R5) eq_refl). }
  destruct (Nat.ltb_spec 0 (length lines)) as [Hpos|Hzero].
  - rewrite (print_loop_ok (length lines) 0 s3 lines H3) by lia. cbn [mbind option_bind].
    rewrite (find_loop_ok _ 1 0 0 s3 lines H3) by lia. cbn [mbind option_bind].
    pose proof (shorter_least lines (length lines) Hpos) as Hs.
    pose proof (before_least lines (length lines) Hpos) as Hf.
    rewrite !(output_line s3 lines) by (done || apply Hs || apply Hf). cbn [mbind option_bind].
    assert (HowMany s3 = 11) as ->.
    { destruct H3 as [(vals3 & R3 & Hd3 & _)]. unfold HowMany. rewrite (rel_count _ _ R3), <- size_dom, Hd3, size_set_seq. done. }
    rewrite E4. cbn [mbind option_bind]. rewrite E5. cbn [mbind option_bind].
    eexists _, s5. split_and!; [reflexivity|done|done| |done|done]. eexists _, _. split_and!; done.
  - cbn [mbind option_bind]. rewrite E4. cbn [mbind option_bind]. rewrite E5. cbn [mbind option_bind].
    eexists None, s5. split_and!; [reflexivity|done|done| |done|done]. apply nil_length_inv. lia.
Qed.

(** "Al", then "bb", "ab", "c" and an empty line *)
Example main_example :
  fst <$> main (mkStream [65; 108; 10; 98; 98; 10; 97; 98; 10; 99; 10; 10] false) =
    Some ([65; 108], Some (mkReport [(Some 98, [98; 98]); (Some 97, [97; 98]); (Some 99, [99])] [99] [97; 98] 11)).
Proof. vm_compute. reflexivity. Qed.
End Sayings.
