(* ===== verification/Dma.v ===== *)
(** The classes [baseDMA], [lacksDMA] and [hasDMA] of [src/primer_plus/chap13/13_4/dma.cpp]:
    inheritance and dynamic memory. *)
From S2P Require Import Prelude Heap CString.

Module Dma.
Record baseDMA := mkBase { lable : ptr; rating : Z }.

Definition COL_LEN : nat := 40.

(** What a derived class adds *)
Inductive part := NoPart | lacksDMA (color : list cell) | hasDMA (style : ptr).

Record object := mkObj { base : baseDMA; own : part }.

(** The objects in scope, by name, and the heap *)
Record state := mkState { hp : heap cell; objs : gmap nat object }.

Definition init : state := mkState empty_heap ∅.

Definition set_obj (i : nat) (o : object) (h : heap cell) (s : state) : state :=
  mkState h (<[i := o]> (objs s)).

(** ** [baseDMA] *)
Definition base_ctor (l : list Z) (r : Z) (h : heap cell) : option (baseDMA * heap cell) :=
  '(a, h1) ← dup_arg l h; Some (mkBase (Some a) r, h1).

Definition base_copy (rs : baseDMA) (h : heap cell) : option (baseDMA * heap cell) :=
  '(a, h1) ← dup_ptr (lable rs) h; Some (mkBase (Some a) (rating rs), h1).

(** [operator=]; [same] is [this == &rs] *)
Definition base_assign (same : bool) (this rs : baseDMA) (h : heap cell) : option (baseDMA * heap cell) :=
  if same then Some (this, h)
  else
    h1 ← free (lable this) h;
    '(a, h2) ← dup_ptr (lable rs) h1;
    Some (mkBase (Some a) (rating rs), h2).

Definition base_dtor (this : baseDMA) (h : heap cell) : option (heap cell) := free (lable this) h.

(** ** [lacksDMA] *)
Definition set_color (c : list Z) : option (list cell) :=
  color ← strncpy (replicate COL_LEN None) c (COL_LEN - 1);
  Some (<[(COL_LEN - 1)%nat := Some 0]> color).

Definition lacks_ctor (c l : list Z) (r : Z) (h : heap cell) : option (object * heap cell) :=
  '(b, h1) ← base_ctor l r h; color ← set_color c; Some (mkObj b (lacksDMA color), h1).

Definition lacks_ctor_base (c : list Z) (rs : baseDMA) (h : heap cell) : option (object * heap cell) :=
  '(b, h1) ← base_copy rs h; color ← set_color c; Some (mkObj b (lacksDMA color), h1).

(** ** [hasDMA] *)
Definition has_ctor (s l : list Z) (r : Z) (h : heap cell) : option (object * heap cell) :=
  '(b, h1) ← base_ctor l r h; '(a, h2) ← dup_arg s h1; Some (mkObj b (hasDMA (Some a)), h2).

Definition has_ctor_base (s : list Z) (rs : baseDMA) (h : heap cell) : option (object * heap cell) :=
  '(b, h1) ← base_copy rs h; '(a, h2) ← dup_arg s h1; Some (mkObj b (hasDMA (Some a)), h2).

Definition has_copy (hs : baseDMA) (style : ptr) (h : heap cell) : option (object * heap cell) :=
  '(b, h1) ← base_copy hs h; '(a, h2) ← dup_ptr style h1; Some (mkObj b (hasDMA (Some a)), h2).

Definition has_dtor (style : ptr) (this : baseDMA) (h : heap cell) : option (heap cell) :=
  h1 ← free style h; base_dtor this h1.

(** [operator=], without the test for [this == &rs] *)
Definition has_assign (this : baseDMA) (style : ptr) (rs : baseDMA) (rstyle : ptr) (h : heap cell)
  : option (object * heap cell) :=
  '(b, h1) ← base_assign false this rs h;
  h2 ← free style h1;
  '(a, h3) ← dup_ptr rstyle h2;
  Some (mkObj b (hasDMA (Some a)), h3).

(** ** Operations on the objects in scope *)

(** The copy constructor of the class of the source; that of [lacksDMA] is the compiler's. *)
Definition copy_object (o : object) (h : heap cell) : option (object * heap cell) :=
  match own o with
  | NoPart => '(b, h1) ← base_copy (base o) h; Some (mkObj b NoPart, h1)
  | lacksDMA color => '(b, h1) ← base_copy (base o) h; Some (mkObj b (lacksDMA color), h1)
  | hasDMA style => has_copy (base o) style h
  end.

(** The assignment of two objects of one class; that of [lacksDMA] is the compiler's. *)
Definition assign_object (same : bool) (this rs : object) (h : heap cell) : option (object * heap cell) :=
  match own this, own rs with
  | NoPart, NoPart => '(b, h1) ← base_assign same (base this) (base rs) h; Some (mkObj b NoPart, h1)
  | lacksDMA _, lacksDMA color =>
      '(b, h1) ← base_assign same (base this) (base rs) h; Some (mkObj b (lacksDMA color), h1)
  | hasDMA style, hasDMA rstyle =>
      if same then Some (this, h) else has_assign (base this) style (base rs) rstyle h
  | _, _ => None
  end.

Definition destroy_object (o : object) (h : heap cell) : option (heap cell) :=
  match own o with
  | NoPart | lacksDMA _ => base_dtor (base o) h
  | hasDMA style => has_dtor style (base o) h
  end.

(** [os << obj]: the label, the rating, and the color or the style *)
Definition output (o : object) (h : heap cell) : option (list Z * Z * option (list Z)) :=
  l ← text (lable (base o)) h;
  match own o with
  | NoPart => Some (l, rating (base o), None)
  | lacksDMA color => c ← c_str color; Some (l, rating (base o), Some c)
  | hasDMA style => t ← text style h; Some (l, rating (base o), Some t)
  end.

Inductive stmt :=
| NewBase (i : nat) (l : list Z) (r : Z)
| NewLacks (i : nat) (c l : list Z) (r : Z) | NewLacksOf (i : nat) (c : list Z) (j : nat)
| NewHas (i : nat) (s l : list Z) (r : Z) | NewHasOf (i : nat) (s : list Z) (j : nat)
| Copy (i j : nat) | CopyBase (i j : nat)
| Assign (i j : nat) | AssignBase (i j : nat)
| Destroy (i : nat) | Output (i : nat).

Inductive answer := Done | Shown (l : list Z) (r : Z) (x : option (list Z)).

(** A new object [i]; [CopyBase] is [baseDMA i(j)], [NewLacksOf] and [NewHasOf] take the base
    part of any object, and [AssignBase] is [operator=] of [baseDMA] on the base parts. *)
Definition create (i : nat) (r : option (object * heap cell)) (s : state) : option (answer * state) :=
  '(o, h) ← r; Some (Done, set_obj i o h s).

Definition exec (c : stmt) (s : state) : option (answer * state) :=
  match c with
  | NewBase i l r => create i ('(b, h) ← base_ctor l r (hp s); Some (mkObj b NoPart, h)) s
  | NewLacks i c l r => create i (lacks_ctor c l r (hp s)) s
  | NewLacksOf i c j => o ← objs s !! j; create i (lacks_ctor_base c (base o) (hp s)) s
  | NewHas i t l r => create i (has_ctor t l r (hp s)) s
  | NewHasOf i t j => o ← objs s !! j; create i (has_ctor_base t (base o) (hp s)) s
  | Copy i j => o ← objs s !! j; create i (copy_object o (hp s)) s
  | CopyBase i j =>
      o ← objs s !! j; create i ('(b, h) ← base_copy (base o) (hp s); Some (mkObj b NoPart, h)) s
  | Assign i j =>
      o ← objs s !! i; rs ← objs s !! j; create i (assign_object (i =? j)%nat o rs (hp s)) s
  | AssignBase i j =>
      o ← objs s !! i; rs ← objs s !! j;
      create i ('(b, h) ← base_assign (i =? j)%nat (base o) (base rs) (hp s); Some (mkObj b (own o), h)) s
  | Destroy i =>
      o ← objs s !! i; h ← destroy_object o (hp s); Some (Done, mkState h (delete i (objs s)))
  | Output i =>
      o ← objs s !! i; '(l, r, x) ← output o (hp s); Some (Shown l r x, s)
  end.

Fixpoint exec_all (cs : list stmt) (s : state) : option (list answer * state) :=
  match cs with
  | [] => Some ([], s)
  | c :: cs => '(r, s1) ← exec c s; '(rs, s2) ← exec_all cs s1; Some (r :: rs, s2)
  end.

(** ** Without pointers *)
Inductive vpart := VNone | VLacks (color : list Z) | VHas (style : list Z).

Record value := mkValue { v_lable : list Z; v_rating : Z; v_part : vpart }.

Definition same_class (x y : vpart) : bool :=
  match x, y with VNone, VNone | VLacks _, VLacks _ | VHas _, VHas _ => true | _, _ => false end.

(** [color] holds at most 39 characters. *)
Definition color_of (c : list Z) : list Z := take 39 (cut c).

Definition spec_create (i : nat) (v : value) (vals : gmap nat value) : option (answer * gmap nat value) :=
  match vals !! i with Some _ => None | None => Some (Done, <[i := v]> vals) end.

Definition spec (c : stmt) (vals : gmap nat value) : option (answer * gmap nat value) :=
  match c with
  | NewBase i l r => spec_create i (mkValue (cut l) r VNone) vals
  | NewLacks i c l r => spec_create i (mkValue (cut l) r (VLacks (color_of c))) vals
  | NewLacksOf i c j => v ← vals !! j; spec_create i (mkValue (v_lable v) (v_rating v) (VLacks (color_of c))) vals
  | NewHas i t l r => spec_create i (mkValue (cut l) r (VHas (cut t))) vals
  | NewHasOf i t j => v ← vals !! j; spec_create i (mkValue (v_lable v) (v_rating v) (VHas (cut t))) vals
  | Copy i j => v ← vals !! j; spec_create i v vals
  | CopyBase i j => v ← vals !! j; spec_create i (mkValue (v_lable v) (v_rating v) VNone) vals
  | Assign i j =>
      w ← vals !! i; v ← vals !! j;
      if same_class (v_part w) (v_part v) then Some (Done, <[i := v]> vals) else None
  | AssignBase i j =>
      w ← vals !! i; v ← vals !! j;
      Some (Done, <[i := mkValue (v_lable v) (v_rating v) (v_part w)]> vals)
  | Destroy i => _ ← vals !! i; Some (Done, delete i vals)
  | Output i =>
      v ← vals !! i;
      Some (Shown (v_lable v) (v_rating v)
              match v_part v with VNone => None | VLacks c | VHas c => Some c end, vals)
  end.

Fixpoint spec_all (cs : list stmt) (vals : gmap nat value) : option (list answer * gmap nat value) :=
  match cs with
  | [] => Some ([], vals)
  | c :: cs => '(r, v1) ← spec c vals; '(rs, v2) ← spec_all cs v1; Some (r :: rs, v2)
  end.

(** ** The representation *)
Definition style_blocks (p : part) : gset nat :=
  match p with hasDMA style => ptr_blocks style | _ => ∅ end.

Definition blocks (o : object) : gset nat := ptr_blocks (lable (base o)) ∪ style_blocks (own o).

Definition part_ok (h : heap cell) (b : baseDMA) (p : part) (v : vpart) : Prop :=
  match p, v with
  | NoPart, VNone => True
  | lacksDMA color, VLacks c => c_str color = Some c
  | hasDMA style, VHas t => text style h = Some t /\ ptr_blocks style ## ptr_blocks (lable b)
  | _, _ => False
  end.

Record repr (h : heap cell) (o : object) (v : value) : Prop := {
  rp_rating : rating (base o) = v_rating v;
  rp_lable : text (lable (base o)) h = Some (v_lable v);
  rp_part : part_ok h (base o) (own o) (v_part v);
}.

Lemma text_frame p (h h' : heap cell) :
  (forall a, a ∈ ptr_blocks p -> cells h' !! a = cells h !! a) -> text p h' = text p h.
Proof. intros Hs. destruct p as [a|]; [|done]. unfold text. cbn. rewrite Hs; [done|set_solver]. Qed.

Lemma dma_repr_frame h h' o v :
  (forall a, a ∈ blocks o -> cells h' !! a = cells h !! a) -> repr h o v -> repr h' o v.
Proof.
  unfold blocks. intros Hs [Hr Hl Hp]. split; [done| |].
  - rewrite (text_frame _ h h'); [done|]. set_solver.
  - destruct (own o), (v_part v); cbn in *; try done. rewrite (text_frame _ h h'); [done|]. set_solver.
Qed.

Abbreviation rel := (stands blocks repr).

(** The text of a fresh array, and the texts it leaves alone *)
Lemma text_fresh (h : heap cell) blk l :
  c_str blk = Some l ->
  text (Some (next_addr h)) (mkHeap (<[next_addr h := blk]> (cells h)) (S (next_addr h))) = Some l.
Proof. intros Hl. eapply text_some; [apply lookup_insert_eq|done]. Qed.

Lemma text_kept (h : heap cell) blk p l :
  heap_ok h -> text p h = Some l ->
  text p (mkHeap (<[next_addr h := blk]> (cells h)) (S (next_addr h))) = Some l /\
  ptr_blocks p ## {[next_addr h]}.
Proof.
  intros Hok Ht. assert (next_addr h ∉ ptr_blocks p) as Hn.
  { intros Hin. pose proof (alloc_fresh h Hok) as Hf. destruct p as [a|]; cbn in Hin; [|set_solver].
    apply elem_of_singleton in Hin as <-. unfold text in Ht. cbn in Ht. by rewrite Hf in Ht. }
  split; [|set_solver]. rewrite <- Ht. apply text_frame. intros a Ha. cbn. rewrite lookup_insert_ne; [done|].
  by intros <-.
Qed.

Lemma obj_text h objs vals j o v :
  rel h objs vals -> objs !! j = Some o -> vals !! j = Some v -> repr h o v.
Proof.
  intros I Ho Hv. destruct (stands_lookup _ _ _ _ _ _ _ I Hv) as (o' & Ho' & ?). congruence.
Qed.

(** A new base part *)
Lemma fresh_base h objs vals i blk l r :
  rel h objs vals -> vals !! i = None -> c_str blk = Some l ->
  rel (mkHeap (<[next_addr h := blk]> (cells h)) (S (next_addr h)))
    (<[i := mkObj (mkBase (Some (next_addr h)) r) NoPart]> objs) (<[i := mkValue l r VNone]> vals).
Proof.
  intros I Hi Hl. pose proof (blocks_at_none _ _ _ _ _ _ I Hi) as Hb.
  eapply (stands_realloc blocks repr dma_repr_frame ∅ h); try done; try (rewrite Hb; set_solver).
  - set_solver.
  - split; [done|by apply text_fresh|done].
Qed.

Lemma base_ctor_ok h objs vals i l r :
  rel h objs vals -> vals !! i = None ->
  exists b h1, base_ctor l r h = Some (b, h1) /\
    rel h1 (<[i := mkObj b NoPart]> objs) (<[i := mkValue (cut l) r VNone]> vals).
Proof.
  intros I Hi. destruct (dup_arg_spec l h) as (blk & Hl & E). unfold base_ctor. rewrite E.
  eexists _, _. split; [done|]. by apply fresh_base.
Qed.

Lemma base_copy_ok h objs vals i j o v :
  rel h objs vals -> vals !! i = None -> objs !! j = Some o -> vals !! j = Some v ->
  exists b h1, base_copy (base o) h = Some (b, h1) /\
    rel h1 (<[i := mkObj b NoPart]> objs) (<[i := mkValue (v_lable v) (v_rating v) VNone]> vals).
Proof.
  intros I Hi Ho Hv. destruct (obj_text _ _ _ _ _ _ I Ho Hv) as [Hr Hl _].
  destruct (dup_ptr_spec _ _ h (stands_ok _ _ _ _ _ I) Hl) as (blk & Hb & E). unfold base_copy. rewrite E.
  eexists _, _. split; [done|]. rewrite Hr. by apply fresh_base.
Qed.

(** Adding a color or a style to an object that has none *)
Lemma add_color h objs vals i b color l r c :
  rel h (<[i := mkObj b NoPart]> objs) (<[i := mkValue l r VNone]> vals) -> c_str color = Some c ->
  rel h (<[i := mkObj b (lacksDMA color)]> objs) (<[i := mkValue l r (VLacks c)]> vals).
Proof.
  intros I Hc. destruct (obj_text _ _ _ i _ _ I (lookup_insert_eq _ _ _) (lookup_insert_eq _ _ _)) as [Hr Hl _].
  pose proof (stands_update blocks repr dma_repr_frame h h _ _ i _ (mkObj b (lacksDMA color)) (mkValue l r (VLacks c))
    I (lookup_insert_eq _ _ _)) as H.
  rewrite !insert_insert_eq in H. by apply H.
Qed.

Lemma add_style h objs vals i b l r blk t :
  rel h (<[i := mkObj b NoPart]> objs) (<[i := mkValue l r VNone]> vals) -> c_str blk = Some t ->
  rel (mkHeap (<[next_addr h := blk]> (cells h)) (S (next_addr h)))
    (<[i := mkObj b (hasDMA (Some (next_addr h)))]> objs) (<[i := mkValue l r (VHas t)]> vals).
Proof.
  intros I Hc. destruct (obj_text _ _ _ i _ _ I (lookup_insert_eq _ _ _) (lookup_insert_eq _ _ _)) as [Hr Hl _].
  rewrite <- (insert_insert_eq objs i _ (mkObj b NoPart)), <- (insert_insert_eq vals i _ (mkValue l r VNone)).
  cbn in Hr, Hl. destruct (text_kept h blk _ _ (stands_ok _ _ _ _ _ I) Hl) as [Hl' Hd].
  eapply (stands_realloc blocks repr dma_repr_frame ∅ h); try done; try set_solver.
  - rewrite (blocks_at_some blocks _ _ _ (lookup_insert_eq _ _ _)). unfold blocks. cbn. set_solver.
  - split; cbn; [done|done|]. split; [by apply text_fresh|set_solver].
Qed.

Lemma set_color_ok c : exists color, set_color c = Some color /\ c_str color = Some (color_of c).
Proof.
  unfold set_color, color_of. destruct (strncpy_str c 39) as (blk & E & _ & Hc).
  change (strncpy (replicate COL_LEN None) c (COL_LEN - 1)) with (strncpy (replicate 40 None) c 39).
  rewrite E. eauto.
Qed.

(** A new label for an object that exists, from another one *)
Lemma base_assign_ok h objs vals i j o rs w v :
  rel h objs vals -> objs !! i = Some o -> vals !! i = Some w -> objs !! j = Some rs -> vals !! j = Some v ->
  exists b h1, base_assign (i =? j)%nat (base o) (base rs) h = Some (b, h1) /\
    rel h1 (<[i := mkObj b (own o)]> objs) (<[i := mkValue (v_lable v) (v_rating v) (v_part w)]> vals).
Proof.
  intros I Ho Hw Hrs Hv. unfold base_assign. destruct (Nat.eqb_spec i j) as [->|Hij].
  { eexists _, _. split; [done|]. assert (rs = o) as -> by congruence.
    assert (v = w) as -> by congruence. destruct o, w. by rewrite !insert_id. }
  destruct (obj_text _ _ _ _ _ _ I Ho Hw) as [Hrw Hlw Hpw]. destruct (obj_text _ _ _ _ _ _ I Hrs Hv) as [Hr Hl _].
  pose proof (stands_live _ _ _ _ _ _ _ I Ho) as Hlive.
  pose proof (ow_disjoint _ _ _ (sf_owned _ _ _ _ _ I) _ _ _ _ Ho Hrs Hij) as Hdis. unfold blocks in Hlive, Hdis.
  destruct (free_spec (lable (base o)) h) as (h1 & E & Hn & Hdom & Hsame); [set_solver|].
  rewrite E. cbn [mbind option_bind]. pose proof (heap_ok_free _ _ _ (stands_ok _ _ _ _ _ I) E) as Hok1.
  assert (text (lable (base rs)) h1 = Some (v_lable v)) as Hl1.
  { rewrite <- Hl. apply text_frame. intros a Ha. apply Hsame. set_solver. }
  destruct (dup_ptr_spec _ _ h1 Hok1 Hl1) as (blk & Hb & Ed). rewrite Ed. eexists _, _. split; [done|].
  pose proof (blocks_at_some blocks _ _ _ Ho) as Hbl. unfold blocks at 2 in Hbl.
  assert (style_blocks (own o) ## ptr_blocks (lable (base o))) as Hst.
  { destruct (own o), (v_part w); cbn in *; set_solver. }
  eapply (stands_realloc blocks repr dma_repr_frame (ptr_blocks (lable (base o))) h); try done.
  - rewrite Hbl. set_solver.
  - rewrite Hbl. unfold blocks. cbn. set_solver.
  - split; cbn; [done|by apply text_fresh|].
    destruct (own o) as [|color|style], (v_part w) as [|c|t]; cbn in *; try done. destruct Hpw as [Ht _].
    apply text_kept; [done|]. rewrite <- Ht. apply text_frame. intros a Ha. apply Hsame. set_solver.
Qed.

(** A new style *)
Lemma style_assign_ok h objs vals i j b style rs rstyle v w t t' :
  rel h objs vals -> i <> j -> objs !! i = Some (mkObj b (hasDMA style)) -> vals !! i = Some w ->
  v_part w = VHas t' -> objs !! j = Some rs -> own rs = hasDMA rstyle -> vals !! j = Some v -> v_part v = VHas t ->
  exists h2 a h3, free style h = Some h2 /\ dup_ptr rstyle h2 = Some (a, h3) /\
    rel h3 (<[i := mkObj b (hasDMA (Some a))]> objs) (<[i := mkValue (v_lable w) (v_rating w) (VHas t)]> vals).
Proof.
  intros I Hij Ho Hw Hwt Hrs Hrst Hv Hvt.
  destruct (obj_text _ _ _ _ _ _ I Ho Hw) as [Hrw Hlw Hpw]. destruct (obj_text _ _ _ _ _ _ I Hrs Hv) as [_ _ Hp].
  rewrite Hwt in Hpw. rewrite Hrst, Hvt in Hp. cbn in Hrw, Hlw, Hpw, Hp.
  pose proof (stands_live _ _ _ _ _ _ _ I Ho) as Hlive.
  pose proof (ow_disjoint _ _ _ (sf_owned _ _ _ _ _ I) _ _ _ _ Ho Hrs Hij) as Hdis.
  unfold blocks in Hlive, Hdis. rewrite Hrst in Hdis. cbn in Hlive, Hdis.
  destruct (free_spec style h) as (h2 & E & Hn & Hdom & Hsame); [set_solver|].
  pose proof (heap_ok_free _ _ _ (stands_ok _ _ _ _ _ I) E) as Hok.
  assert (text rstyle h2 = Some t) as Ht.
  { destruct Hp as [<- _]. apply text_frame. intros a Ha. apply Hsame. set_solver. }
  destruct (dup_ptr_spec _ _ h2 Hok Ht) as (blk & Hb & Ed). exists h2. eexists _, _. split_and!; [done|done|].
  pose proof (blocks_at_some blocks _ _ _ Ho) as Hbl. unfold blocks at 2 in Hbl. cbn in Hbl.
  assert (text (lable b) h2 = Some (v_lable w)) as Hl2.
  { rewrite <- Hlw. apply text_frame. intros a Ha. apply Hsame. set_solver. }
  destruct (text_kept h2 blk _ _ Hok Hl2) as [Hl3 Hd3].
  eapply (stands_realloc blocks repr dma_repr_frame (ptr_blocks style) h); try done.
  - rewrite Hbl. set_solver.
  - rewrite Hbl. unfold blocks. cbn. set_solver.
  - split; cbn; [done|done|]. split; [by apply text_fresh|]. set_solver.
Qed.

Lemma dma_destroy_ok h objs vals i o v :
  rel h objs vals -> objs !! i = Some o -> vals !! i = Some v ->
  exists h', destroy_object o h = Some h' /\ rel h' (delete i objs) (delete i vals).
Proof.
  intros I Ho Hv. destruct (obj_text _ _ _ _ _ _ I Ho Hv) as [_ _ Hp].
  pose proof (stands_live _ _ _ _ _ _ _ I Ho) as Hlive. unfold blocks in Hlive.
  pose proof (blocks_at_some blocks _ _ _ Ho) as Hbl. unfold blocks at 2 in Hbl.
  assert (exists h', destroy_object o h = Some h' /\ heap_ok h' /\
    dom (cells h') = dom (cells h) ∖ blocks o /\ forall a, a ∉ blocks o -> cells h' !! a = cells h !! a)
    as (h' & E & Hok & Hd & Hs).
  { unfold destroy_object, has_dtor, base_dtor, blocks. destruct (own o) as [|color|style]; cbn [style_blocks] in *.
    1,2: destruct (free_spec (lable (base o)) h) as (h1 & E & _ & Hd & Hs); [set_solver|]; exists h1;
         (split_and!; [done|by eapply heap_ok_free; [eapply stands_ok|]|set_solver|set_solver]).
    destruct (v_part v); cbn in Hp; try done. destruct Hp as [_ Hdis].
    destruct (free_spec style h) as (h1 & E1 & _ & Hd1 & Hs1); [set_solver|].
    destruct (free_spec (lable (base o)) h1) as (h2 & E2 & _ & Hd2 & Hs2); [rewrite Hd1; set_solver|].
    exists h2. rewrite E1. cbn. split_and!; [done| |rewrite Hd2, Hd1; set_solver|].
    - eapply heap_ok_free; [|done]. eapply heap_ok_free; [by eapply stands_ok|done].
    - intros a Ha. rewrite Hs2, Hs1; [done|set_solver|set_solver]. }
  exists h'. split; [done|]. eapply (stands_delete blocks repr dma_repr_frame); [done|done| |].
  - by rewrite Hbl.
  - intros a _ Ha. apply Hs. by rewrite Hbl in Ha.
Qed.

(** Creating an object whose construction has been proved *)
Lemma create_ok i r s o h vals' :
  r = Some (o, h) -> rel h (<[i := o]> (objs s)) vals' ->
  exists s', create i r s = Some (Done, s') /\ rel (hp s') (objs s') vals'.
Proof. intros -> I. unfold create. cbn. eexists. split; [done|]. done. Qed.

Lemma spec_create_some i v vals r vals' :
  spec_create i v vals = Some (r, vals') -> vals !! i = None /\ r = Done /\ vals' = <[i := v]> vals.
Proof. unfold spec_create. destruct (vals !! i); [done|]. by intros [= <- <-]. Qed.

Lemma add_new_style h objs vals i b l r t :
  rel h (<[i := mkObj b NoPart]> objs) (<[i := mkValue l r VNone]> vals) ->
  exists a h2, dup_arg t h = Some (a, h2) /\
    rel h2 (<[i := mkObj b (hasDMA (Some a))]> objs) (<[i := mkValue l r (VHas (cut t))]> vals).
Proof.
  intros I. destruct (dup_arg_spec t h) as (blk & Hb & E). eexists _, _. split; [exact E|]. by apply add_style.
Qed.

Lemma copy_object_ok h objs vals i j o v :
  rel h objs vals -> vals !! i = None -> objs !! j = Some o -> vals !! j = Some v ->
  exists o' h1, copy_object o h = Some (o', h1) /\ rel h1 (<[i := o']> objs) (<[i := v]> vals).
Proof.
  intros I Hi Ho Hv. assert (i <> j) as Hij by congruence.
  destruct (base_copy_ok _ _ _ _ _ _ _ I Hi Ho Hv) as (b & h1 & E & I1).
  assert (repr h1 o v) as [_ _ Hp] by (apply (obj_text _ _ _ j _ _ I1); by rewrite lookup_insert_ne).
  unfold copy_object, has_copy. destruct v as [l r pt]; cbn in *.
  destruct (own o) as [|color|style], pt as [|c|t]; cbn in Hp; try done; rewrite E; cbn [mbind option_bind].
  - eauto.
  - eexists _, _. split; [done|]. by apply add_color.
  - destruct Hp as [Ht _]. destruct (dup_ptr_spec _ _ h1 (stands_ok _ _ _ _ _ I1) Ht) as (blk & Hb & Ed).
    rewrite Ed. cbn. eexists _, _. split; [done|]. by apply add_style.
Qed.

Lemma assign_object_ok h objs vals i j o rs w v :
  rel h objs vals -> objs !! i = Some o -> vals !! i = Some w -> objs !! j = Some rs -> vals !! j = Some v ->
  same_class (v_part w) (v_part v) = true ->
  exists o' h1, assign_object (i =? j)%nat o rs h = Some (o', h1) /\ rel h1 (<[i := o']> objs) (<[i := v]> vals).
Proof.
  intros I Ho Hw Hrs Hv Hcl. pose proof (obj_text _ _ _ _ _ _ I Ho Hw) as [_ _ Hpo].
  pose proof (obj_text _ _ _ _ _ _ I Hrs Hv) as [_ _ Hpr].
  destruct (base_assign_ok _ _ _ _ _ _ _ _ _ I Ho Hw Hrs Hv) as (b & h1 & E & I1).
  unfold assign_object. destruct v as [l r pt] eqn:Ev. cbn [v_lable v_rating v_part] in *.
  destruct (own o) as [|color|style] eqn:Eo, (v_part w) as [|c|t] eqn:Ew; cbn in Hpo; try done;
    destruct (own rs) as [|color'|style'] eqn:Er, pt as [|c'|t']; cbn in Hpr; try done.
  - rewrite E. cbn. eauto.
  - rewrite E. cbn. eexists _, _. split; [done|].
    pose proof (stands_update blocks repr dma_repr_frame h1 h1 _ _ i _ (mkObj b (lacksDMA color')) (mkValue l r (VLacks c'))
      I1 (lookup_insert_eq _ _ _)) as H. rewrite !insert_insert_eq in H. apply H; try done.
    destruct (obj_text _ _ _ i _ _ I1 (lookup_insert_eq _ _ _) (lookup_insert_eq _ _ _)) as [Hr Hl _]. done.
  - destruct (Nat.eqb_spec i j) as [->|Hij].
    { exists o, h. split; [done|]. assert (w = mkValue l r (VHas t')) as <- by congruence. by rewrite !insert_id. }
    unfold has_assign. rewrite E. cbn [mbind option_bind].
    destruct (style_assign_ok h1 _ _ i j b style rs style' (mkValue l r (VHas t')) (mkValue l r (VHas t)) t' t I1)
      as (h2 & a & h3 & E2 & E3 & I3); try done; try apply lookup_insert_eq; try by rewrite lookup_insert_ne.
    rewrite E2. cbn. rewrite E3. cbn. eexists _, _. split; [done|]. by rewrite !insert_insert_eq in I3.
Qed.

Lemma output_ok h o v :
  repr h o v ->
  output o h = Some (v_lable v, v_rating v, match v_part v with VNone => None | VLacks c | VHas c => Some c end).
Proof.
  intros [Hr Hl Hp]. unfold output. rewrite Hl, Hr. cbn [mbind option_bind].
  destruct (own o), (v_part v); cbn in Hp; try done; [by rewrite Hp|]. destruct Hp as [-> _]. done.
Qed.

Lemma rel_obj h objs vals j v : rel h objs vals -> vals !! j = Some v -> exists o, objs !! j = Some o.
Proof. intros I Hv. destruct (stands_lookup _ _ _ _ _ _ _ I Hv) as (o & ? & _). eauto. Qed.

Lemma dma_exec_refines c s vals r vals' :
  rel (hp s) (objs s) vals -> spec c vals = Some (r, vals') ->
  exists s', exec c s = Some (r, s') /\ rel (hp s') (objs s') vals'.
Proof.
  intros I. destruct c as [i l z|i c l z|i c j|i t l z|i t j|i j|i j|i j|i j|i|i]; cbn [spec exec]; intros H;
    try (apply bind_Some in H as (v & Hv & H); destruct (rel_obj _ _ _ _ _ I Hv) as (o & Ho); rewrite Ho;
         cbn [mbind option_bind]);
    try (apply spec_create_some in H as (Hi & -> & ->)).
  - destruct (base_ctor_ok _ _ _ i l z I Hi) as (b & h1 & E & I1). rewrite E. by eapply create_ok.
  - destruct (base_ctor_ok _ _ _ i l z I Hi) as (b & h1 & E & I1). destruct (set_color_ok c) as (color & Ec & Hc).
    eapply create_ok; [unfold lacks_ctor; rewrite E; cbn [mbind option_bind]; by rewrite Ec|]. by apply add_color.
  - destruct (base_copy_ok _ _ _ i j _ _ I Hi Ho Hv) as (b & h1 & E & I1). destruct (set_color_ok c) as (color & Ec & Hc).
    eapply create_ok; [unfold lacks_ctor_base; rewrite E; cbn [mbind option_bind]; by rewrite Ec|]. by apply add_color.
  - destruct (base_ctor_ok _ _ _ i l z I Hi) as (b & h1 & E & I1). destruct (add_new_style _ _ _ _ _ _ _ t I1) as (a & h2 & E2 & I2).
    eapply create_ok; [unfold has_ctor; rewrite E; cbn [mbind option_bind]; by rewrite E2|done].
  - destruct (base_copy_ok _ _ _ i j _ _ I Hi Ho Hv) as (b & h1 & E & I1). destruct (add_new_style _ _ _ _ _ _ _ t I1) as (a & h2 & E2 & I2).
    eapply create_ok; [unfold has_ctor_base; rewrite E; cbn [mbind option_bind]; by rewrite E2|done].
  - destruct (copy_object_ok _ _ _ i j _ _ I Hi Ho Hv) as (o' & h1 & E & I1). by eapply create_ok.
  - destruct (base_copy_ok _ _ _ i j _ _ I Hi Ho Hv) as (b & h1 & E & I1). rewrite E. by eapply create_ok.
  - apply bind_Some in H as (v' & Hv' & H). destruct (same_class (v_part v) (v_part v')) eqn:Hcl; [|done]. injection H as <- <-.
    destruct (rel_obj _ _ _ _ _ I Hv') as (o' & Ho'). rewrite Ho'. cbn [mbind option_bind].
    destruct (assign_object_ok _ _ _ i j _ _ _ _ I Ho Hv Ho' Hv' Hcl) as (o2 & h1 & E & I1). by eapply create_ok.
  - apply bind_Some in H as (v' & Hv' & H). injection H as <- <-.
    destruct (rel_obj _ _ _ _ _ I Hv') as (o' & Ho'). rewrite Ho'. cbn [mbind option_bind].
    destruct (base_assign_ok _ _ _ i j _ _ _ _ I Ho Hv Ho' Hv') as (b & h1 & E & I1). rewrite E. by eapply create_ok.
  - injection H as <- <-. destruct (dma_destroy_ok _ _ _ _ _ _ I Ho Hv) as (h1 & E & I1). rewrite E. cbn. eauto.
  - injection H as <- <-. rewrite (output_ok _ _ _ (obj_text _ _ _ _ _ _ I Ho Hv)). cbn. eauto.
Qed.

Lemma dma_exec_all_refines cs s vals rs vals' :
  rel (hp s) (objs s) vals -> spec_all cs vals = Some (rs, vals') ->
  exists s', exec_all cs s = Some (rs, s') /\ rel (hp s') (objs s') vals'.
Proof.
  revert s vals rs. induction cs as [|c cs IH]; cbn; intros s v rs I H.
  - simplify_eq. by exists s.
  - apply bind_Some in H as ([r v1] & H1 & ([rs' v2] & H2 & H)%bind_Some). simplify_eq.
    destruct (dma_exec_refines _ _ _ _ _ I H1) as (s1 & -> & I1).
    destruct (IH _ _ _ I1 H2) as (s2 & E & I2). cbn. rewrite E. cbn. eauto.
Qed.

(** C10: objects of the three classes are values, whatever their class: every program of
    constructions (also from the base part of any object), copies, slicing copies,
    assignments within a class and through base references, outputs and destructions runs
    without a bad access and without a double free, shows the labels, ratings, colors (cut to
    39 characters) and styles that values would, and leaves nothing allocated. *)
Theorem dma_is_value (cs : list stmt) (rs : list answer) (vals : gmap nat value) :
  spec_all cs ∅ = Some (rs, vals) ->
  exists s, exec_all cs init = Some (rs, s) /\ rel (hp s) (objs s) vals /\ (vals = ∅ -> cells (hp s) = ∅).
Proof.
  intros H. destruct (dma_exec_all_refines cs init ∅ rs vals (stands_empty _ _) H) as (s & E & I).
  exists s. split; [done|]. split; [done|]. intros ->. by destruct (stands_no_leak _ _ _ _ _ I eq_refl).
Qed.

(** [main] of [usedma.cpp], with short texts, and what it leaves out: a style for the base
    part of a [lacksDMA], self-assignment and an assignment through the base class *)
Definition usedma : list stmt :=
  [NewBase 1 [80; 111] 8; NewLacks 2 [114; 101; 100] [66; 108] 4; NewHas 3 [77; 101] [66; 117] 5;
   Output 1; Output 2; Output 3; Copy 4 2; Output 4; NewHas 5 [110] [117] 0; Assign 5 3; Output 5;
   NewHasOf 6 [120] 2; Assign 6 6; AssignBase 6 1; Output 6;
   Destroy 6; Destroy 5; Destroy 4; Destroy 3; Destroy 2; Destroy 1].

Lemma dma_is_value_witness :
  exists s, exec_all usedma init =
      Some ([Done; Done; Done; Shown [80; 111] 8 None; Shown [66; 108] 4 (Some [114; 101; 100]);
             Shown [66; 117] 5 (Some [77; 101]); Done; Shown [66; 108] 4 (Some [114; 101; 100]); Done; Done;
             Shown [66; 117] 5 (Some [77; 101]); Done; Done; Done; Shown [80; 111] 8 (Some [120]);
             Done; Done; Done; Done; Done; Done], s) /\
    rel (hp s) (objs s) ∅ /\ ((∅ : gmap nat value) = ∅ -> cells (hp s) = ∅).
Proof. apply (dma_is_value usedma). vm_compute. reflexivity. Defined.
End Dma.
