(* ===== verification/CountOff.v ===== *)
(** The recharge amounts of [src/other/statistics/countoff.cpp]: which sums of denominations
    use a balance up to the last month, by dynamic programming. *)
From S2P Require Import Prelude.

Module CountOff.
(** The entry of an amount that cannot be made *)
Definition NONE_YET : Z := INT_MAX - 1.

(** [(monthlyConsumption - (currentBalance % monthlyConsumption)) % monthlyConsumption] *)
Definition requiredRemainder (currentBalance monthlyConsumption : Z) : option Z :=
  r ← int_rem currentBalance monthlyConsumption;
  d ← int_sub monthlyConsumption r;
  int_rem d monthlyConsumption.

(** [*max_element(begin, end)], undefined for no element *)
Fixpoint max_element (l : list Z) : option Z :=
  match l with
  | [] => None
  | [x] => Some x
  | x :: l => m ← max_element l; Some (Z.max x m)
  end.

(** [vector<int> dp(maxAmount + 1, INT_MAX - 1); dp[0] = 0;] *)
Definition dp_init (maxAmount : Z) : option (list Z) :=
  n ← int_add maxAmount 1;
  if n <? 0 then None
  else match replicate (Z.to_nat n) NONE_YET with [] => None | _ :: dp => Some (0 :: dp) end.

(** [dp[i]], undefined outside the vector *)
Definition at_ (dp : list Z) (i : Z) : option Z := if i <? 0 then None else dp !! Z.to_nat i.

(** [for (int i = coin; i <= maxAmount; i++)] for one coin, [n] turns *)
Fixpoint coin_loop (n : nat) (coin i : Z) (dp : list Z) : option (list Z) :=
  match n with
  | O => Some dp
  | S n =>
      x ← at_ dp (i - coin);
      if x =? NONE_YET then coin_loop n coin (i + 1) dp
      else
        y ← at_ dp i;
        v ← int_add x 1;
        coin_loop n coin (i + 1) (<[Z.to_nat i := Z.min y v]> dp)
  end.

(** The number of values of [i] from [first] to [last] *)
Definition turns (first last : Z) : nat := Z.to_nat (last - first + 1).

Fixpoint coins_loop (coins : list Z) (maxAmount : Z) (dp : list Z) : option (list Z) :=
  match coins with
  | [] => Some dp
  | coin :: coins =>
      dp' ← coin_loop (turns coin maxAmount) coin coin dp; coins_loop coins maxAmount dp'
  end.

(** The test of an amount *)
Definition valid (dp : list Z) (monthlyConsumption r amount : Z) : option bool :=
  x ← at_ dp amount;
  if x =? NONE_YET then Some false
  else m ← int_rem amount monthlyConsumption; Some (m =? r).

(** The first valid amount, or -1 *)
Fixpoint search_loop (n : nat) (dp : list Z) (monthlyConsumption r amount : Z) : option Z :=
  match n with
  | O => Some (-1)
  | S n =>
      b ← valid dp monthlyConsumption r amount;
      if b : bool then Some amount else search_loop n dp monthlyConsumption r (amount + 1)
  end.

Definition findMinRecharge (currentBalance monthlyConsumption : Z) (denominations : list Z) : option Z :=
  r ← requiredRemainder currentBalance monthlyConsumption;
  m ← max_element denominations;
  maxAmount ← int_mul m 20;
  dp ← dp_init maxAmount;
  dp' ← coins_loop denominations maxAmount dp;
  search_loop (turns 0 maxAmount) dp' monthlyConsumption r 0.

Fixpoint collect_loop (n : nat) (dp : list Z) (monthlyConsumption r amount : Z) : option (list Z) :=
  match n with
  | O => Some []
  | S n =>
      b ← valid dp monthlyConsumption r amount;
      rest ← collect_loop n dp monthlyConsumption r (amount + 1);
      Some (if b : bool then amount :: rest else rest)
  end.

Definition findAllValidRecharges (currentBalance monthlyConsumption : Z) (denominations : list Z)
  : option (list Z) :=
  r ← requiredRemainder currentBalance monthlyConsumption;
  dp ← dp_init 4000;
  dp' ← coins_loop denominations 4000 dp;
  collect_loop (turns 0 4000) dp' monthlyConsumption r 0.

(** ** Sums of coins *)
Definition sum (l : list Z) : Z := foldr Z.add 0 l.

(** [amount] is a sum of [n] of the coins. *)
Definition makes (coins : list Z) (amount : Z) (n : nat) : Prop :=
  exists l, Forall (fun c => c ∈ coins) l /\ sum l = amount /\ length l = n.

(** The entry of [amount]: the least number of coins *)
Definition best (coins : list Z) (amount v : Z) : Prop :=
  (v = NONE_YET /\ forall n, ~ makes coins amount n) \/
  (exists n, v = Z.of_nat n /\ v < NONE_YET /\ makes coins amount n /\
     forall n', makes coins amount n' -> (n <= n')%nat).

Definition positive (coins : list Z) : Prop := Forall (fun c => 0 < c) coins.

#[export] Instance sum_proper : Proper ((≡ₚ) ==> (=)) sum.
Proof. intros l l'. unfold sum. induction 1; cbn; lia. Qed.

(** Coins of at least one make at least their number. *)
Lemma makes_bound coins a n : positive coins -> makes coins a n -> Z.of_nat n <= a.
Proof.
  intros Hp (l & Hl & <- & <-). induction Hl as [|c l Hc _ IH]; cbn; [lia|].
  unfold positive in Hp. rewrite Forall_forall in Hp. specialize (Hp c Hc). unfold sum in *. lia.
Qed.

Lemma makes_nil a n : makes [] a n <-> a = 0 /\ n = 0%nat.
Proof.
  split.
  - intros ([|c l] & Hl & <- & <-); [done|]. inversion Hl as [|? ? Hc]; subst. by apply not_elem_of_nil in Hc.
  - intros [-> ->]. exists []. split; [constructor|done].
Qed.

(** With one more coin: it is used or not. *)
Lemma makes_snoc coins c a n :
  makes (coins ++ [c]) a n <-> makes coins a n \/ exists m, n = S m /\ makes (coins ++ [c]) (a - c) m.
Proof.
  split.
  - intros (l & Hl & <- & <-). destruct (decide (c ∈ l)) as [Hc|Hc].
    + right. apply elem_of_Permutation in Hc as [l' Hp]. exists (length l'). rewrite Hp.
      split; [done|]. exists l'. rewrite Hp in Hl.
      inversion Hl; subst. split; [done|]. cbn. unfold sum. split; [lia|done].
    + left. exists l. split; [|done]. rewrite Forall_forall in Hl |- *. intros x Hx.
      specialize (Hl x Hx). apply elem_of_app in Hl as [?|Hxc]; [done|].
      apply list_elem_of_singleton in Hxc. congruence.
  - intros [(l & Hl & Hs & Hn)|(m & -> & l & Hl & Hs & Hn)].
    + exists l. split; [|done]. eapply Forall_impl; [exact Hl|]. intros x Hx. apply elem_of_app. by left.
    + exists (c :: l). split; [constructor; [|done]|].
      * apply elem_of_app. right. by apply list_elem_of_singleton.
      * cbn. unfold sum in *. split; [lia|]. by f_equal.
Qed.

Lemma makes_small coins c a n :
  positive (coins ++ [c]) -> a < c -> makes (coins ++ [c]) a n <-> makes coins a n.
Proof.
  intros Hp Ha. rewrite makes_snoc. split; [|by left]. intros [?|(m & -> & Hm)]; [done|].
  apply makes_bound in Hm; [lia|done].
Qed.

Lemma best_iff coins coins' a v :
  (forall n, makes coins a n <-> makes coins' a n) -> best coins a v -> best coins' a v.
Proof. unfold best. intros H. setoid_rewrite H. done. Qed.

(** The step of the dynamic program *)
Lemma best_step coins c a x y :
  positive (coins ++ [c]) -> a < NONE_YET ->
  best coins a y -> best (coins ++ [c]) (a - c) x ->
  best (coins ++ [c]) a (if x =? NONE_YET then y else Z.min y (x + 1)).
Proof.
  intros Hp Ha Hy Hx. destruct Hx as [[-> Hno]|(m & -> & Hlt & Hm & Hmin)].
  - rewrite Z.eqb_refl. eapply best_iff; [|exact Hy]. intros n. rewrite makes_snoc.
    split; [by left|]. intros [?|(m & -> & Hm)]; [done|]. by destruct (Hno m).
  - rewrite (proj2 (Z.eqb_neq _ _)) by lia.
    assert (makes (coins ++ [c]) a (S m)) as Hs by (apply makes_snoc; eauto).
    pose proof (makes_bound _ _ _ Hp Hs). right.
    destruct Hy as [[-> Hno]|(k & -> & Hk & Hmk & Hkmin)].
    + exists (S m). split_and!; [lia|lia|done|]. intros n' [Hn|(m' & -> & Hm')]%makes_snoc; [by destruct (Hno n')|].
      specialize (Hmin _ Hm'). lia.
    + exists (Nat.min k (S m)). split_and!; [lia|lia| |].
      * destruct (Nat.min_spec k (S m)) as [[_ ->]|[_ ->]]; [|done]. apply makes_snoc. by left.
      * intros n' [Hn|(m' & -> & Hm')]%makes_snoc; [specialize (Hkmin _ Hn); lia|].
        specialize (Hmin _ Hm'). lia.
Qed.

(** ** The table *)

(** The entries before [i] are for [coins ++ [c]], the others for [coins]. *)
Definition table (coins : list Z) (c i maxAmount : Z) (dp : list Z) : Prop :=
  Z.of_nat (length dp) = maxAmount + 1 /\
  forall a, 0 <= a <= maxAmount -> exists v, at_ dp a = Some v /\
    best (if a <? i then coins ++ [c] else coins) a v.

Lemma at_insert dp i a v :
  0 <= i < Z.of_nat (length dp) -> 0 <= a ->
  at_ (<[Z.to_nat i := v]> dp) a = if a =? i then Some v else at_ dp a.
Proof.
  intros Hi Ha. unfold at_. rewrite (proj2 (Z.ltb_ge _ _)) by lia.
  destruct (Z.eqb_spec a i) as [->|Hne]; [apply list_lookup_insert_eq; lia|].
  apply list_lookup_insert_ne. lia.
Qed.

Lemma coin_loop_ok n coins c i maxAmount dp :
  positive (coins ++ [c]) -> maxAmount < NONE_YET -> c <= i -> i + Z.of_nat n = maxAmount + 1 ->
  table coins c i maxAmount dp ->
  exists dp', coin_loop n c i dp = Some dp' /\ table coins c (maxAmount + 1) maxAmount dp'.
Proof.
  intros Hp Hmax. revert i dp. induction n as [|n IH]; intros i dp Hci Hn [Hlen T]; cbn [coin_loop].
  { exists dp. replace (maxAmount + 1) with i by lia. done. }
  assert (0 < c) as Hc by (apply Forall_app in Hp as [_ Hp]; by inversion Hp).
  destruct (T (i - c) ltac:(lia)) as (x & Ex & Bx). rewrite (proj2 (Z.ltb_lt _ _)) in Bx by lia.
  destruct (T i ltac:(lia)) as (y & Ey & By). rewrite Z.ltb_irrefl in By.
  rewrite Ex, Ey. cbn [mbind option_bind]. pose proof (best_step coins c i x y Hp ltac:(lia) By Bx) as B.
  destruct (Z.eqb_spec x NONE_YET) as [->|Hx].
  - apply IH; [lia|lia|]. split; [done|]. intros a Ha. destruct (decide (a = i)) as [->|].
    + exists y. by rewrite (proj2 (Z.ltb_lt _ _)) by lia.
    + destruct (T a Ha) as (v & Ev & Bv). exists v. split; [done|].
      destruct (Z.ltb_spec a i), (Z.ltb_spec a (i + 1)); done || lia.
  - assert (0 <= x < NONE_YET) as Hxr by (destruct Bx as [[? _]|(m & -> & ? & _)]; lia).
    unfold int_add. rewrite chk_int_ok by (unfold NONE_YET, INT_MIN in *; lia). cbn [mbind option_bind].
    apply IH; [lia|lia|]. split; [by rewrite length_insert|]. intros a Ha. rewrite at_insert by lia.
    destruct (Z.eqb_spec a i) as [->|].
    + eexists. split; [done|]. by rewrite (proj2 (Z.ltb_lt _ _)) by lia.
    + destruct (T a Ha) as (v & Ev & Bv). exists v. split; [done|].
      destruct (Z.ltb_spec a i), (Z.ltb_spec a (i + 1)); done || lia.
Qed.

Definition full_table (coins : list Z) (maxAmount : Z) (dp : list Z) : Prop :=
  Z.of_nat (length dp) = maxAmount + 1 /\
  forall a, 0 <= a <= maxAmount -> exists v, at_ dp a = Some v /\ best coins a v.

Lemma one_coin coins c maxAmount dp :
  positive (coins ++ [c]) -> 0 <= maxAmount < NONE_YET -> full_table coins maxAmount dp ->
  exists dp', coin_loop (turns c maxAmount) c c dp = Some dp' /\ full_table (coins ++ [c]) maxAmount dp'.
Proof.
  intros Hp Hmax [Hlen T]. assert (0 < c) as Hc by (apply Forall_app in Hp as [_ Hp]; by inversion Hp).
  assert (table coins c c maxAmount dp) as T0.
  { split; [done|]. intros a Ha. destruct (T a Ha) as (v & Ev & Bv). exists v. split; [done|].
    destruct (Z.ltb_spec a c); [|done]. eapply best_iff; [|exact Bv]. intros n. symmetry. by apply makes_small. }
  destruct (decide (c <= maxAmount + 1)) as [Hle|Hgt].
  - destruct (coin_loop_ok (turns c maxAmount) coins c c maxAmount dp) as (dp' & E & T'); try done; try lia.
    { unfold turns. lia. }
    exists dp'. split; [done|]. destruct T' as [Hlen' T']. split; [done|]. intros a Ha.
    destruct (T' a Ha) as (v & Ev & Bv). rewrite (proj2 (Z.ltb_lt _ _)) in Bv by lia. eauto.
  - unfold turns. replace (Z.to_nat (maxAmount - c + 1)) with 0%nat by lia. exists dp. split; [done|].
    split; [done|]. intros a Ha. destruct (proj2 T0 a Ha) as (v & Ev & Bv).
    rewrite (proj2 (Z.ltb_lt _ _)) in Bv by lia. eauto.
Qed.

Lemma coins_loop_ok coins done_ maxAmount dp :
  positive (done_ ++ coins) -> 0 <= maxAmount < NONE_YET -> full_table done_ maxAmount dp ->
  exists dp', coins_loop coins maxAmount dp = Some dp' /\ full_table (done_ ++ coins) maxAmount dp'.
Proof.
  revert done_ dp. induction coins as [|c coins IH]; intros done_ dp Hp Hmax T; cbn [coins_loop].
  { exists dp. by rewrite app_nil_r. }
  replace (done_ ++ c :: coins) with ((done_ ++ [c]) ++ coins) in * by (by rewrite <- (assoc (++))).
  destruct (one_coin done_ c maxAmount dp) as (dp1 & -> & T1); [by apply Forall_app in Hp as [? _]|done|done|].
  cbn [mbind option_bind]. by apply IH.
Qed.

Lemma dp_init_ok maxAmount :
  0 <= maxAmount < NONE_YET -> exists dp, dp_init maxAmount = Some dp /\ full_table [] maxAmount dp.
Proof.
  intros Hm. unfold dp_init, int_add. rewrite chk_int_ok by (unfold NONE_YET, INT_MIN, INT_MAX in *; lia).
  cbn [mbind option_bind]. rewrite (proj2 (Z.ltb_ge _ _)) by lia.
  replace (Z.to_nat (maxAmount + 1)) with (S (Z.to_nat maxAmount)) by lia. cbn [replicate].
  eexists. split; [done|]. split; [cbn; rewrite length_replicate; lia|].
  intros a Ha. unfold at_. rewrite (proj2 (Z.ltb_ge _ _)) by lia.
  destruct (decide (a = 0)) as [->|Hne].
  - exists 0. split; [done|]. right. exists 0%nat. split_and!; [done|unfold NONE_YET, INT_MAX; lia| |lia].
    by apply makes_nil.
  - exists NONE_YET. replace (Z.to_nat a) with (S (Z.to_nat (a - 1))) by lia. cbn [lookup list_lookup].
    split; [apply lookup_replicate_2; lia|]. left. split; [done|]. intros n [??]%makes_nil. done.
Qed.

(** The whole table of a list of denominations *)
Lemma dp_ok coins maxAmount :
  positive coins -> 0 <= maxAmount < NONE_YET ->
  exists dp dp', dp_init maxAmount = Some dp /\ coins_loop coins maxAmount dp = Some dp' /\
    full_table coins maxAmount dp'.
Proof.
  intros Hp Hm. destruct (dp_init_ok maxAmount Hm) as (dp & E & T).
  destruct (coins_loop_ok coins [] maxAmount dp Hp Hm T) as (dp' & E' & T'). eauto 10.
Qed.

(** ** The search *)

(** [amount] is a sum of coins that brings the balance to whole months. *)
Definition good (balance monthly : Z) (coins : list Z) (amount : Z) : Prop :=
  (exists n, makes coins amount n) /\ (balance + amount) `mod` monthly = 0.

Lemma rem_nonneg x m : 0 <= x <= INT_MAX -> 0 < m -> int_rem x m = Some (x `mod` m).
Proof.
  intros Hx Hm. unfold int_rem. rewrite (proj2 (Z.eqb_neq _ _)) by lia.
  rewrite Z.quot_div_nonneg by lia. pose proof (Z.div_pos x m). pose proof (Z.div_le_upper_bound x m x).
  assert (is_int (x / m) = true) as -> by (apply is_int_spec; unfold INT_MIN; nia).
  by rewrite Z.rem_mod_nonneg by lia.
Qed.

Lemma rem_int x m : INT_MIN <= x <= INT_MAX -> 0 < m -> int_rem x m = Some (Z.rem x m).
Proof.
  intros Hx Hm. unfold int_rem. rewrite (proj2 (Z.eqb_neq _ _)) by lia.
  assert (forall y, 0 <= y -> 0 <= Z.quot y m <= y) as Hy.
  { intros y Hy. rewrite Z.quot_div_nonneg by lia. split; [by apply Z.div_pos|].
    apply Z.div_le_upper_bound; nia. }
  assert (INT_MIN <= Z.quot x m <= INT_MAX) as Hq.
  { destruct (Z.le_ge_cases 0 x) as [H|H]; [specialize (Hy x H); unfold INT_MIN in *; lia|].
    specialize (Hy (- x) ltac:(lia)). rewrite Z.quot_opp_l in Hy by lia. unfold INT_MAX in *. lia. }
  apply is_int_spec in Hq as ->. done.
Qed.

Lemma requiredRemainder_ok balance monthly :
  INT_MIN <= balance <= INT_MAX -> 0 < monthly -> 2 * monthly <= INT_MAX ->
  requiredRemainder balance monthly = Some ((- balance) `mod` monthly).
Proof.
  intros Hb Hm Hm2. unfold requiredRemainder. rewrite rem_int by lia. cbn [mbind option_bind].
  pose proof (Z.rem_bound_abs balance monthly ltac:(lia)). unfold int_sub.
  rewrite chk_int_ok by (unfold INT_MIN, INT_MAX in *; lia). cbn [mbind option_bind].
  rewrite rem_nonneg by lia. f_equal.
  rewrite (Z.quot_rem' balance monthly) at 2.
  replace (- (monthly * (balance ÷ monthly) + Z.rem balance monthly))
    with (monthly - Z.rem balance monthly + (- (balance ÷ monthly) - 1) * monthly) by lia.
  by rewrite Z.mod_add by lia.
Qed.

Lemma congruent balance monthly a :
  0 < monthly -> a `mod` monthly = (- balance) `mod` monthly <-> (balance + a) `mod` monthly = 0.
Proof.
  intros Hm. split; intros H.
  - rewrite <- Zplus_mod_idemp_r, H, Zplus_mod_idemp_r, Z.add_opp_diag_r. apply Z.mod_0_l. lia.
  - apply Z.mod_divide in H as [k Hk]; [|lia]. replace a with (- balance + k * monthly) by lia.
    by rewrite Z.mod_add by lia.
Qed.

Lemma valid_ok coins maxAmount dp balance monthly a :
  full_table coins maxAmount dp -> maxAmount <= INT_MAX -> 0 < monthly -> 0 <= a <= maxAmount ->
  exists b, valid dp monthly ((- balance) `mod` monthly) a = Some b /\
    (b = true <-> good balance monthly coins a).
Proof.
  intros [_ T] Hmax Hm Ha. destruct (T a Ha) as (v & Ev & Bv). unfold valid, good. rewrite Ev. cbn [mbind option_bind].
  destruct Bv as [[-> Hno]|(n & -> & Hlt & Hn & _)].
  - rewrite Z.eqb_refl. exists false. split; [done|]. split; [done|]. intros [[n Hn] _]. by destruct (Hno n).
  - rewrite (proj2 (Z.eqb_neq _ _)) by lia. rewrite rem_nonneg by lia. cbn [mbind option_bind].
    eexists. split; [done|]. rewrite Z.eqb_eq, congruent by done. split; [eauto|by intros [_ ?]].
Qed.

Lemma search_loop_ok n coins maxAmount dp balance monthly a :
  full_table coins maxAmount dp -> maxAmount <= INT_MAX -> 0 < monthly -> 0 <= a -> a + Z.of_nat n = maxAmount + 1 ->
  exists r, search_loop n dp monthly ((- balance) `mod` monthly) a = Some r /\
    ((r = -1 /\ forall x, a <= x <= maxAmount -> ~ good balance monthly coins x) \/
     (a <= r <= maxAmount /\ good balance monthly coins r /\ forall x, a <= x < r -> ~ good balance monthly coins x)).
Proof.
  intros T Hmax Hm. revert a. induction n as [|n IH]; intros a Ha Hn; cbn [search_loop].
  { exists (-1). split; [done|]. left. split; [done|]. lia. }
  destruct (valid_ok coins maxAmount dp balance monthly a T Hmax Hm ltac:(lia)) as (b & -> & Hb).
  cbn [mbind option_bind]. destruct b.
  - exists a. split; [done|]. right. split; [lia|]. split; [by apply Hb|]. lia.
  - assert (~ good balance monthly coins a) as Hna by (rewrite <- Hb; done).
    destruct (IH (a + 1) ltac:(lia) ltac:(lia)) as (r & -> & Hr). exists r. split; [done|].
    destruct Hr as [[-> Hr]|(Hr1 & Hr2 & Hr3)]; [left|right; split; [lia|]]; (split; [done|]);
      intros x Hx; (destruct (decide (x = a)) as [->|]; [done|]); (apply Hr || apply Hr3); lia.
Qed.

Lemma collect_loop_ok n coins maxAmount dp balance monthly a :
  full_table coins maxAmount dp -> maxAmount <= INT_MAX -> 0 < monthly -> 0 <= a -> a + Z.of_nat n = maxAmount + 1 ->
  exists l, collect_loop n dp monthly ((- balance) `mod` monthly) a = Some l /\
    StronglySorted Z.lt l /\ forall x, x ∈ l <-> a <= x <= maxAmount /\ good balance monthly coins x.
Proof.
  intros T Hmax Hm. revert a. induction n as [|n IH]; intros a Ha Hn; cbn [collect_loop].
  { exists []. split_and!; [done|constructor|]. intros x. rewrite elem_of_nil. split; [done|]. lia. }
  destruct (valid_ok coins maxAmount dp balance monthly a T Hmax Hm ltac:(lia)) as (b & -> & Hb).
  destruct (IH (a + 1) ltac:(lia) ltac:(lia)) as (l & -> & Hs & Hl). cbn [mbind option_bind].
  exists (if b then a :: l else l). split; [done|]. destruct b.
  - split; [constructor; [done|]|].
    + apply Forall_forall. intros x [Hx _]%Hl. lia.
    + intros x. rewrite elem_of_cons, Hl. split.
      * intros [->|[Hx Hg]]; [split; [lia|by apply Hb]|split; [lia|done]].
      * intros [Hx Hg]. destruct (decide (x = a)) as [->|]; [by left|right; split; [lia|done]].
  - split; [done|]. intros x. rewrite Hl. split; intros [Hx Hg]; (split; [|done]); [lia|].
    destruct (decide (x = a)) as [->|]; [|lia]. by apply Hb in Hg.
Qed.

Lemma max_element_ok l :
  l <> [] -> exists m, max_element l = Some m /\ m ∈ l /\ Forall (fun x => x <= m) l.
Proof.
  induction l as [|x l IH]; intros Hne; [done|]. destruct l as [|y l].
  - exists x. split_and!; [done|set_solver|]. repeat constructor. lia.
  - destruct IH as (m & E & Hin & Hall); [done|]. exists (Z.max x m).
    change (max_element (x :: y :: l)) with (m ← max_element (y :: l); Some (Z.max x m)). rewrite E.
    split_and!; [done| |].
    + destruct (Z.max_spec x m) as [[_ ->]|[_ ->]]; [by apply elem_of_cons; right|by apply elem_of_cons; left].
    + constructor; [lia|]. eapply Forall_impl; [exact Hall|]. cbn. lia.
Qed.

Definition limits (balance monthly : Z) (coins : list Z) : Prop :=
  INT_MIN <= balance <= INT_MAX /\ 0 < monthly /\ 2 * monthly <= INT_MAX /\ positive coins.

(** C15: [findMinRecharge] finds the least recharge: for an [int] balance, a positive monthly cost
    of at most half of [INT_MAX] and at least one denomination, all of them positive and at most a
    twentieth of [INT_MAX], it runs without overflow and without an access outside its table, and
    returns the least amount, up to twenty times the largest denomination, that is
    a sum of denominations and makes the balance a multiple of the monthly cost; it returns -1
    exactly when there is no such amount up to that limit. *)
Theorem findMinRecharge_spec (balance monthly : Z) (coins : list Z) :
  limits balance monthly coins -> coins <> [] -> Forall (fun c => 20 * c <= INT_MAX) coins ->
  exists r m, findMinRecharge balance monthly coins = Some r /\ max_element coins = Some m /\
    ((r = -1 /\ forall x, 0 <= x <= 20 * m -> ~ good balance monthly coins x) \/
     (0 <= r <= 20 * m /\ good balance monthly coins r /\
      forall x, 0 <= x < r -> ~ good balance monthly coins x)).
Proof.
  intros (Hb & Hm & Hm2 & Hp) Hne Hlim. destruct (max_element_ok coins Hne) as (m & Em & Hin & _).
  unfold positive in Hp. rewrite Forall_forall in Hp, Hlim. specialize (Hlim m Hin). pose proof (Hp m Hin) as Hmp.
  unfold findMinRecharge. rewrite requiredRemainder_ok, Em by done. cbn [mbind option_bind].
  unfold int_mul. rewrite chk_int_ok by (unfold INT_MIN in *; lia). cbn [mbind option_bind].
  destruct (dp_ok coins (m * 20)) as (dp & dp' & -> & E & T);
    [by apply Forall_forall|unfold NONE_YET, INT_MAX in *; lia|]. cbn [mbind option_bind]. rewrite E. cbn [mbind option_bind].
  destruct (search_loop_ok (turns 0 (m * 20)) coins (m * 20) dp' balance monthly 0 T) as (r & Er & Hr);
    [lia|done|lia|unfold turns; lia|].
  exists r, m. split; [done|]. split; [done|]. by replace (20 * m) with (m * 20) by lia.
Qed.

Lemma findMinRecharge_spec_witness :
  limits 2 19 [20; 50; 100; 200] /\
  findMinRecharge 2 19 [20; 50; 100; 200] = Some 150 /\
  exists r m, findMinRecharge 2 19 [20; 50; 100; 200] = Some r /\ max_element [20; 50; 100; 200] = Some m /\
    ((r = -1 /\ forall x, 0 <= x <= 20 * m -> ~ good 2 19 [20; 50; 100; 200] x) \/
     (0 <= r <= 20 * m /\ good 2 19 [20; 50; 100; 200] r /\
      forall x, 0 <= x < r -> ~ good 2 19 [20; 50; 100; 200] x)).
Proof.
  assert (limits 2 19 [20; 50; 100; 200]) as H.
  { unfold limits, positive, INT_MIN, INT_MAX. split_and!; try lia. repeat constructor. }
  split; [exact H|]. split; [vm_compute; reflexivity|]. apply (findMinRecharge_spec 2 19 [20; 50; 100; 200]);
    [exact H|discriminate|]. unfold INT_MAX. repeat constructor; lia.
Defined.

(** [findAllValidRecharges] lists, in increasing order, exactly the amounts up to 4000 that
    are sums of denominations and make the balance a multiple of the monthly cost. *)
Theorem findAllValidRecharges_spec (balance monthly : Z) (coins : list Z) :
  limits balance monthly coins ->
  exists l, findAllValidRecharges balance monthly coins = Some l /\ StronglySorted Z.lt l /\
    forall x, x ∈ l <-> 0 <= x <= 4000 /\ good balance monthly coins x.
Proof.
  intros (Hb & Hm & Hm2 & Hp). unfold findAllValidRecharges. rewrite requiredRemainder_ok by done.
  destruct (dp_ok coins 4000 Hp) as (dp & dp' & E0 & E & T); [unfold NONE_YET, INT_MAX; lia|].
  cbn [mbind option_bind]. rewrite E0. cbn [mbind option_bind]. rewrite E. cbn [mbind option_bind].
  apply (collect_loop_ok (turns 0 4000) coins 4000 dp' balance monthly 0 T); try done; unfold turns, INT_MAX; lia.
Qed.

Lemma findAllValidRecharges_spec_witness :
  limits 2 19 [20; 50; 100; 200] /\
  exists l, findAllValidRecharges 2 19 [20; 50; 100; 200] = Some l /\ StronglySorted Z.lt l /\
    forall x, x ∈ l <-> 0 <= x <= 4000 /\ good 2 19 [20; 50; 100; 200] x.
Proof.
  assert (limits 2 19 [20; 50; 100; 200]) as H.
  { unfold limits, positive, INT_MIN, INT_MAX. split_and!; try lia. repeat constructor. }
  split; [exact H|]. apply (findAllValidRecharges_spec 2 19 [20; 50; 100; 200]). exact H.
Defined.

(** The limit matters: 100 would do for a balance of 1, but the search stops at 40. *)
Example limit_too_small : findMinRecharge 1 101 [2] = Some (-1).
Proof. vm_compute. reflexivity. Qed.

Example limit_good : good 1 101 [2] 100.
Proof.
  split; [|done]. exists 50%nat, (replicate 50 2). split; [|done].
  apply Forall_replicate. set_solver.
Qed.
End CountOff.
