(* ===== verification/JTList.v ===== *)
(** The linked list and its iterator of [src/design_mode/iterator/iterator.cc]. *)
From S2P Require Import Prelude Heap.

Module JTList.
Record Node := mkNode { value : Z; pNext : ptr }.

Record JTList := mkList { m_pHead : ptr; m_pTail : ptr; m_lCount : Z }.

(** The list and the heap with its nodes *)
Definition state : Type := JTList * heap Node.

Definition LONG_MAX : Z := 2 ^ 63 - 1.

(** [long] arithmetic; overflow is undefined. *)
Definition long_add (x y : Z) : option Z :=
  if (- 2 ^ 63 <=? x + y) && (x + y <=? LONG_MAX) then Some (x + y) else None.

(** The constructor leaves [m_lCount] as it is: whatever value [junk] is there. *)
Definition ctor (junk : Z) : state := (mkList None None junk, empty_heap).

Definition GetCount (s : state) : Z := m_lCount s.1.

(** The loop of [Get]: the node at [index], from node [p] at position [iPosTemp], an [int] that each
    comparison increments *)
Fixpoint Get_loop (fuel : nat) (index iPosTemp : Z) (p : ptr) (h : heap Node) : option ptr :=
  match fuel with
  | O => None
  | S fuel =>
      match p with
      | None => Some None
      | Some _ =>
          iPosTemp1 ← int_add iPosTemp 1;
          if index =? iPosTemp then Some p
          else n ← load p 0 h; Get_loop fuel index iPosTemp1 (pNext n) h
      end
  end.

Definition Get (fuel : nat) (index : Z) (s : state) : option ptr :=
  last ← long_add (m_lCount s.1) (-1);
  if (last <? index) || (index <? 0) then Some None
  else Get_loop fuel index 0 (m_pHead s.1) s.2.

Definition First (s : state) : ptr := m_pHead s.1.
Definition Last (s : state) : ptr := m_pTail s.1.

Fixpoint Includes_loop (fuel : nat) (v : Z) (p : ptr) (h : heap Node) : option bool :=
  match fuel with
  | O => None
  | S fuel =>
      match p with
      | None => Some false
      | Some _ => n ← load p 0 h; if v =? value n then Some true else Includes_loop fuel v (pNext n) h
      end
  end.

Definition Includes (fuel : nat) (v : Z) (s : state) : option bool := Includes_loop fuel v (m_pHead s.1) s.2.

Definition Append (v : Z) (s : state) : option state :=
  let '(l, h) := s in
  let '(a, h1) := alloc [mkNode v None] h in
  match m_pHead l with
  | None => c ← long_add (m_lCount l) 1; Some (mkList (Some a) (Some a) c, h1)
  | Some _ =>
      last ← load (m_pTail l) 0 h1;
      h2 ← store (m_pTail l) 0 (mkNode (value last) (Some a)) h1;
      c ← long_add (m_lCount l) 1;
      Some (mkList (m_pHead l) (Some a) c, h2)
  end.

(** The loop of [Remove]: the previous node when [pNode] is found or the list has ended *)
Fixpoint find_previous (fuel : nat) (pPrevious pCurrent pNode : ptr) (h : heap Node) : option ptr :=
  match fuel with
  | O => None
  | S fuel =>
      match pCurrent with
      | None => Some pPrevious
      | Some _ =>
          n ← load pCurrent 0 h;
          if bool_decide (pNext n = pNode) then Some pCurrent
          else find_previous fuel pCurrent (pNext n) pNode h
      end
  end.

Definition Remove (fuel : nat) (pNode : ptr) (s : state) : option state :=
  let '(l, h) := s in
  match pNode, m_pHead l, m_pTail l with
  | None, _, _ | _, None, _ | _, _, None => Some s
  | _, _, _ =>
      l1h1 ← (if bool_decide (pNode = m_pHead l) then
                n ← load (m_pHead l) 0 h; Some (mkList (pNext n) (m_pTail l) (m_lCount l), h)
              else
                pPrevious ← find_previous fuel None (m_pHead l) pNode h;
                n ← load pNode 0 h;
                prev ← load pPrevious 0 h;
                h1 ← store pPrevious 0 (mkNode (value prev) (pNext n)) h;
                Some (mkList (m_pHead l) (match pNext n with None => pPrevious | _ => m_pTail l end) (m_lCount l), h1));
      let '(l1, h1) := l1h1 : JTList * heap Node in
      h2 ← free pNode h1;
      c ← long_add (m_lCount l1) (-1);
      Some (mkList (m_pHead l1) (m_pTail l1) c, h2)
  end.

Fixpoint dtor_loop (fuel : nat) (p : ptr) (h : heap Node) : option (heap Node) :=
  match fuel with
  | O => None
  | S fuel =>
      match p with
      | None => Some h
      | Some _ => n ← load p 0 h; h1 ← free p h; dtor_loop fuel (pNext n) h1
      end
  end.

(** [~JTList()]; [RemoveAll()] is [delete this], which leaves no list. *)
Definition dtor (fuel : nat) (s : state) : option (heap Node) := dtor_loop fuel (m_pHead s.1) s.2.

(** ** The iterator: [m_pCurrent] *)
Definition Iterator_First (s : state) : ptr := First s.
Definition Iterator_Next (p : ptr) (s : state) : option ptr := n ← load p 0 s.2; Some (pNext n).
Definition Iterator_IsDone (p : ptr) (s : state) : option bool :=
  n ← load (Last s) 0 s.2; Some (bool_decide (p = pNext n)).

(** [for (First(); !IsDone(); Next()) cout << CurrentItem()->value]: the values *)
Fixpoint iterate_loop (fuel : nat) (p : ptr) (s : state) : option (list Z) :=
  match fuel with
  | O => None
  | S fuel =>
      b ← Iterator_IsDone p s;
      if b : bool then Some []
      else n ← load p 0 s.2; q ← Iterator_Next p s; rest ← iterate_loop fuel q s; Some (value n :: rest)
  end.

Definition iterate (fuel : nat) (s : state) : option (list Z) := iterate_loop fuel (Iterator_First s) s.

(** The loop of [main] that removes the first node with a value; [n0] is fuel for [Remove]. *)
Fixpoint remove_loop (fuel : nat) (n0 : nat) (v : Z) (p : ptr) (s : state) : option state :=
  match fuel with
  | O => None
  | S fuel =>
      b ← Iterator_IsDone p s;
      if b : bool then Some s
      else
        n ← load p 0 s.2;
        if value n =? v then Remove n0 p s
        else q ← Iterator_Next p s; remove_loop fuel n0 v q s
  end.

Definition remove_value (fuel : nat) (v : Z) (s : state) : option state :=
  remove_loop fuel fuel v (Iterator_First s) s.

(** ** Programs *)
Inductive op :=
| OAppend (v : Z) | ORemove (v : Z) | OIncludes (v : Z) | OIterate | OGet (index : Z) | OCount.

Inductive result := Done | Bool (b : bool) | Values (l : list Z) | Item (x : option Z) | Count (n : Z).

(** [Get(index)->value], for the node there is *)
Definition get_value (fuel : nat) (index : Z) (s : state) : option (option Z) :=
  p ← Get fuel index s;
  match p with None => Some None | Some _ => n ← load p 0 s.2; Some (Some (value n)) end.

Definition exec (fuel : nat) (o : op) (s : state) : option (result * state) :=
  match o with
  | OAppend v => s' ← Append v s; Some (Done, s')
  | ORemove v => s' ← remove_value fuel v s; Some (Done, s')
  | OIncludes v => b ← Includes fuel v s; Some (Bool b, s)
  | OIterate => l ← iterate fuel s; Some (Values l, s)
  | OGet i => x ← get_value fuel i s; Some (Item x, s)
  | OCount => Some (Count (GetCount s), s)
  end.

Fixpoint exec_all (fuel : nat) (os : list op) (s : state) : option (list result * state) :=
  match os with
  | [] => Some ([], s)
  | o :: os => '(r, s1) ← exec fuel o s; '(rs, s2) ← exec_all fuel os s1; Some (r :: rs, s2)
  end.

(** [main] *)
Definition main_ops : list op :=
  [OAppend 10; OAppend 20; OAppend 30; OAppend 40; OAppend 50; OAppend 60; OAppend 70; OAppend 80;
   OAppend 90; OAppend 100; OIterate; ORemove 100; OIterate].

(** ** The list as values; [None] where the program is undefined *)
Fixpoint remove_first (v : Z) (l : list Z) : list Z :=
  match l with [] => [] | x :: l => if x =? v then l else x :: remove_first v l end.

Section Spec.
Context (junk : Z).

Definition count_of (l : list Z) : Z := junk + Z.of_nat (length l).

(** The nodes that [Get] looks at; it counts them in an [int]. *)
Definition walked {A} (i : Z) (l : list A) : Z := Z.min (i + 1) (Z.of_nat (length l)).

Definition spec (o : op) (l : list Z) : option (result * list Z) :=
  match o with
  | OAppend v => if count_of l <? LONG_MAX then Some (Done, l ++ [v]) else None
  | ORemove v => match l with [] => None | _ => Some (Done, remove_first v l) end
  | OIncludes v => Some (Bool (bool_decide (v ∈ l)), l)
  | OIterate => match l with [] => None | _ => Some (Values l, l) end
  | OGet i =>
      if - 2 ^ 63 <? count_of l then
        if (count_of l - 1 <? i) || (i <? 0) then Some (Item None, l)
        else if walked i l <=? INT_MAX then Some (Item (l !! Z.to_nat i), l) else None
      else None
  | OCount => Some (Count (count_of l), l)
  end.

Fixpoint spec_all (os : list op) (l : list Z) : option (list result * list Z) :=
  match os with
  | [] => Some ([], l)
  | o :: os => '(r, l1) ← spec o l; '(rs, l2) ← spec_all os l1; Some (r :: rs, l2)
  end.
End Spec.

(** ** The representation *)
Abbreviation chain := (Heap.chain mkNode).
Abbreviation seg := (Heap.seg mkNode).

(** [l]: the addresses of the nodes and their values. The tail of an empty list is null or
    dangles. *)
Record repr (junk : Z) (s : state) (l : list (nat * Z)) : Prop := {
  jr_count : m_lCount s.1 = junk + Z.of_nat (length l);
  jr_junk : - 2 ^ 63 <= junk;
  jr_chain : chain s.2 (m_pHead s.1) l;
  jr_tail : forall a x, last l = Some (a, x) -> m_pTail s.1 = Some a;
  jr_nodup : NoDup l.*1;
  jr_heap : heap_ok s.2;
  jr_dom : forall a, a ∈ dom (cells s.2) <-> a ∈ l.*1;
}.

Lemma load_cell {A} a (n : A) h : cells h !! a = Some [n] -> load (Some a) 0 h = Some n.
Proof. intros H. unfold load. cbn. by rewrite H. Qed.

Lemma long_add_ok x y : - 2 ^ 63 <= x + y <= LONG_MAX -> long_add x y = Some (x + y).
Proof. intros H. unfold long_add. by rewrite (proj2 (Z.leb_le _ _)), (proj2 (Z.leb_le _ _)) by lia. Qed.

Lemma store_cell {A} a (m n : A) h :
  cells h !! a = Some [m] -> store (Some a) 0 n h = Some (mkHeap (<[a := [n]]> (cells h)) (next_addr h)).
Proof. intros H. rewrite (store_cells a 0 n h [m]); [done|done|cbn; lia]. Qed.

(** ** The loops *)
Lemma Get_loop_ok fuel k index pos p h l :
  chain h p l -> index = pos + Z.of_nat k -> (length l < fuel)%nat ->
  0 <= pos -> pos + walked (Z.of_nat k) l <= INT_MAX ->
  Get_loop fuel index pos p h = Some (fst <$> l !! k).
Proof.
  revert k pos p l. induction fuel as [|fuel IH]; intros k pos p l Hc Hi Hf Hp Hw; [lia|]. unfold walked in *.
  destruct l as [|[a x] l]; cbn in Hc.
  - subst p. by rewrite lookup_nil.
  - destruct Hc as (-> & q & Ha & Hc). cbn [Get_loop length] in *.
    unfold int_add. rewrite chk_int_ok by (unfold INT_MIN; lia). cbn [mbind option_bind]. destruct k as [|k].
    + rewrite (proj2 (Z.eqb_eq _ _)) by lia. done.
    + rewrite (proj2 (Z.eqb_neq _ _)) by lia. rewrite (load_cell a _ h Ha). cbn [mbind option_bind pNext].
      apply (IH k (pos + 1) q l); try done; lia.
Qed.

Lemma Includes_loop_ok fuel v p h l :
  chain h p l -> (length l < fuel)%nat -> Includes_loop fuel v p h = Some (bool_decide (v ∈ l.*2)).
Proof.
  revert p l. induction fuel as [|fuel IH]; intros p l Hc Hf; [lia|].
  destruct l as [|[a x] l]; cbn in Hc.
  - subst p. done.
  - destruct Hc as (-> & q & Ha & Hc). cbn [Includes_loop]. rewrite (load_cell a _ h Ha).
    cbn [mbind option_bind pNext value]. destruct (Z.eqb_spec v x) as [->|Hne].
    + by rewrite bool_decide_true by (cbn; set_solver).
    + rewrite (IH q l) by (done || (cbn in Hf; lia)). f_equal. apply bool_decide_ext. cbn. set_solver.
Qed.

Lemma find_previous_ok fuel prev p h l1 b y a :
  seg h p (l1 ++ [(b, y)]) (Some a) -> a ∉ (l1 ++ [(b, y)]).*1 -> (length l1 < fuel)%nat ->
  find_previous fuel prev p (Some a) h = Some (Some b).
Proof.
  revert prev p l1. induction fuel as [|fuel IH]; intros prev p l1 Hs Hn Hf; [lia|].
  destruct l1 as [|[c z] l1]; cbn in Hs; destruct Hs as (-> & r & Hc & Hs); cbn [find_previous];
    rewrite (load_cell _ _ h Hc); cbn [mbind option_bind pNext].
  - subst r. by rewrite bool_decide_true.
  - assert (r <> Some a) as Hr.
    { intros ->. destruct l1 as [|[d w] l1]; cbn in Hs; destruct Hs as ([= ->] & _); cbn in Hn; set_solver. }
    rewrite bool_decide_false by done. apply (IH _ _ l1); [done|cbn in Hn; rewrite !not_elem_of_cons in Hn; tauto|cbn in Hf; lia].
Qed.

(** With a node in the list, the end is a null pointer. *)
Lemma IsDone_ok junk s l p :
  repr junk s l -> l <> [] -> Iterator_IsDone p s = Some (bool_decide (p = None)).
Proof.
  intros R Hne. destruct l as [|[a x] l _] using rev_ind; [done|].
  pose proof (chain_last mkNode _ _ _ _ _ (jr_chain _ _ _ R)) as Ha.
  unfold Iterator_IsDone, Last. rewrite (jr_tail _ _ _ R a x) by apply last_snoc.
  rewrite (load_cell a _ _ Ha). cbn. f_equal. by apply bool_decide_ext.
Qed.

Lemma iterate_loop_ok junk s l fuel p l' :
  repr junk s l -> l <> [] -> chain s.2 p l' -> (length l' < fuel)%nat -> iterate_loop fuel p s = Some l'.*2.
Proof.
  intros R Hne. revert p l'. induction fuel as [|fuel IH]; intros p l' Hc Hf; [lia|]. cbn [iterate_loop].
  rewrite (IsDone_ok junk s l p R Hne). cbn [mbind option_bind].
  destruct l' as [|[a x] l']; cbn in Hc; [by subst p|]. destruct Hc as (-> & q & Ha & Hc).
  rewrite bool_decide_false by done. unfold Iterator_Next. rewrite (load_cell a _ _ Ha).
  cbn [mbind option_bind value pNext]. rewrite (IH q l' Hc) by (cbn in Hf; lia). done.
Qed.

Lemma append_ok junk s l v :
  repr junk s l -> count_of junk l.*2 < LONG_MAX ->
  exists s' a, Append v s = Some s' /\ repr junk s' (l ++ [(a, v)]).
Proof.
  intros R Hm. destruct s as [t h]. pose proof R as [Hcnt Hj Hc Ht ND Hok Hd]. cbn in Hcnt, Hc, Ht, Hok, Hd.
  unfold count_of in Hm. rewrite length_fmap in Hm. unfold Append. cbn [alloc].
  pose proof (alloc_fresh h Hok) as Hf. set (b := next_addr h) in *.
  assert (b ∉ l.*1) as Hbl by (rewrite <- Hd; by apply not_elem_of_dom).
  rewrite long_add_ok by lia. destruct l as [|[a0 x0] l0 _] using rev_ind.
  - cbn in Hc. rewrite Hc. eexists _, b. split; [done|]. split; cbn; try done.
    + cbn in Hcnt. lia.
    + split; [done|]. exists None. by rewrite lookup_insert_eq.
    + by intros a x [= <- <-].
    + by apply NoDup_singleton.
    + exact (heap_ok_alloc [mkNode v None] h Hok).
    + intros a. rewrite dom_insert, elem_of_union, elem_of_singleton, Hd. set_solver.
  - specialize (Ht a0 x0 (last_snoc _ _)). pose proof (chain_last mkNode _ _ _ _ _ Hc) as Ha0.
    assert (a0 <> b) as Hab by (intros ->; congruence).
    assert (exists p, m_pHead t = Some p) as [p Hp].
    { destruct l0 as [|[c z] ?]; cbn in Hc; destruct Hc as (-> & _); eauto. }
    rewrite Hp, Ht. rewrite (load_cell a0 (mkNode x0 None)) by (cbn; by rewrite lookup_insert_ne).
    cbn [mbind option_bind]. rewrite (store_cell a0 (mkNode x0 None)) by (cbn; by rewrite lookup_insert_ne).
    cbn [mbind option_bind]. eexists _, b. split; [done|]. cbn [cells next_addr value].
    assert (forall c, c ∈ l0.*1 -> c <> a0 /\ c <> b) as Hl0.
    { intros c Hcl. rewrite fmap_app in ND, Hbl. cbn in *. split; [|set_solver].
      intros ->. apply NoDup_app in ND as (_ & ND & _). by apply (ND a0); [|set_solver]. }
    split; cbn.
    + rewrite Hcnt, !length_app. cbn. lia.
    + done.
    + rewrite <- Hp. eapply (chain_snoc mkNode h); [done|done| | | |done]; cbn.
      * intros c (? & ?)%Hl0. by rewrite !lookup_insert_ne.
      * by rewrite lookup_insert_eq.
      * by rewrite lookup_insert_ne, lookup_insert_eq.
    + intros a x. rewrite last_snoc. by intros [= <- <-].
    + rewrite fmap_app. cbn. apply NoDup_app. split; [done|]. split; [set_solver|by apply NoDup_singleton].
    + intros a Ha. cbn in Ha; rewrite !dom_insert in Ha. cbn. assert (a = a0 \/ a = b \/ a ∈ dom (cells h)) as [->|[->|Hin]] by set_solver.
      * assert (a0 ∈ dom (cells h)) as Hin by (apply elem_of_dom; eauto). apply Hok in Hin. lia.
      * unfold b. lia.
      * apply Hok in Hin. lia.
    + intros a. rewrite !dom_insert, !fmap_app. cbn. rewrite fmap_app in Hd. cbn in Hd.
      specialize (Hd a). set_solver.
Qed.

(** ** Removing a node *)
Lemma chain_head h p a x l : chain h p ((a, x) :: l) -> p = Some a.
Proof. by intros [-> _]. Qed.

Lemma remove_ok junk s fuel l1 a x l2 :
  repr junk s (l1 ++ (a, x) :: l2) -> (length l1 < fuel)%nat -> count_of junk (l1 ++ (a, x) :: l2).*2 <= LONG_MAX ->
  exists s', Remove fuel (Some a) s = Some s' /\ repr junk s' (l1 ++ l2).
Proof.
  intros R Hf Hm. destruct s as [t h]. pose proof R as [Hcnt Hj Hc Ht ND Hok Hd]. cbn in Hcnt, Hc, Ht, Hok, Hd.
  unfold count_of in Hm. rewrite length_fmap, length_app in Hm. rewrite length_app in Hcnt. cbn in Hm, Hcnt.
  rewrite fmap_app in ND. cbn in ND. apply NoDup_app in ND as (ND1 & Hdis & ND2).
  apply NoDup_cons in ND2 as [Ha2 ND2].
  assert (a ∉ l1.*1) as Ha1 by (intros H; apply (Hdis a H), elem_of_cons; by left).
  assert (NoDup (l1 ++ l2).*1) as ND.
  { rewrite fmap_app. apply NoDup_app. split_and!; [done| |done].
    intros c Hc1 Hc2. apply (Hdis c Hc1), elem_of_cons. by right. }
  assert (forall m : gmap nat (list Node), dom m = dom (cells h) ∖ {[a]} -> forall c, c ∈ dom m <-> c ∈ (l1 ++ l2).*1) as Hdom.
  { intros m -> c. rewrite elem_of_difference, elem_of_singleton, Hd, !fmap_app. cbn.
    rewrite !elem_of_app, elem_of_cons. split; [tauto|]. intros H. split; [tauto|]. intros ->. tauto. }
  assert (exists b, m_pTail t = Some b) as [b0 Hb0].
  { destruct (last (l1 ++ (a, x) :: l2)) as [[b y]|] eqn:E; [eauto|].
    apply last_None in E. by destruct l1. }
  apply chain_app in Hc as (r & Hs & -> & q & Hqa & Hc2). unfold Remove.
  destruct l1 as [|[b y] l1 _] using rev_ind.
  - cbn in Hs. rewrite Hs, Hb0, bool_decide_true by done. rewrite (load_cell _ _ _ Hqa). cbn [mbind option_bind pNext free].
    rewrite Hqa. cbn [mbind option_bind m_lCount m_pHead m_pTail]. rewrite long_add_ok by (unfold LONG_MAX in *; cbn in *; lia).
    cbn [mbind option_bind]. eexists. split; [done|]. split; cbn; [cbn in Hcnt; lia|done| | |done| |].
    + eapply (chain_frame mkNode h); [|done]. intros c Hcl. cbn. rewrite lookup_delete_ne; [done|]. by intros ->.
    + intros c z Hl. rewrite <- Hb0. apply (Ht c z). cbn. by destruct l2.
    + intros c. cbn. rewrite dom_delete, elem_of_difference. intros [? _]. by apply Hok.
    + apply Hdom. cbn. apply dom_delete_L.
  - pose proof (find_previous_ok fuel None (m_pHead t) h l1 b y a Hs Ha1 ltac:(rewrite length_app in Hf; cbn in Hf; lia)) as Hfp.
    assert (exists hd, m_pHead t = Some hd /\ hd <> a) as (hd & Hhd & Hhead).
    { destruct l1 as [|[c z] l1]; cbn in Hs, Ha1; destruct Hs as (Hh & _); rewrite not_elem_of_cons in Ha1;
        eexists; (split; [exact Hh|]); intros ->; tauto. }
    apply seg_app in Hs as (r & Hs & -> & r' & Hcb & ->).
    rewrite Hhd, Hb0. rewrite bool_decide_false by congruence. rewrite <- Hhd, Hfp. cbn [mbind option_bind].
    assert (a <> b) as Hab by (intros ->; apply Ha1; rewrite fmap_app; apply elem_of_app; right; cbn; apply elem_of_cons; by left).
    rewrite (load_cell _ _ _ Hqa), (load_cell _ _ _ Hcb). cbn [mbind option_bind pNext value].
    rewrite (store_cell _ _ _ _ Hcb). cbn [mbind option_bind free cells next_addr].
    rewrite lookup_insert_ne, Hqa by done. cbn [mbind option_bind m_lCount m_pHead m_pTail cells next_addr].
    rewrite long_add_ok by (unfold LONG_MAX in *; cbn in *; lia). cbn [mbind option_bind].
    eexists. split; [done|]. split; cbn; [rewrite !length_app in *; cbn in *; lia|done| | |done| |].
    + assert (forall c, c <> a -> c <> b -> delete a (<[b := [mkNode y q]]> (cells h)) !! c = cells h !! c) as Hsame
        by (intros c Hca Hcb'; rewrite lookup_delete_ne, lookup_insert_ne; done).
      rewrite fmap_app in Ha1, Hdis, ND1. cbn in Ha1, Hdis, ND1. apply NoDup_app in ND1 as (_ & ND1 & _).
      apply chain_app. exists q. split; [apply seg_app; exists (Some b); split|].
      * eapply (seg_frame mkNode h); [|done]. intros c Hcl. cbn. apply Hsame.
        -- intros ->. set_solver.
        -- intros ->. apply (ND1 b Hcl). set_solver.
      * cbn. split; [done|]. exists q. rewrite lookup_delete_ne, lookup_insert_eq by done. done.
      * eapply (chain_frame mkNode h); [|done]. intros c Hcl. cbn. apply Hsame; intros ->; [done|].
        apply (Hdis b); [apply elem_of_app; right; set_solver|]. apply elem_of_cons. by right.
    + intros c z Hl. destruct l2 as [|[d w] l2]; cbn in Hc2.
      * subst q. rewrite app_nil_r, last_snoc in Hl. congruence.
      * destruct Hc2 as (-> & _). cbn; rewrite <- ?Hb0; apply (Ht c z). rewrite last_app_cons in Hl |- *. done.
    + intros c. cbn. rewrite dom_delete, dom_insert. intros Hc. apply Hok.
      assert (b ∈ dom (cells h)) by (apply elem_of_dom; eauto). set_solver.
    + apply Hdom. cbn. rewrite dom_delete_L, dom_insert_L.
      assert (b ∈ dom (cells h)) by (apply elem_of_dom; eauto). set_solver.
Qed.

Lemma remove_first_app v l1 l2 : v ∉ l1 -> remove_first v (l1 ++ l2) = l1 ++ remove_first v l2.
Proof.
  induction l1 as [|x l1 IH]; cbn; [done|]. rewrite not_elem_of_cons. intros [Hx Hl].
  rewrite (proj2 (Z.eqb_neq _ _)) by done. by rewrite IH.
Qed.

Lemma remove_first_length v l : (length (remove_first v l) <= length l)%nat.
Proof. induction l as [|x l IH]; cbn; [done|]. destruct (x =? v); cbn; lia. Qed.

Lemma remove_loop_ok junk s fuel n0 v p l1 l2 :
  repr junk s (l1 ++ l2) -> l1 ++ l2 <> [] -> chain s.2 p l2 -> (length l2 < fuel)%nat -> (length (l1 ++ l2) < n0)%nat ->
  count_of junk (l1 ++ l2).*2 <= LONG_MAX -> v ∉ l1.*2 ->
  exists s' l', remove_loop fuel n0 v p s = Some s' /\ repr junk s' l' /\ l'.*2 = remove_first v (l1 ++ l2).*2.
Proof.
  revert p l1 l2. induction fuel as [|fuel IH]; intros p l1 l2 R Hne Hc Hf Hn Hm Hv; [lia|]. cbn [remove_loop].
  rewrite (IsDone_ok junk s _ p R Hne). cbn [mbind option_bind]. destruct l2 as [|[a x] l2]; cbn in Hc.
  - subst p. rewrite bool_decide_true by done. exists s, (l1 ++ []). split_and!; [done|done|].
    rewrite fmap_app, remove_first_app by done. done.
  - destruct Hc as (-> & q & Ha & Hc). rewrite bool_decide_false by done.
    unfold Iterator_Next. rewrite (load_cell _ _ _ Ha). cbn [mbind option_bind pNext value].
    destruct (Z.eqb_spec x v) as [->|Hx].
    + rewrite length_app in Hn. destruct (remove_ok junk s n0 l1 a v l2 R) as (s' & -> & R'); [lia|done|].
      exists s', (l1 ++ l2). split_and!; [done|done|]. rewrite !fmap_app, remove_first_app by done. cbn.
      by rewrite Z.eqb_refl.
    + replace (l1 ++ (a, x) :: l2) with ((l1 ++ [(a, x)]) ++ l2) in * by (by rewrite <- (assoc (++))).
      apply IH; try done; [cbn in Hf; lia|]. rewrite fmap_app. cbn. rewrite not_elem_of_app, list_elem_of_singleton.
      split; [done|]. congruence.
Qed.

(** ** The destructor *)
Lemma jt_dtor_ok fuel p h l :
  chain h p l -> NoDup l.*1 -> (forall a, a ∈ dom (cells h) <-> a ∈ l.*1) -> (length l < fuel)%nat ->
  exists h', dtor_loop fuel p h = Some h' /\ cells h' = ∅.
Proof.
  revert p h l. induction fuel as [|fuel IH]; intros p h l Hc ND Hd Hf; [lia|].
  destruct l as [|[a x] l]; cbn in Hc.
  - subst p. exists h. split; [done|]. apply dom_empty_inv_L. apply elem_of_equiv_empty_L.
    intros a Ha%Hd. by apply elem_of_nil in Ha.
  - destruct Hc as (-> & q & Ha & Hc). cbn [dtor_loop]. rewrite (load_cell _ _ _ Ha). cbn [mbind option_bind free pNext].
    rewrite Ha. cbn [mbind option_bind]. apply NoDup_cons in ND as [Hal ND]. apply (IH q _ l).
    + eapply (chain_frame mkNode h); [|done]. intros c Hcl. cbn. rewrite lookup_delete_ne; [done|]. by intros ->.
    + done.
    + intros c. cbn. rewrite dom_delete, elem_of_difference, elem_of_singleton, Hd. cbn. rewrite elem_of_cons.
      split; [tauto|]. intros Hcl. split; [by right|]. intros ->. done.
    + cbn in Hf. lia.
Qed.

(** ** Programs *)
Lemma repr_length junk s l : repr junk s l -> length l = length l.*2.
Proof. intros _. by rewrite length_fmap. Qed.

Lemma get_value_ok junk s l fuel i :
  repr junk s l -> (length l < fuel)%nat -> - 2 ^ 63 < count_of junk l.*2 <= LONG_MAX ->
  (0 <= i < count_of junk l.*2 -> walked i l.*2 <= INT_MAX) ->
  get_value fuel i s = Some (if (count_of junk l.*2 - 1 <? i) || (i <? 0) then None else l.*2 !! Z.to_nat i).
Proof.
  intros R Hf Hm Hw. unfold get_value, Get, count_of in *. rewrite length_fmap in *. rewrite (jr_count _ _ _ R).
  rewrite long_add_ok by lia. cbn [mbind option_bind]. replace (junk + Z.of_nat (length l) + -1) with (junk + Z.of_nat (length l) - 1) by lia.
  destruct (_ || _) eqn:E; [done|]. apply orb_false_iff in E as [Hl%Z.ltb_ge Hi%Z.ltb_ge].
  pose proof (jr_chain _ _ _ R) as Hc.
  rewrite (Get_loop_ok fuel (Z.to_nat i) i 0 _ _ l Hc)
    by (lia || (unfold walked in *; rewrite length_fmap in Hw; lia)). cbn [mbind option_bind].
  rewrite list_lookup_fmap. destruct (l !! Z.to_nat i) as [[a x]|] eqn:El; [|done]. cbn [fmap option_fmap option_map fst snd].  
  apply list_elem_of_split_length in El as (l1 & l2 & -> & _). apply chain_app in Hc as (r & _ & -> & q & Ha & _).
  by rewrite (load_cell _ _ _ Ha).
Qed.

Lemma exec_ok junk fuel o s l r l' :
  repr junk s l -> (length l < fuel)%nat -> count_of junk l.*2 <= LONG_MAX -> spec junk o l.*2 = Some (r, l') ->
  exists s' l1, exec fuel o s = Some (r, s') /\ repr junk s' l1 /\ l1.*2 = l' /\ count_of junk l' <= LONG_MAX /\
    (length l1 <= S (length l))%nat.
Proof.
  intros R Hf Hm H. destruct o as [v|v|v| |i|]; cbn [spec exec] in *.
  - destruct (Z.ltb_spec (count_of junk l.*2) LONG_MAX); simplify_eq.
    destruct (append_ok junk s l v R) as (s' & a & -> & R'); [done|]. exists s', (l ++ [(a, v)]).
    split_and!; [done|done|by rewrite fmap_app| |rewrite length_app; cbn; lia].
    unfold count_of in *. rewrite length_app. cbn. lia.
  - destruct l.*2 as [|x l0] eqn:E; simplify_eq. unfold remove_value, Iterator_First, First.
    destruct (remove_loop_ok junk s fuel fuel v (m_pHead s.1) [] l) as (s' & l1 & -> & R' & El); cbn; try done.
    + by intros ->.
    + apply R.
    + by rewrite E.
    + set_solver.
    + cbn in El. rewrite E in El. exists s', l1. split_and!; [done|done|done| |].
      * pose proof (remove_first_length v (x :: l0)) as Hlen. unfold count_of in *. cbn [remove_first length] in *. lia.
      * pose proof (remove_first_length v (x :: l0)) as Hlen. rewrite <- El, <- E, !length_fmap in Hlen. lia.
  - injection H as <- <-. unfold Includes. rewrite (Includes_loop_ok fuel v _ _ l) by (apply R || done).
    cbn. exists s, l. split_and!; try done. lia.
  - destruct l.*2 as [|x l0] eqn:E; simplify_eq. unfold iterate, Iterator_First, First.
    rewrite (iterate_loop_ok junk s l fuel _ l R) by (apply R || done || (by intros ->)).
    cbn. exists s, l. rewrite E. split_and!; try done. lia.
  - destruct (Z.ltb_spec (- 2 ^ 63) (count_of junk l.*2)); simplify_eq.
    rewrite (get_value_ok junk s l fuel i R); [|done|lia|].
    + exists s, l. destruct (_ || _); [|destruct (_ <=? INT_MAX); [|done]]; injection H as <- <-; split_and!; (done || lia).
    + intros Hi. rewrite (proj2 (Z.ltb_ge _ _)), (proj2 (Z.ltb_ge _ _)) in H by lia. cbn [orb] in H.
      by destruct (Z.leb_spec (walked i l.*2) INT_MAX).
  - injection H as <- <-. exists s, l. unfold GetCount. rewrite (jr_count _ _ _ R). unfold count_of in *.
    rewrite length_fmap in *. split_and!; try done. lia.
Qed.

Lemma jt_exec_all_ok junk fuel os s l rs l' :
  repr junk s l -> (length l + length os < fuel)%nat -> count_of junk l.*2 <= LONG_MAX ->
  spec_all junk os l.*2 = Some (rs, l') ->
  exists s' l1, exec_all fuel os s = Some (rs, s') /\ repr junk s' l1 /\ l1.*2 = l' /\ (length l1 < fuel)%nat.
Proof.
  revert s l rs. induction os as [|o os IH]; cbn [spec_all exec_all length]; intros s l rs R Hf Hm H.
  - injection H as <- <-. exists s, l. split_and!; try done. lia.
  - apply bind_Some in H as ([r l1] & H1 & ([rs' l2] & H2 & [= <- <-])%bind_Some).
    destruct (exec_ok junk fuel o s l r l1 R ltac:(lia) Hm H1) as (s1 & k & -> & R1 & <- & Hm1 & Hk).
    destruct (IH s1 k rs' R1 ltac:(lia) Hm1 H2) as (s2 & k2 & E & R2). cbn. rewrite E. cbn. eauto.
Qed.

Lemma ctor_repr junk : - 2 ^ 63 <= junk -> repr junk (ctor junk) [].
Proof.
  intros Hj. split; cbn; try done; try lia.
  - by apply NoDup_nil.
  - intros a. rewrite dom_empty. set_solver.
Qed.

(** C25: the linked list with its iterator is a list: every program of appends, removals through
    the iterator, membership tests, iterations and accesses by index runs on live nodes only
    and answers as the list of values does (with the count off by whatever value the
    constructor left in it), as long as it iterates over no empty list, the count fits a [long]
    and no access by index walks more than [INT_MAX] nodes; and the destructor then ends and frees
    every node. *)
Theorem jtlist_is_list (junk : Z) (fuel : nat) (os : list op) (rs : list result) (l : list Z) :
  - 2 ^ 63 <= junk <= LONG_MAX -> (length os < fuel)%nat -> spec_all junk os [] = Some (rs, l) ->
  exists s h, exec_all fuel os (ctor junk) = Some (rs, s) /\ GetCount s = count_of junk l /\
    dtor fuel s = Some h /\ cells h = ∅.
Proof.
  intros [Hj Hjm] Hf H.
  destruct (jt_exec_all_ok junk fuel os (ctor junk) [] rs l (ctor_repr junk Hj)) as (s & k & E & R & <- & Hk);
    [done|unfold count_of; cbn; lia|done|].
  destruct (jt_dtor_ok fuel _ _ k (jr_chain _ _ _ R) (jr_nodup _ _ _ R) (jr_dom _ _ _ R) Hk) as (h & Eh & Hh).
  exists s, h. split_and!; try done. unfold GetCount, count_of. rewrite (jr_count _ _ _ R). by rewrite length_fmap.
Qed.

Lemma jtlist_is_list_witness :
  exists s h, exec_all 20 main_ops (ctor 0) =
      Some ([Done; Done; Done; Done; Done; Done; Done; Done; Done; Done;
             Values [10; 20; 30; 40; 50; 60; 70; 80; 90; 100]; Done;
             Values [10; 20; 30; 40; 50; 60; 70; 80; 90]], s) /\
    GetCount s = count_of 0 [10; 20; 30; 40; 50; 60; 70; 80; 90] /\ dtor 20 s = Some h /\ cells h = ∅.
Proof.
  apply (jtlist_is_list 0 20 main_ops); [unfold LONG_MAX; lia|cbn; lia|]. vm_compute. reflexivity.
Defined.

(** iterating over an empty list is undefined, whether it was never filled (the end of the
    loop is read through a null pointer) or all its nodes were removed (through a pointer to
    the last node that was freed); so is removing by iteration. *)
Theorem empty_iteration_undefined (junk v : Z) (fuel : nat) (os : list op) (rs : list result) (s : state) :
  - 2 ^ 63 <= junk <= LONG_MAX -> (length os < fuel)%nat -> spec_all junk os [] = Some (rs, []) ->
  exec_all fuel os (ctor junk) = Some (rs, s) ->
  iterate fuel s = None /\ remove_value fuel v s = None.
Proof.
  intros [Hj Hjm] Hf H E.
  destruct (jt_exec_all_ok junk fuel os (ctor junk) [] rs [] (ctor_repr junk Hj)) as (s' & k & E' & R & Hk & _);
    [done|unfold count_of; cbn; lia|done|]. rewrite E in E'. injection E' as <-. apply fmap_nil_inv in Hk as ->.
  assert (load (Last s) 0 s.2 = None) as Hl.
  { unfold load, Last. destruct (m_pTail s.1) as [a|]; [|done]. cbn.
    destruct (cells s.2 !! a) eqn:Ea; [|done]. exfalso.
    apply (elem_of_nil a), (jr_dom _ _ _ R), elem_of_dom. eauto. }
  unfold iterate, remove_value. destruct fuel as [|fuel]; [done|]. cbn [iterate_loop remove_loop].
  unfold Iterator_IsDone. by rewrite Hl.
Qed.

Lemma empty_iteration_undefined_witness :
  exists s, exec_all 9 [OAppend 5; ORemove 5] (ctor 0) = Some ([Done; Done], s) /\
    iterate 9 s = None /\ remove_value 9 7 s = None.
Proof.
  eexists. split; [vm_compute; reflexivity|].
  apply (empty_iteration_undefined 0 7 9 [OAppend 5; ORemove 5] [Done; Done]);
    [unfold LONG_MAX; lia|cbn; lia|vm_compute; reflexivity|vm_compute; reflexivity].
Defined.

(** The count is not initialised: with a small value in it [Get] finds nothing. *)
Example get_with_junk :
  fst <$> exec_all 9 [OAppend 5; OGet 0; OCount] (ctor (-7)) = Some [Done; Item None; Count (-6)].
Proof. vm_compute. reflexivity. Qed.
End JTList.
