(* ===== verification/Interpreter.v ===== *)
(** The interpreter of movement instructions of
    [src/design_mode/interpreter_Pattern/interpreter_pattern.cc]. *)
From S2P Require Import Prelude.

Module Interpreter.
(** Wide characters are their code points; a string in an array ends with a 0. *)
Abbreviation text := (list Z).

Definition space : Z := 32.

Definition DOWN : text := [100; 111; 119; 110].
Definition UP : text := [117; 112].
Definition LEFT : text := [108; 101; 102; 116].
Definition RIGHT : text := [114; 105; 103; 104; 116].
Definition MOVE : text := [109; 111; 118; 101].
Definition WALK : text := [119; 97; 108; 107].
Definition AND : text := [97; 110; 100].

(** The string in an array; running past its end is undefined. *)
Fixpoint wstr (row : list Z) : option text :=
  match row with
  | [] => None
  | c :: row => if c =? 0 then Some [] else cons c <$> wstr row
  end.

(** [towlower] and [!wcscasecmp(a, b)] *)
Definition lower (c : Z) : Z := if (65 <=? c) && (c <=? 90) then c + 32 else c.
Definition same_word (a b : text) : bool := bool_decide ((lower <$> a) = (lower <$> b)).

(** The nodes; a leaf holds the array of its word, [None] after [SAFE_DELETE]. *)
Inductive AbstractNode :=
| DirectionNode (m_pDirection : option (list Z))
| ActionNode (m_pAction : option (list Z))
| DistanceNode (m_pDistance : option (list Z))
| SentenceNode (m_pDirection m_pAction m_pDistance : AbstractNode)
| AndNode (m_pLeft : option AbstractNode) (m_pRight : AbstractNode).

Definition direction_text (w : text) : text :=
  if same_word w DOWN then [0x5411; 0x4E0B]
  else if same_word w UP then [0x5411; 0x4E0A]
  else if same_word w LEFT then [0x5411; 0x5DE6]
  else if same_word w RIGHT then [0x5411; 0x53F3]
  else [0x672A; 0x77E5; 0x65B9; 0x5411].

Definition action_text (w : text) : text :=
  if same_word w MOVE then [0x79FB; 0x52A8]
  else if same_word w WALK then [0x884C; 0x8D70]
  else [0x672A; 0x77E5; 0x52A8; 0x4F5C].

Definition distance_text (w : text) : text := w ++ [0x7C73].

(** The word of a leaf: a null pointer is not to be read. *)
Definition word_of (p : option (list Z)) : option text := row ← p; wstr row.

(** [Interpret]: the text, and the node afterwards *)
Fixpoint Interpret (n : AbstractNode) : option (text * AbstractNode) :=
  match n with
  | DirectionNode p => w ← word_of p; Some (direction_text w, DirectionNode None)
  | ActionNode p => w ← word_of p; Some (action_text w, ActionNode None)
  | DistanceNode p => w ← word_of p; Some (distance_text w, DistanceNode None)
  | SentenceNode d a x =>
      '(t1, d') ← Interpret d; '(t2, a') ← Interpret a; '(t3, x') ← Interpret x;
      Some (t1 ++ t2 ++ t3, SentenceNode d' a' x')
  | AndNode l r =>
      match l with
      | None => None
      | Some l => '(t1, l') ← Interpret l; '(t2, r') ← Interpret r; Some (t1 ++ t2, AndNode (Some l') r')
      end
  end.

(** ** [InstructionHandler] *)
Record handler := mkHandler { m_pInstruction : text; m_pTree : option AbstractNode }.

Definition ctor (instruction : text) : handler := mkHandler instruction None.

(** Ten arrays of ten characters, all 0 *)
Definition zero_row : list Z := replicate 10 0.
Definition InstructionArray : list (list Z) := replicate 10 zero_row.

(** The loop of [SplitInstruction]: the arrays and [size]; writing outside of them is
    undefined. *)
Fixpoint split_loop (s : text) (rows : list (list Z)) (size n : nat) : option (list (list Z) * nat) :=
  match s with
  | [] => Some (rows, S size)
  | c :: s =>
      if c =? 0 then Some (rows, S size)
      else if c =? space then split_loop s rows (S size) 0
      else
        row ← rows !! size;
        if (n <? length row)%nat then split_loop s (<[size := <[n := c]> row]> rows) size (S n) else None
  end.

Definition SplitInstruction (instruction : text) : option (list (list Z) * nat) :=
  split_loop instruction InstructionArray 0 0.

(** A sentence of the words from [i] on *)
Definition sentence_at (rows : list (list Z)) (i : nat) : option AbstractNode :=
  d ← rows !! i; a ← rows !! S i; x ← rows !! S (S i);
  Some (SentenceNode (DirectionNode (Some d)) (ActionNode (Some a)) (DistanceNode (Some x))).

(** The loop of [Handle]: [node] is the last node built. *)
Fixpoint handle_loop (fuel : nat) (rows : list (list Z)) (size i : nat) (pLeft node : option AbstractNode)
  : option (option AbstractNode) :=
  match fuel with
  | O => None
  | S fuel =>
      if (i <? size)%nat then
        row ← rows !! i;
        w ← wstr row;
        if same_word w AND then
          pRight ← sentence_at rows (S i);
          handle_loop fuel rows size (4 + i) pLeft (Some (AndNode pLeft pRight))
        else
          s ← sentence_at rows i;
          handle_loop fuel rows size (3 + i) (Some s) (Some s)
      else Some node
  end.

Definition Handle (h : handler) : option handler :=
  '(rows, size) ← SplitInstruction (m_pInstruction h);
  node ← handle_loop (S size) rows size 0 None None;
  Some (mkHandler [] node).

(** [Output]: what is printed *)
Definition Output (h : handler) : option (text * handler) :=
  n ← m_pTree h;
  '(t, n') ← Interpret n;
  Some (t, mkHandler (m_pInstruction h) (Some n')).

(** [main], for any instruction *)
Definition interpret (instruction : text) : option text :=
  h ← Handle (ctor instruction); '(t, _) ← Output h; Some t.

(** ** The grammar of the comment *)
Record sentence := mkSentence { direction : text; action : text; distance : text }.

Definition words (s : sentence) : list text := [direction s; action s; distance s].

Fixpoint sentence_words (ss : list sentence) : list text :=
  match ss with
  | [] => []
  | [s] => words s
  | s :: ss => words s ++ AND :: sentence_words ss
  end.

(** The words, one space between two *)
Fixpoint join (ws : list text) : text :=
  match ws with
  | [] => []
  | [w] => w
  | w :: ws => w ++ space :: join ws
  end.

Definition print (ss : list sentence) : text := join (sentence_words ss).

Definition translate (s : sentence) : text :=
  direction_text (direction s) ++ action_text (action s) ++ distance_text (distance s).

(** What the buffers hold: two sentences of words of at most nine characters *)
Definition fits (ss : list sentence) : bool :=
  (length ss <=? 2)%nat && forallb (fun w => (length w <=? 9)%nat) (sentence_words ss).

Definition plain (w : text) : Prop := Forall (fun c => c <> 0 /\ c <> space) w.

(** ** The buffers *)

(** The array of a word *)
Definition pad (w : text) : list Z := w ++ replicate (10 - length w) 0.

(** The ten arrays after some words *)
Definition fill (ws : list text) : list (list Z) :=
  take 10 (pad <$> ws) ++ replicate (10 - length ws) zero_row.

Definition word_ok (i : nat) (w : text) : bool :=
  match w with [] => true | _ => (i <? 10)%nat && (length w <=? 10)%nat end.

Fixpoint words_ok (i : nat) (ws : list text) : bool :=
  match ws with [] => true | w :: ws => word_ok i w && words_ok (S i) ws end.

Lemma length_fill ws : length (fill ws) = 10%nat.
Proof. unfold fill. rewrite length_app, length_take, length_fmap, length_replicate. lia. Qed.

Lemma fill_zero ws : (length ws < 10)%nat -> fill ws !! length ws = Some zero_row.
Proof.
  intros H. unfold fill. rewrite take_ge by (rewrite length_fmap; lia).
  rewrite lookup_app_r by (rewrite length_fmap; lia). rewrite length_fmap, Nat.sub_diag.
  apply lookup_replicate_2. lia.
Qed.

Lemma fill_snoc ws w : (length ws < 10)%nat -> <[length ws := pad w]> (fill ws) = fill (ws ++ [w]).
Proof.
  intros H. unfold fill. rewrite !take_ge by (rewrite length_fmap, ?length_app; cbn; lia).
  rewrite insert_app_r_alt by (rewrite length_fmap; lia). rewrite length_fmap, Nat.sub_diag, fmap_app, length_app.
  cbn [length]. replace (10 - length ws)%nat with (S (10 - (length ws + 1))) by lia.
  cbn. by rewrite <- (assoc (++)).
Qed.

Lemma fill_full ws w : (10 <= length ws)%nat -> fill (ws ++ [w]) = fill ws.
Proof.
  intros H. unfold fill. rewrite fmap_app, take_app_le by (rewrite length_fmap; lia).
  rewrite length_app. cbn. by replace (10 - (length ws + 1))%nat with (10 - length ws)%nat by lia.
Qed.

Lemma wstr_app w r : plain w -> wstr (w ++ 0 :: r) = Some w.
Proof.
  induction 1 as [|c w [Hc _] _ IH]; cbn; [done|]. by rewrite (proj2 (Z.eqb_neq _ _)), IH.
Qed.

Lemma wstr_pad w : plain w -> wstr (pad w) = if (length w <=? 9)%nat then Some w else None.
Proof.
  intros Hw. unfold pad. destruct (Nat.leb_spec (length w) 9) as [H|H].
  - replace (10 - length w)%nat with (S (9 - length w)) by lia. by apply wstr_app.
  - replace (10 - length w)%nat with 0%nat by lia. rewrite app_nil_r. clear H.
    induction Hw as [|c w [Hc _] _ IH]; cbn; [done|]. rewrite (proj2 (Z.eqb_neq _ _)) by done. by rewrite IH.
Qed.

(** Copying a word into its array *)
Lemma split_word w rest rows size n row :
  plain w -> rows !! size = Some row -> length row = 10%nat ->
  split_loop (w ++ rest) rows size n =
    if (n + length w <=? 10)%nat || (length w =? 0)%nat then
      split_loop rest (<[size := take n row ++ w ++ drop (n + length w) row]> rows) size (n + length w)
    else None.
Proof.
  intros Hw. revert rows row n. induction Hw as [|c w [Hc Hs] _ IH]; intros rows row n Hr Hl.
  - cbn. rewrite Nat.add_0_r, take_drop, orb_true_r. by rewrite list_insert_id.
  - cbn [app split_loop]. rewrite (proj2 (Z.eqb_neq _ _)), (proj2 (Z.eqb_neq _ _)), Hr by done.
    cbn [mbind option_bind length]. rewrite Hl, orb_false_r.
    destruct (Nat.ltb_spec n 10) as [Hn|Hn]; [|by rewrite (proj2 (Nat.leb_gt _ _)) by lia].
    rewrite (IH _ (<[n := c]> row)) by (by rewrite ?length_insert || (apply list_lookup_insert_eq; by eapply lookup_lt_Some)).
    replace (S n + length w)%nat with (n + S (length w))%nat by lia.
    destruct (Nat.leb_spec (n + S (length w)) 10) as [Hle|Hgt]; cbn [orb].
    + rewrite list_insert_insert_eq, (take_S_r _ _ c) by (apply list_lookup_insert_eq; lia).
      rewrite take_insert_ge, drop_insert_lt, <- (assoc (++)) by lia. done.
    + destruct (Nat.eqb_spec (length w) 0) as [H0|]; [|done]. lia.
Qed.

Lemma split_step w rest done_ :
  plain w ->
  split_loop (w ++ rest) (fill done_) (length done_) 0 =
    if word_ok (length done_) w then split_loop rest (fill (done_ ++ [w])) (length done_) (length w) else None.
Proof.
  intros Hw. destruct (decide (length done_ < 10)%nat) as [Hd|Hd].
  - rewrite (split_word w rest _ _ _ zero_row Hw (fill_zero _ Hd)) by done. cbn [Nat.add].
    unfold word_ok. rewrite (proj2 (Nat.ltb_lt _ _)) by done.
    assert ((length w <= 10)%nat -> take 0 zero_row ++ w ++ drop (length w) zero_row = pad w) as Hp.
    { intros _. rewrite take_0. unfold zero_row, pad. by rewrite drop_replicate. }
    destruct (Nat.leb_spec (length w) 10) as [Hl|Hl].
    + rewrite Hp, fill_snoc by done. by destruct w.
    + destruct w as [|c w]; [cbn in Hl; lia|]. done.
  - rewrite fill_full by lia. destruct w as [|c w]; [done|]. cbn [app split_loop word_ok].
    inversion Hw as [|? ? [Hc Hs] Hw']; subst. rewrite (proj2 (Z.eqb_neq _ _)), (proj2 (Z.eqb_neq _ _)) by done.
    rewrite lookup_ge_None_2 by (rewrite length_fill; lia). by rewrite (proj2 (Nat.ltb_ge _ _)) by lia.
Qed.

(** Splitting what [join] printed, from any number of words on *)
Lemma split_join ws done_ :
  ws <> [] -> Forall plain ws ->
  split_loop (join ws) (fill done_) (length done_) 0 =
    if words_ok (length done_) ws then Some (fill (done_ ++ ws), (length done_ + length ws)%nat) else None.
Proof.
  intros Hne Hws. revert done_ Hne. induction Hws as [|w ws Hw Hws IH]; intros done_ Hne; [done|].
  cbn [words_ok length]. destruct ws as [|w2 ws].
  - cbn [join words_ok]. rewrite <- (app_nil_r w) at 1. rewrite split_step, andb_true_r by done.
    destruct (word_ok _ w); [|done]. cbn. by rewrite Nat.add_1_r.
  - change (join (w :: w2 :: ws)) with (w ++ space :: join (w2 :: ws)). rewrite split_step by done.
    destruct (word_ok _ w); [|done]. cbn [split_loop]. change (space =? 0) with false. change (space =? space) with true.
    cbn [andb]. specialize (IH (done_ ++ [w])). rewrite length_app, Nat.add_1_r in IH. rewrite IH by done.
    destruct (words_ok _ _); [|done]. rewrite <- (assoc (++)). cbn [app length andb].
    do 2 f_equal. lia.
Qed.

(** Words come back from their arrays: up to ten words of at most nine characters. *)
Lemma SplitInstruction_join ws :
  ws <> [] -> Forall plain ws ->
  SplitInstruction (join ws) = if words_ok 0 ws then Some (fill ws, length ws) else None.
Proof. intros Hne Hws. exact (split_join ws [] Hne Hws). Qed.

(** ** Instructions *)
Definition well_formed (s : sentence) : Prop := Forall plain (words s).

Lemma sentence_words_plain ss : Forall well_formed ss -> Forall plain (sentence_words ss).
Proof.
  assert (plain AND) as HA by (repeat constructor; unfold space; lia).
  induction 1 as [|s ss Hs _ IH]; cbn [sentence_words]; [constructor|].
  destruct ss; [done|]. apply Forall_app. split; [done|]. by constructor.
Qed.

Lemma word_ok_short i w : (length w <= 9)%nat -> (i < 10)%nat -> word_ok i w = true.
Proof.
  intros Hw Hi. unfold word_ok. destruct w; [done|]. rewrite (proj2 (Nat.ltb_lt _ _)) by done.
  by rewrite (proj2 (Nat.leb_le _ _)) by (cbn in *; lia).
Qed.

Lemma words_ok_short ws i :
  forallb (fun w => (length w <=? 9)%nat) ws = true -> (i + length ws <= 10)%nat -> words_ok i ws = true.
Proof.
  revert i. induction ws as [|w ws IH]; cbn [forallb words_ok length]; intros i H Hi; [done|].
  apply andb_true_iff in H as [Hw%Nat.leb_le H]. rewrite word_ok_short by (done || lia). cbn [andb].
  apply IH; [done|lia].
Qed.

(** A sentence node of three arrays *)
Definition node_of (d a x : list Z) : AbstractNode :=
  SentenceNode (DirectionNode (Some d)) (ActionNode (Some a)) (DistanceNode (Some x)).

Definition short (s : sentence) : bool := forallb (fun w => (length w <=? 9)%nat) (words s).

Lemma word_of_pad w : plain w -> word_of (Some (pad w)) = if (length w <=? 9)%nat then Some w else None.
Proof. exact (wstr_pad w). Qed.

(** The node of a sentence gives its translation if its words fit. *)
Lemma Interpret_sentence s :
  well_formed s ->
  Interpret (node_of (pad (direction s)) (pad (action s)) (pad (distance s))) =
    if short s then Some (translate s, SentenceNode (DirectionNode None) (ActionNode None) (DistanceNode None))
    else None.
Proof.
  unfold well_formed, words, short. rewrite !Forall_cons. intros (Hd & Ha & Hx & _).
  unfold node_of. cbn [Interpret]. rewrite !word_of_pad by done. cbn [forallb words].
  destruct (length (direction s) <=? 9)%nat; cbn; [|done].
  destruct (length (action s) <=? 9)%nat; cbn; [|done].
  by destruct (length (distance s) <=? 9)%nat.
Qed.

Lemma words_ok_long ws i : words_ok i ws = true -> Forall (fun w => (length w <= 10)%nat) ws.
Proof.
  revert i. induction ws as [|w ws IH]; cbn; intros i H; [constructor|].
  apply andb_true_iff in H as [Hw H]. constructor; [|by eapply IH].
  destruct w; [cbn; lia|]. cbn [word_ok] in Hw. apply andb_true_iff in Hw as [_ Hw%Nat.leb_le]. done.
Qed.

Lemma wstr_AND : wstr (pad AND) = Some AND.
Proof. reflexivity. Qed.

(** What [Handle] builds: a node of the one sentence, or of the two; three sentences run out
    of the arrays. *)
Lemma handle_one fuel ws s :
  ws = words s -> well_formed s -> same_word (direction s) AND = false -> (1 < fuel)%nat ->
  handle_loop fuel (fill ws) (length ws) 0 None None =
    if (length (direction s) <=? 9)%nat
    then Some (Some (node_of (pad (direction s)) (pad (action s)) (pad (distance s)))) else None.
Proof.
  intros -> Hs Hd Hf. destruct fuel as [|[|fuel]]; [lia|lia|]. inversion Hs as [|? ? Hp _]; subst.
  change (length (words s)) with 3%nat. cbn [handle_loop Nat.ltb Nat.leb Nat.add].
  change (fill (words s) !! 0%nat) with (Some (pad (direction s))). cbn [mbind option_bind]. rewrite wstr_pad by done.
  destruct (length (direction s) <=? 9)%nat; [|done]. cbn [mbind option_bind]. rewrite Hd. done.
Qed.

Lemma handle_more fuel s1 s2 ss :
  well_formed s1 -> same_word (direction s1) AND = false -> (4 < fuel)%nat ->
  let ws := sentence_words (s1 :: s2 :: ss) in
  handle_loop fuel (fill ws) (length ws) 0 None None =
    if (length (direction s1) <=? 9)%nat && bool_decide (ss = [])
    then Some (Some (AndNode (Some (node_of (pad (direction s1)) (pad (action s1)) (pad (distance s1))))
                             (node_of (pad (direction s2)) (pad (action s2)) (pad (distance s2))))) else None.
Proof.
  intros Hs Hd Hf ws. inversion Hs as [|? ? Hp _]; subst.
  destruct fuel as [|[|[|[|fuel]]]]; try lia.
  assert (exists rest, ws = words s1 ++ AND :: words s2 ++ rest /\ rest = match ss with [] => [] | _ => AND :: sentence_words ss end)
    as (rest & Ew & Er).
  { subst ws. destruct ss; [by exists []|]. eexists. split; [|done]. done. }
  rewrite Ew. cbn [words app length]. cbn [handle_loop Nat.ltb Nat.leb Nat.add].
  change (fill _ !! 0%nat) with (Some (pad (direction s1))). cbn [mbind option_bind]. rewrite wstr_pad by done.
  destruct (length (direction s1) <=? 9)%nat; [|done]. cbn [mbind option_bind andb]. rewrite Hd.
  change (sentence_at _ 0) with (Some (node_of (pad (direction s1)) (pad (action s1)) (pad (distance s1)))).
  cbn [mbind option_bind]. change (fill _ !! 3%nat) with (Some (pad AND)). cbn [mbind option_bind]. rewrite wstr_AND.
  cbn [mbind option_bind]. change (same_word AND AND) with true. cbv iota.
  change (sentence_at _ 4) with (Some (node_of (pad (direction s2)) (pad (action s2)) (pad (distance s2)))).
  cbn [mbind option_bind]. destruct ss as [|s3 ss]; subst rest; [done|]. rewrite bool_decide_false by done.
  change (fill _ !! 7%nat) with (Some (pad AND)). cbn [mbind option_bind length Nat.ltb Nat.leb]. rewrite wstr_AND.
  cbn [mbind option_bind]. change (same_word AND AND) with true. cbv iota.
  unfold sentence_at. rewrite (lookup_ge_None_2 (fill _) 10) by (by rewrite length_fill).
  destruct (fill _ !! 8%nat); [|done]. cbn [mbind option_bind]. by destruct (fill _ !! 9%nat).
Qed.

(** C31: what the interpreter accepts: an instruction printed from sentences of the grammar (words
    without spaces, the first not "and") is translated if it is one sentence or two with words
    of at most nine characters, each sentence in its place; every longer one, in sentences or
    in a word, runs outside the buffers. *)
Theorem interpret_print (s : sentence) (ss : list sentence) :
  Forall well_formed (s :: ss) -> same_word (direction s) AND = false ->
  interpret (print (s :: ss)) = if fits (s :: ss) then Some (concat (translate <$> s :: ss)) else None.
Proof.
  intros Hw Hd. pose proof (sentence_words_plain _ Hw) as Hp. inversion Hw as [|? ? Hs Hss]; subst.
  unfold interpret, Handle, print. cbn [m_pInstruction ctor].
  rewrite SplitInstruction_join by (done || by destruct ss).
  destruct (words_ok 0 (sentence_words (s :: ss))) eqn:Eok.
  - cbn [mbind option_bind]. destruct ss as [|s2 ss].
    + rewrite (handle_one _ _ s) by (done || (cbn; lia)). unfold fits.
      destruct (length (direction s) <=? 9)%nat eqn:Ed; [|cbn [sentence_words words forallb]; by rewrite Ed].
      cbn [mbind option_bind Output m_pTree]. rewrite Interpret_sentence by done.
      change (forallb _ (sentence_words [s])) with (short s). destruct (short s); [|done].
      cbn [mbind option_bind length Nat.leb andb fmap list_fmap concat]. by rewrite app_nil_r.
    + rewrite handle_more by (done || (destruct ss; cbn; lia)). unfold fits.
      destruct ss as [|s3 ss].
      * rewrite bool_decide_true, andb_true_r by done. inversion Hss as [|? ? Hs2 _]; subst.
        assert (forallb (fun w => (length w <=? 9)%nat) (sentence_words [s; s2]) = short s && short s2) as ->
          by (unfold short; cbn; by rewrite !andb_true_r, !andb_assoc).
        destruct (length (direction s) <=? 9)%nat eqn:Ed;
          [|unfold short; cbn [words forallb]; by rewrite Ed].
        cbn [mbind option_bind Output m_pTree Interpret]. rewrite !Interpret_sentence by done.
        destruct (short s), (short s2); cbn; try done. by rewrite app_nil_r.
      * rewrite bool_decide_false, andb_false_r by done. by rewrite (proj2 (Nat.leb_gt _ 2)) by (cbn; lia).
  - destruct (fits (s :: ss)) eqn:Ef; [|done]. exfalso. unfold fits in Ef. apply andb_true_iff in Ef as [El Ef].
    rewrite words_ok_short in Eok; [done|done|].
    destruct ss as [|s2 [|s3 ss]]; [cbn; lia|cbn; lia|]. apply Nat.leb_le in El. cbn in El. lia.
Qed.

(** "up move 5 and down walk 10" *)
Definition up5 : sentence := mkSentence UP MOVE [53].
Definition down10 : sentence := mkSentence DOWN WALK [49; 48].

Lemma interpret_print_witness :
  interpret (print [up5; down10]) = if fits [up5; down10] then Some (concat (translate <$> [up5; down10])) else None.
Proof.
  apply (interpret_print up5 [down10]); [|reflexivity].
  repeat constructor; unfold space; discriminate || lia.
Defined.

Example main_output :
  interpret (print [up5; down10]) =
    Some [0x5411; 0x4E0A; 0x79FB; 0x52A8; 53; 0x7C73; 0x5411; 0x4E0B; 0x884C; 0x8D70; 49; 48; 0x7C73].
Proof. vm_compute. reflexivity. Qed.

(** The words are gone after the first output. *)
Example second_output : (h ← Handle (ctor (print [up5])); '(_, h1) ← Output h; Output h1) = None.
Proof. vm_compute. reflexivity. Qed.

(** With three sentences the arrays are too few. *)
Example three_sentences : interpret (print [up5; down10; up5]) = None.
Proof. vm_compute. reflexivity. Qed.
End Interpreter.
