(* ===== verification/Calculator.v ===== *)
(** The calculator service over DDS ([src/other/pubsub/dds/request-response/]): its data,
    its arithmetic ([ServerApp::calculate]), the books of matched peers and the texts of
    [app_utils.hpp], and the command line ([CLIParser.hpp]).  What the DDS library defines
    (identities of participants and samples) is kept as the values the code compares. *)
From stdpp Require Import pretty.
From S2P Require Import Prelude.

Module Calculator.

(** ** Identities of the DDS library

    A participant is known by its prefix of octets, an endpoint by a prefix and an entity
    number, a sample by its writer and a sequence number. *)
Abbreviation GuidPrefix_t := (list Z).
Abbreviation GUID_t := (GuidPrefix_t * Z)%type.
Abbreviation SampleIdentity := (GUID_t * Z)%type.

Definition guidPrefix (g : GUID_t) : GuidPrefix_t := g.1.
Definition writer_guid (i : SampleIdentity) : GUID_t := i.1.
Definition sequence_number (i : SampleIdentity) : Z := i.2.

(** ** [types/Calculator.hpp]

    An [enum class] over [int32_t] holds any 32-bit number, four of which have names. *)
Definition ADDITION : Z := 0.
Definition SUBTRACTION : Z := 1.
Definition MULTIPLICATION : Z := 2.
Definition DIVISION : Z := 3.

Record CalculatorRequestType := mkRequest {
  client_id : string;
  operation : Z;
  x : Z;
  y : Z;
}.

Definition default_request : CalculatorRequestType := mkRequest "" ADDITION 0 0.

Record CalculatorReplyType := mkReply {
  reply_client_id : string;
  result : Z;
}.

(** The types of the members: [x] and [y] have sixteen bits. *)
Definition is_int16 (v : Z) : bool := (- 2 ^ 15 <=? v) && (v <=? 2 ^ 15 - 1).
Definition request_typed (r : CalculatorRequestType) : Prop :=
  is_int16 (x r) = true /\ is_int16 (y r) = true.

(** [ServerApp::calculate]: [None] if the arithmetic is undefined, [Some None] if it
    returns false.  The operands are promoted to [int]. *)
Definition calculate (request : CalculatorRequestType) : option (option Z) :=
  let op := operation request in
  if op =? ADDITION then Some <$> int_add (x request) (y request)
  else if op =? SUBTRACTION then Some <$> int_sub (x request) (y request)
  else if op =? MULTIPLICATION then Some <$> int_mul (x request) (y request)
  else if op =? DIVISION then
    if 0 =? y request then Some None else Some <$> int_div (x request) (y request)
  else Some None.

(** ** [TypeConverter] *)
Definition operation_to_string (operation : Z) : string :=
  if operation =? ADDITION then "+"
  else if operation =? SUBTRACTION then "-"
  else if operation =? MULTIPLICATION then "*"
  else if operation =? DIVISION then "/"
  else "Unknown".

Definition request_to_string (request : CalculatorRequestType) : string :=
  (pretty (x request) +:+ " " +:+ operation_to_string (operation request) +:+ " "
    +:+ pretty (y request))%string.

(** [rtps::ParticipantDiscoveryStatus] *)
Inductive ParticipantDiscoveryStatus :=
  DISCOVERED_PARTICIPANT | CHANGED_QOS_PARTICIPANT | REMOVED_PARTICIPANT
| DROPPED_PARTICIPANT | IGNORED_PARTICIPANT.

Definition status_to_string (info : ParticipantDiscoveryStatus) : string :=
  match info with
  | DISCOVERED_PARTICIPANT => "discovered"
  | CHANGED_QOS_PARTICIPANT => "changed QoS"
  | REMOVED_PARTICIPANT => "removed"
  | DROPPED_PARTICIPANT => "dropped"
  | IGNORED_PARTICIPANT => "ignored"
  end.

(** ** Matched peers

    [std::bitset<2>], position 0 first *)
Abbreviation bitset2 := (bool * bool)%type.
Definition set0 (b : bool) (s : bitset2) : bitset2 := (b, s.2).
Definition set1 (b : bool) (s : bitset2) : bitset2 := (s.1, b).
Definition all (s : bitset2) : bool := s.1 && s.2.
Definition any (s : bitset2) : bool := s.1 || s.2.
Definition none (s : bitset2) : bool := negb (any s).

Abbreviation status_map := (gmap GuidPrefix_t bitset2).

(** [matched_status_[guid_prefix].set(position, status)]: [operator[]] inserts an entry
    without bits if there is none. *)
Definition update_status (f : bitset2 -> bitset2) (p : GuidPrefix_t) (m : status_map) : status_map :=
  <[p := f (default (false, false) (m !! p))]> m.

(** [RemoteServerMatchedStatus] *)
Definition match_request_reader (p : GuidPrefix_t) (status : bool) (m : status_map) : status_map :=
  update_status (set0 status) p m.
Definition match_reply_writer (p : GuidPrefix_t) (status : bool) (m : status_map) : status_map :=
  update_status (set1 status) p m.
Definition is_server_matched (p : GuidPrefix_t) (m : status_map) : bool :=
  match m !! p with Some status => all status | None => false end.
Definition is_any_server_matched (m : status_map) : bool :=
  existsb (fun status => all status.2) (map_to_list m).

(** [RemoteClientMatchedStatus] *)
Definition match_request_writer (p : GuidPrefix_t) (status : bool) (m : status_map) : status_map :=
  update_status (set0 status) p m.
Definition match_reply_reader (p : GuidPrefix_t) (status : bool) (m : status_map) : status_map :=
  update_status (set1 status) p m.
Definition is_matched (p : GuidPrefix_t) (m : status_map) : bool :=
  match m !! p with Some status => all status | None => false end.
Definition is_fully_unmatched (p : GuidPrefix_t) (m : status_map) : bool :=
  match m !! p with Some status => negb (none status) | None => false end.
Definition no_client_matched (m : status_map) : bool :=
  negb (existsb (fun status => any status.2) (map_to_list m)).

(** ** The command line *)

Inductive EntityKind := SERVER | CLIENT | UNDEFINED.

(** The enumerators are the octets 0, 1, 2; any other octet falls into [default]. *)
Definition entity_of_octet (v : Z) : EntityKind :=
  if v =? 0 then SERVER else if v =? 1 then CLIENT else UNDEFINED.
Definition octet_of_entity (k : EntityKind) : Z :=
  match k with SERVER => 0 | CLIENT => 1 | UNDEFINED => 2 end.

Definition parse_entity_kind (entity : EntityKind) : string :=
  match entity with
  | SERVER => "Server"
  | CLIENT => "Client"
  | UNDEFINED => "Undefined entity"
  end.

(** Signals by their numbers on Linux. *)
Definition parse_signal (signum : Z) : string :=
  if signum =? 2 then "SIGINT"
  else if signum =? 15 then "SIGTERM"
  else if signum =? 3 then "SIGQUIT"
  else if signum =? 1 then "SIGHUP"
  else "UNKNOWN SIGNAL".

Record config := mkConfig {
  entity : EntityKind;
  config_x : Z;
  config_y : Z;
}.

Definition EXIT_SUCCESS : Z := 0.
Definition EXIT_FAILURE : Z := 1.

(** A computation that may end the program ([std::exit] in [print_help]). *)
Inductive outcome (A : Type) := Exit (return_code : Z) | Return (v : A).
Arguments Exit {A}.
Arguments Return {A}.

#[export] Instance outcome_bind : MBind outcome := fun A B f o =>
  match o with Exit c => Exit c | Return v => f v end.

Definition print_help {A} (return_code : Z) : outcome A := Exit return_code.

(** [std::stoi]: white space, a sign, digits up to the first other character. *)
Inductive stoi_result := Value (v : Z) | InvalidArgument | OutOfRange.

Definition is_space (c : Ascii.ascii) : bool :=
  let n := Ascii.N_of_ascii c in ((n =? 32) || ((9 <=? n) && (n <=? 13)))%N.
Definition digit (c : Ascii.ascii) : option Z :=
  let n := Z.of_N (Ascii.N_of_ascii c) in
  if (48 <=? n) && (n <=? 57) then Some (n - 48) else None.

Fixpoint skip_spaces (s : string) : string :=
  match s with
  | String c s' => if is_space c then skip_spaces s' else s
  | EmptyString => s
  end.

Fixpoint digits (acc : Z) (s : string) : Z :=
  match s with
  | String c s' => match digit c with Some d => digits (10 * acc + d) s' | None => acc end
  | EmptyString => acc
  end.

Definition starts_with_digit (s : string) : bool :=
  match s with String c _ => bool_decide (is_Some (digit c)) | EmptyString => false end.

Definition split_sign (s : string) : Z * string :=
  match s with
  | String c s' =>
      if (Ascii.N_of_ascii c =? 45)%N then (-1, s')
      else if (Ascii.N_of_ascii c =? 43)%N then (1, s') else (1, s)
  | EmptyString => (1, s)
  end.

Definition stoi (arg : string) : stoi_result :=
  let '(sign, s) := split_sign (skip_spaces arg) in
  if starts_with_digit s then
    let v := sign * digits 0 s in if is_int v then Value v else OutOfRange
  else InvalidArgument.

Definition consume_int16_argument (arg : string) : outcome Z :=
  match stoi arg with
  | Value input => if is_int16 input then Return input else print_help EXIT_FAILURE
  | InvalidArgument | OutOfRange => print_help EXIT_FAILURE
  end.

Definition consume_client_arguments (arg2 arg3 : string) (c : config) : outcome config :=
  vx ← consume_int16_argument arg2;
  vy ← consume_int16_argument arg3;
  Return (mkConfig (entity c) vx vy).

Definition is_help (arg : string) : bool :=
  bool_decide (arg = "-h"%string) || bool_decide (arg = "--help"%string).

(** [parse_cli_options]; [argv] starts with the name of the program. *)
Definition parse_cli_options (argv : list string) : outcome config :=
  match argv with
  | _ :: first_argument :: rest =>
      c ← (if bool_decide (first_argument = "server"%string) then Return (mkConfig SERVER 0 0)
           else if bool_decide (first_argument = "client"%string) then Return (mkConfig CLIENT 0 0)
           else if is_help first_argument then print_help EXIT_SUCCESS
           else print_help EXIT_FAILURE);
      if existsb is_help rest then print_help EXIT_SUCCESS
      else match entity c with
        | CLIENT =>
            match rest with
            | [arg2; arg3] => consume_client_arguments arg2 arg3 c
            | _ => print_help EXIT_FAILURE
            end
        | _ => Return c
        end
  | _ => print_help EXIT_FAILURE
  end.

Example parse_example :
  parse_cli_options ["request_reply"; "client"; "2"; "-5"]%string = Return (mkConfig CLIENT 2 (-5)).
Proof. reflexivity. Qed.

(** What follows the digits of an argument is ignored. *)
Example parse_trailing :
  parse_cli_options ["request_reply"; "client"; "2x"; "5.9"]%string = Return (mkConfig CLIENT 2 5).
Proof. reflexivity. Qed.

Example parse_too_large :
  parse_cli_options ["request_reply"; "client"; "2"; "32768"]%string = Exit EXIT_FAILURE.
Proof. reflexivity. Qed.

Example request_text : request_to_string (mkRequest "" DIVISION 2 5) = "2 / 5"%string.
Proof. reflexivity. Qed.

(** ** Arithmetic *)

Lemma is_int16_spec v : is_int16 v = true <-> - 2 ^ 15 <= v <= 2 ^ 15 - 1.
Proof. unfold is_int16. rewrite andb_true_iff, Z.leb_le, Z.leb_le. done. Qed.

Lemma quot_int16 a b : - 2 ^ 15 <= a <= 2 ^ 15 - 1 -> - 2 ^ 15 <= Z.quot a b <= 2 ^ 15.
Proof.
  intros Ha. destruct (decide (b = 0)) as [->|Hb]; [by rewrite Z.quot_0_r_ext by done|].
  pose proof (Z.quot_abs a b Hb) as E.
  assert (Z.quot (Z.abs a) (Z.abs b) <= Z.abs a) as H1.
  { destruct (decide (Z.abs b = 1)) as [E1|]; [rewrite E1, Z.quot_1_r; lia|].
    destruct (decide (Z.abs a = 0)) as [E0|]; [rewrite E0, Z.quot_0_l; lia|].
    pose proof (Z.quot_lt (Z.abs a) (Z.abs b)). lia. }
  lia.
Qed.

(** The operation on exact integers; [None] where the service has no answer. *)
Definition meaning (request : CalculatorRequestType) : option Z :=
  let op := operation request in
  if op =? ADDITION then Some (x request + y request)
  else if op =? SUBTRACTION then Some (x request - y request)
  else if op =? MULTIPLICATION then Some (x request * y request)
  else if (op =? DIVISION) && negb (y request =? 0) then Some (Z.quot (x request) (y request))
  else None.

Lemma calculate_meaning request :
  request_typed request -> calculate request = Some (meaning request).
Proof.
  intros [Hx Hy]. apply is_int16_spec in Hx, Hy.
  unfold calculate, meaning, int_add, int_sub, int_mul, int_div.
  pose proof (quot_int16 (x request) (y request) Hx) as Hq.
  assert (- 2 ^ 30 <= x request * y request <= 2 ^ 30) as Hm by nia.
  rewrite (Z.eqb_sym 0). destruct (y request =? 0);
    rewrite ?andb_false_r, ?andb_true_r; cbn;
    repeat case_match; try done; rewrite chk_int_ok; unfold INT_MIN, INT_MAX; cbn; try lia; done.
Qed.

(** ** Decimal numbers *)

Lemma digit_pretty d : (d < 10)%N -> digit (pretty_N_char d) = Some (Z.of_N d).
Proof.
  intros Hd. assert (d ∈ [0; 1; 2; 3; 4; 5; 6; 7; 8; 9]%N) as Hin.
  { destruct (decide (d = 9%N)); [set_solver|]. destruct (decide (d = 8%N)); [set_solver|].
    destruct (decide (d = 7%N)); [set_solver|]. destruct (decide (d = 6%N)); [set_solver|].
    destruct (decide (d = 5%N)); [set_solver|]. destruct (decide (d = 4%N)); [set_solver|].
    destruct (decide (d = 3%N)); [set_solver|]. destruct (decide (d = 2%N)); [set_solver|].
    destruct (decide (d = 1%N)); [set_solver|]. assert (d = 0%N) by lia. set_solver. }
  repeat (apply elem_of_cons in Hin as [->|Hin]; [reflexivity|]). by apply elem_of_nil in Hin.
Qed.

Lemma digits_go n s : digits 0 (pretty_N_go n s) = digits (Z.of_N n) s.
Proof.
  revert s. induction (N.lt_wf_0 n) as [n _ IH]; intros s.
  destruct (decide (0 < n)%N) as [Hn|Hn].
  - rewrite pretty_N_go_step by done. rewrite IH by (apply N.div_lt; lia). cbn.
    rewrite digit_pretty by (apply N.mod_lt; lia). f_equal.
    rewrite N2Z.inj_div, N2Z.inj_mod.
    pose proof (Z.div_mod (Z.of_N n) 10 ltac:(lia)) as E. change (Z.of_N 10) with 10. lia.
  - assert (n = 0%N) as -> by lia. by rewrite pretty_N_go_0.
Qed.

Lemma starts_with_digit_go n s :
  (0 < n)%N \/ starts_with_digit s = true -> starts_with_digit (pretty_N_go n s) = true.
Proof.
  revert s. induction (N.lt_wf_0 n) as [n _ IH]; intros s H.
  destruct (decide (0 < n)%N) as [Hn|Hn].
  - rewrite pretty_N_go_step by done. apply IH; [apply N.div_lt; lia|]. right. cbn.
    rewrite digit_pretty by (apply N.mod_lt; lia). done.
  - assert (n = 0%N) as -> by lia. rewrite pretty_N_go_0. destruct H; [lia|done].
Qed.

Lemma digits_pretty_N (n : N) : digits 0 (pretty n) = Z.of_N n.
Proof.
  unfold pretty, pretty_N. case_decide; [by subst|]. by rewrite digits_go.
Qed.

Lemma starts_with_digit_pretty_N (n : N) : starts_with_digit (pretty n) = true.
Proof.
  unfold pretty, pretty_N. case_decide; [done|]. apply starts_with_digit_go. left. lia.
Qed.

(** A text that starts with a digit has no space or sign before its digits. *)
Lemma plain_number s : starts_with_digit s = true -> skip_spaces s = s /\ split_sign s = (1, s).
Proof.
  intros Hd. destruct s as [|c s']; [done|]. cbn in Hd. unfold digit in Hd. cbn.
  destruct ((48 <=? Z.of_N (Ascii.N_of_ascii c)) && (Z.of_N (Ascii.N_of_ascii c) <=? 57)) eqn:E;
    [|done].
  apply andb_prop in E as [E1 E2]. apply Z.leb_le in E1, E2. unfold is_space.
  replace (Ascii.N_of_ascii c =? 32)%N with false by (symmetry; apply N.eqb_neq; lia).
  replace (Ascii.N_of_ascii c <=? 13)%N with false by (symmetry; apply N.leb_gt; lia).
  rewrite andb_false_r. cbn. split; [done|].
  replace (Ascii.N_of_ascii c =? 45)%N with false by (symmetry; apply N.eqb_neq; lia).
  by replace (Ascii.N_of_ascii c =? 43)%N with false by (symmetry; apply N.eqb_neq; lia).
Qed.

Lemma stoi_digits s :
  starts_with_digit s = true ->
  stoi s = if is_int (digits 0 s) then Value (digits 0 s) else OutOfRange.
Proof.
  intros Hd. destruct (plain_number s Hd) as [E1 E2]. unfold stoi. by rewrite E1, E2, Hd, Z.mul_1_l.
Qed.

Lemma stoi_pretty (v : Z) : is_int v = true -> stoi (pretty v) = Value v.
Proof.
  intros Hv. destruct v as [|p|p].
  - reflexivity.
  - change (pretty (Z.pos p)) with (pretty (N.pos p)).
    rewrite stoi_digits by apply starts_with_digit_pretty_N. rewrite digits_pretty_N. cbn [Z.of_N].
    by rewrite Hv.
  - change (pretty (Z.neg p)) with ("-" +:+ pretty (N.pos p))%string.
    unfold stoi. change (skip_spaces ("-" +:+ pretty (N.pos p)))%string with ("-" +:+ pretty (N.pos p))%string.
    change (split_sign ("-" +:+ pretty (N.pos p)))%string with (-1, pretty (N.pos p)).
    cbv beta iota. rewrite starts_with_digit_pretty_N, digits_pretty_N.
    change (-1 * Z.of_N (N.pos p)) with (Z.neg p). by rewrite Hv.
Qed.

Lemma consume_pretty (v : Z) : is_int16 v = true -> consume_int16_argument (pretty v) = Return v.
Proof.
  intros Hv. unfold consume_int16_argument. rewrite stoi_pretty; [by rewrite Hv|].
  apply is_int16_spec in Hv. apply is_int_spec. unfold INT_MIN, INT_MAX. lia.
Qed.

Lemma consume_int16_range arg v : consume_int16_argument arg = Return v -> is_int16 v = true.
Proof. unfold consume_int16_argument. split_guards; intros [= <-]; done. Qed.

(** A printed number is not an option. *)
Lemma pretty_not_help (v : Z) : is_int v = true -> is_help (pretty v) = false.
Proof.
  intros Hv. pose proof (stoi_pretty v Hv) as E. unfold is_help.
  apply orb_false_iff; split; apply bool_decide_eq_false_2; intros Eq; rewrite Eq in E; discriminate.
Qed.

(** ** Properties *)

(** C37: [ServerApp::calculate] never overflows: for 16-bit operands it is defined for each
    operation, and its 32-bit result is the exact sum, difference, product or truncated
    quotient; it fails exactly for a zero divisor and for a number that is no operation. *)
Theorem calculate_spec request :
  request_typed request ->
  calculate request = Some (meaning request) /\
  (meaning request = None <->
     (operation request = DIVISION /\ y request = 0) \/
     ~ (ADDITION <= operation request <= DIVISION)) /\
  (forall r, meaning request = Some r -> - 2 ^ 30 <= r <= 2 ^ 30).
Proof.
  intros Ht. split; [by apply calculate_meaning|].
  destruct Ht as [Hx Hy]. apply is_int16_spec in Hx, Hy.
  pose proof (quot_int16 (x request) (y request) Hx) as Hq.
  unfold meaning, ADDITION, SUBTRACTION, MULTIPLICATION, DIVISION. split.
  - repeat case_match; zbool; split; try done; try lia.
    all: intros _; match goal with
      | H : _ && _ = false |- _ => apply andb_false_iff in H as [H|H]; [zbool; lia|]
      end.
    all: apply negb_false_iff in H2; zbool; lia.
  - intros r. repeat case_match; intros [= <-]; zbool; nia.
Qed.

Lemma calculate_spec_witness :
  calculate (mkRequest "" DIVISION (-32768) (-1)) = Some (Some 32768).
Proof.
  destruct (calculate_spec (mkRequest "" DIVISION (-32768) (-1))) as [H _]; [split; reflexivity|].
  exact H.
Defined.

(** The command line of a client and the printing of numbers are inverse: what
    [parse_cli_options] reads from two printed 16-bit numbers are these numbers; and whatever
    it accepts, the numbers it returns have 16 bits. *)
Theorem cli_roundtrip :
  (forall name (vx vy : Z), is_int16 vx = true -> is_int16 vy = true ->
     parse_cli_options [name; "client"%string; pretty vx; pretty vy] =
       Return (mkConfig CLIENT vx vy)) /\
  (forall argv c, parse_cli_options argv = Return c ->
     is_int16 (config_x c) = true /\ is_int16 (config_y c) = true /\ entity c <> UNDEFINED).
Proof.
  assert (forall v, is_int16 v = true -> is_int v = true) as H16.
  { intros v Hv. apply is_int16_spec in Hv. apply is_int_spec. unfold INT_MIN, INT_MAX. lia. }
  split.
  - intros name vx vy Hx Hy. unfold parse_cli_options. cbn [mbind outcome_bind].
    rewrite bool_decide_eq_false_2 by done. rewrite bool_decide_eq_true_2 by done.
    cbn [existsb entity]. rewrite !pretty_not_help by auto. cbn [orb].
    unfold consume_client_arguments. rewrite !consume_pretty by done. done.
  - intros argv c H. unfold parse_cli_options, consume_client_arguments, print_help in H.
    destruct argv as [|a0 [|a1 rest]]; [done..|].
    unfold mbind, outcome_bind in H. split_guards; try done.
    repeat match goal with
    | E : consume_int16_argument _ = Return _ |- _ => apply consume_int16_range in E
    end. done.
Qed.

(** The books of matched peers: a peer counts as matched iff both its endpoints are, the
    test that is called [is_fully_unmatched] is true iff at least one of them is (the opposite
    of its name), [no_client_matched] iff no endpoint of any client is, and setting one bit
    changes nothing else. *)
Theorem matched_status_spec m p :
  (is_matched p m = true <-> m !! p = Some (true, true)) /\
  (is_fully_unmatched p m = true <-> exists s, m !! p = Some s /\ any s = true) /\
  (no_client_matched m = true <-> forall q, is_fully_unmatched q m = false) /\
  (is_any_server_matched m = true <-> exists q, is_server_matched q m = true) /\
  (forall b q, q <> p -> match_request_writer p b m !! q = m !! q /\
     match_reply_reader p b m !! q = m !! q) /\
  (forall b1 b2, match_reply_reader p b2 (match_request_writer p b1 m) !! p = Some (b1, b2)).
Proof.
  split_and!.
  - unfold is_matched. destruct (m !! p) as [[[] []]|]; cbn; split; congruence.
  - unfold is_fully_unmatched. destruct (m !! p) as [s|]; [|naive_solver].
    unfold none. rewrite negb_involutive. naive_solver.
  - unfold no_client_matched. rewrite negb_true_iff, <- not_true_iff_false, existsb_exists. split.
    + intros Hn q. unfold is_fully_unmatched. destruct (m !! q) as [s|] eqn:E; [|done].
      unfold none. rewrite negb_involutive. apply not_true_iff_false. intros Ha. apply Hn.
      exists (q, s). split; [|done]. by apply list_elem_of_In, elem_of_map_to_list.
    + intros H ([q s] & Hin & Ha). apply list_elem_of_In, elem_of_map_to_list in Hin.
      specialize (H q). unfold is_fully_unmatched, none in H. rewrite Hin, negb_involutive in H.
      cbn in Ha. congruence.
  - unfold is_any_server_matched. rewrite existsb_exists. split.
    + intros ([q s] & Hin & Ha). apply list_elem_of_In, elem_of_map_to_list in Hin.
      exists q. unfold is_server_matched. by rewrite Hin.
    + intros [q Hq]. unfold is_server_matched in Hq. destruct (m !! q) as [s|] eqn:E; [|done].
      exists (q, s). split; [|done]. by apply list_elem_of_In, elem_of_map_to_list.
  - intros b q Hq. unfold match_request_writer, match_reply_reader, update_status.
    by rewrite !lookup_insert_ne by done.
  - intros. unfold match_request_writer, match_reply_reader, update_status.
    rewrite !lookup_insert_eq. done.
Qed.

End Calculator.
