(* ===== verification/RequestServer.v ===== *)
(** The server of the calculator service ([ServerApp.cpp]): the listener callbacks, which run
    on threads of the DDS library, the reply thread, and the queue of requests between them.
    A step is one critical section of the mutex or one call of the library.  The reply thread
    reads the request object in several places of its critical section, and
    [take_next_sample] writes it without the mutex, so that samples may be taken between
    these reads; no other step falls into the turn, as all others need the mutex or touch nothing
    that it uses. *)
From S2P Require Import Prelude Calculator.

Module RequestServer.
Import Calculator.

(** What the code reads of a [SampleInfo]: whether the instance is alive, whether there is
    data, the writer that sent the sample ([iHandle2GUID(publication_handle)]), the sample's
    identity and the identity of the sample it answers. *)
Record SampleInfo := mkInfo {
  instance_alive : bool;
  valid_data : bool;
  publication_handle : GUID_t;
  sample_identity : SampleIdentity;
  related_sample_identity : SampleIdentity;
}.

Record sample (A : Type) := mkSample { info : SampleInfo; data : A }.
Arguments mkSample {A}.
Arguments info {A}.
Arguments data {A}.

(** An element of the queue: the [shared_ptr] is the address of a request object. *)
Record Request := mkQueued { req_info : SampleInfo; request : nat }.

(** The server.  [objects] are the request objects behind the shared pointers; [callback] is
    the [on_data_available] that is running, with its object and the information of a sample
    that is taken and not yet queued; [reader] is what the library holds for the reader;
    [replying] says that the reply thread has not ended. *)
Record server := mkServer {
  stop_ : bool;
  client_matched_status_ : status_map;
  requests_ : list Request;
  objects : gmap nat CalculatorRequestType;
  next_object : nat;
  callback : option (nat * option SampleInfo);
  reader : list (sample CalculatorRequestType);
  replying : bool;
}.

Definition initial : server := mkServer false ∅ [] ∅ 0 None [] true.

(** What a step shows: whether a discovered participant is ignored; the data of a sample
    taken into an object; a queued request; what the reply thread did with a request (the client is
    gone, the client is not matched yet, no result, a reply handed to the writer with the
    writer's answer); the writer's history cleared; arithmetic without a result. *)
Inductive event :=
| EIgnore (b : bool)
| ETaken (obj : nat) (s : sample CalculatorRequestType)
| EQueued (r : Request)
| EGone (r : Request)
| ELater (r : Request)
| EFailed (r : Request)
| EReply (reply : CalculatorReplyType) (related : SampleIdentity) (ok : bool)
| EClearHistory
| EInvalidChange (change : Z)
| EUndefined (r : Request).

(** Which client sent a request. *)
Definition client_of (r : Request) : GuidPrefix_t := guidPrefix (publication_handle (req_info r)).

Definition set_status (m : status_map) (s : server) : server :=
  mkServer (stop_ s) m (requests_ s) (objects s) (next_object s) (callback s) (reader s) (replying s).
Definition set_requests (l : list Request) (s : server) : server :=
  mkServer (stop_ s) (client_matched_status_ s) l (objects s) (next_object s) (callback s)
    (reader s) (replying s).
Definition set_callback (c : option (nat * option SampleInfo)) (s : server) : server :=
  mkServer (stop_ s) (client_matched_status_ s) (requests_ s) (objects s) (next_object s) c
    (reader s) (replying s).
Definition set_replying (b : bool) (s : server) : server :=
  mkServer (stop_ s) (client_matched_status_ s) (requests_ s) (objects s) (next_object s)
    (callback s) (reader s) b.

(** [stop] *)
Definition stop (s : server) : server :=
  mkServer true (client_matched_status_ s) (requests_ s) (objects s) (next_object s) (callback s)
    (reader s) (replying s).

(** [on_participant_discovery]: is the participant to be ignored, and the new state. *)
Definition on_participant_discovery (status : ParticipantDiscoveryStatus)
    (remote : GuidPrefix_t) (user_data : list Z) (s : server) : server * list event :=
  match user_data with
  | [octet] =>
      match entity_of_octet octet with
      | CLIENT =>
          match status with
          | REMOVED_PARTICIPANT | DROPPED_PARTICIPANT =>
              (set_status (match_request_writer remote false
                 (match_reply_reader remote false (client_matched_status_ s))) s, [EIgnore false])
          | _ => (s, [EIgnore false])
          end
      | _ => (s, [EIgnore true])
      end
  | _ => (s, [EIgnore true])
  end.

(** [on_publication_matched] and [on_subscription_matched], which differ in the bit. *)
Definition matched_with (bit : GuidPrefix_t -> bool -> status_map -> status_map)
    (current_count_change : Z) (handle : GUID_t) (s : server) : server * list event :=
  let client := guidPrefix handle in
  if current_count_change =? 1 then
    (set_status (bit client true (client_matched_status_ s)) s, [])
  else if current_count_change =? -1 then
    let m := bit client false (client_matched_status_ s) in
    (set_status m s, if no_client_matched m then [EClearHistory] else [])
  else (s, [EInvalidChange current_count_change]).

Definition on_publication_matched : Z -> GUID_t -> server -> server * list event :=
  matched_with match_reply_reader.
Definition on_subscription_matched : Z -> GUID_t -> server -> server * list event :=
  matched_with match_request_writer.

(** [on_data_available], first statement: one request object for the whole call. *)
Definition on_data_available (s : server) : server * list event :=
  match callback s with
  | None =>
      (mkServer (stop_ s) (client_matched_status_ s) (requests_ s)
         (<[next_object s := default_request]> (objects s)) (S (next_object s))
         (Some (next_object s, None)) (reader s) (replying s), [])
  | Some _ => (s, [])
  end.

(** The test of its loop and [take_next_sample], which writes into the object. *)
Definition take_request (s : server) : server * list event :=
  match callback s with
  | Some (obj, None) =>
      if stop_ s then (set_callback None s, [])
      else match reader s with
        | [] => (set_callback None s, [])
        | smp :: rest =>
            let i := info smp in
            let objs := if valid_data i then <[obj := data smp]> (objects s) else objects s in
            let queue := instance_alive i && valid_data i in
            (mkServer (stop_ s) (client_matched_status_ s) (requests_ s) objs (next_object s)
               (Some (obj, if queue then Some i else None)) rest (replying s),
             if valid_data i then [ETaken obj smp] else [])
        end
  | _ => (s, [])
  end.

(** The body of its loop: [requests_.push({info, request})] under the mutex. *)
Definition push_request (s : server) : server * list event :=
  match callback s with
  | Some (obj, Some i) =>
      (set_callback (Some (obj, None)) (set_requests (requests_ s ++ [mkQueued i obj]) s),
       [EQueued (mkQueued i obj)])
  | _ => (s, [])
  end.

(** [n] tests and takes one after the other *)
Fixpoint takes (n : nat) (s : server) : server * list event :=
  match n with
  | O => (s, [])
  | S n => let '(s1, e1) := take_request s in let '(s2, e2) := takes n s1 in (s2, e1 ++ e2)
  end.

(** How many takes are done before the reply thread reads the operation, tests the divisor, reads
    the second number, the first and the client *)
Record reads := mkReads { r_operation : nat; r_tested : nat; r_y : nat; r_x : nat; r_client_id : nat }.
Definition at_once : reads := mkReads 0 0 0 0 0.
Definition turn_takes (k : reads) : nat :=
  Nat.max (r_operation k) (Nat.max (r_tested k) (Nat.max (r_y k) (Nat.max (r_x k) (r_client_id k)))).

Definition object_after (n : nat) (r : Request) (s : server) : CalculatorRequestType :=
  default default_request (objects (takes n s).1 !! request r).

(** The request as the reply thread sees it, and the second number that it tests *)
Definition seen (k : reads) (r : Request) (s : server) : CalculatorRequestType :=
  mkRequest (client_id (object_after (r_client_id k) r s)) (operation (object_after (r_operation k) r s))
    (x (object_after (r_x k) r s)) (y (object_after (r_y k) r s)).
Definition tested (k : reads) (r : Request) (s : server) : Z := y (object_after (r_tested k) r s).

(** [calculate] on such a request *)
Definition calculate_seen (divisor : Z) (d : CalculatorRequestType) : option (option Z) :=
  let op := operation d in
  if op =? ADDITION then Some <$> int_add (x d) (y d)
  else if op =? SUBTRACTION then Some <$> int_sub (x d) (y d)
  else if op =? MULTIPLICATION then Some <$> int_mul (x d) (y d)
  else if op =? DIVISION then
    if 0 =? divisor then Some None else Some <$> int_div (x d) (y d)
  else Some None.

(** What [reply_routine] does with the request it has popped; [write_ok] is the answer of
    [reply_writer_->write]. *)
Definition process_request (write_ok : bool) (k : reads) (r : Request) (s : server) : server * list event :=
  if negb (is_fully_unmatched (client_of r) (client_matched_status_ s)) then (s, [EGone r])
  else if negb (is_matched (client_of r) (client_matched_status_ s)) then
    (set_requests (requests_ s ++ [r]) s, [ELater r])
  else
    let d := seen k r s in
    let '(s1, evs) := takes (turn_takes k) s in
    match calculate_seen (tested k r s) d with
    | None => (set_replying false s1, evs ++ [EUndefined r])
    | Some None => (s1, evs ++ [EFailed r])
    | Some (Some res) =>
        (if write_ok then s1 else set_requests (requests_ s1 ++ [r]) s1,
         evs ++ [EReply (mkReply (client_id d) res) (sample_identity (req_info r)) write_ok])
    end.

(** One turn of the loop of [reply_routine]; with nothing to do it waits. *)
Definition reply_routine_iter (write_ok : bool) (k : reads) (s : server) : server * list event :=
  if negb (replying s) then (s, [])
  else if stop_ s then (set_replying false s, [])
  else match requests_ s with
    | [] => (s, [])
    | r :: rest => process_request write_ok k r (set_requests rest s)
    end.

(** Who moves: the library (discovery, matching, a sample for the reader, the start of
    [on_data_available]), the callback, the reply thread (alone for its turn, or with takes between
    its reads), [stop]. *)
Inductive op :=
| Discovery (status : ParticipantDiscoveryStatus) (remote : GuidPrefix_t) (user_data : list Z)
| PublicationMatched (change : Z) (handle : GUID_t)
| SubscriptionMatched (change : Z) (handle : GUID_t)
| Deliver (smp : sample CalculatorRequestType)
| DataAvailable
| Take
| Push
| ReplyIter (write_ok : bool)
| ReplyRace (write_ok : bool) (k : reads)
| Stop.

Definition deliver (smp : sample CalculatorRequestType) (s : server) : server :=
  mkServer (stop_ s) (client_matched_status_ s) (requests_ s) (objects s) (next_object s)
    (callback s) (reader s ++ [smp]) (replying s).

Definition exec (o : op) (s : server) : server * list event :=
  match o with
  | Discovery status remote user_data => on_participant_discovery status remote user_data s
  | PublicationMatched change handle => on_publication_matched change handle s
  | SubscriptionMatched change handle => on_subscription_matched change handle s
  | Deliver smp => (deliver smp s, [])
  | DataAvailable => on_data_available s
  | Take => take_request s
  | Push => push_request s
  | ReplyIter write_ok => reply_routine_iter write_ok at_once s
  | ReplyRace write_ok k => reply_routine_iter write_ok k s
  | Stop => (stop s, [])
  end.

(** [~ServerApp] after the reply thread has ended: the pending requests and the books are
    dropped. *)
Definition dtor (s : server) : option server :=
  if replying s then None
  else Some (set_status ∅ (set_requests [] s)).

(** ** Frames: the guarded operations, case by case *)

Lemma discovery_frame status remote ud s :
  exists m b, on_participant_discovery status remote ud s = (set_status m s, [EIgnore b]).
Proof.
  unfold on_participant_discovery. destruct s.
  repeat case_match; simplify_eq; by eexists _, _.
Qed.

Lemma matched_frame bit change h s :
  exists m evs, matched_with bit change h s = (set_status m s, evs) /\
    (forall e, e ∈ evs -> e = EClearHistory \/ e = EInvalidChange change).
Proof.
  unfold matched_with. destruct s.
  repeat case_match; (eexists _, _; split; [reflexivity|]); set_solver.
Qed.

Lemma take_frame s :
  client_matched_status_ (take_request s).1 = client_matched_status_ s /\
  requests_ (take_request s).1 = requests_ s /\ replying (take_request s).1 = replying s /\
  forall e, e ∈ (take_request s).2 -> exists obj smp, e = ETaken obj smp.
Proof.
  unfold take_request. destruct (callback s) as [[obj [i|]]|]; [split_and!; try done; set_solver| |split_and!; try done; set_solver].
  destruct (stop_ s); [split_and!; try done; set_solver|].
  destruct (reader s) as [|smp rest]; [split_and!; try done; set_solver|]. cbn. split_and!; try done.
  intros e H. destruct (valid_data _); [|by apply not_elem_of_nil in H]. apply list_elem_of_singleton in H as ->. eauto.
Qed.

Lemma takes_frame n s :
  client_matched_status_ (takes n s).1 = client_matched_status_ s /\
  requests_ (takes n s).1 = requests_ s /\ replying (takes n s).1 = replying s /\
  forall e, e ∈ (takes n s).2 -> exists obj smp, e = ETaken obj smp.
Proof.
  revert s. induction n as [|n IH]; intros s; [split_and!; try done; set_solver|]. cbn [takes].
  destruct (take_frame s) as (H1 & H2 & H3 & H4). destruct (take_request s) as [s1 e1]. cbn [fst snd] in *.
  destruct (IH s1) as (I1 & I2 & I3 & I4). destruct (takes n s1) as [s2 e2]. cbn [fst snd] in *.
  split_and!; try congruence. intros e [He|He]%elem_of_app; auto.
Qed.

(** An invariant of takes holds after any number of them. *)
Lemma takes_inv (P : server -> list event -> Prop) :
  (forall s evs, P s evs -> P (take_request s).1 (evs ++ (take_request s).2)) ->
  forall n s evs, P s evs -> P (takes n s).1 (evs ++ (takes n s).2).
Proof.
  intros Hstep n. induction n as [|n IH]; intros s evs H; cbn [takes]; [by rewrite app_nil_r|].
  specialize (Hstep s evs H). destruct (take_request s) as [s1 e1]. cbn [fst snd] in *.
  specialize (IH s1 _ Hstep). destruct (takes n s1) as [s2 e2]. cbn [fst snd] in *. by rewrite app_assoc.
Qed.

Lemma takes_prefix a b s : (a <= b)%nat -> exists evs, (takes b s).2 = (takes a s).2 ++ evs.
Proof.
  revert b s. induction a as [|a IH]; intros b s H; [by exists (takes b s).2|].
  destruct b as [|b]; [lia|]. cbn [takes]. destruct (take_request s) as [s1 e1].
  destruct (IH b s1) as [evs E]; [lia|]. destruct (takes a s1), (takes b s1). cbn in *. subst.
  exists evs. by rewrite app_assoc.
Qed.

Lemma seen_at_once r s :
  seen at_once r s = default default_request (objects s !! request r) /\
  calculate_seen (tested at_once r s) (seen at_once r s) = calculate (default default_request (objects s !! request r)).
Proof. unfold seen, tested, object_after. cbn. by destruct (default _ _). Qed.

(** What [process_request] can do, as a case distinction. *)
Inductive processed (k : reads) (r : Request) (s : server) : bool -> server * list event -> Prop :=
| p_gone ok :
    is_fully_unmatched (client_of r) (client_matched_status_ s) = false ->
    processed k r s ok (s, [EGone r])
| p_later ok :
    is_fully_unmatched (client_of r) (client_matched_status_ s) = true ->
    is_matched (client_of r) (client_matched_status_ s) = false ->
    processed k r s ok (set_requests (requests_ s ++ [r]) s, [ELater r])
| p_undefined ok :
    calculate_seen (tested k r s) (seen k r s) = None ->
    processed k r s ok (set_replying false (takes (turn_takes k) s).1, (takes (turn_takes k) s).2 ++ [EUndefined r])
| p_failed ok :
    calculate_seen (tested k r s) (seen k r s) = Some None ->
    is_matched (client_of r) (client_matched_status_ s) = true ->
    processed k r s ok ((takes (turn_takes k) s).1, (takes (turn_takes k) s).2 ++ [EFailed r])
| p_reply ok res :
    calculate_seen (tested k r s) (seen k r s) = Some (Some res) ->
    is_matched (client_of r) (client_matched_status_ s) = true ->
    processed k r s ok
      (let s1 := (takes (turn_takes k) s).1 in if ok then s1 else set_requests (requests_ s1 ++ [r]) s1,
       (takes (turn_takes k) s).2 ++ [EReply (mkReply (client_id (seen k r s)) res) (sample_identity (req_info r)) ok]).

Lemma process_request_cases ok k r s : processed k r s ok (process_request ok k r s).
Proof.
  unfold process_request.
  destruct (is_fully_unmatched _ _) eqn:E1; cbn [negb]; [|by apply p_gone].
  destruct (is_matched _ _) eqn:E2; cbn [negb]; [|by apply p_later].
  pose proof (p_undefined k r s ok). pose proof (p_failed k r s ok). pose proof (p_reply k r s ok).
  cbv zeta in *. destruct (takes (turn_takes k) s) as [s1 evs]. cbn [fst snd] in *.
  destruct (calculate_seen _ _) as [[res|]|]; auto.
Qed.

Lemma matched_not_gone p m : is_matched p m = true -> is_fully_unmatched p m = true.
Proof. unfold is_matched, is_fully_unmatched. by destruct (m !! p) as [[[] []]|]. Qed.

(** ** Where replies come from *)

(** Samples taken into the same object are taken in the same [on_data_available]. *)
Definition taken_alone (evs : list event) : Prop :=
  forall obj s1 s2, ETaken obj s1 ∈ evs -> ETaken obj s2 ∈ evs -> s1 = s2.

Definition taken (obj : nat) (i : SampleInfo) (evs : list event) : Prop :=
  exists smp, ETaken obj smp ∈ evs /\ info smp = i.

(** A request each field of which is that of a sample taken into [obj], and so is the tested
    divisor *)
Definition mixed (obj : nat) (d : CalculatorRequestType) (divisor : Z) (evs : list event) : Prop :=
  exists a b c e f, Forall (fun smp => ETaken obj smp ∈ evs) [a; b; c; e; f] /\
    d = mkRequest (client_id (data a)) (operation (data b)) (x (data c)) (y (data e)) /\ divisor = y (data f).

Definition justified (reply : CalculatorReplyType) (related : SampleIdentity) (evs : list event) : Prop :=
  exists obj s1 d divisor, ETaken obj s1 ∈ evs /\ sample_identity (info s1) = related /\ mixed obj d divisor evs /\
    reply_client_id reply = client_id d /\ calculate_seen divisor d = Some (Some (result reply)).

(** With one sample per object there is nothing to mix. *)
Lemma justified_alone reply rel evs :
  taken_alone evs -> justified reply rel evs ->
  exists obj smp, ETaken obj smp ∈ evs /\ sample_identity (info smp) = rel /\
    reply_client_id reply = client_id (data smp) /\ calculate (data smp) = Some (Some (result reply)).
Proof.
  intros Ha (obj & s1 & d & v & H1 & Hi & (a & b & c & e & f & Hall & -> & ->) & Hc & Hr). rewrite !Forall_cons in Hall.
  destruct Hall as (Ea & Eb & Ec & Ee & Ef & _).
  rewrite (Ha obj a s1), (Ha obj b s1), (Ha obj c s1), (Ha obj e s1), (Ha obj f s1) in * by done. by exists obj, s1.
Qed.

Lemma taken_mono obj i evs evs' : taken obj i evs -> taken obj i (evs ++ evs').
Proof. intros (smp & H & E). exists smp. split; [apply elem_of_app; by left|done]. Qed.

Lemma justified_mono reply rel evs evs' : justified reply rel evs -> justified reply rel (evs ++ evs').
Proof.
  intros (obj & s1 & d & v & H1 & Hi & (a & b & c & e & f & Hall & Hd & Hv) & H). exists obj, s1, d, v.
  split; [apply elem_of_app; by left|]. split; [done|]. split; [|done]. exists a, b, c, e, f. split; [|done].
  eapply Forall_impl; [exact Hall|]. intros smp Hs. apply elem_of_app. by left.
Qed.

Record traced (s : server) (evs : list event) : Prop := {
  tr_fresh : forall obj smp, ETaken obj smp ∈ evs -> (obj < next_object s)%nat;
  tr_current : forall obj smp, ETaken obj smp ∈ evs ->
    exists smp', ETaken obj smp' ∈ evs /\ objects s !! obj = Some (data smp');
  tr_queue : forall r, r ∈ requests_ s -> taken (request r) (req_info r) evs;
  tr_callback : forall obj i, callback s = Some (obj, Some i) -> taken obj i evs;
  tr_object : forall obj i, callback s = Some (obj, i) -> (obj < next_object s)%nat;
  tr_reply : forall reply rel ok, EReply reply rel ok ∈ evs -> justified reply rel evs;
}.

#[local] Hint Resolve taken_mono justified_mono : cppdb.

(** Steps that touch neither the objects nor the callback, and whose events are neither
    taken samples nor replies. *)
Definition quiet (e : event) : bool :=
  match e with ETaken _ _ | EReply _ _ _ => false | _ => true end.

Lemma elem_quiet (evs evs' : list event) e :
  forallb quiet evs' = true -> quiet e = false -> e ∈ evs ++ evs' -> e ∈ evs.
Proof.
  intros Hq He [H|H]%elem_of_app; [done|]. rewrite forallb_forall in Hq.
  apply list_elem_of_In, Hq in H. congruence.
Qed.

Lemma traced_quiet s s' evs evs' :
  traced s evs -> forallb quiet evs' = true ->
  objects s' = objects s -> next_object s' = next_object s ->
  (callback s' = callback s \/ exists obj i, callback s = Some (obj, i) /\ callback s' = Some (obj, None)
     \/ callback s' = None) ->
  (forall r, r ∈ requests_ s' -> r ∈ requests_ s \/ taken (request r) (req_info r) evs) ->
  traced s' (evs ++ evs').
Proof.
  intros [T1 T2 T3 T4 T5 T6] Hq Eo En Hc Hr.
  assert (forall o smp, ETaken o smp ∈ evs ++ evs' -> ETaken o smp ∈ evs) as HT
    by (intros; by eapply elem_quiet).
  split.
  - rewrite En. eauto.
  - intros o smp H. destruct (T2 o smp (HT _ _ H)) as (smp' & H' & E). exists smp'.
    rewrite Eo. split; [apply elem_of_app; by left|done].
  - intros r H. destruct (Hr r H); eauto with cppdb.
  - intros o i E. destruct Hc as [Hc|(o' & i' & [[_ Hc]|Hc])]; [|congruence|congruence].
    rewrite Hc in E. eauto with cppdb.
  - intros o i E. rewrite En. destruct Hc as [Hc|(o' & i' & [[E' Hc]|Hc])]; [| |congruence].
    + rewrite Hc in E. eauto.
    + rewrite Hc in E. injection E as -> _. eauto.
  - intros reply rel ok H. apply elem_quiet in H; [|done..]. eauto with cppdb.
Qed.

Ltac keep_quiet :=
  eapply traced_quiet; [eassumption|try reflexivity|reflexivity|reflexivity|cbn|cbn].

Lemma traced_reply s s' evs reply rel ok :
  traced s evs -> justified reply rel evs ->
  objects s' = objects s -> next_object s' = next_object s -> callback s' = callback s ->
  (forall r, r ∈ requests_ s' -> r ∈ requests_ s \/ taken (request r) (req_info r) evs) ->
  traced s' (evs ++ [EReply reply rel ok]).
Proof.
  intros [T1 T2 T3 T4 T5 T6] Hj Eo En Hc Hr.
  assert (forall o smp, ETaken o smp ∈ evs ++ [EReply reply rel ok] -> ETaken o smp ∈ evs) as HT.
  { intros o smp [H|H]%elem_of_app; [done|]. by apply list_elem_of_singleton in H. }
  split.
  - rewrite En. eauto.
  - intros o smp H. destruct (T2 o smp (HT _ _ H)) as (smp' & H' & E). exists smp'.
    rewrite Eo. split; [apply elem_of_app; by left|done].
  - intros r H. destruct (Hr r H); eauto with cppdb.
  - rewrite Hc. eauto with cppdb.
  - rewrite Hc, En. eauto.
  - intros reply' rel' ok' [H|H]%elem_of_app; [eauto with cppdb|].
    apply list_elem_of_singleton in H. simplify_eq. eauto with cppdb.
Qed.

Lemma traced_take s evs :
  traced s evs -> traced (take_request s).1 (evs ++ (take_request s).2).
Proof.
  intros T. unfold take_request.
  destruct (callback s) as [[o [i|]]|] eqn:Ec; [by keep_quiet; auto| |by keep_quiet; auto].
  destruct (stop_ s); [by keep_quiet; [right; exists o, None; auto|auto]|].
  destruct (reader s) as [|smp rest] eqn:Er;
    [by keep_quiet; [right; exists o, None; auto|auto]|].
  destruct (valid_data (info smp)) eqn:Ev; rewrite ?andb_true_r, ?andb_false_r;
    [|by keep_quiet; [right; exists o, None; auto|auto]].
  destruct T as [T1 T2 T3 T4 T5 T6]. pose proof (T5 _ _ Ec) as Hlt. cbn.
  assert (forall o' smp', ETaken o' smp' ∈ evs ++ [ETaken o smp] ->
            ETaken o' smp' ∈ evs \/ o' = o /\ smp' = smp) as HT.
  { intros o' smp' [H|H]%elem_of_app; [by left|]. apply list_elem_of_singleton in H. naive_solver. }
  assert (ETaken o smp ∈ evs ++ [ETaken o smp]) as Hnew.
  { apply elem_of_app; right; by apply list_elem_of_singleton. }
  split; cbn.
  - intros o' smp' [H|[-> ->]]%HT; eauto.
  - intros o' smp' H. destruct (decide (o' = o)) as [->|Hne].
    + exists smp. by rewrite lookup_insert_eq.
    + rewrite lookup_insert_ne by done. destruct (HT _ _ H) as [H'|[? _]]; [|done].
      destruct (T2 _ _ H') as (smp'' & ? & ?). exists smp''. split; [apply elem_of_app; by left|done].
  - eauto with cppdb.
  - intros o' i. destruct (instance_alive (info smp)); [|done]. intros [= <- <-]. by exists smp.
  - intros o' i [= <- _]. done.
  - intros reply rel ok [H|H]%elem_of_app; [eauto with cppdb|]. by apply list_elem_of_singleton in H.
Qed.

Lemma traced_takes n s evs : traced s evs -> traced (takes n s).1 (evs ++ (takes n s).2).
Proof. apply (takes_inv traced). exact traced_take. Qed.

(** What the reply thread reads of the object of a taken request, however many takes are done before,
    is the data of a sample taken into it. *)
Lemma object_taken n m r s evs i :
  traced s evs -> taken (request r) i evs -> (n <= m)%nat ->
  exists smp, ETaken (request r) smp ∈ evs ++ (takes m s).2 /\ object_after n r s = data smp.
Proof.
  intros T (smp & Hin & _) Hle. destruct (tr_current _ _ (traced_takes n s evs T) (request r) smp) as (smp' & Hin' & Eo).
  - apply elem_of_app. by left.
  - exists smp'. split; [|unfold object_after; by rewrite Eo].
    destruct (takes_prefix n m s Hle) as [evs' ->]. rewrite app_assoc. apply elem_of_app. by left.
Qed.

Lemma seen_mixed k r s evs i :
  traced s evs -> taken (request r) i evs ->
  mixed (request r) (seen k r s) (tested k r s) (evs ++ (takes (turn_takes k) s).2).
Proof.
  intros T Hr. assert (Hget : forall n, (n <= turn_takes k)%nat -> exists smp,
    ETaken (request r) smp ∈ evs ++ (takes (turn_takes k) s).2 /\ object_after n r s = data smp)
    by (intros; by eapply object_taken).
  unfold turn_takes in *.
  destruct (Hget (r_client_id k)) as (a & Ha & Ea); [lia|]. destruct (Hget (r_operation k)) as (b & Hb & Eb); [lia|].
  destruct (Hget (r_x k)) as (c & Hc & Ec); [lia|]. destruct (Hget (r_y k)) as (e & He & Ee); [lia|].
  destruct (Hget (r_tested k)) as (f & Hf & Ef); [lia|]. exists a, b, c, e, f.
  split; [by repeat constructor|]. unfold seen, tested. by rewrite Ea, Eb, Ec, Ee, Ef.
Qed.

Lemma traced_process s k r rest evs ok :
  traced s evs -> requests_ s = r :: rest ->
  traced (process_request ok k r (set_requests rest s)).1
    (evs ++ (process_request ok k r (set_requests rest s)).2).
Proof.
  intros T E. assert (taken (request r) (req_info r) evs) as Hr
    by (apply (tr_queue _ _ T); rewrite E; left).
  assert (traced (set_requests rest s) evs) as T0.
  { rewrite <- (app_nil_r evs). keep_quiet; [auto|]. intros r' H. left. rewrite E. by right. }
  clear T E. set (s0 := set_requests rest s) in *. clearbody s0.
  pose proof (traced_takes (turn_takes k) s0 evs T0) as T1. pose proof (seen_mixed k r s0 evs _ T0 Hr) as Hm.
  assert (taken (request r) (req_info r) (evs ++ (takes (turn_takes k) s0).2)) as Hr1 by auto with cppdb.
  destruct (process_request_cases ok k r s0) as [ok Hu|ok Hu Hn|ok Ec|ok Ec Hn|ok res Ec Hn]; cbn [fst snd]; rewrite ?app_assoc.
  - by keep_quiet; auto.
  - keep_quiet; [auto|]. intros r' [H|H]%elem_of_app; [eauto|]. apply list_elem_of_singleton in H as ->. eauto.
  - by keep_quiet; auto.
  - by keep_quiet; auto.
  - eapply traced_reply; eauto; try (by destruct ok).
    + destruct Hr1 as (smp & Hin & <-). exists (request r), smp, (seen k r s0), (tested k r s0). by split_and!.
    + destruct ok; cbn; [eauto|]. intros r' [H|H]%elem_of_app; [eauto|]. apply list_elem_of_singleton in H as ->. eauto.
Qed.

Lemma traced_turn ok k s evs :
  traced s evs -> traced (reply_routine_iter ok k s).1 (evs ++ (reply_routine_iter ok k s).2).
Proof.
  intros T. unfold reply_routine_iter. destruct (replying s); cbn; [|by keep_quiet; auto].
  destruct (stop_ s); [by keep_quiet; auto|].
  destruct (requests_ s) as [|r rest] eqn:E; [by keep_quiet; auto|].
  by apply traced_process.
Qed.

Lemma traced_step o s evs :
  traced s evs -> traced (exec o s).1 (evs ++ (exec o s).2).
Proof.
  intros T. destruct o as [st rem ud|ch h|ch h|smp| | | |ok|ok k|]; cbn.
  - destruct (discovery_frame st rem ud s) as (m & b & ->). by keep_quiet; auto.
  - unfold on_publication_matched.
    destruct (matched_frame match_reply_reader ch h s) as (m & ev & -> & Hq).
    keep_quiet; auto. apply forallb_forall.
    intros e H. apply list_elem_of_In in H. by destruct (Hq e H) as [->| ->].
  - unfold on_subscription_matched.
    destruct (matched_frame match_request_writer ch h s) as (m & ev & -> & Hq).
    keep_quiet; auto. apply forallb_forall.
    intros e H. apply list_elem_of_In in H. by destruct (Hq e H) as [->| ->].
  - by keep_quiet; auto.
  - unfold on_data_available. destruct (callback s) eqn:Ec; [by keep_quiet; auto|].
    rewrite app_nil_r. destruct T as [T1 T2 T3 T4 T5 T6]. split; cbn; eauto.
    + intros o smp H. specialize (T1 _ _ H). lia.
    + intros o smp H. specialize (T1 _ _ H). rewrite lookup_insert_ne by lia. eauto.
    + done.
    + intros o i [= <- _]. lia.
  - by apply traced_take.
  - unfold push_request. destruct (callback s) as [[o [i|]]|] eqn:Ec; try by keep_quiet; auto.
    keep_quiet.
    + right. exists o, (Some i). auto.
    + intros r [H|H]%elem_of_app; [eauto|]. apply list_elem_of_singleton in H as ->.
      right. cbn. by apply (tr_callback _ _ T).
  - by apply traced_turn.
  - by apply traced_turn.
  - by keep_quiet; auto.
Qed.

Lemma traced_initial : traced initial [].
Proof. split; cbn; intros; try set_solver; done. Qed.

Lemma run_traced ops : traced (run exec ops initial).1 (run exec ops initial).2.
Proof. apply run_inv; [apply traced_initial|]. intros. by apply traced_step. Qed.

(** ** Types *)

Definition sample_typed (smp : sample CalculatorRequestType) : Prop := request_typed (data smp).
Definition server_typed (s : server) : Prop :=
  map_Forall (fun _ => request_typed) (objects s) /\ Forall sample_typed (reader s).

Lemma default_typed s obj :
  server_typed s -> request_typed (default default_request (objects s !! obj)).
Proof.
  intros [H _]. destruct (objects s !! obj) as [d|] eqn:E; [by apply (H obj)|done].
Qed.

(** ** Counting replies *)

Definition count {A} (f : A -> bool) (l : list A) : nat := length (List.filter f l).

Lemma count_app {A} (f : A -> bool) l1 l2 : count f (l1 ++ l2) = (count f l1 + count f l2)%nat.
Proof. unfold count. by rewrite List.filter_app, length_app. Qed.

Lemma count_one {A} (f : A -> bool) a : count f [a] = if f a then 1%nat else 0%nat.
Proof. unfold count. cbn. by destruct (f a). Qed.

Lemma count_cons {A} (f : A -> bool) a l : count f (a :: l) = (count f [a] + count f l)%nat.
Proof. apply (count_app f [a]). Qed.

Lemma count_nil {A} (f : A -> bool) : count f [] = 0%nat.
Proof. done. Qed.

#[local] Arguments count : simpl never.

Definition same (i j : SampleIdentity) : bool := bool_decide (i = j).
Definition answers (id : SampleIdentity) (e : event) : bool :=
  match e with EReply _ rel true => same rel id | _ => false end.
Definition carries (id : SampleIdentity) (e : event) : bool :=
  match e with ETaken _ smp => same (sample_identity (info smp)) id | _ => false end.
Definition waits (id : SampleIdentity) (r : Request) : bool := same (sample_identity (req_info r)) id.
Definition waiting (id : SampleIdentity) (s : server) : nat :=
  (count (waits id) (requests_ s) +
   match callback s with
   | Some (_, Some i) => if same (sample_identity i) id then 1 else 0
   | _ => 0
   end)%nat.

Definition counted (id : SampleIdentity) (s : server) (evs : list event) : Prop :=
  (count (answers id) evs + waiting id s <= count (carries id) evs)%nat.

(** With [n] requests out of the queue there is room for as many replies. *)
Definition counted_but (id : SampleIdentity) (n : nat) (s : server) (evs : list event) : Prop :=
  (count (answers id) evs + waiting id s + n <= count (carries id) evs)%nat.

Lemma counted_but_take id n s evs :
  counted_but id n s evs -> counted_but id n (take_request s).1 (evs ++ (take_request s).2).
Proof.
  intros H. unfold take_request. destruct (callback s) as [[obj [i|]]|] eqn:E; [by rewrite app_nil_r| |by rewrite app_nil_r].
  unfold counted_but, waiting in *. rewrite E in H.
  destruct (stop_ s); [by rewrite app_nil_r|].
  destruct (reader s) as [|smp rest]; [by rewrite app_nil_r|]. cbn.
  rewrite !count_app. destruct (valid_data (info smp)), (instance_alive (info smp)); cbn;
    rewrite ?count_one, ?count_nil; cbn; try destruct (same _ id); cbn; lia.
Qed.

Lemma counted_process id ok k r rest s evs :
  counted id s evs -> requests_ s = r :: rest ->
  counted id (process_request ok k r (set_requests rest s)).1
    (evs ++ (process_request ok k r (set_requests rest s)).2).
Proof.
  intros H E. assert (counted_but id (if waits id r then 1 else 0) (set_requests rest s) evs) as H0.
  { unfold counted, counted_but, waiting in *. rewrite E, count_cons in H. rewrite count_one in H. cbn in *. lia. }
  clear H E. set (s0 := set_requests rest s) in *. clearbody s0.
  pose proof (takes_inv (counted_but id _) (counted_but_take id _) (turn_takes k) s0 evs H0) as H1.
  destruct (process_request_cases ok k r s0) as [ok Hu|ok Hu Hn|ok Ec|ok Ec Hn|ok res Ec Hn]; cbn [fst snd]; rewrite ?app_assoc;
    unfold counted, counted_but, waiting in *; rewrite ?(count_app _ (_ ++ _) [_]), ?(count_app _ evs [_]), ?count_one in *;
    cbn [answers carries requests_ set_requests set_replying callback]; rewrite ?count_app, ?count_one in *; try lia.
  destruct ok; cbn [requests_ set_requests callback]; change (same (sample_identity (req_info r)) id) with (waits id r) in *;
    rewrite ?count_app, ?count_one in *; destruct (waits id r); lia.
Qed.

Lemma counted_turn id ok k s evs :
  counted id s evs -> counted id (reply_routine_iter ok k s).1 (evs ++ (reply_routine_iter ok k s).2).
Proof.
  intros H. unfold reply_routine_iter. destruct (replying s); [cbn|by rewrite app_nil_r].
  destruct (stop_ s); [by rewrite app_nil_r|].
  destruct (requests_ s) as [|r rest] eqn:E; [by rewrite app_nil_r|]. by apply counted_process.
Qed.

Lemma counted_step id o s evs :
  counted id s evs -> counted id (exec o s).1 (evs ++ (exec o s).2).
Proof.
  intros H. destruct o as [st rem ud|ch h|ch h|smp| | | |ok|ok k|]; cbn;
    try (rewrite ?app_nil_r; exact H).
  - destruct (discovery_frame st rem ud s) as (m & b & ->).
    unfold counted, waiting in *. cbn. rewrite !count_app, !count_one. cbn. lia.
  - unfold on_publication_matched, matched_with. unfold counted, waiting in *.
    destruct (ch =? 1), (ch =? -1); cbn; try destruct (no_client_matched _);
      rewrite ?count_app, ?count_one, ?count_nil; cbn; lia.
  - unfold on_subscription_matched, matched_with. unfold counted, waiting in *.
    destruct (ch =? 1), (ch =? -1); cbn; try destruct (no_client_matched _);
      rewrite ?count_app, ?count_one, ?count_nil; cbn; lia.
  - unfold on_data_available, counted, waiting in *. destruct (callback s) eqn:E;
      rewrite ?app_nil_r; cbn; rewrite ?E; done.
  - pose proof (counted_but_take id 0 s evs) as Ht. unfold counted_but, counted in *. lia.
  - unfold push_request. destruct (callback s) as [[obj [i|]]|] eqn:E; try by rewrite app_nil_r.
    unfold counted, waiting in *. cbn. rewrite E in H. rewrite !count_app, !count_one.
    change (waits id (mkQueued i obj)) with (same (sample_identity i) id).
    cbn. destruct (same _ id); cbn; lia.
  - by apply counted_turn.
  - by apply counted_turn.
Qed.

(** ** The reply thread *)

(** What an undisturbed turn on request [r] leaves unchanged when nothing overflows: all but
    the queue, which loses [r] or gets it back at its end. *)
Lemma process_queue ok r s :
  server_typed s ->
  (process_request ok at_once r s).1 = s \/
  (process_request ok at_once r s).1 = set_requests (requests_ s ++ [r]) s.
Proof.
  intros Ht. pose proof (default_typed s (request r) Ht) as Hd.
  destruct (process_request_cases ok at_once r s) as [ok Hu|ok Hu Hm|ok Ec|ok Ec Hm|ok res Ec Hm]; cbn; auto.
  - rewrite (proj2 (seen_at_once r s)), calculate_meaning in Ec by done. done.
  - destruct ok; auto.
Qed.

Lemma process_reply r d res s :
  is_matched (client_of r) (client_matched_status_ s) = true ->
  objects s !! request r = Some d -> calculate d = Some (Some res) ->
  process_request true at_once r s =
    (s, [EReply (mkReply (client_id d) res) (sample_identity (req_info r)) true]).
Proof.
  intros Hm Ho Hc. unfold process_request. rewrite matched_not_gone, Hm by done. cbn [negb].
  destruct (seen_at_once r s) as [E1 E2]. rewrite Ho in E1, E2. cbn [default] in *. cbv zeta. rewrite E2, E1. cbn. by rewrite Hc.
Qed.

Lemma iter_step ok k r rest s :
  replying s = true -> stop_ s = false -> requests_ s = r :: rest ->
  reply_routine_iter ok k s = process_request ok k r (set_requests rest s).
Proof. intros H1 H2 H3. unfold reply_routine_iter. by rewrite H1, H2, H3. Qed.

Lemma run_cons o ops s e :
  e ∈ (run exec ops (exec o s).1).2 -> e ∈ (run exec (o :: ops) s).2.
Proof.
  cbn. destruct (exec o s) as [s1 e1]. cbn. destruct (run exec ops s1). cbn.
  intros. apply elem_of_app. by right.
Qed.

(** ** Properties *)

(** C32: Where a reply comes from: in every behaviour of the server, with samples taken even
    between the reads of the reply thread, each reply names the identity of a request that was
    taken, and its client, its result and the test of the divisor are computed from fields of
    requests taken into the same object, possibly each from another one; when every
    [on_data_available] takes at most one request, that is the data of the request it names. *)
Theorem replies_answer_requests ops reply rel ok :
  EReply reply rel ok ∈ (run exec ops initial).2 ->
  justified reply rel (run exec ops initial).2 /\
  (taken_alone (run exec ops initial).2 ->
     exists obj smp, ETaken obj smp ∈ (run exec ops initial).2 /\
       sample_identity (info smp) = rel /\ reply_client_id reply = client_id (data smp) /\
       calculate (data smp) = Some (Some (result reply))).
Proof.
  intros H. pose proof (tr_reply _ _ (run_traced ops) _ _ _ H) as Hj. split; [done|].
  intros Ha. by apply justified_alone.
Qed.

(** No request is answered twice: under one identity the server sends at most as many
    replies as it took requests, whatever is retried after failed writes or put off. *)
Theorem at_most_one_reply ops id :
  (count (answers id) (run exec ops initial).2 <= count (carries id) (run exec ops initial).2)%nat.
Proof.
  pose proof (run_inv exec (counted id) initial) as Hinv.
  assert (counted id (run exec ops initial).1 (run exec ops initial).2) as H.
  { apply Hinv; [unfold counted, waiting; cbn; rewrite !count_nil; lia|].
    intros. by apply counted_step. }
  unfold counted in H. lia.
Qed.

(** Progress: a request of a matched client is answered in its turn, whatever stands
    before it in the queue (requests put off, failing writes, malformed ones): the turn after
    as many turns as there are requests before it sends its reply. *)
Theorem answered_in_turn ws r l1 l2 d res s :
  server_typed s -> replying s = true -> stop_ s = false ->
  requests_ s = l1 ++ r :: l2 -> length ws = length l1 ->
  is_matched (client_of r) (client_matched_status_ s) = true ->
  objects s !! request r = Some d -> meaning d = Some res ->
  EReply (mkReply (client_id d) res) (sample_identity (req_info r)) true
    ∈ (run exec (ReplyIter <$> ws ++ [true]) s).2.
Proof.
  intros Ht Hrep Hstop Hq Hlen Hm Ho Hd. revert ws l2 s Ht Hrep Hstop Hq Hlen Hm Ho.
  induction l1 as [|r1 l1 IH]; intros [|w ws] l2 s Ht Hrep Hstop Hq Hlen Hm Ho; try done.
  - cbn. rewrite (iter_step true at_once r l2) by done.
    rewrite (process_reply _ d res); [|done..|].
    2: { rewrite calculate_meaning; [by rewrite Hd|]. apply (proj1 Ht) in Ho. done. }
    cbn. left.
  - cbn [app fmap list_fmap]. apply run_cons. cbn [exec].
    rewrite (iter_step w at_once r1 (l1 ++ r :: l2)) by done.
    destruct (process_queue w r1 (set_requests (l1 ++ r :: l2) s) Ht) as [E|E]; rewrite E.
    + apply (IH ws l2); try done. by injection Hlen.
    + apply (IH ws (l2 ++ [r1])); try done; [|by injection Hlen]. cbn. by rewrite <- app_assoc.
Qed.

(** While all the queued requests belong to clients of which only one endpoint is
    matched, the reply thread never waits: a round through the queue puts every request back
    and leaves the server exactly as it was. *)
Theorem reply_routine_spins ws s :
  replying s = true -> stop_ s = false -> length ws = length (requests_ s) ->
  Forall (fun r => is_fully_unmatched (client_of r) (client_matched_status_ s) = true /\
                   is_matched (client_of r) (client_matched_status_ s) = false) (requests_ s) ->
  run exec (ReplyIter <$> ws) s = (s, ELater <$> requests_ s).
Proof.
  intros Hrep Hstop Hlen Hall.
  assert (forall todo done ws, length ws = length todo ->
    Forall (fun r => is_fully_unmatched (client_of r) (client_matched_status_ s) = true /\
                     is_matched (client_of r) (client_matched_status_ s) = false) todo ->
    run exec (ReplyIter <$> ws) (set_requests (todo ++ done) s) =
      (set_requests (done ++ todo) s, ELater <$> todo)) as H.
  { clear ws Hlen Hall. induction todo as [|r todo IH]; intros finished [|w ws] Hlen Hall; try done.
    - cbn. by rewrite app_nil_r.
    - apply Forall_cons in Hall as [[Hu Hm] Hall]. cbn [fmap list_fmap run exec].
      rewrite (iter_step w at_once r (todo ++ finished)) by done.
      unfold process_request. change (set_requests (todo ++ finished) (set_requests _ s))
        with (set_requests (todo ++ finished) s).
      cbn [client_matched_status_ set_requests]. rewrite Hu, Hm. cbn [negb].
      cbn [requests_ set_requests]. rewrite <- app_assoc.
      change (set_requests _ (set_requests (todo ++ finished) s))
        with (set_requests (todo ++ finished ++ [r]) s).
      rewrite IH by (try done; by injection Hlen). by rewrite <- app_assoc. }
  specialize (H (requests_ s) [] ws Hlen Hall). rewrite app_nil_r in H.
  destruct s. exact H.
Qed.

Definition good_request (m : status_map) (smp : sample CalculatorRequestType) : Prop :=
  instance_alive (info smp) = true /\ valid_data (info smp) = true /\
  is_matched (guidPrefix (publication_handle (info smp))) m = true.

Definition is_reply (e : event) : bool := match e with EReply _ _ _ => true | _ => false end.

(** A batch of samples taken and queued by one call: each queued request refers to the one
    object, which holds what was taken last. *)
Lemma take_batch obj batch s m :
  callback s = Some (obj, None) -> stop_ s = false -> reader s = batch -> Forall (good_request m) batch ->
  exists evs, run exec (mjoin (replicate (length batch) [Take; Push])) s =
    (mkServer (stop_ s) (client_matched_status_ s) (requests_ s ++ ((fun smp => mkQueued (info smp) obj) <$> batch))
       (match last batch with Some smp => <[obj := data smp]> (objects s) | None => objects s end)
       (next_object s) (Some (obj, None)) [] (replying s), evs) /\ List.filter is_reply evs = [].
Proof.
  intros Hc Hs Hr Hall. revert s Hc Hs Hr. induction Hall as [|smp batch (Ha & Hv & _) _ IH]; intros s Hc Hs Hr.
  { exists []. destruct s. cbn in *. subst. by rewrite app_nil_r. }
  destruct s as [st m0 q objs nx cb rd rep]. cbn in Hc, Hs, Hr. subst.
  change (mjoin (replicate (length (smp :: batch)) [Take; Push])) with ([Take; Push] ++ mjoin (replicate (length batch) [Take; Push])).
  cbn [app run exec].
  unfold take_request. cbn. rewrite Ha, Hv. cbn [andb negb push_request callback set_callback set_requests requests_ reader].
  edestruct (IH (mkServer false m0 (q ++ [mkQueued (info smp) obj]) (<[obj := data smp]> objs) nx (Some (obj, None)) batch rep))
    as (evs & E & Ef); [reflexivity..|]. unfold set_callback, set_requests. cbn [stop_ client_matched_status_ requests_ objects next_object callback reader replying] in *.
  rewrite E. exists (ETaken obj smp :: EQueued (mkQueued (info smp) obj) :: evs). split; [|exact Ef].
  rewrite <- app_assoc. destruct batch as [|smp' batch]; [done|].
  change (last (smp :: smp' :: batch)) with (last (smp' :: batch)).
  destruct (last (smp' :: batch)) eqn:El; [by rewrite insert_insert_eq|]. by apply last_None in El.
Qed.

(** Undisturbed turns on a queue of requests that refer to one object *)
Lemma answer_batch obj d res q s :
  requests_ s = q -> replying s = true -> stop_ s = false -> objects s !! obj = Some d -> calculate d = Some (Some res) ->
  Forall (fun r => request r = obj /\ is_matched (client_of r) (client_matched_status_ s) = true) q ->
  (run exec (replicate (length q) (ReplyIter true)) s).2 =
    (fun r => EReply (mkReply (client_id d) res) (sample_identity (req_info r)) true) <$> q.
Proof.
  intros Hq Hr Hs Ho Hc Hall. revert s Hq Hr Hs Ho Hall. induction q as [|r q IH]; intros s Hq Hr Hs Ho Hall; [done|].
  apply Forall_cons in Hall as [[Hobj Hm] Hall]. cbn [length replicate run exec].
  rewrite (iter_step true at_once r q), (process_reply r d res) by (done || (cbn; congruence)).
  specialize (IH (set_requests q s) eq_refl Hr Hs Ho Hall). destruct (run exec _ (set_requests q s)) as [s1 evs].
  cbn in *. by rewrite IH.
Qed.

(** The requests of a batch share one object: when one [on_data_available] takes and queues
    any number of requests of matched clients before the reply thread runs, and all writes
    succeed, every one of them is answered with the client and the result of the last. *)
Theorem batch_answered_with_the_last batch z res s :
  callback s = None -> requests_ s = [] -> replying s = true -> stop_ s = false ->
  reader s = batch -> last batch = Some z -> Forall (good_request (client_matched_status_ s)) batch ->
  calculate (data z) = Some (Some res) ->
  List.filter is_reply
    (run exec (DataAvailable :: mjoin (replicate (length batch) [Take; Push]) ++ replicate (length batch) (ReplyIter true)) s).2 =
  (fun smp => EReply (mkReply (client_id (data z)) res) (sample_identity (info smp)) true) <$> batch.
Proof.
  intros Hcb Hq Hr Hs Hrd Hz Hall Hc. cbn [run exec]. unfold on_data_available. rewrite Hcb.
  set (s1 := mkServer _ _ _ _ _ _ _ _).
  destruct (take_batch (next_object s) batch s1 (client_matched_status_ s)) as (evs & E & Ef); [done..|].
  rewrite run_app, E. set (s2 := mkServer _ _ _ _ _ _ _ _).
  set (q := (fun smp => mkQueued (info smp) (next_object s)) <$> batch) in *.
  assert (Ha : (run exec (replicate (length q) (ReplyIter true)) s2).2 =
    (fun r => EReply (mkReply (client_id (data z)) res) (sample_identity (req_info r)) true) <$> q).
  { apply (answer_batch (next_object s)); try done; cbn; [by rewrite Hq| |].
    - rewrite Hz. by rewrite lookup_insert_eq.
    - apply Forall_fmap. eapply Forall_impl; [exact Hall|]. intros smp (_ & _ & Hm). by split. }
  unfold q in Ha at 1. rewrite length_fmap in Ha. destruct (run exec (replicate _ _) s2) as [s3 evs3]. cbn in *. subst evs3.
  rewrite List.filter_app, Ef. cbn [app]. unfold q. rewrite <- list_fmap_compose.
  clear. induction batch as [|smp batch IH]; [done|]. cbn. by rewrite IH.
Qed.

(** What a sample says, of two *)
Definition pick (n : nat) (a b : sample CalculatorRequestType) : CalculatorRequestType :=
  match n with O => data a | S _ => data b end.
Definition picked (k : reads) (s1 s2 : sample CalculatorRequestType) : CalculatorRequestType :=
  mkRequest (client_id (pick (r_client_id k) s1 s2)) (operation (pick (r_operation k) s1 s2))
    (x (pick (r_x k) s1 s2)) (y (pick (r_y k) s1 s2)).

(** A turn into which the take of one sample falls *)
Lemma race_turn k r s1 s2 rest s :
  callback s = Some (request r, None) -> stop_ s = false -> reader s = s2 :: rest -> valid_data (info s2) = true ->
  objects s !! request r = Some (data s1) -> is_matched (client_of r) (client_matched_status_ s) = true -> turn_takes k = 1%nat ->
  (process_request true k r s).2 =
  [ETaken (request r) s2;
   match calculate_seen (y (pick (r_tested k) s1 s2)) (picked k s1 s2) with
   | None => EUndefined r
   | Some None => EFailed r
   | Some (Some res) => EReply (mkReply (client_id (picked k s1 s2)) res) (sample_identity (req_info r)) true
   end].
Proof.
  intros Hc Hs Hr Hv Ho Hm Hk. unfold process_request. rewrite matched_not_gone, Hm, Hk by done. cbn [negb].
  assert (Et : (takes 1 s).2 = [ETaken (request r) s2] /\ objects (takes 1 s).1 = <[request r := data s2]> (objects s)).
  { cbn [takes]. unfold take_request. rewrite Hc, Hs, Hr, Hv. done. }
  destruct Et as [Et Eob].
  assert (Eo : forall n, (n <= 1)%nat -> object_after n r s = pick n s1 s2).
  { intros n Hn. unfold object_after. destruct n as [|[|n]]; [cbn; by rewrite Ho|rewrite Eob; by rewrite lookup_insert_eq|lia]. }
  unfold turn_takes in Hk. unfold seen, tested. rewrite !Eo by lia. fold (picked k s1 s2).
  destruct (takes 1 s) as [s' e']. cbn [fst snd] in *. subst e'.
  by destruct (calculate_seen _ _) as [[res|]|].
Qed.

(** C33: The second of two requests can be taken while the reply thread works on the first: each field
    that it reads is that of the one or the other, so that the result of one client's request is
    sent under the name of another, or a division by zero is computed that both requests exclude. *)
Theorem race_mixes_requests k s1 s2 s :
  callback s = None -> requests_ s = [] -> replying s = true -> stop_ s = false -> reader s = [s1; s2] ->
  good_request (client_matched_status_ s) s1 -> good_request (client_matched_status_ s) s2 -> turn_takes k = 1%nat ->
  (run exec [DataAvailable; Take; Push; ReplyRace true k] s).2 =
  let r := mkQueued (info s1) (next_object s) in
  [ETaken (next_object s) s1; EQueued r; ETaken (next_object s) s2;
   match calculate_seen (y (pick (r_tested k) s1 s2)) (picked k s1 s2) with
   | None => EUndefined r
   | Some None => EFailed r
   | Some (Some res) => EReply (mkReply (client_id (picked k s1 s2)) res) (sample_identity (info s1)) true
   end].
Proof.
  intros Hcb Hq Hr Hs Hrd (Ha1 & Hv1 & Hm1) (_ & Hv2 & _) Hk. destruct s as [st m q objs nx cb rd rep]. cbn in Hcb, Hq, Hr, Hs, Hrd, Hm1. subst.
  set (r := mkQueued (info s1) nx).
  pose proof (race_turn k r s1 s2 [] (mkServer false m [] (<[nx := data s1]> (<[nx := default_request]> objs)) (S nx) (Some (nx, None)) [s2] true))
    as E. cbn -[picked] in E. rewrite lookup_insert_eq in E. specialize (E eq_refl eq_refl eq_refl Hv2 eq_refl Hm1 Hk).
  cbn -[picked process_request]. rewrite Ha1, Hv1. cbn -[picked process_request].
  unfold reply_routine_iter. cbn -[picked process_request].
  unfold set_requests, set_callback. cbn -[picked process_request]. fold r.
  destruct (process_request _ _ _ _) as [s' e']. cbn [snd] in *. rewrite app_nil_r. by rewrite E.
Qed.

(** ** Concrete runs *)

Definition alice : GUID_t := ([1; 15; 204], 7).
Definition alice_info (n : Z) : SampleInfo := mkInfo true true alice (alice, n) (([], 0), 0).
Definition alice_request (op : Z) (n : Z) : sample CalculatorRequestType :=
  mkSample (alice_info n) (mkRequest "alice" op 4 5).
Definition alice_joins : list op := [PublicationMatched 1 alice; SubscriptionMatched 1 alice].

Example one_request :
  (run exec (alice_joins ++ [Deliver (alice_request ADDITION 1); DataAvailable; Take; Push;
     ReplyIter false; ReplyIter true]) initial).2 =
  [ETaken 0 (alice_request ADDITION 1); EQueued (mkQueued (alice_info 1) 0);
   EReply (mkReply "alice" 9) (alice, 1) false; EReply (mkReply "alice" 9) (alice, 1) true].
Proof. vm_compute. reflexivity. Qed.

Lemma replies_answer_requests_witness :
  exists obj smp, ETaken obj smp ∈ (run exec (alice_joins ++ [Deliver (alice_request ADDITION 1);
     DataAvailable; Take; Push; ReplyIter true]) initial).2 /\
    sample_identity (info smp) = (alice, 1) /\ calculate (data smp) = Some (Some 9).
Proof.
  destruct (replies_answer_requests (alice_joins ++ [Deliver (alice_request ADDITION 1);
     DataAvailable; Take; Push; ReplyIter true]) (mkReply "alice" 9) (alice, 1) true) as [_ H].
  - vm_compute. right. right. left.
  - destruct H as (obj & smp & H1 & H2 & _ & H3).
    + intros obj s1 s2 H1%list_elem_of_In H2%list_elem_of_In. vm_compute in H1, H2.
      naive_solver.
    + by exists obj, smp.
Defined.

Definition alice_matched : server := (run exec alice_joins initial).1.

Definition with_queue (l : list Request) (objs : gmap nat CalculatorRequestType) (s : server) : server :=
  mkServer (stop_ s) (client_matched_status_ s) l objs (next_object s) (callback s) (reader s) (replying s).

Lemma answered_in_turn_witness :
  EReply (mkReply "alice" 9) (alice, 2) true ∈
  (run exec (ReplyIter <$> [false] ++ [true])
     (with_queue [mkQueued (alice_info 1) 0; mkQueued (alice_info 2) 1]
        (<[0%nat := mkRequest "alice" DIVISION 4 0]> {[ 1%nat := mkRequest "alice" ADDITION 4 5 ]})
        alice_matched)).2.
Proof.
  apply (answered_in_turn [false] (mkQueued (alice_info 2) 1) [mkQueued (alice_info 1) 0] []
           (mkRequest "alice" ADDITION 4 5) 9); try reflexivity.
  split; [|constructor]. apply map_Forall_insert_2; [split; reflexivity|].
  apply map_Forall_singleton. split; reflexivity.
Defined.

Lemma reply_routine_spins_witness :
  run exec (ReplyIter <$> [true])
    (with_queue [mkQueued (alice_info 1) 0] ∅ (run exec [SubscriptionMatched 1 alice] initial).1) =
  (with_queue [mkQueued (alice_info 1) 0] ∅ (run exec [SubscriptionMatched 1 alice] initial).1,
   [ELater (mkQueued (alice_info 1) 0)]).
Proof.
  apply (reply_routine_spins [true]); try reflexivity.
  repeat constructor.
Defined.

Lemma batch_answered_with_the_last_witness :
  List.filter is_reply
    (run exec [DataAvailable; Take; Push; Take; Push; ReplyIter true; ReplyIter true]
      (run exec (alice_joins ++ [Deliver (alice_request ADDITION 1); Deliver (alice_request SUBTRACTION 2)])
         initial).1).2 =
  [EReply (mkReply "alice" (-1)) (alice, 1) true; EReply (mkReply "alice" (-1)) (alice, 2) true].
Proof.
  apply (batch_answered_with_the_last [alice_request ADDITION 1; alice_request SUBTRACTION 2]
    (alice_request SUBTRACTION 2) (-1)); try reflexivity. repeat constructor.
Defined.

(** 7 / 2 for [alice], and a sum of 4 and 0 for [bob], taken after the test of the divisor and before the
    division; or after the division and before the name is read *)
Definition bob : GUID_t := ([1; 15; 206], 7).
Definition alice_divides : sample CalculatorRequestType := mkSample (alice_info 1) (mkRequest "alice" DIVISION 7 2).
Definition bob_adds : sample CalculatorRequestType :=
  mkSample (mkInfo true true bob (bob, 1) (([], 0), 0)) (mkRequest "bob" ADDITION 4 0).
Definition both_wait : server :=
  (run exec (alice_joins ++ [PublicationMatched 1 bob; SubscriptionMatched 1 bob; Deliver alice_divides; Deliver bob_adds]) initial).1.

Lemma race_mixes_requests_witness :
  (run exec [DataAvailable; Take; Push; ReplyRace true (mkReads 0 0 1 1 1)] both_wait).2 =
    [ETaken 0 alice_divides; EQueued (mkQueued (alice_info 1) 0); ETaken 0 bob_adds; EUndefined (mkQueued (alice_info 1) 0)] /\
  (run exec [DataAvailable; Take; Push; ReplyRace true (mkReads 0 0 0 0 1)] both_wait).2 =
    [ETaken 0 alice_divides; EQueued (mkQueued (alice_info 1) 0); ETaken 0 bob_adds; EReply (mkReply "bob" 3) (alice, 1) true].
Proof.
  split; (etransitivity; [apply (race_mixes_requests _ alice_divides bob_adds both_wait)|]); try reflexivity; by split_and!.
Defined.

End RequestServer.
