(* ===== verification/RequestClient.v ===== *)
(** The client of the calculator service ([ClientApp.cpp]): the thread that sends the four
    requests and waits, the listener callbacks, and the map of answered requests between
    them.  A step is one critical section of the mutex or one call of the library. *)
From S2P Require Import Prelude Calculator RequestServer.

Module RequestClient.
Import Calculator.
Import RequestServer(SampleInfo, mkInfo, instance_alive, valid_data, publication_handle,
  sample_identity, related_sample_identity, sample, mkSample, info, data).

(** Where the thread of [run] is: waiting for a server, in the second of grace, about to send
    request number [k], waiting for the replies, returned, ended by the exception. *)
Inductive run_pc := WaitServer | Grace | Sending (k : nat) | WaitReplies | Returned | Threw.

(** The client.  [my_id] is the text of the participant's prefix; [callback] is the
    [on_data_available] that is running, with a sample it has taken and not handled yet. *)
Record client := mkClient {
  request_input_ : Z * Z;
  my_id : string;
  server_matched_status_ : status_map;
  stop_ : bool;
  requests_status_ : gmap SampleIdentity bool;
  callback : option (option (sample CalculatorReplyType));
  reader : list (sample CalculatorReplyType);
  running : run_pc;
}.

Definition initial (vx vy : Z) (id : string) : client :=
  mkClient (vx, vy) id ∅ false ∅ None [] WaitServer.

(** What a step shows: a request handed to the writer under the identity the library gave it,
    with the writer's answer; a reply reported; a second reply to the same request; a reply
    to no request; the exception of [run]. *)
Inductive event :=
| EIgnore (b : bool)
| EInvalidChange (change : Z)
| ESent (id : SampleIdentity) (req : CalculatorRequestType) (ok : bool)
| EReport (id : SampleIdentity) (server : GuidPrefix_t) (res : Z)
| EDuplicate (id : SampleIdentity)
| EUnknown (id : SampleIdentity)
| EThrow.

Definition set_servers (m : status_map) (c : client) : client :=
  mkClient (request_input_ c) (my_id c) m (stop_ c) (requests_status_ c) (callback c) (reader c) (running c).
Definition set_book (m : gmap SampleIdentity bool) (c : client) : client :=
  mkClient (request_input_ c) (my_id c) (server_matched_status_ c) (stop_ c) m (callback c) (reader c) (running c).
Definition set_callback (cb : option (option (sample CalculatorReplyType))) (c : client) : client :=
  mkClient (request_input_ c) (my_id c) (server_matched_status_ c) (stop_ c) (requests_status_ c) cb
    (reader c) (running c).
Definition set_running (pc : run_pc) (c : client) : client :=
  mkClient (request_input_ c) (my_id c) (server_matched_status_ c) (stop_ c) (requests_status_ c)
    (callback c) (reader c) pc.

(** [stop] *)
Definition stop (c : client) : client :=
  mkClient (request_input_ c) (my_id c) (server_matched_status_ c) true (requests_status_ c)
    (callback c) (reader c) (running c).

(** [on_participant_discovery] *)
Definition on_participant_discovery (status : ParticipantDiscoveryStatus)
    (remote : GuidPrefix_t) (user_data : list Z) (c : client) : client * list event :=
  match user_data with
  | [octet] =>
      match entity_of_octet octet with
      | SERVER => (c, [EIgnore false])
      | _ => (c, [EIgnore true])
      end
  | _ => (c, [EIgnore true])
  end.

(** [on_publication_matched] and [on_subscription_matched], which differ in the bit. *)
Definition matched_with (bit : GuidPrefix_t -> bool -> status_map -> status_map)
    (current_count_change : Z) (handle : GUID_t) (c : client) : client * list event :=
  let server := guidPrefix handle in
  if current_count_change =? 1 then (set_servers (bit server true (server_matched_status_ c)) c, [])
  else if current_count_change =? -1 then
    (set_servers (bit server false (server_matched_status_ c)) c, [])
  else (c, [EInvalidChange current_count_change]).

Definition on_publication_matched : Z -> GUID_t -> client -> client * list event :=
  matched_with match_request_reader.
Definition on_subscription_matched : Z -> GUID_t -> client -> client * list event :=
  matched_with match_reply_writer.

(** [on_data_available]: entering it, *)
Definition on_data_available (c : client) : client * list event :=
  match callback c with
  | None => (set_callback (Some None) c, [])
  | Some _ => (c, [])
  end.

(** the test of its loop and [take_next_sample], *)
Definition take_reply (c : client) : client * list event :=
  match callback c with
  | Some None =>
      if stop_ c then (set_callback None c, [])
      else match reader c with
        | [] => (set_callback None c, [])
        | smp :: rest =>
            let handle := instance_alive (info smp) && valid_data (info smp) in
            (mkClient (request_input_ c) (my_id c) (server_matched_status_ c) (stop_ c)
               (requests_status_ c) (Some (if handle then Some smp else None)) rest (running c), [])
        end
  | _ => (c, [])
  end.

(** and the body of its loop, under the mutex. *)
Definition all_responses_received (m : gmap SampleIdentity bool) : bool :=
  forallb snd (map_to_list m).

Definition handle_reply (c : client) : client * list event :=
  match callback c with
  | Some (Some smp) =>
      let id := related_sample_identity (info smp) in
      let c1 := set_callback (Some None) c in
      match requests_status_ c !! id with
      | Some false =>
          let c2 := set_book (<[id := true]> (requests_status_ c)) c1 in
          let report := EReport id (guidPrefix (publication_handle (info smp))) (result (data smp)) in
          if (size (requests_status_ c2) =? 4)%nat && all_responses_received (requests_status_ c2)
          then (stop (set_callback None c2), [report])
          else (c2, [report])
      | Some true => (c1, [EDuplicate id])
      | None => (c1, [EUnknown id])
      end
  | _ => (c, [])
  end.

(** [send_request]: [write_ok] and [id] are the answer of the writer and the identity it
    stores in the parameters. *)
Definition send_request (req : CalculatorRequestType) (write_ok : bool) (id : SampleIdentity)
    (c : client) : client * list event :=
  (set_book (<[id := false]> (requests_status_ c)) c, [ESent id req write_ok]).

(** The operations of [send_requests], in its order. *)
Definition operations : list Z := [ADDITION; SUBTRACTION; MULTIPLICATION; DIVISION].

(** [send_requests]: request number [k]. *)
Definition make_request (c : client) (k : nat) : CalculatorRequestType :=
  mkRequest (my_id c) (default ADDITION (operations !! k)) (request_input_ c).1 (request_input_ c).2.

(** [run], up to the next critical section.  [stop_] is never cleared, so that the tests
    between two waits are those of the waits. *)
Definition run_step (write_ok : bool) (id : SampleIdentity) (c : client) : client * list event :=
  match running c with
  | WaitServer =>
      if stop_ c then (set_running Returned c, [])
      else if is_any_server_matched (server_matched_status_ c) then (set_running Grace c, [])
      else (c, [])
  | Grace => (set_running (if stop_ c then Returned else Sending 0) c, [])
  | Sending k =>
      let '(c1, evs) := send_request (make_request c k) write_ok id c in
      if negb write_ok then (set_running Threw c1, evs ++ [EThrow])
      else if (k <? 3)%nat then (set_running (Sending (S k)) c1, evs)
      else (set_running WaitReplies c1, evs)
  | WaitReplies => if stop_ c then (set_running Returned c, []) else (c, [])
  | Returned | Threw => (c, [])
  end.

(** Who moves. *)
Inductive op :=
| Discovery (status : ParticipantDiscoveryStatus) (remote : GuidPrefix_t) (user_data : list Z)
| PublicationMatched (change : Z) (handle : GUID_t)
| SubscriptionMatched (change : Z) (handle : GUID_t)
| Deliver (smp : sample CalculatorReplyType)
| DataAvailable
| Take
| Handle
| Run (write_ok : bool) (id : SampleIdentity)
| Stop.

Definition deliver (smp : sample CalculatorReplyType) (c : client) : client :=
  mkClient (request_input_ c) (my_id c) (server_matched_status_ c) (stop_ c) (requests_status_ c)
    (callback c) (reader c ++ [smp]) (running c).

Definition exec (o : op) (c : client) : client * list event :=
  match o with
  | Discovery status remote user_data => on_participant_discovery status remote user_data c
  | PublicationMatched change handle => on_publication_matched change handle c
  | SubscriptionMatched change handle => on_subscription_matched change handle c
  | Deliver smp => (deliver smp c, [])
  | DataAvailable => on_data_available c
  | Take => take_reply c
  | Handle => handle_reply c
  | Run write_ok id => run_step write_ok id c
  | Stop => (stop c, [])
  end.

(** ** What the trace says *)

Definition sent_id (e : event) : option SampleIdentity :=
  match e with ESent id _ _ => Some id | _ => None end.
Definition sent_request (e : event) : option CalculatorRequestType :=
  match e with ESent _ req _ => Some req | _ => None end.
Definition reported_id (e : event) : option SampleIdentity :=
  match e with EReport id _ _ => Some id | _ => None end.

Definition sent (evs : list event) : list SampleIdentity := omap sent_id evs.
Definition reported (evs : list event) : list SampleIdentity := omap reported_id evs.

(** How many requests have been sent when [run] stands at [pc]. *)
Definition sent_so_far (pc : run_pc) (n : nat) : Prop :=
  match pc with
  | WaitServer | Grace => n = 0%nat
  | Sending k => n = k /\ (k < 4)%nat
  | WaitReplies => n = 4%nat
  | Returned => n = 0%nat \/ n = 4%nat
  | Threw => (0 < n <= 4)%nat
  end.

(** The book of requests against the trace; [signalled] is whether [stop] was called from
    outside. *)
Record book_ok (signalled : bool) (c : client) (evs : list event) : Prop := {
  bk_sent : forall id, is_Some (requests_status_ c !! id) <-> id ∈ sent evs;
  bk_reported : forall id, requests_status_ c !! id = Some true <-> id ∈ reported evs;
  bk_once : NoDup (reported evs);
  bk_size : size (requests_status_ c) = length (sent evs);
  bk_pc : sent_so_far (running c) (length (sent evs));
  bk_stop : stop_ c = signalled || (size (requests_status_ c) =? 4)%nat
                                   && all_responses_received (requests_status_ c);
}.

Lemma sent_app evs evs' : sent (evs ++ evs') = sent evs ++ sent evs'.
Proof. apply omap_app. Qed.
Lemma reported_app evs evs' : reported (evs ++ evs') = reported evs ++ reported evs'.
Proof. apply omap_app. Qed.

Lemma all_responses_spec m :
  all_responses_received m = true <-> forall id b, m !! id = Some b -> b = true.
Proof.
  unfold all_responses_received. rewrite forallb_forall. split.
  - intros H id b E. apply (H (id, b)). by apply list_elem_of_In, elem_of_map_to_list.
  - intros H [id b] Hin. apply list_elem_of_In, elem_of_map_to_list in Hin. cbn. eauto.
Qed.

(** Steps that leave the book alone. *)
Lemma book_frame sg c c' evs evs' :
  book_ok sg c evs -> requests_status_ c' = requests_status_ c -> stop_ c' = stop_ c ->
  sent evs' = [] -> reported evs' = [] ->
  sent_so_far (running c') (length (sent evs)) ->
  book_ok sg c' (evs ++ evs').
Proof.
  intros [B1 B2 B3 B4 B5 B6] Em Es E1 E2 Hpc.
  split; rewrite ?sent_app, ?reported_app, ?E1, ?E2, ?app_nil_r, ?Em, ?Es; auto.
Qed.

Lemma book_send sg c c' id req ok evs evs' :
  book_ok sg c evs -> id ∉ sent evs ->
  requests_status_ c' = <[id := false]> (requests_status_ c) -> stop_ c' = stop_ c ->
  (length (sent evs) < 4)%nat ->
  sent evs' = [] -> reported evs' = [] ->
  sent_so_far (running c') (S (length (sent evs))) ->
  book_ok sg c' (evs ++ ESent id req ok :: evs').
Proof.
  intros [B1 B2 B3 B4 B5 B6] Hf Em Es Hlt E1 E2 Hpc.
  assert (requests_status_ c !! id = None) as Hn.
  { apply eq_None_not_Some. by rewrite B1. }
  assert (sent (evs ++ ESent id req ok :: evs') = sent evs ++ [id]) as Esent
    by (rewrite sent_app; change (sent (ESent id req ok :: evs')) with (id :: sent evs'); by rewrite E1).
  assert (reported (evs ++ ESent id req ok :: evs') = reported evs) as Erep
    by (rewrite reported_app; change (reported (ESent id req ok :: evs')) with (reported evs');
        by rewrite E2, app_nil_r).
  assert (~ all_responses_received (<[id := false]> (requests_status_ c)) = true) as Ha.
  { rewrite all_responses_spec. intros H. specialize (H id false). rewrite lookup_insert_eq in H. naive_solver. }
  split; rewrite ?Esent, ?Erep, ?Em, ?Es; auto.
  - intros i. rewrite elem_of_app, list_elem_of_singleton, <- B1.
    destruct (decide (i = id)) as [->|]; [rewrite lookup_insert_eq; naive_solver|].
    rewrite lookup_insert_ne by done. naive_solver.
  - intros i. rewrite <- B2. destruct (decide (i = id)) as [->|].
    + rewrite lookup_insert_eq, Hn. done.
    + by rewrite lookup_insert_ne by done.
  - rewrite map_size_insert_None by done. rewrite length_app. cbn. lia.
  - rewrite length_app. cbn. by replace (length (sent evs) + 1)%nat with (S (length (sent evs))) by lia.
  - rewrite B6, map_size_insert_None by done. rewrite B4.
    rewrite (proj2 (Nat.eqb_neq (length (sent evs)) 4)) by lia.
    apply not_true_is_false in Ha. by rewrite Ha, andb_false_r.
Qed.

Lemma book_report sg c id srv res evs m :
  book_ok sg c evs -> requests_status_ c !! id = Some false ->
  m = <[id := true]> (requests_status_ c) ->
  forall c', requests_status_ c' = m -> running c' = running c ->
    stop_ c' = stop_ c || (size m =? 4)%nat && all_responses_received m ->
    book_ok sg c' (evs ++ [EReport id srv res]).
Proof.
  intros [B1 B2 B3 B4 B5 B6] Hid -> c' Em Er Es.
  assert (sent (evs ++ [EReport id srv res]) = sent evs) as Esent
    by (rewrite sent_app; cbn; apply app_nil_r).
  assert (reported (evs ++ [EReport id srv res]) = reported evs ++ [id]) as Erep
    by (by rewrite reported_app).
  assert (size (<[id := true]> (requests_status_ c)) = size (requests_status_ c)) as Esz
    by (apply map_size_insert_Some; eauto).
  split; rewrite ?Esent, ?Erep, ?Em, ?Er; auto.
  - intros i. rewrite <- B1. destruct (decide (i = id)) as [->|].
    + rewrite lookup_insert_eq, Hid. split; eauto.
    + by rewrite lookup_insert_ne by done.
  - intros i. rewrite elem_of_app, list_elem_of_singleton, <- B2.
    destruct (decide (i = id)) as [->|]; [rewrite lookup_insert_eq; naive_solver|].
    rewrite lookup_insert_ne by done. naive_solver.
  - apply NoDup_app. split; [done|]. split; [|apply NoDup_singleton].
    intros i Hi ->%list_elem_of_singleton. apply B2 in Hi. congruence.
  - by rewrite Esz.
  - rewrite Es, B6. assert (all_responses_received (requests_status_ c) = false) as ->.
    { apply not_true_iff_false. rewrite all_responses_spec. intros H. by specialize (H _ _ Hid). }
    by rewrite andb_false_r, orb_false_r.
Qed.

Lemma book_step sg o c evs :
  (NoDup (sent evs) -> book_ok sg c evs) -> o <> Stop ->
  NoDup (sent (evs ++ (exec o c).2)) -> book_ok sg (exec o c).1 (evs ++ (exec o c).2).
Proof.
  intros Hb Hne ND. assert (NoDup (sent evs)) as ND'
    by (rewrite sent_app in ND; by apply NoDup_app in ND as [? _]).
  specialize (Hb ND'). pose proof (bk_pc _ _ _ Hb) as Hpc.
  destruct o as [st rem ud|ch h|ch h|smp| | | |ok id|]; cbn in *.
  - unfold on_participant_discovery. repeat case_match; by apply (book_frame sg c).
  - unfold on_publication_matched, matched_with. repeat case_match; by apply (book_frame sg c).
  - unfold on_subscription_matched, matched_with. repeat case_match; by apply (book_frame sg c).
  - by apply (book_frame sg c).
  - unfold on_data_available. repeat case_match; by apply (book_frame sg c).
  - unfold take_reply. repeat case_match; by apply (book_frame sg c).
  - unfold handle_reply. destruct (callback c) as [[smp|]|]; [|by apply (book_frame sg c)..].
    destruct (requests_status_ c !! _) as [[]|] eqn:E; [by apply (book_frame sg c)| |by apply (book_frame sg c)].
    cbn. destruct ((size _ =? 4)%nat && _) eqn:E4.
    + eapply book_report; try done. cbn. rewrite E4. by rewrite orb_true_r.
    + eapply book_report; try done. cbn. rewrite E4. by rewrite orb_false_r.
  - unfold run_step in *. destruct (running c) as [| |k| | |] eqn:Er; cbn in Hpc.
    + destruct (stop_ c); [apply (book_frame sg c); try done; cbn; auto|].
      destruct (is_any_server_matched _); apply (book_frame sg c); try done; cbn. by rewrite Er.
    + apply (book_frame sg c); try done. cbn. destruct (stop_ c); cbn; [auto|lia].
    + cbn in ND |- *. destruct Hpc as [Hk Hlt]. destruct ok; cbn in *.
      * assert (id ∉ sent evs) as Hf.
        { destruct (k <=? 2)%nat; cbn in ND; rewrite sent_app in ND; cbn in ND;
            apply NoDup_app in ND as (_ & Hd & _); intros Hin; apply (Hd _ Hin); by left. }
        destruct (k <=? 2)%nat eqn:E3.
        -- apply Nat.leb_le in E3. eapply book_send; try done; cbn; lia.
        -- apply Nat.leb_gt in E3. eapply book_send; try done; cbn; lia.
      * assert (id ∉ sent evs) as Hf.
        { rewrite sent_app in ND; cbn in ND; apply NoDup_app in ND as (_ & Hd & _).
          intros Hin. apply (Hd _ Hin). by left. }
        eapply book_send; try done; cbn; lia.
    + destruct (stop_ c); apply (book_frame sg c); try done; cbn; [auto|by rewrite Er].
    + apply (book_frame sg c); try done. cbn. by rewrite Er.
    + apply (book_frame sg c); try done. cbn. by rewrite Er.
  - done.
Qed.

Lemma book_initial vx vy id : book_ok false (initial vx vy id) [].
Proof.
  split; cbn; try done.
  - intros i. rewrite lookup_empty. split; [by intros []|set_solver].
  - intros i. rewrite lookup_empty. split; [done|set_solver].
  - constructor.
Qed.

(** ** The book in every behaviour *)

Definition is_stop (o : op) : bool := match o with Stop => true | _ => false end.

Lemma book_step_any sg o c evs :
  (NoDup (sent evs) -> book_ok sg c evs) -> NoDup (sent (evs ++ (exec o c).2)) ->
  book_ok (sg || is_stop o) (exec o c).1 (evs ++ (exec o c).2).
Proof.
  intros Hb ND. destruct o.
  9: { cbn in *. rewrite app_nil_r in *. destruct (Hb ND) as [B1 B2 B3 B4 B5 B6].
       split; cbn; auto. by rewrite orb_true_r. }
  all: cbn [is_stop]; rewrite orb_false_r; by apply book_step.
Qed.

Lemma run_book vx vy id ops :
  NoDup (sent (run exec ops (initial vx vy id)).2) ->
  book_ok (existsb is_stop ops) (run exec ops (initial vx vy id)).1
    (run exec ops (initial vx vy id)).2.
Proof.
  induction ops as [|o ops IH] using rev_ind; intros ND; [apply book_initial|].
  rewrite run_snoc in *. destruct (run exec ops (initial vx vy id)) as [c evs].
  rewrite existsb_app. cbn [existsb fst snd] in *. rewrite orb_false_r.
  pose proof (book_step_any (existsb is_stop ops) o c evs IH) as Hb.
  destruct (exec o c) as [c' evs']. by apply Hb.
Qed.

(** Only the thread of [run] sends. *)
Definition is_run (o : op) : bool := match o with Run _ _ => true | _ => false end.

Lemma only_run_sends o c :
  is_run o = false -> (forall e, e ∈ (exec o c).2 -> sent_id e = None) /\ running (exec o c).1 = running c.
Proof.
  destruct o as [st rem ud|ch h|ch h|smp| | | |ok id|]; cbn; try done; intros _.
  - unfold on_participant_discovery. repeat case_match; (split; [|done]); set_solver.
  - unfold on_publication_matched, matched_with. repeat case_match; (split; [|done]); set_solver.
  - unfold on_subscription_matched, matched_with. repeat case_match; (split; [|done]); set_solver.
  - split; [set_solver|done].
  - unfold on_data_available. repeat case_match; (split; [|done]); set_solver.
  - unfold take_reply. repeat case_match; (split; [|done]); set_solver.
  - unfold handle_reply. repeat case_match; (split; [|done]); set_solver.
  - split; [set_solver|done].
Qed.

Lemma run_step_cases ok id c :
  ((run_step ok id c).2 = [] /\ (running (run_step ok id c).1 = Threw <-> running c = Threw)) \/
  (exists k, running c = Sending k /\
     (run_step ok id c).2 = ESent id (make_request c k) ok :: (if ok then [] else [EThrow]) /\
     (running (run_step ok id c).1 = Threw <-> ok = false)).
Proof.
  unfold run_step. destruct (running c) as [| |k| | |] eqn:E; cbn.
  - left. destruct (stop_ c); [|destruct (is_any_server_matched _)]; cbn; rewrite ?E; (split; [done|]); split; done.
  - left. split; [done|]. destruct (stop_ c); split; done.
  - right. exists k. split; [done|]. destruct ok; cbn; [destruct (k <=? 2)%nat|]; cbn; split; try done; split; done.
  - left. destruct (stop_ c); cbn; rewrite ?E; (split; [done|]); split; done.
  - left. cbn. by rewrite E.
  - left. cbn. by rewrite E.
Qed.

(** ** The order of the requests *)

Definition four_requests (vx vy : Z) (id : string) : list CalculatorRequestType :=
  (fun o => mkRequest id o vx vy) <$> operations.

Record ordered (vx vy : Z) (id : string) (c : client) (evs : list event) : Prop := {
  or_input : request_input_ c = (vx, vy) /\ my_id c = id;
  or_requests : omap sent_request evs = take (length (sent evs)) (four_requests vx vy id);
  or_pc : sent_so_far (running c) (length (sent evs));
  or_throw : EThrow ∈ evs <-> running c = Threw;
  or_failed : (exists i req, ESent i req false ∈ evs) <-> running c = Threw;
}.

(** Events that say nothing about the requests. *)
Definition aside (e : event) : bool :=
  match e with ESent _ _ _ | EThrow => false | _ => true end.

Lemma ordered_frame vx vy id c c' evs evs' :
  ordered vx vy id c evs -> request_input_ c' = request_input_ c -> my_id c' = my_id c ->
  sent_so_far (running c') (length (sent evs)) ->
  (running c' = Threw <-> running c = Threw) -> forallb aside evs' = true ->
  ordered vx vy id c' (evs ++ evs').
Proof.
  intros [O1 O2 O3 O4 O5] Ei Em Hpc Ht Hq.
  assert (forall e, e ∈ evs' -> aside e = true) as Hq'.
  { intros e H. rewrite forallb_forall in Hq. by apply Hq, list_elem_of_In. }
  assert (sent evs' = [] /\ omap sent_request evs' = []) as [E1 E2].
  { clear -Hq. induction evs' as [|e evs' IH]; [done|]. cbn in Hq. apply andb_prop in Hq as [He Hq].
    destruct (IH Hq). destruct e; done. }
  split.
  - by rewrite Ei, Em.
  - by rewrite omap_app, sent_app, E1, E2, !app_nil_r.
  - by rewrite sent_app, E1, app_nil_r.
  - rewrite Ht, <- O4, elem_of_app. split; [intros [H|H]; [done|by apply Hq' in H]|by left].
  - rewrite Ht, <- O5. split; intros (i & req & H); exists i, req.
    + apply elem_of_app in H as [H|H]; [done|by apply Hq' in H].
    + apply elem_of_app; by left.
Qed.

Lemma take_snoc_lookup {A} (l : list A) n a :
  l !! n = Some a -> take (n + 1) l = take n l ++ [a].
Proof. intros H. replace (n + 1)%nat with (S n) by lia. by apply take_S_r. Qed.

#[local] Arguments Nat.ltb : simpl never.

Lemma ordered_send vx vy id c c' i (ok : bool) k evs :
  ordered vx vy id c evs -> running c = Sending k ->
  request_input_ c' = request_input_ c -> my_id c' = my_id c ->
  running c' = (if ok then if (k <? 3)%nat then Sending (S k) else WaitReplies else Threw) ->
  ordered vx vy id c'
    (evs ++ ESent i (make_request c k) ok :: if ok then [] else [EThrow]).
Proof.
  intros [O1 O2 O3 O4 O5] Er Ei Em Er'. rewrite Er in O3. cbn in O3. destruct O3 as [Hn Hk].
  assert (sent (evs ++ ESent i (make_request c k) ok :: if ok then [] else [EThrow]) = sent evs ++ [i]) as Es
    by (rewrite sent_app; by destruct ok).
  assert (omap sent_request (evs ++ ESent i (make_request c k) ok :: if ok then [] else [EThrow])
          = omap sent_request evs ++ [make_request c k]) as Eq
    by (rewrite omap_app; by destruct ok).
  assert ((EThrow ∉ evs) /\ forall i' req, ESent i' req false ∉ evs) as [Ht Hf].
  { split; [intros H%O4; congruence|]. intros i' req H.
    assert (running c = Threw) by (apply O5; eauto). congruence. }
  split; rewrite ?Es, ?Eq, ?length_app.
  - by rewrite Ei, Em.
  - rewrite O2. cbn. symmetry. apply take_snoc_lookup. rewrite Hn.
    unfold make_request. destruct O1 as [-> ->].
    destruct k as [|[|[|[|k]]]]; [reflexivity..|lia].
  - rewrite Er'. cbn. destruct ok; [destruct (k <? 3)%nat eqn:E3|]; cbn;
      [apply Nat.ltb_lt in E3|apply Nat.ltb_ge in E3|]; lia.
  - rewrite Er'. rewrite elem_of_app, elem_of_cons.
    destruct ok; cbn; [|set_solver].
    split; [intros [H|[H|H]]; [done|done|by apply not_elem_of_nil in H]|].
    destruct (k <? 3)%nat; done.
  - rewrite Er'. destruct ok; cbn.
    + split; [|by destruct (k <? 3)%nat]. intros (i' & req & H).
      apply elem_of_app in H as [H|H]; [by apply Hf in H|]. by apply list_elem_of_singleton in H.
    + split; [done|]. intros _. exists i, (make_request c k). apply elem_of_app; right; left.
Qed.

Lemma ordered_step vx vy id o c evs :
  ordered vx vy id c evs -> ordered vx vy id (exec o c).1 (evs ++ (exec o c).2).
Proof.
  intros Ho. pose proof (or_pc _ _ _ _ _ Ho) as Hpc.
  destruct o as [st rem ud|ch h|ch h|smp| | | |ok i|]; cbn [exec].
  - unfold on_participant_discovery. repeat case_match; by apply (ordered_frame vx vy id c).
  - unfold on_publication_matched, matched_with. repeat case_match; by apply (ordered_frame vx vy id c).
  - unfold on_subscription_matched, matched_with. repeat case_match; by apply (ordered_frame vx vy id c).
  - by apply (ordered_frame vx vy id c).
  - unfold on_data_available. repeat case_match; by apply (ordered_frame vx vy id c).
  - unfold take_reply. repeat case_match; by apply (ordered_frame vx vy id c).
  - unfold handle_reply. repeat case_match; by apply (ordered_frame vx vy id c).
  - unfold run_step. destruct (running c) as [| |k| | |] eqn:Er; cbn in Hpc.
    + destruct (stop_ c); [|destruct (is_any_server_matched _)];
        apply (ordered_frame vx vy id c); try done; cbn; rewrite ?Er; first [by auto | by split].
    + apply (ordered_frame vx vy id c); try done; cbn; destruct (stop_ c); cbn; rewrite ?Er; first [by auto | by split | lia].
    + cbn. destruct ok; cbn; [destruct (k <? 3)%nat eqn:E3|]; cbn [fst snd];
        [apply (ordered_send vx vy id c _ i true k evs Ho Er)
        |apply (ordered_send vx vy id c _ i true k evs Ho Er)
        |apply (ordered_send vx vy id c _ i false k evs Ho Er)]; try done; cbn; by rewrite ?E3.
    + destruct (stop_ c); apply (ordered_frame vx vy id c); try done; cbn; rewrite ?Er; first [by auto | by split].
    + apply (ordered_frame vx vy id c); try done. cbn. by rewrite Er.
    + apply (ordered_frame vx vy id c); try done. cbn. by rewrite Er.
  - by apply (ordered_frame vx vy id c).
Qed.

(** [run] returns only when the client is stopped. *)
Definition returned_stopped (c : client) : Prop := running c = Returned -> stop_ c = true.

Lemma exec_returned_stopped o c : returned_stopped c -> returned_stopped (exec o c).1.
Proof.
  unfold returned_stopped. intros H. destruct o as [st rem ud|ch h|ch h|smp| | | |ok i|]; cbn; auto.
  - unfold on_participant_discovery. repeat case_match; cbn; try done; intros Hr; specialize (H Hr); congruence.
  - unfold on_publication_matched, matched_with. repeat case_match; cbn; try done; intros Hr; specialize (H Hr); congruence.
  - unfold on_subscription_matched, matched_with. repeat case_match; cbn; try done; intros Hr; specialize (H Hr); congruence.
  - unfold on_data_available. repeat case_match; cbn; try done; intros Hr; specialize (H Hr); congruence.
  - unfold take_reply. repeat case_match; cbn; try done; intros Hr; specialize (H Hr); congruence.
  - unfold handle_reply. repeat case_match; cbn; try done; intros Hr; specialize (H Hr); congruence.
  - unfold run_step. destruct (running c) eqn:E; repeat case_match; simplify_eq/=; try done; try congruence. auto.
Qed.

(** ** Properties *)

(** C26: The client stops by itself exactly when all its requests are answered: under distinct
    identities and without a signal, [stop_] is set iff four requests were sent and a reply to
    each of them was reported; no request is reported twice, and only requests that were
    sent. *)
Theorem client_stops_when_answered vx vy id ops :
  NoDup (sent (run exec ops (initial vx vy id)).2) -> existsb is_stop ops = false ->
  (stop_ (run exec ops (initial vx vy id)).1 = true <->
     length (sent (run exec ops (initial vx vy id)).2) = 4%nat /\
     forall i, i ∈ sent (run exec ops (initial vx vy id)).2 ->
               i ∈ reported (run exec ops (initial vx vy id)).2) /\
  NoDup (reported (run exec ops (initial vx vy id)).2) /\
  (forall i, i ∈ reported (run exec ops (initial vx vy id)).2 ->
             i ∈ sent (run exec ops (initial vx vy id)).2).
Proof.
  intros ND Hs. destruct (run_book vx vy id ops ND) as [B1 B2 B3 B4 B5 B6].
  split_and!; [|done|intros i Hi; apply B1; apply B2 in Hi; eauto].
  rewrite B6, Hs. cbn. rewrite andb_true_iff, Nat.eqb_eq, B4, all_responses_spec.
  split; intros [H4 Ha]; (split; [done|]).
  - intros i Hi. apply B1 in Hi as [b Hb]. apply B2. by rewrite Hb, (Ha _ _ Hb).
  - intros i b Hb. assert (i ∈ reported (run exec ops (initial vx vy id)).2) as Hr
      by (apply Ha, B1; eauto).
    apply B2 in Hr. congruence.
Qed.

(** What [run] sends: always a prefix of the sum, the difference, the product and the
    quotient of its two numbers, in this order and under its own client id; it throws exactly
    when a write has failed, and then sends nothing more. *)
Theorem run_sends_in_order vx vy id ops :
  ordered vx vy id (run exec ops (initial vx vy id)).1 (run exec ops (initial vx vy id)).2.
Proof.
  apply run_inv; [|intros; by apply ordered_step].
  split; cbn; try done.
  - split; [|done]. intros H. by apply not_elem_of_nil in H.
  - split; [|done]. intros (i & req & H). by apply not_elem_of_nil in H.
Qed.

(** ** Concrete runs *)

Definition srv : GUID_t := ([1; 15; 205], 3).
Definition me : GUID_t := ([1; 15; 204], 7).
Definition reply_to (n : Z) (res : Z) : sample CalculatorReplyType :=
  mkSample (mkInfo true true srv (srv, n) (me, n)) (mkReply "me" res).
Definition all_sent : list op :=
  [PublicationMatched 1 srv; SubscriptionMatched 1 srv; Run true (me, 0); Run true (me, 0);
   Run true (me, 1); Run true (me, 2); Run true (me, 3); Run true (me, 4)].
Definition all_answered : list op :=
  all_sent ++ [Deliver (reply_to 1 9); Deliver (reply_to 2 (-1)); Deliver (reply_to 2 (-1));
    Deliver (reply_to 3 20); DataAvailable; Take; Handle; Take; Handle; Take; Handle; Take; Handle;
    Deliver (reply_to 4 0); Take; Handle].

Example client_run :
  (run exec (all_answered ++ [Run true (me, 0)]) (initial 4 5 "me")).2 =
  [ESent (me, 1) (mkRequest "me" ADDITION 4 5) true; ESent (me, 2) (mkRequest "me" SUBTRACTION 4 5) true;
   ESent (me, 3) (mkRequest "me" MULTIPLICATION 4 5) true; ESent (me, 4) (mkRequest "me" DIVISION 4 5) true;
   EReport (me, 1) [1; 15; 205] 9; EReport (me, 2) [1; 15; 205] (-1); EDuplicate (me, 2);
   EReport (me, 3) [1; 15; 205] 20; EReport (me, 4) [1; 15; 205] 0] /\
  running (run exec (all_answered ++ [Run true (me, 0)]) (initial 4 5 "me")).1 = Returned.
Proof. vm_compute. done. Qed.

Lemma client_stops_when_answered_witness :
  stop_ (run exec all_answered (initial 4 5 "me")).1 = true.
Proof.
  apply (client_stops_when_answered 4 5 "me" all_answered).
  - apply (bool_decide_unpack _). vm_compute. done.
  - reflexivity.
  - split; [reflexivity|]. intros i. vm_compute (sent _). vm_compute (reported _).
    rewrite !elem_of_cons. tauto.
Defined.

End RequestClient.
