(* ===== verification/RequestSystem.v ===== *)
(** Client and server of the calculator service together.  The DDS library between them may
    lose, repeat, delay and reorder what is written, and delivers the samples of other
    participants as well, but invents nothing: it gives the requests of a writer different
    identities, carries data and identities unchanged, and passes to the client's reader only
    replies with the client's id (the content filter of [create_reply_entities]). *)
From S2P Require Import Prelude Calculator RequestServer RequestClient.

Module RequestSystem.
Import Calculator.
Import RequestServer(SampleInfo, mkInfo, instance_alive, valid_data, publication_handle,
  sample_identity, related_sample_identity, sample, mkSample, info, data).
Module S := RequestServer.
Module C := RequestClient.

Section Service.

(** The client's request writer and reply reader have a writer's identity; [unknown] is what
    the parameters of a failed write hold. *)
Context (writer : GUID_t) (reply_writer : GUID_t) (unknown : SampleIdentity).
Hypothesis unknown_writer : Calculator.writer_guid unknown <> writer.

(** The two programs, what each of them has written, the sequence number of the next
    request, and the events so far. *)
Record sys := mkSys {
  client : C.client;
  server : S.server;
  requests : list (SampleIdentity * CalculatorRequestType);
  replies : list (CalculatorReplyType * SampleIdentity);
  next_seq : Z;
  cevs : list C.event;
  sevs : list S.event;
}.

Definition start (vx vy : Z) (id : string) : sys :=
  mkSys (C.initial vx vy id) S.initial [] [] 1 [] [].

(** Who moves: the client (its thread with the answer of the writer, or any other of its
    steps), the server, the library with a request of the client or a reply of the server,
    and with samples of others. *)
Inductive op :=
| ClientRun (write_ok : bool)
| ClientStep (o : C.op)
| ServerStep (o : S.op)
| CarryRequest (n : nat)
| CarryReply (n : nat)
| OtherRequest (smp : sample CalculatorRequestType)
| OtherReply (smp : sample CalculatorReplyType).

Definition client_moves (o : C.op) (s : sys) : sys :=
  let '(c, evs) := C.exec o (client s) in
  mkSys c (server s) (requests s) (replies s) (next_seq s) (cevs s ++ evs) (sevs s).

Definition written (evs : list C.event) : list (SampleIdentity * CalculatorRequestType) :=
  omap (fun e => match e with C.ESent id req true => Some (id, req) | _ => None end) evs.

Definition replied (evs : list S.event) : list (CalculatorReplyType * SampleIdentity) :=
  omap (fun e => match e with S.EReply r rel true => Some (r, rel) | _ => None end) evs.

Definition client_runs (ok : bool) (s : sys) : sys :=
  let '(c, evs) := C.exec (C.Run ok (if ok then (writer, next_seq s) else unknown)) (client s) in
  mkSys c (server s) (requests s ++ written evs) (replies s)
    (next_seq s + Z.of_nat (length (written evs))) (cevs s ++ evs) (sevs s).

Definition server_moves (o : S.op) (s : sys) : sys :=
  let '(v, evs) := S.exec o (server s) in
  mkSys (client s) v (requests s) (replies s ++ replied evs) (next_seq s) (cevs s) (sevs s ++ evs).

Definition request_sample (r : SampleIdentity * CalculatorRequestType) : sample CalculatorRequestType :=
  mkSample (mkInfo true true writer r.1 unknown) r.2.
Definition reply_sample (r : CalculatorReplyType * SampleIdentity) : sample CalculatorReplyType :=
  mkSample (mkInfo true true reply_writer unknown r.2) r.1.

Definition exec (o : op) (s : sys) : sys :=
  match o with
  | ClientRun ok => client_runs ok s
  | ClientStep (C.Run _ _) | ClientStep (C.Deliver _) => s
  | ClientStep o => client_moves o s
  | ServerStep (S.Deliver _) => s
  | ServerStep o => server_moves o s
  | CarryRequest n =>
      match requests s !! n with
      | Some r => server_moves (S.Deliver (request_sample r)) s
      | None => s
      end
  | CarryReply n =>
      match replies s !! n with
      | Some r =>
          if bool_decide (reply_client_id r.1 = C.my_id (client s))
          then client_moves (C.Deliver (reply_sample r)) s else s
      | None => s
      end
  | OtherRequest smp =>
      if bool_decide (writer_guid (sample_identity (info smp)) <> writer) &&
         bool_decide (sample_identity (info smp) <> unknown)
      then server_moves (S.Deliver smp) s else s
  | OtherReply smp =>
      if bool_decide (writer_guid (related_sample_identity (info smp)) <> writer) &&
         bool_decide (related_sample_identity (info smp) <> unknown)
      then client_moves (C.Deliver smp) s else s
  end.

Definition run (ops : list op) (s : sys) : sys := foldl (fun s o => exec o s) s ops.

(** ** The invariant *)

Definition known_request (s : sys) (smp : sample CalculatorRequestType) : Prop :=
  sample_identity (info smp) <> unknown /\
  (writer_guid (sample_identity (info smp)) = writer ->
   (sample_identity (info smp), data smp) ∈ requests s).
Definition known_reply (s : sys) (smp : sample CalculatorReplyType) : Prop :=
  related_sample_identity (info smp) <> unknown /\
  (writer_guid (related_sample_identity (info smp)) = writer ->
   (data smp, related_sample_identity (info smp)) ∈ replies s).

Record sys_ok (vx vy : Z) (id : string) (signalled : bool) (s : sys) : Prop := {
  ok_server : S.traced (server s) (sevs s);
  ok_client : C.ordered vx vy id (client s) (cevs s);
  ok_ids : NoDup (C.sent (cevs s));
  ok_book : C.book_ok signalled (client s) (cevs s);
  ok_fresh : forall i, i ∈ C.sent (cevs s) ->
    (i = unknown /\ C.running (client s) = C.Threw) \/ (exists n, i = (writer, n) /\ n < next_seq s);
  ok_requests : requests s = written (cevs s);
  ok_writer : Forall (fun r => writer_guid r.1 = writer) (requests s);
  ok_replies : replies s = replied (sevs s);
  ok_taken : forall obj smp, S.ETaken obj smp ∈ sevs s -> known_request s smp;
  ok_sreader : Forall (known_request s) (S.reader (server s));
  ok_creader : Forall (known_reply s) (C.reader (client s));
  ok_callback : forall smp, C.callback (client s) = Some (Some smp) -> known_reply s smp;
  ok_reports : forall i srv res, C.EReport i srv res ∈ cevs s ->
    i <> unknown /\ (writer_guid i = writer -> exists r, (r, i) ∈ replies s /\ result r = res);
}.

Lemma known_request_mono s s' smp :
  (forall r, r ∈ requests s -> r ∈ requests s') -> known_request s smp -> known_request s' smp.
Proof. unfold known_request. naive_solver. Qed.

Lemma known_reply_mono s s' smp :
  (forall r, r ∈ replies s -> r ∈ replies s') -> known_reply s smp -> known_reply s' smp.
Proof. unfold known_reply. naive_solver. Qed.

(** What takes do to the reader of the server *)
Lemma take_reader v :
  (forall smp, smp ∈ S.reader (S.take_request v).1 -> smp ∈ S.reader v) /\
  (forall obj smp, S.ETaken obj smp ∈ (S.take_request v).2 -> smp ∈ S.reader v).
Proof.
  unfold S.take_request. destruct (S.callback v) as [[obj [i|]]|]; [split; [auto|set_solver]| |split; [auto|set_solver]].
  destruct (S.stop_ v); [split; [auto|set_solver]|].
  destruct (S.reader v) as [|smp rest] eqn:E; [cbn; rewrite E; split; [auto|set_solver]|].
  cbn. split; [intros smp' H; by right|].
  intros obj' smp' H. destruct (valid_data _); [|by apply not_elem_of_nil in H].
  apply list_elem_of_singleton in H. simplify_eq. left.
Qed.

Lemma takes_reader n v :
  (forall smp, smp ∈ S.reader (S.takes n v).1 -> smp ∈ S.reader v) /\
  (forall obj smp, S.ETaken obj smp ∈ (S.takes n v).2 -> smp ∈ S.reader v).
Proof.
  revert v. induction n as [|n IH]; intros v; [split; [auto|set_solver]|]. cbn [S.takes].
  destruct (take_reader v) as [H1 H2]. destruct (S.take_request v) as [v1 e1]. cbn [fst snd] in *.
  destruct (IH v1) as [I1 I2]. destruct (S.takes n v1) as [v2 e2]. cbn [fst snd] in *.
  split; [auto|]. intros obj smp [H|H]%elem_of_app; eauto.
Qed.

Lemma turn_reader ok k v :
  (forall smp, smp ∈ S.reader (S.reply_routine_iter ok k v).1 -> smp ∈ S.reader v) /\
  (forall obj smp, S.ETaken obj smp ∈ (S.reply_routine_iter ok k v).2 -> smp ∈ S.reader v).
Proof.
  unfold S.reply_routine_iter. destruct (S.replying v); cbn; [|split; [auto|set_solver]].
  destruct (S.stop_ v); [split; [auto|set_solver]|].
  destruct (S.requests_ v) as [|r rest]; [split; [auto|set_solver]|].
  destruct (takes_reader (S.turn_takes k) (S.set_requests rest v)) as [T1 T2].
  destruct (S.process_request_cases ok k r (S.set_requests rest v)) as [ok Hu|ok Hu Hm|ok Ec|ok Ec Hm|ok res Ec Hm];
    cbn [fst snd]; (split; [try (destruct ok); auto|]); try set_solver; intros obj smp [H|H]%elem_of_app; eauto; set_solver.
Qed.

(** What a step of the server does to its reader and which samples it takes. *)
Lemma server_reader o v :
  (forall smp, smp ∈ S.reader (S.exec o v).1 ->
     smp ∈ S.reader v \/ o = S.Deliver smp) /\
  (forall obj smp, S.ETaken obj smp ∈ (S.exec o v).2 -> smp ∈ S.reader v).
Proof.
  destruct o as [st rem ud|ch h|ch h|smp| | | |ok|ok k|]; cbn.
  - destruct (S.discovery_frame st rem ud v) as (m & b & ->). split; [auto|set_solver].
  - unfold S.on_publication_matched.
    destruct (S.matched_frame match_reply_reader ch h v) as (m & ev & -> & Hq).
    split; [auto|]. intros obj smp H. by destruct (Hq _ H).
  - unfold S.on_subscription_matched.
    destruct (S.matched_frame match_request_writer ch h v) as (m & ev & -> & Hq).
    split; [auto|]. intros obj smp H. by destruct (Hq _ H).
  - split; [|set_solver]. intros smp' [H|H]%elem_of_app; [auto|].
    apply list_elem_of_singleton in H as ->. auto.
  - unfold S.on_data_available. destruct (S.callback v); (split; [auto|set_solver]).
  - destruct (take_reader v) as [H1 H2]. split; [intros smp H; left; by apply H1|apply H2].
  - unfold S.push_request. destruct (S.callback v) as [[obj [i|]]|]; (split; [auto|set_solver]).
  - destruct (turn_reader ok S.at_once v) as [H1 H2]. split; [intros smp H; left; by apply H1|apply H2].
  - destruct (turn_reader ok k v) as [H1 H2]. split; [intros smp H; left; by apply H1|apply H2].
  - split; [auto|set_solver].
Qed.

(** What a step of the client does to its reader and its callback, and what it reports. *)
Lemma client_reader o c :
  (forall smp, smp ∈ C.reader (C.exec o c).1 -> smp ∈ C.reader c \/ o = C.Deliver smp) /\
  (forall smp, C.callback (C.exec o c).1 = Some (Some smp) ->
     C.callback c = Some (Some smp) \/ smp ∈ C.reader c) /\
  (forall i srv res, C.EReport i srv res ∈ (C.exec o c).2 ->
     exists smp, C.callback c = Some (Some smp) /\
       i = related_sample_identity (info smp) /\ res = result (data smp)).
Proof.
  destruct o as [st rem ud|ch h|ch h|smp| | | |ok id|]; cbn.
  - unfold C.on_participant_discovery. repeat case_match; split_and!; auto; set_solver.
  - unfold C.on_publication_matched, C.matched_with. repeat case_match; split_and!; auto; set_solver.
  - unfold C.on_subscription_matched, C.matched_with. repeat case_match; split_and!; auto; set_solver.
  - split_and!; auto; [|set_solver]. intros smp' [H|H]%elem_of_app; [auto|].
    apply list_elem_of_singleton in H as ->. auto.
  - unfold C.on_data_available. destruct (C.callback c) eqn:E; cbn; rewrite ?E; split_and!; auto; set_solver.
  - unfold C.take_reply. destruct (C.callback c) as [[smp|]|] eqn:E; cbn; rewrite ?E; [split_and!; auto; set_solver| |split_and!; auto; set_solver].
    destruct (C.stop_ c); [split_and!; auto; set_solver|].
    destruct (C.reader c) as [|smp rest] eqn:Er; cbn; rewrite ?Er; [split_and!; auto; set_solver|].
    split_and!; [intros smp' H; left; by right| |set_solver].
    intros smp'. destruct (_ && _); [|done]. intros [= ->]. right. left.
  - unfold C.handle_reply. destruct (C.callback c) as [[smp|]|] eqn:E; cbn; rewrite ?E;
      [|split_and!; auto; set_solver..].
    destruct (C.requests_status_ c !! _) as [[]|]; [split_and!; auto; set_solver| |split_and!; auto; set_solver].
    destruct ((size _ =? 4)%nat && _); (split_and!; [auto|done|]);
      intros i srv res H; apply list_elem_of_singleton in H; simplify_eq; eauto.
  - unfold C.run_step. destruct (C.running c); cbn; repeat case_match; simplify_eq/=;
      split_and!; auto; set_solver.
  - split_and!; auto; set_solver.
Qed.

(** ** Preservation *)

#[local] Arguments C.sent : simpl never.
#[local] Arguments written : simpl never.
#[local] Arguments replied : simpl never.

Lemma written_app e1 e2 : written (e1 ++ e2) = written e1 ++ written e2.
Proof. apply omap_app. Qed.
Lemma replied_app e1 e2 : replied (e1 ++ e2) = replied e1 ++ replied e2.
Proof. apply omap_app. Qed.

Lemma elem_replied r rel evs : (r, rel) ∈ replied evs <-> S.EReply r rel true ∈ evs.
Proof.
  unfold replied. rewrite list_elem_of_omap. split.
  - intros (e & He & E). destruct e as [| | | | | |r' rel' [|]| | |]; naive_solver.
  - intros H. by eexists.
Qed.

Lemma elem_written i req evs : (i, req) ∈ written evs <-> C.ESent i req true ∈ evs.
Proof.
  unfold written. rewrite list_elem_of_omap. split.
  - intros (e & He & E). destruct e as [| |i' req' [|]| | | |]; naive_solver.
  - intros H. by eexists.
Qed.

Lemma elem_sent i evs : i ∈ C.sent evs <-> exists req ok, C.ESent i req ok ∈ evs.
Proof.
  unfold C.sent. rewrite list_elem_of_omap. split.
  - intros (e & He & E). destruct e as [| |i' req' ok| | | |]; naive_solver.
  - intros (req & ok & H). by eexists.
Qed.

Lemma no_sent evs :
  (forall e, e ∈ evs -> C.sent_id e = None) -> C.sent evs = [] /\ written evs = [].
Proof.
  induction evs as [|e evs IH]; [done|]. intros H.
  destruct IH as [E1 E2]; [intros e' He'; apply H; by right|].
  assert (C.sent_id e = None) as He by (apply H; left).
  destruct e; done.
Qed.

Lemma server_moves_ok vx vy id sg o s :
  (forall smp, o = S.Deliver smp -> known_request s smp) ->
  sys_ok vx vy id sg s -> sys_ok vx vy id sg (server_moves o s).
Proof.
  intros Hd [K1 K2 K3 K4 K5 K6 KW K7 K8 K9 K10 K11 K12].
  pose proof (S.traced_step o (server s) (sevs s) K1) as T.
  destruct (server_reader o (server s)) as [R1 R2].
  unfold server_moves. destruct (S.exec o (server s)) as [v evs]. cbn in *.
  assert (forall r, r ∈ replies s -> r ∈ replies s ++ replied evs) as Hm
    by (intros; apply elem_of_app; by left).
  split; cbn; try done.
  - by rewrite K7, replied_app.
  - intros obj smp [H|H]%elem_of_app; [by apply (K8 obj)|].
    apply R2 in H. rewrite Forall_forall in K9. by apply K9.
  - apply Forall_forall. intros smp Hs. rewrite Forall_forall in K9.
    apply R1 in Hs as [Hs|Hs]; [by apply K9|by apply Hd].
  - eapply Forall_impl; [exact K10|]. intros smp. by apply known_reply_mono.
  - intros smp Hs. eapply known_reply_mono; [|by apply K11]. done.
  - intros i srv res Hr. destruct (K12 _ _ _ Hr) as [Hne Hw]. split; [done|].
    intros E. destruct (Hw E) as (r & Hin & Er). eauto.
Qed.

(** What a step of the client changes in the system, whoever sends: its reports are backed
    by replies. *)
Lemma client_reports vx vy id sg o s :
  (forall smp, o = C.Deliver smp -> known_reply s smp) -> sys_ok vx vy id sg s ->
  Forall (known_reply s) (C.reader (C.exec o (client s)).1) /\
  (forall smp, C.callback (C.exec o (client s)).1 = Some (Some smp) -> known_reply s smp) /\
  (forall i srv res, C.EReport i srv res ∈ cevs s ++ (C.exec o (client s)).2 ->
    i <> unknown /\ (writer_guid i = writer -> exists r, (r, i) ∈ replies s /\ result r = res)).
Proof.
  intros Hd [K1 K2 K3 K4 K5 K6 KW K7 K8 K9 K10 K11 K12].
  destruct (client_reader o (client s)) as (R1 & R2 & R3).
  rewrite Forall_forall in K10. split_and!.
  - apply Forall_forall. intros smp [H|H]%R1; [by apply K10|by apply Hd].
  - intros smp [H|H]%R2; [by apply K11|by apply K10].
  - intros i srv res [H|H]%elem_of_app; [eauto|].
    destruct (R3 _ _ _ H) as (smp & Hc & -> & ->). destruct (K11 _ Hc) as [Hne Hk].
    split; [done|]. intros Hw. eauto.
Qed.

Lemma client_moves_ok vx vy id sg o s :
  (forall smp, o = C.Deliver smp -> known_reply s smp) -> C.is_run o = false ->
  sys_ok vx vy id sg s -> sys_ok vx vy id (sg || C.is_stop o) (client_moves o s).
Proof.
  intros Hd Hnr Hok. destruct (client_reports _ _ _ _ _ _ Hd Hok) as (Q1 & Q2 & Q3).
  destruct Hok as [K1 K2 K3 K4 K5 K6 KW K7 K8 K9 K10 K11 K12].
  destruct (C.only_run_sends o (client s) Hnr) as [Hns Hrun].
  destruct (no_sent _ Hns) as [Es Ew].
  pose proof (C.ordered_step _ _ _ o _ _ K2) as Ho.
  pose proof (C.book_step_any sg o (client s) (cevs s) (fun _ => K4)) as Hb.
  rewrite C.sent_app, Es, app_nil_r in Hb. specialize (Hb K3).
  unfold client_moves. destruct (C.exec o (client s)) as [c evs]. cbn in *.
  assert (C.sent (cevs s ++ evs) = C.sent (cevs s)) as E by (by rewrite C.sent_app, Es, app_nil_r).
  split; cbn; try done.
  - by rewrite E.
  - intros i. rewrite E, Hrun. apply K5.
  - by rewrite written_app, Ew, app_nil_r.
Qed.

Lemma client_deliver_ok vx vy id sg smp s :
  known_reply s smp -> sys_ok vx vy id sg s -> sys_ok vx vy id sg (client_moves (C.Deliver smp) s).
Proof.
  intros Hk Hok. rewrite <- (orb_false_r sg).
  apply (client_moves_ok vx vy id sg (C.Deliver smp)); [|done..]. by intros smp' [= <-].
Qed.

Lemma client_runs_ok vx vy id sg ok s :
  sys_ok vx vy id sg s -> sys_ok vx vy id sg (client_runs ok s).
Proof.
  intros Hok. set (i := if ok then (writer, next_seq s) else unknown).
  destruct (client_reports _ _ _ _ (C.Run ok i) _ ltac:(done) Hok) as (Q1 & Q2 & Q3).
  destruct Hok as [K1 K2 K3 K4 K5 K6 KW K7 K8 K9 K10 K11 K12].
  pose proof (C.ordered_step _ _ _ (C.Run ok i) _ _ K2) as Ho.
  pose proof (C.book_step_any sg (C.Run ok i) (client s) (cevs s) (fun _ => K4)) as Hb.
  cbn [C.is_stop] in Hb. rewrite orb_false_r in Hb.
  unfold client_runs. fold i. cbn [C.exec] in *.
  destruct (C.run_step_cases ok i (client s)) as [[E Ht]|(k & Ek & E & Ht)];
    destruct (C.run_step ok i (client s)) as [c evs]; cbn in *; subst evs.
  - rewrite app_nil_r in *. specialize (Hb K3). split; cbn; rewrite ?app_nil_r; try done.
    intros j Hj. rewrite Z.add_0_r, Ht. by apply K5.
  - assert (forall j, j ∈ C.sent (cevs s) -> exists n, j = (writer, n) /\ n < next_seq s) as Hold.
    { intros j [[_ Hj]|Hj]%K5; [congruence|done]. }
    assert (i ∉ C.sent (cevs s)) as Hf.
    { intros (n & E & Hn)%Hold. subst i. destruct ok; [injection E; lia|].
      apply unknown_writer. by rewrite E. }
    assert (C.sent (cevs s ++ C.ESent i (C.make_request (client s) k) ok :: (if ok then [] else [C.EThrow]))
            = C.sent (cevs s) ++ [i]) as Es by (rewrite C.sent_app; by destruct ok).
    assert (NoDup (C.sent (cevs s) ++ [i])) as ND.
    { apply NoDup_app. split; [done|]. split; [|apply NoDup_singleton].
      intros j Hj ->%list_elem_of_singleton. done. }
    rewrite Es in Hb. specialize (Hb ND).
    assert (forall r, r ∈ requests s -> r ∈ requests s ++ written
      (C.ESent i (C.make_request (client s) k) ok :: (if ok then [] else [C.EThrow]))) as Hm
      by (intros; apply elem_of_app; by left).
    split; cbn; try done.
    + by rewrite Es.
    + rewrite Es. intros j [Hj|Hj]%elem_of_app.
      * right. destruct (Hold j Hj) as (n & -> & Hn). exists n. split; [done|]. lia.
      * apply list_elem_of_singleton in Hj as ->. subst i. destruct ok; cbn.
        -- right. exists (next_seq s). split; [done|].
           change (length (written _)) with 1%nat. lia.
        -- left. split; [done|]. by apply Ht.
    + by rewrite K6, written_app.
    + apply Forall_app. split; [done|]. subst i. destruct ok; by repeat constructor.
    + intros obj smp H. eapply known_request_mono; [|by apply (K8 obj)]. done.
    + eapply Forall_impl; [exact K9|]. intros smp. by apply known_request_mono.
Qed.

Definition is_signal (o : op) : bool := match o with ClientStep C.Stop => true | _ => false end.

Lemma sys_exec_ok vx vy id sg o s :
  sys_ok vx vy id sg s -> sys_ok vx vy id (sg || is_signal o) (exec o s).
Proof.
  intros Hok. destruct o as [ok|o|o|n|n|smp|smp]; cbn [exec is_signal]; rewrite ?orb_false_r.
  - by apply client_runs_ok.
  - destruct o; cbn [is_signal]; rewrite ?orb_false_r; try done;
      match goal with |- context [client_moves ?o _] =>
        let H := fresh in
        pose proof (client_moves_ok vx vy id sg o s ltac:(done) ltac:(done) Hok) as H;
        cbn [C.is_stop] in H; rewrite ?orb_false_r in H; exact H end.
  - destruct o; try done; by apply server_moves_ok.
  - destruct (requests s !! n) as [r|] eqn:E; [|done]. apply server_moves_ok; [|done].
    intros smp [= <-]. apply list_elem_of_lookup_2 in E.
    pose proof (ok_writer _ _ _ _ _ Hok) as Hw. rewrite Forall_forall in Hw. specialize (Hw _ E).
    split; [|intros _; by destruct r]. cbn. intros Eu. rewrite Eu in Hw. done.
  - destruct (replies s !! n) as [[r rel]|] eqn:E; [|done].
    case_bool_decide; [|done]. apply client_deliver_ok; [|done].
    apply list_elem_of_lookup_2 in E. split; [|by intros _].
    cbn. rewrite (ok_replies _ _ _ _ _ Hok) in E. apply elem_replied in E.
    apply (S.tr_reply _ _ (ok_server _ _ _ _ _ Hok)) in E as (obj & s1 & d & v & H1 & <- & _).
    by apply (ok_taken _ _ _ _ _ Hok obj).
  - destruct (_ && _) eqn:E; [|done]. apply andb_prop in E as [E1 E2].
    apply bool_decide_eq_true_1 in E1, E2. apply server_moves_ok; [|done].
    intros smp' [= <-]. by split.
  - destruct (_ && _) eqn:E; [|done]. apply andb_prop in E as [E1 E2].
    apply bool_decide_eq_true_1 in E1, E2. apply client_deliver_ok; [|done]. by split.
Qed.

Lemma start_ok vx vy id : sys_ok vx vy id false (start vx vy id).
Proof.
  split; cbn; try constructor; try done; try apply S.traced_initial; try apply C.book_initial;
    try (intros; set_solver).
Qed.

Lemma run_ok vx vy id ops :
  sys_ok vx vy id (existsb is_signal ops) (run ops (start vx vy id)).
Proof.
  unfold run. induction ops as [|o ops IH] using rev_ind; [apply start_ok|].
  rewrite foldl_app, existsb_app. cbn [existsb foldl]. rewrite orb_false_r. by apply sys_exec_ok.
Qed.

(** The client moves by its own steps only. *)
Lemma client_inv (P : C.client -> Prop) ops s :
  (forall o c, P c -> P (C.exec o c).1) -> P (client s) -> P (client (run ops s)).
Proof.
  intros Hstep. unfold run. revert s. induction ops as [|o ops IH]; intros s H; [done|].
  cbn [foldl]. apply IH. clear IH.
  assert (forall o, P (client (client_moves o s))) as Hm.
  { intros o'. unfold client_moves. specialize (Hstep o' (client s) H). by destruct (C.exec o' (client s)). }
  assert (forall o, P (client (server_moves o s))) as Hv.
  { intros o'. unfold server_moves. by destruct (S.exec o' (server s)). }
  destruct o as [ok|o|o|n|n|smp|smp]; cbn [exec].
  - unfold client_runs. match goal with |- context [C.exec ?o ?c] =>
      specialize (Hstep o c H); destruct (C.exec o c) end. done.
  - destruct o; auto.
  - destruct o; auto.
  - destruct (requests s !! n); auto.
  - destruct (replies s !! n); [|done]. case_bool_decide; auto.
  - destruct (_ && _); auto.
  - destruct (_ && _); auto.
Qed.

(** ** From a report back to the request *)

Lemma sent_in_order vx vy id c evs i req ok :
  C.ordered vx vy id c evs -> C.ESent i req ok ∈ evs -> req ∈ C.four_requests vx vy id.
Proof.
  intros Ho H. assert (req ∈ omap C.sent_request evs) as Hr
    by (apply list_elem_of_omap; by eexists).
  rewrite (C.or_requests _ _ _ _ _ Ho) in Hr.
  apply elem_of_take in Hr as (n & Hn & _). by eapply list_elem_of_lookup_2.
Qed.

Lemma four_requests_typed vx vy id req :
  is_int16 vx = true -> is_int16 vy = true -> req ∈ C.four_requests vx vy id -> request_typed req.
Proof.
  intros Hx Hy H. apply list_elem_of_fmap in H as (o & -> & _). by split.
Qed.

Lemma report_backed vx vy id sg s i srv res :
  is_int16 vx = true -> is_int16 vy = true -> sys_ok vx vy id sg s ->
  S.taken_alone (sevs s) -> C.EReport i srv res ∈ cevs s ->
  exists req, C.ESent i req true ∈ cevs s /\ req ∈ C.four_requests vx vy id /\ meaning req = Some res.
Proof.
  intros Hx Hy [K1 K2 K3 K4 K5 K6 KW K7 K8 K9 K10 K11 K12] Ha Hr.
  destruct (K12 _ _ _ Hr) as [Hne Hw].
  assert (i ∈ C.sent (cevs s)) as Hi.
  { apply (C.bk_sent _ _ _ K4). exists true. apply (C.bk_reported _ _ _ K4).
    unfold C.reported. apply list_elem_of_omap. by eexists. }
  assert (writer_guid i = writer) as Ew by (destruct (K5 _ Hi) as [[Hu _]|(n & -> & _)]; [by destruct Hne|done]).
  destruct (Hw Ew) as (r & Hin & <-). rewrite K7 in Hin. apply elem_replied in Hin.
  apply (S.tr_reply _ _ K1) in Hin. destruct (S.justified_alone _ _ _ Ha Hin) as (obj & s2 & H2 & Eid & _ & Hc). destruct (K8 _ _ H2) as [_ Hk].
  rewrite Eid in Hk. specialize (Hk Ew). rewrite K6 in Hk. apply elem_written in Hk.
  pose proof (sent_in_order _ _ _ _ _ _ _ _ K2 Hk) as H4.
  exists (data s2). split_and!; [done..|].
  rewrite calculate_meaning in Hc by (by apply (four_requests_typed vx vy id)). congruence.
Qed.

(** One identity, one request. *)
Lemma sent_once evs i r1 o1 r2 o2 :
  NoDup (C.sent evs) -> C.ESent i r1 o1 ∈ evs -> C.ESent i r2 o2 ∈ evs -> r1 = r2.
Proof.
  induction evs as [|e evs IH]; intros ND H1 H2; [by apply not_elem_of_nil in H1|].
  assert (NoDup (C.sent evs)) as ND'.
  { change (C.sent (e :: evs)) with (match C.sent_id e with Some j => j :: C.sent evs | None => C.sent evs end) in ND.
    destruct (C.sent_id e); [by apply NoDup_cons in ND as [_ ?]|done]. }
  apply elem_of_cons in H1 as [E1|H1]; apply elem_of_cons in H2 as [E2|H2]; [congruence| | |by apply IH].
  - subst e. cbn in ND. apply NoDup_cons in ND as [Hn _]. exfalso. apply Hn, elem_sent. eauto.
  - subst e. cbn in ND. apply NoDup_cons in ND as [Hn _]. exfalso. apply Hn, elem_sent. eauto.
Qed.

(** ** Properties *)

(** C9: The service is a calculator: however the library loses, repeats and reorders samples
    and whatever others send, as long as the server takes one request per call of
    [on_data_available], each result the client reports for an identity is the exact result
    of the operation that it sent under this identity. *)
Theorem service_is_a_calculator vx vy id ops i srv res :
  is_int16 vx = true -> is_int16 vy = true ->
  S.taken_alone (sevs (run ops (start vx vy id))) ->
  C.EReport i srv res ∈ cevs (run ops (start vx vy id)) ->
  exists req, C.ESent i req true ∈ cevs (run ops (start vx vy id)) /\
    req ∈ C.four_requests vx vy id /\ meaning req = Some res.
Proof. intros Hx Hy Ha Hr. by apply (report_backed vx vy id _ _ i srv res Hx Hy (run_ok vx vy id ops)). Qed.

(** A client whose second number is zero never ends by itself: the server sends no reply
    to its division, so that [stop_] stays clear and [run] never returns without a signal. *)
Theorem division_by_zero_never_ends vx id ops :
  is_int16 vx = true -> existsb is_signal ops = false ->
  S.taken_alone (sevs (run ops (start vx 0 id))) ->
  C.stop_ (client (run ops (start vx 0 id))) = false /\
  C.running (client (run ops (start vx 0 id))) <> C.Returned.
Proof.
  intros Hx Hs Ha. pose proof (run_ok vx 0 id ops) as Hok. rewrite Hs in Hok.
  set (s := run ops (start vx 0 id)) in *.
  assert (C.stop_ (client s) = false) as Hstop.
  { apply not_true_iff_false. intros Ht.
    pose proof (ok_book _ _ _ _ _ Hok) as B. rewrite (C.bk_stop _ _ _ B) in Ht. cbn in Ht.
    apply andb_prop in Ht as [H4 Hall]. apply Nat.eqb_eq in H4. rewrite (C.bk_size _ _ _ B) in H4.
    pose proof (ok_client _ _ _ _ _ Hok) as Ho. pose proof (C.or_requests _ _ _ _ _ Ho) as Hr.
    rewrite H4 in Hr. change (take 4 (C.four_requests vx 0 id)) with (C.four_requests vx 0 id) in Hr.
    assert (mkRequest id DIVISION vx 0 ∈ omap C.sent_request (cevs s)) as Hdiv.
    { rewrite Hr. unfold C.four_requests, C.operations. cbn. right. right. right. left. }
    apply list_elem_of_omap in Hdiv as (e & He & Ee). destruct e as [| |i req ok| | | |]; try done.
    injection Ee as ->.
    assert (i ∈ C.sent (cevs s)) as Hi by (apply elem_sent; eauto).
    apply (C.bk_sent _ _ _ B) in Hi as [b Hb].
    assert (b = true) as -> by (apply C.all_responses_spec in Hb; done).
    apply (C.bk_reported _ _ _ B) in Hb.
    apply list_elem_of_omap in Hb as (e & Hrep & Ee). destruct e as [| | |i' srv res| | |]; try done.
    injection Ee as ->.
    destruct (report_backed vx 0 id _ s i srv res Hx eq_refl Hok Ha Hrep) as (req & Hsent & _ & Hm).
    rewrite (sent_once _ _ _ _ _ _ (ok_ids _ _ _ _ _ Hok) Hsent He) in Hm. done. }
  split; [done|]. intros Hret.
  pose proof (client_inv C.returned_stopped ops (start vx 0 id) C.exec_returned_stopped ltac:(done)) as Hinv.
  specialize (Hinv Hret). fold s in Hinv. congruence.
Qed.

(** ** One request, one reply *)

Definition server_ready (v : S.server) : Prop :=
  S.callback v = None /\ S.reader v = [] /\ S.requests_ v = [] /\ S.replying v = true /\
  S.stop_ v = false /\ is_matched (guidPrefix writer) (S.client_matched_status_ v) = true.

(** Request [n] is carried, taken by a call of its own and answered. *)
Definition serve (n : nat) : list op :=
  [CarryRequest n; ServerStep S.DataAvailable; ServerStep S.Take; ServerStep S.Push;
   ServerStep S.Take; ServerStep (S.ReplyIter true)].

Lemma reply_once v r rest d res :
  S.replying v = true -> S.stop_ v = false -> S.requests_ v = r :: rest ->
  is_matched (S.client_of r) (S.client_matched_status_ v) = true ->
  S.objects v !! S.request r = Some d -> calculate d = Some (Some res) ->
  S.reply_routine_iter true S.at_once v =
    (S.set_requests rest v,
     [S.EReply (mkReply (client_id d) res) (sample_identity (S.req_info r)) true]).
Proof. intros. rewrite (S.iter_step true S.at_once r rest) by done. by apply (S.process_reply r d res). Qed.

Lemma serve_spec n i req res s :
  server_ready (server s) -> requests s !! n = Some (i, req) -> calculate req = Some (Some res) ->
  server_ready (server (run (serve n) s)) /\
  client (run (serve n) s) = client s /\ requests (run (serve n) s) = requests s /\
  cevs (run (serve n) s) = cevs s /\ next_seq (run (serve n) s) = next_seq s /\
  replies (run (serve n) s) = replies s ++ [(mkReply (client_id req) res, i)].
Proof.
  intros (H1 & H2 & H3 & H4 & H5 & H6) Hn Hc.
  destruct s as [c v rq rp nx ce se]. destruct v as [st m q objs no cb rd rep]. cbn in *. subst.
  cbn [serve run foldl exec]. rewrite Hn. cbn -[S.reply_routine_iter]. unfold server_moves.
  cbn [S.exec server].
  erewrite (reply_once _ _ [] req res); try reflexivity; [|exact H6|cbn; by rewrite lookup_insert_eq|done].
  unfold server_ready, replied. cbn. by rewrite !app_nil_r.
Qed.

(** Its reply, the [n]-th, is carried to the client and handled. *)
Definition accept (n : nat) : list op :=
  [CarryReply n; ClientStep C.DataAvailable; ClientStep C.Take; ClientStep C.Handle; ClientStep C.Take].

End Service.

(** ** Runs between one client and one server *)

Definition me : GUID_t := C.me.
Definition srv : GUID_t := C.srv.
Definition nobody : SampleIdentity := (([], 0), -1).

(** Both ends are matched, the client passes its wait for a server and its second of grace,
    and sends its requests. *)
Definition meet : list op :=
  [ClientStep (C.PublicationMatched 1 srv); ClientStep (C.SubscriptionMatched 1 srv);
   ServerStep (S.PublicationMatched 1 me); ServerStep (S.SubscriptionMatched 1 me);
   ClientRun true; ClientRun true].
Definition run_service (ops : list op) (s : sys) : sys := run me srv nobody ops s.

(** Two requests taken by one call of [on_data_available]: the sum is reported as the
    difference. *)
Definition one_call : list op :=
  meet ++ [ClientRun true; ClientRun true; CarryRequest 0; CarryRequest 1;
   ServerStep S.DataAvailable; ServerStep S.Take; ServerStep S.Push; ServerStep S.Take;
   ServerStep S.Push; ServerStep (S.ReplyIter true); ServerStep (S.ReplyIter true)] ++
  accept 0 ++ accept 1.

Example sum_reported_as_difference :
  cevs (run_service one_call (start 4 5 "me")) =
  [C.ESent (me, 1) (mkRequest "me" ADDITION 4 5) true;
   C.ESent (me, 2) (mkRequest "me" SUBTRACTION 4 5) true;
   C.EReport (me, 1) [1; 15; 205] (-1); C.EReport (me, 2) [1; 15; 205] (-1)].
Proof. vm_compute. reflexivity. Qed.

(** ** Witnesses *)

Definition one_sum : list op := meet ++ [ClientRun true] ++ serve 0 ++ accept 0.

Lemma one_sum_taken_alone : S.taken_alone (sevs (run me srv nobody one_sum (start 4 0 "me"))).
Proof.
  intros obj s1 s2 H1%list_elem_of_In H2%list_elem_of_In. vm_compute in H1, H2. naive_solver.
Qed.

Lemma service_is_a_calculator_witness :
  exists req, C.ESent (me, 1) req true ∈ cevs (run me srv nobody one_sum (start 4 0 "me")) /\
    req ∈ C.four_requests 4 0 "me" /\ meaning req = Some 4.
Proof.
  refine (service_is_a_calculator me srv nobody ltac:(discriminate) 4 0 "me" one_sum (me, 1) [1; 15; 205] 4
    eq_refl eq_refl one_sum_taken_alone _).
  vm_compute. right. left.
Defined.

Lemma division_by_zero_never_ends_witness :
  C.stop_ (client (run me srv nobody one_sum (start 4 0 "me"))) = false.
Proof.
  exact (proj1 (division_by_zero_never_ends me srv nobody ltac:(discriminate) 4 "me" one_sum
    eq_refl eq_refl one_sum_taken_alone)).
Defined.

End RequestSystem.
