(* ===== verification/RequestExchange.v ===== *)
(** Runs between one client of the calculator service and one server, in which every sample that is
    carried is handled before the next: the client sends its requests, the library carries any of
    them to the server and any reply to the client, in any order and any number of times. *)
From S2P Require Import Prelude Calculator RequestServer RequestClient RequestSystem.

Module RequestExchange.
Import Calculator RequestSystem.

(** ** Turns *)
Inductive turn := Send | Serve (n : nat) | Accept (n : nat).

Definition ops_of (t : turn) : list op :=
  match t with Send => [ClientRun true] | Serve n => serve n | Accept n => accept n end.
Definition run_turns (ts : list turn) (s : sys) : sys := run_service (mjoin (ops_of <$> ts)) s.

(** How far the exchange is: the number of requests sent, the numbers of the requests that were
    served and of those whose reply was accepted, in order, and whether [run] has returned *)
Record progress := mkProgress {
  sent : nat;
  served : list nat;
  accepted : list nat;
  ended : bool;
}.
Definition nothing_yet : progress := mkProgress 0 [] [] false.

Definition advance (a : progress) (t : turn) : progress :=
  match t with
  | Send =>
      if (sent a <? 4)%nat then mkProgress (S (sent a)) (served a) (accepted a) (ended a)
      else if (length (accepted a) =? 4)%nat then mkProgress (sent a) (served a) (accepted a) true
      else a
  | Serve n => if (n <? sent a)%nat then mkProgress (sent a) (served a ++ [n]) (accepted a) (ended a) else a
  | Accept n =>
      match served a !! n with
      | Some i =>
          if bool_decide (i ∈ accepted a) then a
          else mkProgress (sent a) (served a) (accepted a ++ [i]) (ended a)
      | None => a
      end
  end.
Definition progress_of (ts : list turn) : progress := foldl advance nothing_yet ts.

(** ** One turn of the programs *)

Lemma run_turns_app ts1 ts2 s : run_turns (ts1 ++ ts2) s = run_turns ts2 (run_turns ts1 s).
Proof. unfold run_turns, run_service, run. by rewrite fmap_app, join_app, foldl_app. Qed.

Lemma run_turns_one t s : run_turns [t] s = run_service (ops_of t) s.
Proof. unfold run_turns. cbn. by rewrite app_nil_r. Qed.

(** A request that was not written is not served. *)
Lemma serve_none n s :
  server_ready me (server s) -> requests s !! n = None ->
  exists v, run_service (serve n) s =
    mkSys (client s) v (requests s) (replies s) (next_seq s) (cevs s) (sevs s) /\ server_ready me v.
Proof.
  intros (H1 & H2 & H3 & H4 & H5 & H6) Hn.
  destruct s as [c v rq rp nx ce se]. destruct v as [st m q objs no cb rd rep]. cbn in *. subst.
  unfold run_service. cbn [serve run foldl exec]. cbn in Hn. rewrite Hn. cbn. rewrite !app_nil_r. by eexists.
Qed.

(** The three states in which a reply may find the client *)
Section Accepting.
Context (inp : Z * Z) (id : string) (m : status_map) (book : gmap SampleIdentity bool) (pc : C.run_pc).
Context (v : S.server) (rq : list (SampleIdentity * CalculatorRequestType)).
Context (rp : list (CalculatorReplyType * SampleIdentity)) (nx : Z) (ce : list C.event) (se : list S.event).

Definition sys_with (st : bool) (book : gmap SampleIdentity bool) (rd : list (S.sample CalculatorReplyType)) (ce : list C.event) : sys :=
  mkSys (C.mkClient inp id m st book None rd pc) v rq rp nx ce se.

Lemma accept_none n st rd :
  rp !! n = None -> (st = false -> rd = []) -> run_service (accept n) (sys_with st book rd ce) = sys_with st book rd ce.
Proof.
  intros Hn Hrd. unfold run_service, sys_with. cbn [accept run foldl exec]. cbn [replies]. rewrite Hn.
  destruct st; [|rewrite Hrd by done]; cbn; by rewrite !app_nil_r.
Qed.

Lemma accept_stopped n r i rd :
  rp !! n = Some (r, i) -> reply_client_id r = id ->
  run_service (accept n) (sys_with true book rd ce) = sys_with true book (rd ++ [reply_sample srv nobody (r, i)]) ce.
Proof.
  intros Hn Hid. unfold run_service, sys_with. cbn [accept run foldl exec]. cbn [replies]. rewrite Hn. cbn [fst].
  rewrite bool_decide_eq_true_2 by done. cbn. by rewrite !app_nil_r.
Qed.

Lemma accept_again n r i :
  rp !! n = Some (r, i) -> reply_client_id r = id -> book !! i = Some true ->
  run_service (accept n) (sys_with false book [] ce) = sys_with false book [] (ce ++ [C.EDuplicate i]).
Proof.
  intros Hn Hid Hb. unfold run_service, sys_with. cbn [accept run foldl exec]. cbn [replies]. rewrite Hn. cbn [fst].
  rewrite bool_decide_eq_true_2 by done. cbn -[C.handle_reply]. unfold client_moves. cbn [C.exec client].
  unfold C.handle_reply. cbn. rewrite Hb. cbn. by rewrite !app_nil_r.
Qed.

(** A new answer is reported, and the client stops if it was the last. *)
Lemma accept_new n r i :
  rp !! n = Some (r, i) -> reply_client_id r = id -> book !! i = Some false ->
  let book' := <[i := true]> book in
  run_service (accept n) (sys_with false book [] ce) =
    sys_with ((size book' =? 4)%nat && C.all_responses_received book') book' [] (ce ++ [C.EReport i (guidPrefix srv) (result r)]).
Proof.
  intros Hn Hid Hb book'. unfold run_service, sys_with. cbn [accept run foldl exec]. cbn [replies]. rewrite Hn. cbn [fst].
  rewrite bool_decide_eq_true_2 by done. cbn -[C.handle_reply]. unfold client_moves. cbn [C.exec client].
  unfold C.handle_reply. cbn -[size Nat.eqb]. rewrite Hb. fold book'.
  destruct (_ && _) eqn:E; cbn -[size Nat.eqb]; by rewrite !app_nil_r.
Qed.
End Accepting.

(** ** The exchange *)
Section Exchange.
Context (vx vy : Z) (Hx : is_int16 vx = true) (Hy : is_int16 vy = true) (H0 : vy <> 0).

Definition ident (i : nat) : SampleIdentity := (me, Z.of_nat i + 1).
Definition request_of (i : nat) : CalculatorRequestType := mkRequest "me" (default ADDITION (C.operations !! i)) vx vy.

(** The exact results *)
Definition answer (i : nat) : Z := default (vx + vy) ([vx + vy; vx - vy; vx * vy; Z.quot vx vy] !! i).

Definition reports (evs : list C.event) : list (Z * Z) :=
  omap (fun e => match e with C.EReport i _ res => Some (sequence_number i, res) | _ => None end) evs.

Lemma answers_right i : (i < 4)%nat -> calculate (request_of i) = Some (Some (answer i)).
Proof using Hx Hy H0.
  intros Hi. rewrite calculate_meaning by done. f_equal. unfold meaning, request_of, answer.
  destruct i as [|[|[|[|i]]]]; cbn; [done..| |lia]. by rewrite (proj2 (Z.eqb_neq vy 0) H0).
Qed.

(** The system after some turns *)
Record follows (a : progress) (s : sys) : Prop := {
  f_sent : (sent a <= 4)%nat;
  f_served : Forall (fun i => i < sent a)%nat (served a);
  f_accepted : Forall (fun i => i < sent a)%nat (accepted a);
  f_once : NoDup (accepted a);
  f_ended : ended a = true -> length (accepted a) = 4%nat;
  f_server : server_ready me (server s);
  f_requests : requests s = (fun i => (ident i, request_of i)) <$> seq 0 (sent a);
  f_replies : replies s = (fun i => (mkReply "me" (answer i), ident i)) <$> served a;
  f_next : next_seq s = Z.of_nat (sent a) + 1;
  f_client : exists m book rd, client s =
      C.mkClient (vx, vy) "me" m (length (accepted a) =? 4)%nat book None rd
        (if ended a then C.Returned else if (sent a <? 4)%nat then C.Sending (sent a) else C.WaitReplies) /\
    (length (accepted a) <> 4%nat -> rd = []) /\
    (forall id b, book !! id = Some b <-> exists i, (i < sent a)%nat /\ id = ident i /\ b = bool_decide (i ∈ accepted a)) /\
    size book = sent a;
  f_reports : reports (cevs s) = (fun i => (Z.of_nat i + 1, answer i)) <$> accepted a;
}.

(** Four requests have been answered when there are four answers to different ones. *)
Lemma all_four (l : list nat) n :
  NoDup l -> Forall (fun i => i < n)%nat l -> (n <= 4)%nat ->
  length l = 4%nat <-> n = 4%nat /\ forall i, (i < n)%nat -> i ∈ l.
Proof.
  intros ND Hl Hn. rewrite Forall_forall in Hl.
  assert (Hsub : l ⊆+ seq 0 n).
  { apply NoDup_submseteq; [done|]. intros i Hi%Hl. apply elem_of_seq. lia. }
  pose proof (submseteq_length _ _ Hsub) as Hlen. rewrite length_seq in Hlen. split.
  - intros H4. split; [lia|]. intros i Hi. apply submseteq_length_Permutation in Hsub; [|rewrite length_seq; lia].
    rewrite Hsub. apply elem_of_seq. lia.
  - intros [-> Hall]. apply Nat.le_antisymm; [done|]. change 4%nat with (length (seq 0 4)).
    apply submseteq_length, NoDup_submseteq; [apply NoDup_seq|]. intros i Hi%elem_of_seq. apply Hall. lia.
Qed.

Lemma ident_inj i j : ident i = ident j -> i = j.
Proof. intros [= H]. lia. Qed.

Lemma follows_start : follows nothing_yet (run_service meet (start vx vy "me")).
Proof.
  split; cbn [sent served accepted ended nothing_yet]; [lia|by constructor|by constructor|by apply NoDup_nil|done| |..];
    try (vm_compute; reflexivity).
  - unfold server_ready. split_and!; vm_compute; reflexivity.
  - exists (C.server_matched_status_ (client (run_service meet (start vx vy "me")))), ∅, [].
    split; [vm_compute; reflexivity|]. split; [done|]. split; [|done].
    intros id b. rewrite lookup_empty. split; [done|]. intros (i & Hi & _). lia.
Qed.

(** The thread of [run] sends the next request, returns, or waits. *)
Lemma follows_send a s : follows a s -> follows (advance a Send) (run_service [ClientRun true] s).
Proof.
  intros [F1 F2 F3 F4 F5 F6 F7 F8 F9 (m & book & rd & Hc & Hrd & Hb & Hsz) F11].
  destruct s as [c v rq rp nx ce se]. cbn in F6, F7, F8, F9, F11. cbn [client] in Hc.
  unfold run_service, run. cbn [foldl exec]. unfold client_runs. cbn [client C.exec next_seq]. unfold advance.
  destruct (ended a) eqn:He.
  - specialize (F5 eq_refl). pose proof F5 as [H4 _]%(all_four _ (sent a)); try done.
    rewrite Hc. unfold C.run_step. cbn [C.running].
    destruct a as [sn sv ac en]. cbn in *. subst en. revert Hsz. subst sn. intros Hsz. rewrite F5. cbn. rewrite !app_nil_r, Z.add_0_r.
    split; cbn; try done. exists m, book, rd. rewrite F5. by split_and!.
  - destruct (Nat.ltb_spec (sent a) 4) as [Hlt|Hge].
    + rewrite Hc. unfold C.run_step. cbn [C.running]. unfold C.send_request. cbn [negb].
      assert (Hfresh : book !! ident (sent a) = None).
      { destruct (book !! ident (sent a)) as [b|] eqn:E; [|done]. apply Hb in E as (i & Hi & <-%ident_inj & _). lia. }
      assert (Hn4 : length (accepted a) <> 4%nat).
      { intros H. apply (all_four _ (sent a)) in H as [H _]; try done. lia. }
      assert (Hid : (me, nx) = ident (sent a)) by (unfold ident; f_equal; lia).
      change (C.make_request _ (sent a)) with (request_of (sent a)).
      change (if true then (me, nx) else nobody) with (me, nx). rewrite Hid.
      assert (Hgoal : forall pc, pc = (if (S (sent a) <? 4)%nat then C.Sending (S (sent a)) else C.WaitReplies) ->
        follows (mkProgress (S (sent a)) (served a) (accepted a) false)
          (mkSys (C.mkClient (vx, vy) "me" m (length (accepted a) =? 4)%nat (<[ident (sent a) := false]> book) None rd pc) v
             (rq ++ [(ident (sent a), request_of (sent a))]) rp (nx + 1) (ce ++ [C.ESent (ident (sent a)) (request_of (sent a)) true]) se)).
      { intros pc ->. split; cbn [sent served accepted ended server requests replies next_seq client cevs]; try done.
        - eapply Forall_impl; [exact F2|]. cbn. lia.
        - eapply Forall_impl; [exact F3|]. cbn. lia.
        - rewrite F7, seq_S, fmap_app. done.
        - rewrite F9. lia.
        - exists m, (<[ident (sent a) := false]> book), rd. split_and!; [done|auto| |by rewrite map_size_insert_None, Hsz].
          intros id b. rewrite lookup_insert. case_decide as Ei.
          + subst id. assert (Hna : sent a ∉ accepted a).
            { intros Hin. rewrite Forall_forall in F3. specialize (F3 _ Hin). lia. }
            split; [intros [= <-]; exists (sent a); rewrite bool_decide_false by done; split_and!; [lia|done|done]|].
            intros (i & _ & <-%ident_inj & ->). by rewrite bool_decide_false.
          + rewrite Hb. split; intros (i & Hi & -> & ->); exists i; (split; [|done]); [lia|].
            destruct (decide (i = sent a)) as [->|]; [done|lia].
        - unfold reports in *. rewrite omap_app, F11. apply app_nil_r. }
      destruct (Nat.ltb_spec (sent a) 3) as [H3|H3].
      * apply (Hgoal (C.Sending (S (sent a)))). by rewrite (proj2 (Nat.ltb_lt _ _)) by lia.
      * apply (Hgoal C.WaitReplies). by rewrite (proj2 (Nat.ltb_ge _ _)) by lia.
    + assert (Hs4 : sent a = 4%nat) by lia. rewrite Hc. unfold C.run_step. cbn [C.running C.stop_]. destruct (length (accepted a) =? 4)%nat eqn:E4; cbn; rewrite !app_nil_r, Z.add_0_r.
      * apply Nat.eqb_eq in E4. split; cbn; try done. exists m, book, rd. rewrite E4. by split_and!.
      * split; cbn; try done; [by rewrite He|]. exists m, book, rd. rewrite He, E4, Hs4. rewrite Hs4 in Hb, Hsz. by split_and!.
Qed.

Lemma follows_serve n a s : follows a s -> follows (advance a (Serve n)) (run_service (serve n) s).
Proof using Hx Hy H0.
  intros [F1 F2 F3 F4 F5 F6 F7 F8 F9 Fc F11]. cbn [advance].
  destruct (Nat.ltb_spec n (sent a)) as [Hn|Hn].
  - assert (Hrq : requests s !! n = Some (ident n, request_of n)).
    { rewrite F7, list_lookup_fmap, lookup_seq_lt by done. done. }
    destruct (serve_spec me srv nobody n (ident n) (request_of n) (answer n) s F6 Hrq) as (Hv & Ec & Er & Ee & En & Ep).
    { apply answers_right. lia. }
    unfold run_service. split; cbn [sent served accepted ended]; rewrite ?Ec, ?Er, ?Ee, ?En, ?Ep; try done.
    + apply Forall_app. split; [done|]. by constructor.
    + by rewrite F8, fmap_app.
  - destruct (serve_none n s F6) as (v & -> & Hv); [|by split].
    rewrite F7, list_lookup_fmap. by rewrite lookup_seq_ge by done.
Qed.

Lemma book_answered a book :
  (forall id b, book !! id = Some b <-> exists i, (i < sent a)%nat /\ id = ident i /\ b = bool_decide (i ∈ accepted a)) ->
  size book = sent a -> NoDup (accepted a) -> Forall (fun i => i < sent a)%nat (accepted a) -> (sent a <= 4)%nat ->
  (size book =? 4)%nat && C.all_responses_received book = (length (accepted a) =? 4)%nat.
Proof.
  intros Hb Hsz ND Hl Hs. apply eq_true_iff_eq. rewrite andb_true_iff, !Nat.eqb_eq, Hsz, C.all_responses_spec, (all_four _ (sent a)) by done.
  apply and_iff_compat_l. split.
  - intros H i Hi. destruct (decide (i ∈ accepted a)) as [Ha|Ha]; [done|].
    assert (E : false = true) by (apply (H (ident i)), Hb; exists i; by rewrite bool_decide_false). done.
  - intros H id b (i & Hi & -> & ->)%Hb. rewrite bool_decide_true; auto.
Qed.

Lemma follows_accept n a s : follows a s -> follows (advance a (Accept n)) (run_service (accept n) s).
Proof.
  intros [F1 F2 F3 F4 F5 F6 F7 F8 F9 (m & book & rd & Hc & Hrd & Hb & Hsz) F11].
  destruct s as [c v rq rp nx ce se]. cbn in F6, F7, F8, F9, F11. cbn [client] in Hc. subst c. cbn [advance].
  set (pc := if ended a then _ else _) in *.
  assert (Hrd' : (length (accepted a) =? 4)%nat = false -> rd = []) by (intros E%Nat.eqb_neq; auto).
  change (mkSys _ _ _ _ _ _ _) with (sys_with (vx, vy) "me" m pc v rq rp nx se (length (accepted a) =? 4)%nat book rd ce).
  destruct (served a !! n) as [i|] eqn:Ei.
  2: { rewrite accept_none; [|by rewrite F8, list_lookup_fmap, Ei|done]. split; try done. by exists m, book, rd. }
  assert (Hi : (i < sent a)%nat) by (rewrite Forall_forall in F2; apply F2; by eapply list_elem_of_lookup_2).
  assert (Hrp : rp !! n = Some (mkReply "me" (answer i), ident i)) by (by rewrite F8, list_lookup_fmap, Ei).
  destruct (length (accepted a) =? 4)%nat eqn:E4.
  - apply Nat.eqb_eq in E4. pose proof E4 as [_ Hall]%(all_four _ (sent a)); try done.
    rewrite (accept_stopped _ _ _ _ _ _ _ _ _ _ _ _ _ _ _ Hrp) by done. rewrite bool_decide_true by auto.
    split; try done. eexists m, book, _. rewrite E4. split; [reflexivity|]. by split_and!.
  - rewrite (Hrd' eq_refl). apply Nat.eqb_neq in E4. case_bool_decide as Ha.
    + rewrite (accept_again _ _ _ _ _ _ _ _ _ _ _ _ _ _ Hrp);
        [|done|apply Hb; exists i; by rewrite bool_decide_true].
      split; try done; cbn [sys_with client cevs].
      * exists m, book, []. rewrite (proj2 (Nat.eqb_neq _ _)) by done. by split_and!.
      * unfold reports in *. rewrite omap_app, F11. apply app_nil_r.
    + rewrite (accept_new _ _ _ _ _ _ _ _ _ _ _ _ _ _ Hrp);
        [|done|apply Hb; exists i; by rewrite bool_decide_false].
      set (a' := mkProgress (sent a) (served a) (accepted a ++ [i]) (ended a)).
      assert (Hnd : NoDup (accepted a')).
      { apply NoDup_app. split; [done|]. split; [|apply NoDup_singleton]. by intros j Hj ->%list_elem_of_singleton. }
      assert (Hlt : Forall (fun i => i < sent a)%nat (accepted a')) by (apply Forall_app; split; [done|by constructor]).
      assert (Hsz' : size (<[ident i := true]> book) = sent a).
      { rewrite map_size_insert_Some; [done|]. exists (bool_decide (i ∈ accepted a)). apply Hb. by exists i. }
      assert (Hb' : forall id b, <[ident i := true]> book !! id = Some b <->
        exists j, (j < sent a)%nat /\ id = ident j /\ b = bool_decide (j ∈ accepted a')).
      { intros id b. rewrite lookup_insert. case_decide as Eid.
        - subst id. assert (Hin : i ∈ accepted a') by (apply elem_of_app; right; by apply list_elem_of_singleton).
          split; [intros [= <-]; exists i; by rewrite bool_decide_true|].
          intros (j & _ & <-%ident_inj & ->). by rewrite bool_decide_true.
        - rewrite Hb. split; intros (j & Hj & -> & ->); exists j; (split; [done|]); (split; [done|]); apply bool_decide_ext; cbn [accepted a'];
            rewrite elem_of_app, list_elem_of_singleton; split; [auto|intros [?| ->]; done|intros [?| ->]; done|auto]. }
      rewrite (book_answered a' (<[ident i := true]> book)) by done.
      split; cbn [sys_with client cevs server requests replies next_seq]; try done.
      * intros He. by apply F5 in He.
      * exists m, (<[ident i := true]> book), []. split_and!; [done|done|exact Hb'|exact Hsz'].
      * unfold reports in *. rewrite omap_app, F11. cbn [accepted a']. by rewrite fmap_app.
Qed.

Lemma follows_turns ts a s : follows a s -> follows (foldl advance a ts) (run_turns ts s).
Proof using Hx Hy H0.
  revert a s. induction ts as [|t ts IH]; intros a s F; [done|].
  change (t :: ts) with ([t] ++ ts). rewrite run_turns_app. cbn [foldl app]. apply IH. rewrite run_turns_one.
  destruct t as [|n|n]; [by apply follows_send|by apply follows_serve|by apply follows_accept].
Qed.
End Exchange.

(** ** Catching up *)

(** All requests are sent and served, and [k] replies carried to the client. *)
Definition catch_up (k : nat) : list turn := replicate 4 Send ++ (Serve <$> seq 0 4) ++ (Accept <$> seq 0 k).

Lemma sends n : forall a, (sent a <= 4)%nat ->
  exists e, foldl advance a (replicate n Send) = mkProgress (Nat.min 4 (sent a + n)) (served a) (accepted a) e.
Proof.
  induction n as [|n IH]; intros a Ha; cbn [replicate foldl].
  - exists (ended a). rewrite Nat.add_0_r, Nat.min_r by done. by destruct a.
  - unfold advance at 2. destruct (Nat.ltb_spec (sent a) 4).
    + destruct (IH (mkProgress (S (sent a)) (served a) (accepted a) (ended a))) as [e ->]; [cbn; lia|]. exists e. cbn [sent served accepted]. f_equal. lia.
    + replace (Nat.min 4 (sent a + S n)) with (Nat.min 4 (sent a + n)) by lia.
      destruct (_ =? 4)%nat; [by edestruct (IH (mkProgress (sent a) (served a) (accepted a) true)) as [e ->]; [|exists e]|by apply IH].
Qed.

Lemma serves l : forall a, Forall (fun i => i < sent a)%nat l ->
  foldl advance a (Serve <$> l) = mkProgress (sent a) (served a ++ l) (accepted a) (ended a).
Proof.
  induction l as [|i l IH]; intros a Hl; [rewrite app_nil_r; by destruct a|]. apply Forall_cons in Hl as [Hi Hl].
  cbn [fmap list_fmap foldl]. unfold advance at 2. rewrite (proj2 (Nat.ltb_lt _ _)) by done. change (list_fmap _ _ Serve l) with (Serve <$> l).
  rewrite IH by done. cbn. by rewrite <- app_assoc.
Qed.

Lemma accepts l : forall a,
  let a' := foldl advance a (Accept <$> l) in
  sent a' = sent a /\ served a' = served a /\ accepted a ⊆ accepted a' /\
  forall j i, j ∈ l -> served a !! j = Some i -> i ∈ accepted a'.
Proof.
  induction l as [|j l IH]; intros a; [cbn; split_and!; try done; by intros j i ?%elem_of_nil|].
  cbn [fmap list_fmap foldl]. change (list_fmap _ _ Accept l) with (Accept <$> l).
  destruct (IH (advance a (Accept j))) as (H1 & H2 & H3 & H4). rewrite H1, H2.
  assert (Hs : sent (advance a (Accept j)) = sent a /\ served (advance a (Accept j)) = served a /\ accepted a ⊆ accepted (advance a (Accept j)) /\
    forall i, served a !! j = Some i -> i ∈ accepted (advance a (Accept j))).
  { unfold advance. destruct (served a !! j) as [i|]; [|done]. case_bool_decide as Hi; cbn; split_and!; try done; try set_solver; by intros ? [= <-]. }
  destruct Hs as (E1 & E2 & E3 & E4). split_and!; [done|done|set_solver|]. rewrite E2 in H4.
  intros j' i [->|Hj]%elem_of_cons Hi; eauto.
Qed.

Lemma caught_up a :
  (sent a <= 4)%nat ->
  let a' := foldl advance a (catch_up (length (served a) + 4)) in sent a' = 4%nat /\ forall i, (i < 4)%nat -> i ∈ accepted a'.
Proof.
  intros Ha. unfold catch_up. rewrite !foldl_app. destruct (sends 4 a Ha) as [e ->].
  replace (Nat.min 4 (sent a + 4)) with 4%nat by lia.
  rewrite serves by (apply Forall_forall; intros i Hi%elem_of_seq; cbn; lia). cbn [sent served accepted ended]. set (a2 := mkProgress _ _ _ _).
  destruct (accepts (seq 0 (length (served a) + 4)) a2) as (H1 & _ & _ & H4). split; [done|].
  intros i Hi. apply (H4 (length (served a) + i)%nat); [apply elem_of_seq; lia|]. cbn [served a2].
  rewrite lookup_app_r by lia. replace (length (served a) + i - length (served a))%nat with i by lia. by apply lookup_seq_lt.
Qed.

(** ** Properties *)

(** C11: The service answers.  A client with any two 16-bit numbers, the second not zero, and a
    server are matched; then, in any sequence of turns, the client sends its next request, any
    request is carried to the server and served, and any reply is carried to the client and
    handled, each sample before the next, in any order and any number of times, with writes that
    succeed.  The client reports the exact result of each request whose reply it was given, once
    and in the order of their coming; its [run] returns when it next wakes exactly if all four
    were answered; and from wherever the turns have led, once everything is sent, served and carried
    it has reported the sum, the difference, the product and the truncated quotient and
    returns. *)
Theorem exchange_completes vx vy ts :
  is_int16 vx = true -> is_int16 vy = true -> vy <> 0 ->
  let s := run_turns ts (run_service meet (start vx vy "me")) in
  let a := progress_of ts in
  let last := run_turns (catch_up (length (served a) + 4)) s in
  reports (cevs s) = (fun i => (Z.of_nat i + 1, answer vx vy i)) <$> accepted a /\
  NoDup (accepted a) /\
  (C.running (client (run_turns [Send] s)) = C.Returned <-> length (accepted a) = 4%nat) /\
  C.running (client (run_turns [Send] last)) = C.Returned /\
  reports (cevs last) ≡ₚ [(1, vx + vy); (2, vx - vy); (3, vx * vy); (4, Z.quot vx vy)].
Proof.
  intros Hx Hy H0 s a last. pose proof (follows_turns vx vy Hx Hy H0 ts _ _ (follows_start vx vy)) as F. fold s in F. fold (progress_of ts) a in F.
  assert (Hret : forall b t, follows vx vy b t -> C.running (client (run_turns [Send] t)) = C.Returned <-> length (accepted b) = 4%nat).
  { intros b t G. pose proof (all_four (accepted b) (sent b) (f_once _ _ _ _ G) (f_accepted _ _ _ _ G) (f_sent _ _ _ _ G)) as H4.
    pose proof (f_ended _ _ _ _ G) as He. apply follows_send in G. rewrite run_turns_one. cbn [ops_of].
    destruct (f_client _ _ _ _ G) as (m & book & rd & -> & _). cbn [C.running].
    unfold advance. destruct (Nat.ltb_spec (sent b) 4) as [Hlt|Hge]; cbn [ended sent accepted].
    - split; [|intros [E _]%H4; lia]. destruct (ended b); [by intros _; apply He|]. by destruct (S (sent b) <? 4)%nat.
    - destruct (length (accepted b) =? 4)%nat eqn:E; cbn [ended sent]; [apply Nat.eqb_eq in E; done|].
      apply Nat.eqb_neq in E. split; [|done]. destruct (ended b); [by intros _; apply He|]. by destruct (sent b <? 4)%nat. }
  split; [apply F|]. split; [apply F|]. split; [by apply Hret|].
  pose proof (follows_turns vx vy Hx Hy H0 (catch_up (length (served a) + 4)) _ _ F) as G. fold last in G.
  destruct (caught_up a (f_sent _ _ _ _ F)) as [E4 Hall]. set (a' := foldl advance a _) in *.
  pose proof (f_once _ _ _ _ G) as ND. pose proof (f_accepted _ _ _ _ G) as Hlt. rewrite E4 in Hlt. split.
  - apply (Hret a'); [done|]. apply (all_four _ 4); try done.
  - rewrite (f_reports _ _ _ _ G). assert (Hp : accepted a' ≡ₚ seq 0 4).
    { apply NoDup_Permutation; [done|apply NoDup_seq|]. intros i. rewrite elem_of_seq. rewrite Forall_forall in Hlt.
      split; [intros Hi%Hlt; lia|intros Hi; apply Hall; lia]. }
    rewrite Hp. done.
Qed.

(** The replies come in another order, and twice, and a reply is carried that is not there. *)
Definition crossed : list turn :=
  [Send; Send; Serve 1; Accept 3; Send; Serve 2; Accept 1; Serve 0; Accept 1; Send; Accept 0].

Lemma exchange_completes_witness :
  reports (cevs (run_turns crossed (run_service meet (start (-7) 2 "me")))) = [(3, -14); (2, -9)] /\
  C.running (client (run_turns [Send] (run_turns (catch_up 7) (run_turns crossed (run_service meet (start (-7) 2 "me")))))) = C.Returned.
Proof.
  destruct (exchange_completes (-7) 2 crossed eq_refl eq_refl ltac:(discriminate)) as (H1 & _ & _ & H2 & _).
  split; [exact H1|exact H2].
Defined.
End RequestExchange.
