(* ===== verification/RequestMain.v ===== *)
(** How the programs of the calculator service start and end: the constructors of
    [ServerApp] and [ClientApp], [Application::make_app] and [main].  The DDS library answers
    each call with success or failure; what it answers, and what the default XML profile puts
    into the QoS of the participant, are parameters. *)
From S2P Require Import Prelude Calculator RequestServer RequestClient.

Module RequestMain.
Import Calculator.

(** ** Calls of the library *)

Record locator := mkLocator {
  ipv4 : string;
  physical_port : Z;
  logical_port : Z;
}.

(** The parts of [DomainParticipantExtendedQos] the code sets; a transport is the list of its
    listening ports. *)
Record participant_qos := mkQos {
  use_builtin_transports : bool;
  user_transports : list (list Z);
  metatraffic_unicast : list locator;
  default_unicast : list locator;
  initial_peers : list locator;
  user_data : list Z;
}.

Definition default_qos : participant_qos := mkQos true [] [] [] [] [].

(** The two data types the topics carry. *)
Inductive topic_type := RequestType | ReplyType.

Inductive call :=
| GetFactory
| CreateParticipant (q : participant_qos)
| RegisterType (t : topic_type)
| GetDefaultTopicQos
| CreateTopic (name : string) (t : topic_type)
| CreateContentFilteredTopic (name : string) (expression : string)
| GetDefaultSubscriberQos
| CreateSubscriber
| GetDefaultReaderQos
| CreateDataReader (topic : string)
| GetDefaultPublisherQos
| CreatePublisher
| GetDefaultWriterQos
| CreateDataWriter (topic : string)
| DeleteContainedEntities
| DeleteParticipant.

Section Program.

(** [answer h c]: after the calls [h], the call [c] returns an object or [RETCODE_OK].
    [profile] fills in the default XML profile.  [prefix] is the text of the prefix of the
    participant that is created. *)
Context (answer : list call -> call -> bool).
Context (profile : participant_qos -> participant_qos).
Context (prefix : string).

(** A constructor makes calls, and returns a value or throws a [std::runtime_error]. *)
Definition M (A : Type) : Type := list call -> (string + A) * list call.

#[export] Instance M_ret : MRet M := fun A a h => (inr a, h).
#[export] Instance M_bind : MBind M := fun A B f m h =>
  match m h with (inl e, h') => (inl e, h') | (inr a, h') => f a h' end.

(** A call whose failure throws [msg]. *)
Definition ask (c : call) (msg : string) : M unit := fun h =>
  (if answer h c then inr () else inl msg, h ++ [c]).

(** [detail::create_topic] *)
Definition create_topic (name : string) (t : topic_type) : M unit :=
  _ ← ask (RegisterType t) "Failed to register type";
  _ ← ask GetDefaultTopicQos "Failed to get default topic qos";
  ask (CreateTopic name t) "Request topic initialization failed".

Definition create_publisher : M unit :=
  _ ← ask GetDefaultPublisherQos "Failed to get default publisher qos";
  ask CreatePublisher "Publisher initialization failed".

Definition create_subscriber : M unit :=
  _ ← ask GetDefaultSubscriberQos "Failed to get default subscriber qos";
  ask CreateSubscriber "Subscriber initialization failed".

Definition create_writer (topic msg : string) : M unit :=
  _ ← ask GetDefaultWriterQos "Failed to get default datawriter qos";
  ask (CreateDataWriter topic) msg.

Definition create_reader (topic msg : string) : M unit :=
  _ ← ask GetDefaultReaderQos "Failed to get default datareader qos";
  ask (CreateDataReader topic) msg.

(** [user_data().data_vec().push_back(kind)] *)
Definition push_kind (k : EntityKind) (q : participant_qos) : participant_qos :=
  mkQos (use_builtin_transports q) (user_transports q) (metatraffic_unicast q) (default_unicast q)
    (initial_peers q) (user_data q ++ [octet_of_entity k]).

(** [ServerApp::create_participant] *)
Definition server_locator : locator := mkLocator "172.16.30.49" 5100 5100.
Definition server_qos : participant_qos :=
  push_kind SERVER (profile (mkQos false [[5100]] [server_locator] [server_locator] [] [])).
Definition server_create_participant : M unit :=
  _ ← ask GetFactory "Failed to get participant factory instance";
  ask (CreateParticipant server_qos) "Participant initialization failed".

(** [ServerApp::create_request_entities], [ServerApp::create_reply_entities] *)
Definition server_create_request_entities (service_name : string) : M unit :=
  _ ← create_topic ("rq/" +:+ service_name) RequestType;
  _ ← create_subscriber;
  create_reader ("rq/" +:+ service_name) "Request reader initialization failed".
Definition server_create_reply_entities (service_name : string) : M unit :=
  _ ← create_topic ("rr/" +:+ service_name) ReplyType;
  _ ← create_publisher;
  create_writer ("rr/" +:+ service_name) "Reply writer initialization failed".

(** [ServerApp::ServerApp], after it has started the reply thread *)
Definition server_ctor (service_name : string) : M unit :=
  _ ← server_create_participant;
  _ ← server_create_request_entities service_name;
  server_create_reply_entities service_name.

(** [ClientApp::create_participant] *)
Definition client_qos : participant_qos :=
  push_kind CLIENT (profile (mkQos false [[]] [] [] [server_locator] [])).
Definition client_create_participant : M unit :=
  _ ← ask GetFactory "Failed to get participant factory instance";
  ask (CreateParticipant client_qos) "Participant initialization failed".

(** [ClientApp::create_request_entities], [ClientApp::create_reply_entities] *)
Definition client_create_request_entities (service_name : string) : M unit :=
  _ ← create_topic ("rq/" +:+ service_name) RequestType;
  _ ← create_publisher;
  create_writer ("rq/" +:+ service_name) "Request writer initialization failed".
Definition client_create_reply_entities (service_name : string) : M unit :=
  _ ← create_topic ("rr/" +:+ service_name) ReplyType;
  _ ← ask (CreateContentFilteredTopic ("rr/" +:+ service_name +:+ "_cft")
             ("client_id = '" +:+ prefix +:+ "'")) "Failed to create CFT";
  _ ← create_subscriber;
  create_reader ("rr/" +:+ service_name +:+ "_cft") "Reply reader initialization failed".

(** [ClientApp::ClientApp] *)
Definition client_ctor (service_name : string) : M unit :=
  _ ← client_create_participant;
  _ ← client_create_request_entities service_name;
  client_create_reply_entities service_name.

(** The part of [~ServerApp] and [~ClientApp] that concerns the library *)
Definition dtor (participant_created : bool) (h : list call) : list call :=
  if participant_created then h ++ [DeleteContainedEntities; DeleteParticipant] else h.

(** ** [Application::make_app] and [main] *)

(** An application, the exception [make_app] throws, or [std::terminate]: when the
    constructor of [ServerApp] throws, the member [reply_thread_] is destroyed while its
    thread runs. *)
Inductive made := Made (kind : EntityKind) | RuntimeError (msg : string) | Terminated.

Definition make_app (c : config) (service_name : string) (h : list call) : made * list call :=
  match entity c with
  | SERVER =>
      match server_ctor service_name h with
      | (inr _, h') => (Made SERVER, h')
      | (inl _, h') => (Terminated, h')
      end
  | CLIENT =>
      match client_ctor service_name h with
      | (inr _, h') => (Made CLIENT, h')
      | (inl msg, h') => (RuntimeError msg, h')
      end
  | UNDEFINED => (RuntimeError "Entity initialization failed", h)
  end.

(** How the thread of [run] ends: it returns, an exception leaves it, or it never ends. *)
Inductive run_end := RunReturns | RunThrows | RunHangs.

(** How the process ends. *)
Inductive process_end := ExitCode (c : Z) | Abort_ | Hangs.

Definition service_name : string := "calculator_service".

(** [main]; [run] is what the thread of the application does. *)
Definition main (run : config -> run_end) (argv : list string) : process_end * list call :=
  match parse_cli_options argv with
  | Exit c => (ExitCode c, [])
  | Return c =>
      match make_app c service_name [] with
      | (RuntimeError _, h) => (ExitCode EXIT_FAILURE, h)
      | (Terminated, h) => (Abort_, h)
      | (Made _, h) =>
          match run c with
          | RunReturns => (ExitCode EXIT_SUCCESS, dtor true h)
          | RunThrows => (Abort_, h)
          | RunHangs => (Hangs, h)
          end
      end
  end.

(** ** A constructor as a list of calls *)

(** Make the calls in order up to the first that fails, and throw its message. *)
Fixpoint perform (plan : list (call * string)) (h : list call) : (string + unit) * list call :=
  match plan with
  | [] => (inr (), h)
  | (c, msg) :: plan =>
      if answer h c then perform plan (h ++ [c]) else (inl msg, h ++ [c])
  end.

Definition topic_plan (name : string) (t : topic_type) : list (call * string) :=
  [(RegisterType t, "Failed to register type"); (GetDefaultTopicQos, "Failed to get default topic qos");
   (CreateTopic name t, "Request topic initialization failed")]%string.
Definition publisher_plan : list (call * string) :=
  [(GetDefaultPublisherQos, "Failed to get default publisher qos");
   (CreatePublisher, "Publisher initialization failed")]%string.
Definition subscriber_plan : list (call * string) :=
  [(GetDefaultSubscriberQos, "Failed to get default subscriber qos");
   (CreateSubscriber, "Subscriber initialization failed")]%string.
Definition participant_plan (q : participant_qos) : list (call * string) :=
  [(GetFactory, "Failed to get participant factory instance");
   (CreateParticipant q, "Participant initialization failed")]%string.

Definition reader_plan (topic msg : string) : list (call * string) :=
  [(GetDefaultReaderQos, "Failed to get default datareader qos"%string);
   (CreateDataReader topic, msg)].
Definition writer_plan (topic msg : string) : list (call * string) :=
  [(GetDefaultWriterQos, "Failed to get default datawriter qos"%string);
   (CreateDataWriter topic, msg)].
Definition filter_plan (s : string) : list (call * string) :=
  [(CreateContentFilteredTopic ("rr/" +:+ s +:+ "_cft") ("client_id = '" +:+ prefix +:+ "'"),
    "Failed to create CFT")]%string.

Definition server_plan (s : string) : list (call * string) :=
  participant_plan server_qos ++
  (topic_plan ("rq/" +:+ s) RequestType ++ subscriber_plan ++
   reader_plan ("rq/" +:+ s) "Request reader initialization failed") ++
  (topic_plan ("rr/" +:+ s) ReplyType ++ publisher_plan ++
   writer_plan ("rr/" +:+ s) "Reply writer initialization failed").

Definition client_plan (s : string) : list (call * string) :=
  participant_plan client_qos ++
  (topic_plan ("rq/" +:+ s) RequestType ++ publisher_plan ++
   writer_plan ("rq/" +:+ s) "Request writer initialization failed") ++
  (topic_plan ("rr/" +:+ s) ReplyType ++ filter_plan s ++ subscriber_plan ++
   reader_plan ("rr/" +:+ s +:+ "_cft") "Reply reader initialization failed").

(** A computation that performs a plan. *)
Definition performs (m : M unit) (plan : list (call * string)) : Prop := forall h, m h = perform plan h.

Lemma performs_ask c msg : performs (ask c msg) [(c, msg)].
Proof. intros h. cbn. unfold ask. by destruct (answer h c). Qed.

Lemma perform_app p1 p2 h :
  perform (p1 ++ p2) h =
    match perform p1 h with (inl e, h') => (inl e, h') | (inr _, h') => perform p2 h' end.
Proof.
  revert h. induction p1 as [|[c msg] p1 IH]; intros h; [done|]. cbn. by destruct (answer h c).
Qed.

Lemma performs_bind m m' p p' :
  performs m p -> performs m' p' -> performs (m ≫= (fun _ => m')) (p ++ p').
Proof.
  intros H H' h. rewrite perform_app, <- H. unfold mbind, M_bind.
  destruct (m h) as [[e|[]] h']; [done|apply H'].
Qed.

Lemma performs_two c1 m1 c2 m2 : performs (_ ← ask c1 m1; ask c2 m2) [(c1, m1); (c2, m2)].
Proof. apply (performs_bind _ _ [_] [_]); apply performs_ask. Qed.

Lemma performs_topic name t : performs (create_topic name t) (topic_plan name t).
Proof. apply (performs_bind _ _ [_] [_; _]); [apply performs_ask|apply performs_two]. Qed.

#[local] Hint Resolve performs_ask performs_bind performs_two performs_topic : core.

Lemma server_performs s : performs (server_ctor s) (server_plan s).
Proof.
  apply performs_bind; [apply performs_two|]. apply performs_bind.
  - apply performs_bind; [auto|]. apply performs_bind; apply performs_two.
  - apply performs_bind; [auto|]. apply performs_bind; apply performs_two.
Qed.

Lemma client_performs s : performs (client_ctor s) (client_plan s).
Proof.
  apply performs_bind; [apply performs_two|]. apply performs_bind.
  - apply performs_bind; [auto|]. apply performs_bind; apply performs_two.
  - apply performs_bind; [auto|]. apply performs_bind; [apply performs_ask|].
    apply performs_bind; apply performs_two.
Qed.

(** Calls and result of a plan: it throws the message of the first call that fails. *)
Lemma perform_spec plan h :
  (exists l c msg rest, plan = l ++ (c, msg) :: rest /\ answer (h ++ l.*1) c = false /\
     perform plan h = (inl msg, h ++ l.*1 ++ [c])) \/
  perform plan h = (inr (), h ++ plan.*1).
Proof.
  revert h. induction plan as [|[c msg] plan IH]; intros h.
  - right. cbn. by rewrite app_nil_r.
  - cbn. destruct (answer h c) eqn:E.
    + destruct (IH (h ++ [c])) as [(l & c' & msg' & rest & -> & Ha & ->)| ->].
      * left. exists ((c, msg) :: l), c', msg', rest. cbn. rewrite <- app_assoc in Ha |- *. done.
      * right. by rewrite <- app_assoc.
    + left. exists [], c, msg, plan. cbn. by rewrite app_nil_r.
Qed.

Lemma perform_ok plan h :
  (forall h' c, c ∈ plan.*1 -> answer h' c = true) -> perform plan h = (inr (), h ++ plan.*1).
Proof.
  intros H. destruct (perform_spec plan h) as [(l & c & msg & rest & -> & Ha & _)|E]; [|done].
  rewrite H in Ha; [done|]. rewrite fmap_app. apply elem_of_app. right. left.
Qed.

Lemma plans_delete_nothing k s c :
  c ∈ (match k with SERVER => server_plan s | _ => client_plan s end).*1 ->
  c <> DeleteContainedEntities /\ c <> DeleteParticipant.
Proof.
  intros H. split; intros ->; destruct k; cbn in H;
    repeat (apply elem_of_cons in H as [H|H]; [discriminate|]); by apply not_elem_of_nil in H.
Qed.

(** ** Properties *)

(** The constructors make a fixed sequence of library calls: each is equivalent to
    performing its plan in order up to the first failure, whose message it throws. *)
Theorem ctors_equal_plans s h :
  server_ctor s h = perform (server_plan s) h /\ client_ctor s h = perform (client_plan s) h.
Proof. split; [apply server_performs|apply client_performs]. Qed.

(** What becomes of a failing constructor: [main] answers any failing call of the client
    with the exit code for failure, but any failing call of the server with [std::terminate];
    and in neither case is a participant that was created deleted again. *)
Theorem failing_ctor run argv c h :
  parse_cli_options argv = Return c ->
  (match entity c with SERVER => server_ctor | _ => client_ctor end) service_name [] = h ->
  is_Some (match h.1 with inl msg => Some msg | inr _ => None end) ->
  main run argv = (match entity c with SERVER => Abort_ | _ => ExitCode EXIT_FAILURE end, h.2) /\
  DeleteParticipant ∉ h.2.
Proof.
  intros Hp Hh [msg Hm]. destruct (proj2 cli_roundtrip _ _ Hp) as (_ & _ & Hu).
  split.
  - unfold main. rewrite Hp. unfold make_app. destruct (entity c); [| |done];
      rewrite Hh; destruct h as [[|] h]; done.
  - assert (exists plan, h = perform plan [] /\
      forall x, x ∈ plan.*1 -> x <> DeleteContainedEntities /\ x <> DeleteParticipant) as (plan & -> & Hd).
    { destruct (entity c) eqn:E; [| |done].
      - exists (server_plan service_name). rewrite <- Hh.
        split; [apply server_performs|apply (plans_delete_nothing SERVER)].
      - exists (client_plan service_name). rewrite <- Hh.
        split; [apply client_performs|apply (plans_delete_nothing CLIENT)]. }
    destruct (perform_spec plan []) as [(l & x & m & rest & -> & _ & E)|E]; rewrite E in Hm |- *; [|done].
    cbn. intros Hin. apply (Hd DeleteParticipant); [|done].
    rewrite fmap_app. cbn. apply elem_of_app in Hin as [Hin|Hin]; apply elem_of_app; [by left|right].
    apply list_elem_of_singleton in Hin as <-. left.
Qed.

(** Servers and clients find each other and nothing else: with a default profile that sets
    no user data, a client does not ignore the participant of a server, a server not that of
    a client, and each ignores its own kind. *)
Theorem discovery_pairs status p (v : RequestServer.server) (k : RequestClient.client) :
  (forall q, user_data (profile q) = user_data q) ->
  (RequestClient.on_participant_discovery status p (user_data server_qos) k).2 = [RequestClient.EIgnore false] /\
  (RequestServer.on_participant_discovery status p (user_data client_qos) v).2 = [RequestServer.EIgnore false] /\
  (RequestClient.on_participant_discovery status p (user_data client_qos) k).2 = [RequestClient.EIgnore true] /\
  (RequestServer.on_participant_discovery status p (user_data server_qos) v).2 = [RequestServer.EIgnore true].
Proof.
  intros H. unfold server_qos, client_qos. cbn. rewrite !H. cbn.
  split_and!; try done. by destruct status.
Qed.

End Program.

(** ** Concrete starts *)

Definition all_fine : list call -> call -> bool := fun _ _ => true.
Definition no_participant : list call -> call -> bool :=
  fun _ c => match c with CreateParticipant _ => false | _ => true end.

Example main_client :
  (main all_fine id "01.0f" (fun _ => RunReturns) ["request_reply"; "client"; "4"; "5"]%string).1
  = ExitCode EXIT_SUCCESS.
Proof. reflexivity. Qed.

Example main_usage :
  main all_fine id "01.0f" (fun _ => RunReturns) ["request_reply"]%string = (ExitCode EXIT_FAILURE, []).
Proof. reflexivity. Qed.

Lemma failing_ctor_witness :
  main no_participant id "01.0f" (fun _ => RunReturns) ["request_reply"; "server"]%string =
  (Abort_, [GetFactory; CreateParticipant (server_qos id)]).
Proof.
  apply (failing_ctor no_participant id "01.0f" (fun _ => RunReturns) ["request_reply"; "server"]%string
    (mkConfig SERVER 0 0) (inl "Participant initialization failed"%string,
      [GetFactory; CreateParticipant (server_qos id)])); [reflexivity|reflexivity|by eexists].
Defined.

Lemma discovery_pairs_witness :
  (RequestClient.on_participant_discovery DISCOVERED_PARTICIPANT [] (user_data (server_qos id))
     (RequestClient.initial 4 5 "01.0f")).2 = [RequestClient.EIgnore false].
Proof.
  apply (discovery_pairs id DISCOVERED_PARTICIPANT [] RequestServer.initial
    (RequestClient.initial 4 5 "01.0f")). reflexivity.
Defined.

End RequestMain.
