(* ===== verification/RequestStop.v ===== *)
(** How the threads that wait in the calculator programs are woken ([ServerApp::run],
    [ClientApp::wait_for_replies], [stop]): [stop] stores the flag and notifies without the
    mutex, and is called by a signal handler or, in the client, by [on_data_available], which
    holds the mutex.  A step is a single atomic action. *)
From S2P Require Import Prelude.

Module RequestStop.

(** The thread in [cv_.wait(lock, is_stopped)]: about to lock, to test the predicate, to go
    to sleep after it was false (still with the mutex), asleep, woken and about to lock
    again, returned. *)
Inductive wpc := WLock | WTest | WSleep | WAsleep | WWoken | WDone.

(** The thread that stops: about to lock (if it does), to store, to notify, to unlock;
    returned. *)
Inductive spc := SLock | SStore | SNotify | SUnlock | SDone.

(** [locks]: the stopping thread holds the mutex around [stop]. *)
Record state := mkState {
  locks : bool;
  stop_ : bool;
  waiter : wpc;
  stopper : spc;
}.

(** A signal handler calls [stop] without the mutex, [on_data_available] with it. *)
Definition by_signal : state := mkState false false WLock SStore.
Definition by_callback : state := mkState true false WLock SLock.

Definition waiter_holds (s : state) : bool :=
  match waiter s with WTest | WSleep => true | _ => false end.
Definition stopper_holds (s : state) : bool :=
  match stopper s with SStore | SNotify | SUnlock => locks s | _ => false end.

Definition set_waiter (w : wpc) (s : state) : state := mkState (locks s) (stop_ s) w (stopper s).
Definition set_stopper (c : spc) (s : state) : state := mkState (locks s) (stop_ s) (waiter s) c.

(** [cv_.wait]: the predicate is tested with the mutex; going to sleep releases it. *)
Definition wait_step (s : state) : option state :=
  match waiter s with
  | WLock | WWoken => if stopper_holds s then None else Some (set_waiter WTest s)
  | WTest => Some (set_waiter (if stop_ s then WDone else WSleep) s)
  | WSleep => Some (set_waiter WAsleep s)
  | WAsleep | WDone => None
  end.

(** [stop]: [stop_.store(true); cv_.notify_all();] *)
Definition stop_step (s : state) : option state :=
  match stopper s with
  | SLock => if waiter_holds s then None else Some (set_stopper SStore s)
  | SStore => Some (mkState (locks s) true (waiter s) SNotify)
  | SNotify =>
      Some (mkState (locks s) (stop_ s)
              (match waiter s with WAsleep => WWoken | w => w end)
              (if locks s then SUnlock else SDone))
  | SUnlock => Some (set_stopper SDone s)
  | SDone => None
  end.

Inductive tid := Waiter | Stopper.

Definition tstep (t : tid) (s : state) : option state :=
  match t with Waiter => wait_step s | Stopper => stop_step s end.

(** Steps to go once [stop_] is set: the next test of the predicate is the last. *)
Definition wait_rank (s : state) : nat :=
  match waiter s with
  | WSleep => 4 | WAsleep => 3 | WWoken => 2 | WLock => 2 | WTest => 1 | WDone => 0
  end.
Definition stop_rank (s : state) : nat :=
  match stopper s with SLock => 4 | SStore => 3 | SNotify => 2 | SUnlock => 1 | SDone => 0 end.

(** A waiter under a locking stopper: it cannot have tested before the store and sleep after
    the notification. *)
Definition no_lost_wakeup (s : state) : Prop :=
  locks s = true /\
  match stopper s with
  | SLock => stop_ s = false
  | SStore => stop_ s = false /\ waiter s <> WTest /\ waiter s <> WSleep
  | SNotify => stop_ s = true /\ waiter s <> WTest /\ waiter s <> WSleep
  | SUnlock => stop_ s = true /\ waiter s <> WTest /\ waiter s <> WSleep /\ waiter s <> WAsleep
  | SDone => stop_ s = true /\ waiter s <> WSleep /\ waiter s <> WAsleep
  end.

Lemma no_lost_wakeup_step s t s' : no_lost_wakeup s -> tstep t s = Some s' -> no_lost_wakeup s'.
Proof.
  destruct s as [l st w c]. unfold no_lost_wakeup. cbn. intros [-> H] E.
  destruct t, w, c; cbn in *; unfold wait_step, stop_step, waiter_holds, stopper_holds in E; cbn in E;
    simplify_eq/=; intuition (subst; simplify_eq/=; congruence).
Qed.

Lemma reachable_no_lost s : reachable tstep by_callback s -> no_lost_wakeup s.
Proof.
  apply reachable_inv; [by split|]. intros. by eapply no_lost_wakeup_step.
Qed.

(** ** Properties *)

(** A [stop] from the client's callback is never lost: in every state that the waiting
    thread and the callback reach, one of them can move or the waiting thread has returned,
    and when [stop_] is set the steps they can still make are bounded. *)
Theorem callback_stop_wakes s :
  reachable tstep by_callback s ->
  (stuck tstep s -> waiter s = WDone) /\
  (forall t s', stop_ s = true -> tstep t s = Some s' ->
     (wait_rank s' + stop_rank s' < wait_rank s + stop_rank s)%nat).
Proof.
  intros Hr. apply reachable_no_lost in Hr. destruct s as [l st w c].
  destruct Hr as [Hl H]. cbn in Hl. subst l. split.
  - intros Hs. pose proof (Hs Waiter) as E1. pose proof (Hs Stopper) as E2. cbn in *.
    destruct w, c; cbn in *; unfold wait_step, stop_step, waiter_holds, stopper_holds in *; cbn in *;
      try done; intuition congruence.
  - intros t s' Est E. cbn in Est. subst st.
    destruct t, w, c; cbn in *; unfold wait_step, stop_step, waiter_holds, stopper_holds in E; cbn in E;
      simplify_eq/=; cbn; try lia; intuition congruence.
Qed.

Lemma callback_stop_wakes_witness :
  waiter (mkState true true WDone SDone) = WDone.
Proof.
  assert (reachable tstep by_callback (mkState true true WDone SDone)) as Hr.
  { apply (run_schedule_reachable tstep
      [Stopper; Stopper; Stopper; Stopper; Waiter; Waiter]). reflexivity. }
  apply (proj1 (callback_stop_wakes _ Hr)). intros []; reflexivity.
Defined.

(** A [stop] from a signal can be lost: the store and the notification may fall between
    the test of the predicate and the sleep of the waiting thread, which then sleeps for ever
    although [stop_] is set. *)
Theorem signal_stop_can_be_lost :
  exists s, reachable tstep by_signal s /\ stuck tstep s /\ stop_ s = true /\ waiter s = WAsleep.
Proof.
  exists (mkState false true WAsleep SDone). split_and!; [|by intros []|done..].
  by apply (run_schedule_reachable tstep [Waiter; Waiter; Stopper; Stopper; Waiter]).
Qed.

End RequestStop.
