(* ===== verification/Double.v ===== *)
(** The type [double]: IEEE 754 binary64 numbers and their operations, as the Standard
    Library specifies them ([SpecFloat]); literals and the conversions from and to integers. *)
From Stdlib Require Export SpecFloat.
From S2P Require Import Prelude.

Module Double.

Abbreviation double := spec_float.

Definition prec : Z := 53.
Definition emax : Z := 1024.

Definition dadd : double -> double -> double := SFadd prec emax.
Definition dsub : double -> double -> double := SFsub prec emax.
Definition dmul : double -> double -> double := SFmul prec emax.
Definition ddiv : double -> double -> double := SFdiv prec emax.
Definition dsqrt : double -> double := SFsqrt prec emax.
Definition dlt : double -> double -> bool := SFltb.
Definition dle : double -> double -> bool := SFleb.

(** The conversion from an integer type rounds to nearest. *)
Definition of_int (z : Z) : double := binary_normalize prec emax z 0 false.

(** A literal [n / 10^k]; both parts are exact up to 2^53, so that one rounding is left. *)
Definition decimal (n k : Z) : double := SFdiv prec emax (of_int n) (of_int (10 ^ k)).

(** The conversion to [long] truncates; out of range it is undefined. *)
Definition truncated (x : double) : option Z :=
  match x with
  | S754_zero _ => Some 0
  | S754_finite s m e =>
      let v := if 0 <=? e then Z.pos m * 2 ^ e else Z.pos m / 2 ^ (- e) in
      Some (if s then - v else v)
  | _ => None
  end.
Definition to_long (x : double) : option Z :=
  v ← truncated x;
  if (- 2 ^ 63 <=? v) && (v <=? 2 ^ 63 - 1) then Some v else None.

Example tenth : decimal 1 1 = S754_finite false 7205759403792794 (-56).
Proof. reflexivity. Qed.

Example long_of_double : to_long (decimal (-27) 1) = Some (-2).
Proof. reflexivity. Qed.

(** A comparison with something that is not a number is false. *)
Lemma dle_not_lt x y : dlt x y = true -> dle y x = false.
Proof.
  unfold dlt, dle, SFltb, SFleb. intros H.
  assert (SFcompare y x = option_map CompOpp (SFcompare x y)) as ->.
  { clear H. destruct x as [[]|[]| |[] mx ex], y as [[]|[]| |[] my ey]; cbn; try done;
      rewrite (Z.compare_antisym ex ey); destruct (ex ?= ey); cbn; try done;
      change Eq with (CompOpp Eq) at 1; rewrite <- Pos.compare_cont_antisym, ?CompOpp_involutive; done. }
  by destruct (SFcompare x y) as [[]|].
Qed.

(** ** The order of positive numbers *)

Definition positive (x : double) : Prop :=
  match x with S754_finite false _ _ | S754_infinity false => True | _ => False end.

Lemma positive_gt x : dlt (of_int 0) x = true -> positive x.
Proof. unfold dlt, SFltb. by destruct x as [|[]| |[] ? ?]. Qed.

(** Larger means a larger exponent, or the same and a larger mantissa. *)
Lemma SFcompare_finite m e m' e' :
  SFcompare (S754_finite false m e) (S754_finite false m' e') =
    Some (match e ?= e' with Lt => Lt | Gt => Gt | Eq => (m ?= m')%positive end).
Proof. cbn. by destruct (e ?= e'). Qed.

Lemma dle_refl x : positive x -> dle x x = true.
Proof.
  destruct x as [|[]| |[] m e]; try done. intros _. unfold dle, SFleb.
  by rewrite SFcompare_finite, Z.compare_refl, Pos.compare_refl.
Qed.

Lemma dle_total x y : positive x -> positive y -> dle x y = true \/ dle y x = true.
Proof.
  destruct x as [|[]| |[] m e], y as [|[]| |[] m' e']; try done; auto. intros _ _. unfold dle, SFleb.
  rewrite !SFcompare_finite, (Z.compare_antisym e e'), (Pos.compare_antisym m m').
  destruct (e ?= e'), (m ?= m')%positive; auto.
Qed.

Lemma dle_trans x y z : positive x -> positive y -> positive z -> dle x y = true -> dle y z = true -> dle x z = true.
Proof.
  destruct x as [|[]| |[] m e], y as [|[]| |[] m' e'], z as [|[]| |[] m'' e'']; try done. intros _ _ _. unfold dle, SFleb.
  rewrite !SFcompare_finite.
  destruct (Z.compare_spec e e'), (Z.compare_spec e' e''), (Z.compare_spec e e''); try done; try lia;
    destruct (Pos.compare_spec m m'), (Pos.compare_spec m' m''), (Pos.compare_spec m m''); done || lia.
Qed.

Lemma not_dlt_dle x y : positive x -> positive y -> dlt y x = false -> dle x y = true.
Proof.
  intros Hx Hy H. destruct (dle_total x y Hx Hy) as [|Hyx]; [done|].
  unfold dlt, dle, SFltb, SFleb in *. destruct x as [|[]| |[] m e], y as [|[]| |[] m' e']; try done.
  rewrite SFcompare_finite in *. rewrite (Z.compare_antisym e' e), (Pos.compare_antisym m' m).
  by destruct (e' ?= e), (m' ?= m)%positive.
Qed.

End Double.
