(* ===== verification/ClockTime.v ===== *)
(** The classes [Time] of [src/primer_plus/chap11/]: hours and minutes, from the first draft
    ([11_1/mytime1.cpp]) to the last ([11_7/mytime2.cpp] and its copy with an output operator,
    [11_3/mytime3.cpp]).  [int] arithmetic that overflows is undefined, [None]. *)
From stdpp Require Import pretty.
From S2P Require Import Prelude Double.

Module ClockTime.
Import Double.

Record Time := mkTime { hours : Z; minutes : Z }.

(** [Time()], [Time(h, m)] and [Reset] *)
Definition Time_default : Time := mkTime 0 0.
Definition Time_ctor (h m : Z) : Time := mkTime h m.
Definition Reset (h m : Z) (t : Time) : Time := mkTime h m.

Definition AddMin (m : Z) (t : Time) : option Time :=
  m1 ← int_add (minutes t) m;
  q ← int_div m1 60;
  h ← int_add (hours t) q;
  r ← int_rem m1 60;
  Some (mkTime h r).

(** [AddHr] of the first draft, which assigns, and of the later ones. *)
Definition AddHr_draft (h : Z) (t : Time) : Time := mkTime h (minutes t).
Definition AddHr (h : Z) (t : Time) : option Time :=
  h1 ← int_add (hours t) h; Some (mkTime h1 (minutes t)).

(** [operator+] (and [Sum] of [mytime0.cpp]) *)
Definition plus (s t : Time) : option Time :=
  m ← int_add (minutes s) (minutes t);
  h1 ← int_add (hours s) (hours t);
  q ← int_div m 60;
  h ← int_add h1 q;
  r ← int_rem m 60;
  Some (mkTime h r).

Definition minus (s t : Time) : option Time :=
  a ← int_mul 60 (hours t);
  tot1 ← int_add (minutes t) a;
  b ← int_mul (hours s) 60;
  tot2 ← int_add (minutes s) b;
  d ← int_sub tot2 tot1;
  r ← int_rem d 60;
  q ← int_div d 60;
  Some (mkTime q r).

(** [operator*(double)]: the minutes are converted to [long], the results to [int]. *)
Definition times (t : Time) (mult : double) : option Time :=
  total ← to_long (dadd (dmul (dmul (of_int (hours t)) mult) (of_int 60)) (dmul (of_int (minutes t)) mult));
  Some (mkTime (wrapS 32 (Z.quot total 60)) (wrapS 32 (Z.rem total 60))).

(** The friend [operator*(double, const Time &)] *)
Definition times_left (m : double) (t : Time) : option Time := times t m.

(** [Show] and [operator<<] *)
Definition Show_ (t : Time) : string :=
  pretty (hours t) +:+ " hours, " +:+ pretty (minutes t) +:+ " minutes".

(** ** The main programs *)

Definition line (label : string) (t : option Time) : option string :=
  t ← t; Some (label +:+ Show_ t).

(** [11_7/usetime2.cpp] *)
Definition usetime2 : option (list string) :=
  let weeding := Time_ctor 4 35 in
  let waxing := Time_ctor 2 47 in
  total ← plus weeding waxing;
  diff ← minus weeding waxing;
  adjusted ← times total (decimal 15 1);
  Some ["weeding time = " +:+ Show_ weeding; "waxing time = " +:+ Show_ waxing;
        "total work time = " +:+ Show_ total; "weeding time - waxing time = " +:+ Show_ diff;
        "adjusted work time = " +:+ Show_ adjusted]%string.

(** [11_3/usetime3.cpp] *)
Definition usetime3 : option (list string) :=
  let aida := Time_ctor 3 35 in
  let tosca := Time_ctor 2 48 in
  l1 ← line "Aida + Tosca: " (plus aida tosca);
  l2 ← line "Aida * 1.17: " (times aida (decimal 117 2));
  l3 ← line "10.0 * Tosca: " (times_left (decimal 100 1) tosca);
  Some ["Aida and Tosca:"%string; l1; l2; l3].

Example usetime2_output : usetime2 = Some
  ["weeding time = 4 hours, 35 minutes"; "waxing time = 2 hours, 47 minutes";
   "total work time = 7 hours, 22 minutes"; "weeding time - waxing time = 1 hours, 48 minutes";
   "adjusted work time = 11 hours, 3 minutes"]%string.
Proof. vm_compute. reflexivity. Qed.

Example usetime3_output : usetime3 = Some
  ["Aida and Tosca:"; "Aida + Tosca: 6 hours, 23 minutes"; "Aida * 1.17: 4 hours, 11 minutes";
   "10.0 * Tosca: 28 hours, 0 minutes"]%string.
Proof. vm_compute. reflexivity. Qed.

(** The conversion to [long] truncates: 0.29 of ten minutes are two minutes. *)
Example times_truncates : times (mkTime 0 10) (decimal 29 2) = Some (mkTime 0 2).
Proof. vm_compute. reflexivity. Qed.

(** ** Minutes *)

(** What a time means, and when its members are in their ranges. *)
Definition total (t : Time) : Z := 60 * hours t + minutes t.
Definition normal (t : Time) : Prop := 0 <= hours t /\ 0 <= minutes t < 60.
Definition int_typed (t : Time) : Prop :=
  is_int (hours t) = true /\ is_int (minutes t) = true.

Lemma quot_rem_60 m : m = 60 * Z.quot m 60 + Z.rem m 60 /\ - 60 < Z.rem m 60 < 60 /\
  (0 <= m -> 0 <= Z.rem m 60 /\ 0 <= Z.quot m 60) /\ (m <= 0 -> Z.rem m 60 <= 0 /\ Z.quot m 60 <= 0).
Proof.
  pose proof (Z.quot_rem m 60 ltac:(lia)) as E.
  pose proof (Z.rem_bound_abs m 60 ltac:(lia)) as Hb.
  split_and!; try lia.
  - intros H. pose proof (Z.rem_nonneg m 60 ltac:(lia) H).
    pose proof (Z.quot_pos m 60 H ltac:(lia)). lia.
  - intros H. pose proof (Z.rem_nonpos m 60 ltac:(lia) H). lia.
Qed.

Lemma int_div_60 m : is_int m = true -> int_div m 60 = Some (Z.quot m 60).
Proof.
  intros H. apply is_int_spec in H. destruct (quot_rem_60 m) as (E & Hb & Hp & Hn).
  unfold int_div. rewrite chk_int_ok; [done|]. unfold INT_MIN, INT_MAX in *. lia.
Qed.

Lemma int_rem_60 m : is_int m = true -> int_rem m 60 = Some (Z.rem m 60).
Proof.
  intros H. apply is_int_spec in H. destruct (quot_rem_60 m) as (E & Hb & Hp & Hn).
  unfold int_rem. rewrite (proj2 (is_int_spec (Z.quot m 60))); [done|]. unfold INT_MIN, INT_MAX in *. lia.
Qed.

Lemma chk_int_is x y : chk_int x = Some y -> is_int y = true /\ y = x.
Proof. intros H. apply chk_int_Some in H as [-> ?]. split; [by apply is_int_spec|done]. Qed.

(** ** Properties *)

(** Adding minutes adds them: whenever [AddMin] is defined (also for a negative number)
    the total grows by [m] and the minutes stay below 60 in absolute value; from a normal time
    and a number not negative the result is normal, and it is undefined exactly when one of
    the two [int] sums overflows. *)
Theorem AddMin_spec m t :
  (forall t', AddMin m t = Some t' -> total t' = total t + m /\ - 60 < minutes t' < 60 /\
     (normal t -> 0 <= m -> normal t')) /\
  (AddMin m t = None <->
     is_int (minutes t + m) = false \/ is_int (hours t + Z.quot (minutes t + m) 60) = false).
Proof.
  unfold AddMin, int_add, chk_int.
  destruct (is_int (minutes t + m)) eqn:E1; cbn [mbind option_bind].
  2: { split; [done|]. split; [by left|done]. }
  rewrite int_div_60 by done. cbn [mbind option_bind].
  destruct (is_int (hours t + _)) eqn:E2; cbn [mbind option_bind].
  2: { split; [done|]. split; [by right|done]. }
  rewrite int_rem_60 by done. cbn [mbind option_bind]. split; [|split; [done|by intros [|]]].
  intros t' [= <-]. destruct (quot_rem_60 (minutes t + m)) as (E & Hb & Hp & _).
  unfold total, normal. cbn. split_and!; try lia.
Qed.

(** The sum of two times: defined when the hours do not overflow, it adds the totals and
    is normal again; and taking the second time away gives the first one back, as long as the
    totals fit an [int]. *)
Theorem plus_minus_roundtrip s t :
  normal s -> normal t -> total s + total t <= INT_MAX ->
  exists u, plus s t = Some u /\ normal u /\ total u = total s + total t /\ minus u t = Some s.
Proof.
  intros [Hs1 Hs2] [Ht1 Ht2] Hb. unfold total, INT_MAX in Hb.
  destruct (quot_rem_60 (minutes s + minutes t)) as (E & Hr & Hp & _).
  assert (forall x, 0 <= x <= 2 ^ 31 - 1 -> is_int x = true) as Hi
    by (intros x Hx; apply is_int_spec; unfold INT_MIN, INT_MAX; lia).
  set (q := Z.quot (minutes s + minutes t) 60) in *. set (r := Z.rem (minutes s + minutes t) 60) in *.
  exists (mkTime (hours s + hours t + q) r).
  assert (plus s t = Some (mkTime (hours s + hours t + q) r)) as Hplus.
  { unfold plus, int_add, chk_int. rewrite (Hi (minutes s + minutes t)) by lia. cbn [mbind option_bind].
    rewrite (Hi (hours s + hours t)) by lia. cbn [mbind option_bind].
    rewrite int_div_60 by (apply Hi; lia). cbn [mbind option_bind]. fold q.
    rewrite (Hi (hours s + hours t + q)) by lia. cbn [mbind option_bind]. rewrite int_rem_60 by (apply Hi; lia). done. }
  split_and!; [done|split; cbn; lia|unfold total; cbn; lia|].
  unfold minus, int_add, int_sub, int_mul, chk_int. cbn [hours minutes].
  rewrite (Hi (60 * hours t)) by lia. cbn [mbind option_bind].
  rewrite (Hi (minutes t + 60 * hours t)) by lia. cbn [mbind option_bind].
  rewrite (Hi ((hours s + hours t + q) * 60)) by lia. cbn [mbind option_bind].
  rewrite (Hi (r + (hours s + hours t + q) * 60)) by lia. cbn [mbind option_bind].
  replace (r + (hours s + hours t + q) * 60 - (minutes t + 60 * hours t))
    with (hours s * 60 + minutes s) by lia.
  rewrite (Hi (hours s * 60 + minutes s)) by lia. cbn [mbind option_bind].
  rewrite int_rem_60 by (apply Hi; lia). cbn [mbind option_bind].
  rewrite int_div_60 by (apply Hi; lia). cbn [mbind option_bind].
  destruct (quot_rem_60 (hours s * 60 + minutes s)) as (E2 & Hr2 & Hp2 & _).
  destruct s as [hs ms]. cbn [hours minutes] in *. f_equal. f_equal; lia.
Qed.

(** The difference has the exact total, negative when the first time is the earlier one;
    its minutes and hours then have the same sign, so that it is normal only for a difference
    that is not negative. *)
Theorem minus_spec s t u :
  minus s t = Some u ->
  total u = total s - total t /\ - 60 < minutes u < 60 /\
  (total t <= total s -> normal u) /\
  (total s <= total t -> hours u <= 0 /\ minutes u <= 0).
Proof.
  unfold minus, int_add, int_sub, int_mul. intros H.
  repeat match type of H with
  | (chk_int ?x ≫= _) = Some _ =>
      let E := fresh "E" in destruct (chk_int x) eqn:E; [cbn [mbind option_bind] in H; apply chk_int_is in E as [? ->]|done]
  end.
  rewrite int_rem_60 in H by done. cbn [mbind option_bind] in H. rewrite int_div_60 in H by done. cbn [mbind option_bind] in H.
  injection H as <-. unfold total, normal. cbn [hours minutes].
  match goal with |- context [Z.quot ?d 60] => destruct (quot_rem_60 d) as (E & Hb & Hp & Hn) end.
  split_and!; try lia; intros; split; lia.
Qed.

(** [AddHr] of the first draft forgets the hours: its effect does not depend on them,
    whereas the later [AddHr] adds to the total. *)
Theorem AddHr_draft_forgets h t h' :
  AddHr_draft h t = AddHr_draft h (mkTime h' (minutes t)) /\
  total (AddHr_draft h t) = 60 * h + minutes t /\
  (is_int (hours t + h) = true -> exists u, AddHr h t = Some u /\ total u = total t + 60 * h).
Proof.
  split_and!; [done|done|]. intros H. unfold AddHr, int_add, chk_int. rewrite H. cbn.
  eexists. split; [done|]. unfold total. cbn. lia.
Qed.

Lemma plus_minus_roundtrip_witness :
  exists u, plus (mkTime 2 40) (mkTime 5 55) = Some u /\ normal u /\
    total u = total (mkTime 2 40) + total (mkTime 5 55) /\ minus u (mkTime 5 55) = Some (mkTime 2 40).
Proof.
  apply plus_minus_roundtrip; unfold normal, total, INT_MAX; cbn; lia.
Defined.

Lemma minus_spec_witness :
  total (mkTime (-1) (-48)) = total (mkTime 2 47) - total (mkTime 4 35).
Proof. exact (proj1 (minus_spec (mkTime 2 47) (mkTime 4 35) (mkTime (-1) (-48)) eq_refl)). Defined.

Lemma AddHr_draft_forgets_witness :
  exists u, AddHr 3 (mkTime 2 40) = Some u /\ total u = total (mkTime 2 40) + 60 * 3.
Proof. apply (AddHr_draft_forgets 3 (mkTime 2 40) 0). reflexivity. Defined.

End ClockTime.
