(* ===== verification/Accounts.v ===== *)
(** The bank accounts of [src/primer_plus/chap13/]: [13_7/brass.cpp], where [BrassPlus] derives
    from [Brass], and [13_11/acctabc.cpp], where both derive from the abstract [AcctABC].
    Amounts are [double]s; the methods change the format of [std::cout] and restore it. *)
From S2P Require Import Prelude Double.

Module Accounts.
Import Double.

(** ** [std::cout] *)

Inductive floatfield := FDefault | FFixed | FScientific.

(** What is printed; a number is printed in the format of the moment. *)
Inductive item := Text (s : string) | Int (z : Z) | Num (f : floatfield) (p : Z) (x : double).

Record ostream := mkCout {
  flags : floatfield;
  precision_ : Z;
  printed : list item;
}.

Definition put (i : item) (o : ostream) : ostream := mkCout (flags o) (precision_ o) (printed o ++ [i]).
Definition put_text (s : string) (o : ostream) : ostream := put (Text s) o.
Definition put_num (x : double) (o : ostream) : ostream := put (Num (flags o) (precision_ o) x) o.

(** [setf(f, floatfield)] and [precision(p)] return the old value. *)
Definition setf (f : floatfield) (o : ostream) : floatfield * ostream :=
  (flags o, mkCout f (precision_ o) (printed o)).
Definition precision (p : Z) (o : ostream) : Z * ostream :=
  (precision_ o, mkCout (flags o) p (printed o)).

(** [setFormat] with [precision(2)], and [SetFormat]; [restore] and [Restore] *)
Definition setFormat (o : ostream) : (floatfield * Z) * ostream :=
  let '(f, o1) := setf FFixed o in
  let '(p, o2) := precision 2 o1 in
  ((f, p), o2).
Definition restore (fp : floatfield * Z) (o : ostream) : ostream :=
  let '(_, o1) := setf fp.1 o in
  let '(_, o2) := precision fp.2 o1 in o2.

(** The frame of most methods: set the format, do something, restore the format. *)
Definition with_format {A} (body : ostream -> A * ostream) (o : ostream) : A * ostream :=
  let '(fp, o1) := setFormat o in
  let '(a, o2) := body o1 in
  (a, restore fp o2).

Definition same_format (o o' : ostream) : Prop :=
  flags o' = flags o /\ precision_ o' = precision_ o.

Lemma with_format_same {A} (body : ostream -> A * ostream) o : same_format o (with_format body o).2.
Proof. unfold with_format. cbn. by destruct (body _). Qed.

Lemma same_format_trans o1 o2 o3 : same_format o1 o2 -> same_format o2 o3 -> same_format o1 o3.
Proof. intros [] []. split; congruence. Qed.

Lemma put_same i o : same_format o (put i o).
Proof. done. Qed.

Definition zero : double := S754_zero false.
Definition one : double := of_int 1.

(** ** [13_7/brass.cpp] *)

Record Brass := mkBrass {
  fullName : string;
  acctNum : Z;
  balance : double;
}.

Record BrassPlus := mkPlus {
  base : Brass;
  maxLoan : double;
  rate : double;
  owesBank : double;
}.

Definition Brass_default : Brass := mkBrass "Nullbody" (-1) zero.
Definition default_rate : double := decimal 11125 5.

(** [BrassPlus(s, an, bal, ml, r)] and [BrassPlus(ba, ml, r)] *)
Definition BrassPlus_ctor (s : string) (an : Z) (bal ml r : double) : BrassPlus :=
  mkPlus (mkBrass s an bal) ml r zero.
Definition BrassPlus_of (ba : Brass) (ml r : double) : BrassPlus := mkPlus ba ml r zero.

Definition set_balance (x : double) (b : Brass) : Brass := mkBrass (fullName b) (acctNum b) x.

(** [Brass::Deposit] *)
Definition Deposit (amt : double) (b : Brass) (o : ostream) : Brass * ostream :=
  if dlt amt zero then
    (b, put_text "Negative deposit not allowed; deposit is cancelled." o)
  else (set_balance (dadd (balance b) amt) b, o).

(** [Brass::Withdraw] *)
Definition Withdraw (amt : double) (b : Brass) : ostream -> Brass * ostream :=
  with_format (fun o =>
    if dlt amt zero then
      (b, put_text "Withdraw amount must be positive; withdraw canceled." o)
    else if dle amt (balance b) then (set_balance (dsub (balance b) amt) b, o)
    else (b, put_text " exceeds your balance. Withdraw canceled."
               (put_num amt (put_text "Withdraw amout of $" o)))).

(** [Brass::ViewAcct] *)
Definition view_base (b : Brass) (o : ostream) : ostream :=
  put_num (balance b) (put_text "Balance: $" (put (Int (acctNum b)) (put_text "Account Number: "
    (put_text (fullName b) (put_text "Client: " o))))).
Definition ViewAcct (b : Brass) : ostream -> unit * ostream :=
  with_format (fun o => ((), view_base b o)).

Definition set_base (b : Brass) (p : BrassPlus) : BrassPlus := mkPlus b (maxLoan p) (rate p) (owesBank p).
Definition set_owes (x : double) (p : BrassPlus) : BrassPlus := mkPlus (base p) (maxLoan p) (rate p) x.

Definition ResetMax (m : double) (p : BrassPlus) : BrassPlus := mkPlus (base p) m (rate p) (owesBank p).
Definition ResetRate (r : double) (p : BrassPlus) : BrassPlus := mkPlus (base p) (maxLoan p) r (owesBank p).
Definition ResetOwes (p : BrassPlus) : BrassPlus := set_owes zero p.

(** The lines on the loan that [BrassPlus::ViewAcct] prints. *)
Definition view_loan (p : BrassPlus) (o : ostream) : ostream :=
  let o1 := put_num (owesBank p) (put_text "Owed to bank: $"
              (put_num (maxLoan p) (put_text "Maximum loan: $" o))) in
  let '(_, o2) := precision 3 o1 in
  put_text "%" (put_num (dmul (of_int 100) (rate p)) (put_text "Loan Rate: " o2)).

(** [BrassPlus::ViewAcct] *)
Definition ViewAcct_plus (p : BrassPlus) : ostream -> unit * ostream :=
  with_format (fun o => ((), view_loan p (ViewAcct (base p) o).2)).

(** The advance of [BrassPlus::Withdraw]: the debt grows, the advance is deposited. *)
Definition advance_loan (amt bal : double) (p : BrassPlus) (o : ostream) : BrassPlus * ostream :=
  let advance := dsub amt bal in
  let p1 := set_owes (dadd (owesBank p) (dmul advance (dadd one (rate p)))) p in
  let o1 := put_num (dmul advance (rate p)) (put_text "Finace charge: $"
              (put_num advance (put_text "Bank advance: $" o))) in
  let '(b, o2) := Deposit advance (base p1) o1 in
  (set_base b p1, o2).

(** [amt <= bal + maxLoan - owesBank] *)
Definition credit_ok (amt bal : double) (p : BrassPlus) : bool :=
  dle amt (dsub (dadd bal (maxLoan p)) (owesBank p)).

Definition withdraw_base (amt : double) (p : BrassPlus) (o : ostream) : BrassPlus * ostream :=
  let '(b, o1) := Withdraw amt (base p) o in (set_base b p, o1).

(** [BrassPlus::Withdraw] *)
Definition Withdraw_plus (amt : double) (p : BrassPlus) : ostream -> BrassPlus * ostream :=
  with_format (fun o =>
    let bal := balance (base p) in
    if dle amt bal then withdraw_base amt p o
    else if credit_ok amt bal p then
      let '(p1, o1) := advance_loan amt bal p o in withdraw_base amt p1 o1
    else (p, put_text "Credit linit exceed. Transaction cancelled." o)).

(** ** [13_11/acctabc.cpp], with the same members *)

Definition abc_default_rate : double := decimal 10 2.

(** [AcctABC::Deposit] *)
Definition abc_Deposit (amt : double) (b : Brass) (o : ostream) : Brass * ostream :=
  if dlt amt zero then
    (b, put_text "Negative deposit not allowed;deposit is cancelled." o)
  else (set_balance (dadd (balance b) amt) b, o).

(** [AcctABC::Withdraw], which tests nothing *)
Definition abc_withdraw (amt : double) (b : Brass) : Brass := set_balance (dsub (balance b) amt) b.

(** [Brass::Withdraw] *)
Definition abc_Withdraw (amt : double) (b : Brass) (o : ostream) : Brass * ostream :=
  if dlt amt zero then
    (b, put_text "Withdrawal amount must be positive; withdrawal canceled." o)
  else if dle amt (balance b) then (abc_withdraw amt b, o)
  else (b, put_text " exceeds your balance. Withdrawal canceled."
             (put_num amt (put_text "Withdrawal amount of $" o))).

(** [Brass::ViewAcct] and [BrassPlus::ViewAcct] *)
Definition abc_view (who : string) (b : Brass) (o : ostream) : ostream :=
  put_num (balance b) (put_text "Balance: $" (put (Int (acctNum b)) (put_text "Account Number: "
    (put_text (fullName b) (put_text who o))))).
Definition abc_ViewAcct (b : Brass) : ostream -> unit * ostream :=
  with_format (fun o => ((), abc_view "Brass Client: " b o)).
Definition abc_ViewAcct_plus (p : BrassPlus) : ostream -> unit * ostream :=
  with_format (fun o => ((), view_loan p (abc_view "BrassPlus Client: " (base p) o))).

Definition abc_advance_loan (amt bal : double) (p : BrassPlus) (o : ostream) : BrassPlus * ostream :=
  let advance := dsub amt bal in
  let p1 := set_owes (dadd (owesBank p) (dmul advance (dadd one (rate p)))) p in
  let o1 := put_num (dmul advance (rate p)) (put_text "Finance charge: $"
              (put_num advance (put_text "Bank advance: $" o))) in
  let '(b, o2) := abc_Deposit advance (base p1) o1 in
  (set_base b p1, o2).

(** [BrassPlus::Withdraw] *)
Definition abc_Withdraw_plus (amt : double) (p : BrassPlus) : ostream -> BrassPlus * ostream :=
  with_format (fun o =>
    let bal := balance (base p) in
    if dle amt bal then (set_base (abc_withdraw amt (base p)) p, o)
    else if credit_ok amt bal p then
      let '(p1, o1) := abc_advance_loan amt bal p o in
      (set_base (abc_withdraw amt (base p1)) p1, o1)
    else (p, put_text "Credit limit exceeded. Transaction cancelled." o)).

(** ** The main program [13_7/usebrass1.cpp] *)

Definition usebrass1 (o : ostream) : (Brass * BrassPlus) * ostream :=
  let Piggy := mkBrass "Porcelot Pigg" 381299 (of_int 4000) in
  let Hoggy := BrassPlus_ctor "Horatio HOgg" 382288 (of_int 3000) (of_int 500) default_rate in
  let o1 := (ViewAcct Piggy o).2 in
  let o2 := (ViewAcct_plus Hoggy o1).2 in
  let '(b, o3) := Deposit (of_int 1000) (base Hoggy)
                    (put_text "Depositing $1000 into the Hogg Account:" o2) in
  let Hoggy := set_base b Hoggy in
  let o4 := put_num (balance (base Hoggy)) (put_text "New balance: $" o3) in
  let '(Piggy, o5) := Withdraw (of_int 4200) Piggy
                        (put_text "Withdrawing $4200 from the Pigg Account:" o4) in
  let o6 := put_num (balance Piggy) (put_text "Pigg account balance: $" o5) in
  let '(Hoggy, o7) := Withdraw_plus (of_int 4200) Hoggy
                        (put_text "Withdrawing $4200 from the Hogg Account:" o6) in
  ((Piggy, Hoggy), (ViewAcct_plus Hoggy o7).2).

(** The rejected withdrawal leaves 4000, the loan of 200 is owed with 11.125%. *)
Example usebrass1_result :
  let '((Piggy, Hoggy), o) := usebrass1 (mkCout FDefault 6 []) in
  SFeqb (balance Piggy) (of_int 4000) = true /\ SFeqb (balance (base Hoggy)) zero = true /\
  owesBank Hoggy = decimal 22225 2 /\ (flags o, precision_ o) = (FDefault, 6).
Proof. vm_compute. done. Qed.

(** ** The format of the stream *)

Lemma Deposit_format amt b o : same_format o (Deposit amt b o).2.
Proof. unfold Deposit. by destruct (dlt _ _). Qed.

Lemma abc_Deposit_format amt b o : same_format o (abc_Deposit amt b o).2.
Proof. unfold abc_Deposit. by destruct (dlt _ _). Qed.

Lemma abc_Withdraw_format amt b o : same_format o (abc_Withdraw amt b o).2.
Proof. unfold abc_Withdraw. destruct (dlt _ _); [done|]. by destruct (dle _ _). Qed.

(** The accounts after both versions of the advance agree. *)
Lemma advance_same amt bal p o o' :
  (advance_loan amt bal p o).1 = (abc_advance_loan amt bal p o').1.
Proof. unfold advance_loan, abc_advance_loan, Deposit, abc_Deposit. by destruct (dlt _ _). Qed.

Lemma with_format_value {A} (body : ostream -> A * ostream) o :
  (with_format body o).1 = (body (setFormat o).2).1.
Proof. unfold with_format. cbn. by destruct (body _). Qed.

Lemma withdraw_base_value amt p o :
  (withdraw_base amt p o).1 =
    if dlt amt zero then p
    else if dle amt (balance (base p)) then set_base (abc_withdraw amt (base p)) p else p.
Proof.
  unfold withdraw_base. pose proof (with_format_value (fun o0 =>
    if dlt amt zero then
      (base p, put_text "Withdraw amount must be positive; withdraw canceled." o0)
    else if dle amt (balance (base p)) then (set_balance (dsub (balance (base p)) amt) (base p), o0)
    else (base p, put_text " exceeds your balance. Withdraw canceled."
               (put_num amt (put_text "Withdraw amout of $" o0)))) o) as E.
  change (with_format _ o) with (Withdraw amt (base p) o) in E.
  destruct (Withdraw amt (base p) o) as [b o1]. cbn [fst] in *. rewrite E.
  destruct (dlt amt zero); [by destruct p|]. destruct (dle amt _); [done|by destruct p].
Qed.

(** ** Properties *)

(** Every method of both versions leaves the format of [cout] as it found it, however the
    calls nest. *)
Theorem format_restored amt b p o :
  Forall (same_format o)
    [(Deposit amt b o).2; (Withdraw amt b o).2; (ViewAcct b o).2; (ViewAcct_plus p o).2;
     (Withdraw_plus amt p o).2; (abc_Deposit amt b o).2; (abc_Withdraw amt b o).2;
     (abc_ViewAcct b o).2; (abc_ViewAcct_plus p o).2; (abc_Withdraw_plus amt p o).2].
Proof.
  repeat constructor; try apply with_format_same; try apply Deposit_format;
    try apply abc_Deposit_format; try apply abc_Withdraw_format.
Qed.

(** The two versions of [BrassPlus::Withdraw] do the same to the account, except where
    they differ: for an amount below zero within the balance ([brass.cpp] cancels), and for
    an advance whose deposit rounds to less than the amount ([brass.cpp] cancels the
    withdrawal after it has charged the advance). *)
Theorem Withdraw_plus_equiv amt p o o' :
  let bal := balance (base p) in
  let after := balance (base (abc_advance_loan amt bal p o').1) in
  (dle amt bal = true -> dlt amt zero = false) ->
  (dle amt bal = false -> credit_ok amt bal p = true ->
     dlt amt zero = false /\ dle amt after = true) ->
  (Withdraw_plus amt p o).1 = (abc_Withdraw_plus amt p o').1.
Proof.
  cbv zeta. intros H1 H2. unfold Withdraw_plus, abc_Withdraw_plus. rewrite !with_format_value.
  destruct (dle amt (balance (base p))) eqn:Eb.
  - rewrite withdraw_base_value, H1, Eb by done. done.
  - destruct (credit_ok amt _ p); [|done]. destruct (H2 eq_refl eq_refl) as [H3 H4].
    pose proof (advance_same amt (balance (base p)) p (setFormat o).2 (setFormat o').2) as E.
    pose proof (advance_same amt (balance (base p)) p (setFormat o).2 o') as E'.
    destruct (advance_loan _ _ _ _) as [p1 o1], (abc_advance_loan amt _ p (setFormat o').2) as [p2 o2].
    cbn [fst] in *. rewrite withdraw_base_value, H3, E', H4. by rewrite <- E', E.
Qed.

(** [BrassPlus::Withdraw] of [acctabc.cpp] has no test for a negative amount: one within
    the balance is taken from it, which raises the balance; [brass.cpp] cancels it. *)
Theorem negative_withdrawal amt p o :
  dlt amt zero = true -> dle amt (balance (base p)) = true ->
  balance (base (abc_Withdraw_plus amt p o).1) = dsub (balance (base p)) amt /\
  (Withdraw_plus amt p o).1 = p.
Proof.
  intros H1 H2. unfold Withdraw_plus, abc_Withdraw_plus. rewrite !with_format_value, H2.
  by rewrite withdraw_base_value, H1.
Qed.

Lemma Withdraw_plus_equiv_witness :
  (Withdraw_plus (of_int 4200) (BrassPlus_ctor "Hogg" 1 (of_int 4000) (of_int 500) default_rate)
     (mkCout FDefault 6 [])).1 =
  (abc_Withdraw_plus (of_int 4200) (BrassPlus_ctor "Hogg" 1 (of_int 4000) (of_int 500) default_rate)
     (mkCout FDefault 6 [])).1.
Proof. apply Withdraw_plus_equiv; intros; split; reflexivity. Defined.

Lemma negative_withdrawal_witness :
  balance (base (abc_Withdraw_plus (of_int (-50)) (BrassPlus_ctor "Hogg" 1 (of_int 100) (of_int 500)
    default_rate) (mkCout FDefault 6 [])).1) = of_int 150.
Proof.
  exact (proj1 (negative_withdrawal (of_int (-50)) (BrassPlus_ctor "Hogg" 1 (of_int 100) (of_int 500)
    default_rate) (mkCout FDefault 6 []) eq_refl eq_refl)).
Defined.

(** Rounding can charge an advance and still refuse the withdrawal: with a balance of
    0.13, [brass.cpp] books a withdrawal of 1.99 as a debt and leaves the customer with the
    advance in the account, just less than the amount. *)
Theorem advance_charged_without_payment :
  exists bal amt ml r, let p := BrassPlus_ctor "Hogg" 1 bal ml r in
    let q := (Withdraw_plus amt p (mkCout FDefault 6 [])).1 in
    dlt zero amt = true /\ dlt bal amt = true /\
    dlt (owesBank p) (owesBank q) = true /\ dlt bal (balance (base q)) = true /\
    dlt (balance (base q)) amt = true.
Proof.
  exists (decimal 13 2), (decimal 199 2), (of_int 500), default_rate. vm_compute. done.
Qed.

End Accounts.
