(* ===== verification/Throughput.v ===== *)
(** The throughput test over DDS ([src/other/pubsub/throughput/]): the endpoints of publisher
    and subscriber, the sizes of their histories, the loop that sends batches
    ([ThroughputPublisher::test]) and the listener that counts what arrives
    ([ThroughputSubscriber::DataReaderListener]).  Answers of the library and readings of
    the clock are arguments. *)
From S2P Require Import Prelude.

Module Throughput.

(** ** The endpoints of one side

    [topic], [endpoint] (writer or reader) and [type_] are the pointers
    [data_pub_topic_], [data_writer_] and [throughput_data_type_] (or those of the
    subscriber) being set; [registered] whether the participant knows the type by its
    name. *)
Record endpoints := mkEndpoints {
  topic : bool;
  endpoint : bool;
  type_ : bool;
  registered : bool;
}.

Definition no_endpoints : endpoints := mkEndpoints false false false false.

(** [init_static_types]: [register_ok] is the answer of [register_type]. *)
Definition init_static_types (register_ok : bool) (e : endpoints) : bool * endpoints :=
  if type_ e then (false, e)
  else if registered e then (false, e)
  else if register_ok then (true, mkEndpoints (topic e) (endpoint e) true true)
  else (false, mkEndpoints (topic e) (endpoint e) true (registered e)).

(** [create_data_endpoints] *)
Definition create_data_endpoints (topic_ok endpoint_ok : bool) (e : endpoints) : bool * endpoints :=
  if topic e then (false, e)
  else if endpoint e then (false, e)
  else if negb topic_ok then (false, e)
  else if endpoint_ok then (true, mkEndpoints true true (type_ e) (registered e))
  else (false, mkEndpoints true false (type_ e) (registered e)).

(** [ThroughputPublisher::destroy_data_endpoints] *)
Definition destroy_data_endpoints (delete_ok topic_ok unregister_ok : bool) (e : endpoints)
  : bool * endpoints :=
  if negb (endpoint e) || negb delete_ok then (false, e)
  else if negb (topic e) || negb topic_ok then
    (false, mkEndpoints (topic e) false (type_ e) (registered e))
  else if negb unregister_ok then (false, mkEndpoints false false (type_ e) (registered e))
  else (true, mkEndpoints false false false false).

(** [ThroughputSubscriber::destroy_data_endpoints] goes on, after [throughput_data_type_]
    is reset, with [throughput_data_type_.delete_data(...)]: a call through a null pointer,
    [None]. *)
Definition sub_destroy_data_endpoints (delete_ok topic_ok unregister_ok : bool) (e : endpoints)
  : option (bool * endpoints) :=
  match destroy_data_endpoints delete_ok topic_ok unregister_ok e with
  | (false, e') => Some (false, e')
  | (true, _) => None
  end.

(** The destructors delete the participant only when nothing is left. *)
Definition dtor_deletes (e : endpoints) : bool := negb (endpoint e || topic e || type_ e).

(** ** The history

    [history().depth], [resource_limits().max_samples] and [allocated_samples] are 32-bit
    signed, the demand is unsigned; a number above [INT_MAX] is stored as a negative one. *)
Record history_qos := mkHistory {
  keep_last : bool;
  depth : Z;
  max_samples : Z;
  allocated_samples : Z;
}.

Definition as_unsigned (v : Z) : Z := wrapU 32 v.
Definition as_signed (v : Z) : Z := wrapS 32 v.

(** The adjustment in [ThroughputPublisher::run] and [ThroughputSubscriber::run] *)
Definition adjust_history (max_demand : Z) (q : history_qos) : history_qos :=
  let q1 :=
    if keep_last q then
      if (depth q <? 0) || (as_unsigned (depth q) <? max_demand) then
        mkHistory true (as_signed max_demand) (as_signed max_demand) (allocated_samples q)
      else q
    else if (max_samples q <=? 0) || (as_unsigned (max_samples q) <? max_demand) then
      mkHistory false (depth q) (as_signed max_demand) (allocated_samples q)
    else q in
  mkHistory (keep_last q1) (depth q1) (max_samples q1) (max_samples q1).

(** ** The demands of [ThroughputPublisher::run]

    [demand_payload_[msg_size - overhead].push_back(demand)], in [uint32_t] *)
Definition add_demand (overhead demand msg_size : Z) (m : gmap Z (list Z)) : gmap Z (list Z) :=
  if (demand =? 0) || (msg_size =? 0) then m
  else let key := wrapU 32 (msg_size - overhead) in
    <[key := default [] (m !! key) ++ [wrapU 32 demand]]> m.

Definition max_demand_of (demands : list Z) : Z := foldl Z.max 0 demands.

(** ** Matching

    [matched_ = info.total_count]: the library counts every match ever made. *)
Inductive match_event := Matched | Unmatched.

Definition total_count (evs : list match_event) : nat :=
  length (List.filter (fun e => match e with Matched => true | Unmatched => false end) evs).
Fixpoint current_count (n : nat) (evs : list match_event) : nat :=
  match evs with
  | [] => n
  | Matched :: evs => current_count (S n) evs
  | Unmatched :: evs => current_count (pred n) evs
  end.

(** [on_publication_matched] stores the count of the library. *)
Definition on_matched (evs : list match_event) : Z := Z.of_nat (total_count evs).

(** What the publisher and the subscriber wait for: [total_matches() == subscribers_ * 1]
    and [total_matches() == 3]. *)
Definition pub_discovered (subscribers : Z) (evs : list match_event) : bool :=
  on_matched evs =? subscribers.
Definition sub_discovered (evs : list match_event) : bool := on_matched evs =? 3.

(** ** [ThroughputPublisher::test] *)

Record sending := mkSending {
  samples : Z;
  seqnum : Z;
  t_end : Z;
  writes : list Z;
}.

(** One batch: [demand] samples with the next numbers. *)
Fixpoint write_batch (demand : nat) (s : sending) : sending :=
  match demand with
  | O => s
  | S n => let k := wrapU 32 (seqnum s + 1) in
      write_batch n (mkSending (samples s) k (t_end s) (writes s ++ [k]))
  end.

(** The loop: each turn writes a batch and reads the clock; the readings are given, [None]
    means that they did not suffice. *)
Fixpoint send_loop (clock : list Z) (t_start test_time : Z) (demand : nat) (s : sending)
  : option sending :=
  if t_end s - t_start <? test_time then
    match clock with
    | [] => None
    | now :: clock =>
        let s1 := write_batch demand s in
        send_loop clock t_start test_time demand
          (mkSending (wrapU 32 (samples s1 + Z.of_nat demand)) (seqnum s1) now (writes s1))
    end
  else Some s.

(** The whole of the loop, from the value [t_end] has from before. *)
Definition test_sends (clock : list Z) (t_start test_time t_end0 : Z) (demand : nat) : option sending :=
  send_loop clock t_start test_time demand (mkSending 0 0 t_end0 []).

(** [while (!results_error && num_results_received < subscribers_) {}], with fuel *)
Fixpoint results_loop (fuel : nat) (results_error : bool) (num_results_received subscribers : Z)
  : option Z :=
  if negb results_error && (num_results_received <? subscribers) then
    match fuel with
    | O => None
    | S fuel => results_loop fuel results_error num_results_received subscribers
    end
  else Some num_results_received.

(** ** [DataReaderListener]

    [enable_] has no initialiser: [None] until it is assigned (before C++20; since then it
    starts as [Some false]). *)
Record listener := mkListener {
  last_seq_num_ : Z;
  lost_samples_ : Z;
  received_samples_ : Z;
  matched_ : Z;
  enable_ : option bool;
  saved : option (Z * Z * Z);
}.

Definition new_listener (enable : option bool) : listener := mkListener 0 0 0 0 enable None.

Definition reset (l : listener) : listener := mkListener 0 0 0 0 (Some true) (saved l).
Definition disable (l : listener) : listener :=
  mkListener (last_seq_num_ l) (lost_samples_ l) (received_samples_ l) (matched_ l) (Some false) (saved l).
Definition save_numbers (l : listener) : listener :=
  mkListener (last_seq_num_ l) (lost_samples_ l) (received_samples_ l) (matched_ l) (enable_ l)
    (Some (last_seq_num_ l, lost_samples_ l, received_samples_ l)).
Definition on_subscription_matched (total : Z) (l : listener) : listener :=
  mkListener (last_seq_num_ l) (lost_samples_ l) (received_samples_ l) total (enable_ l) (saved l).

(** The body of the loop of [on_data_available]; [None] is a sample without valid data. *)
Definition count_sample (smp : option Z) (l : listener) : listener :=
  match smp with
  | Some seq_num =>
      let lost :=
        if wrapU 32 (last_seq_num_ l + 1) <? seq_num
        then wrapU 32 (lost_samples_ l + wrapU 32 (seq_num - last_seq_num_ l - 1))
        else lost_samples_ l in
      mkListener seq_num lost (wrapU 64 (received_samples_ l + 1)) (matched_ l) (enable_ l) (saved l)
  | None => l
  end.

(** [on_data_available], with the samples it takes *)
Definition on_data_available (taken : list (option Z)) (l : listener) : option listener :=
  match enable_ l with
  | None => None
  | Some false => Some l
  | Some true => Some (foldl (fun l smp => count_sample smp l) l taken)
  end.

(** [ThroughputDataType]: the size of a serialised sample; [seqnum] has four bytes, [header] is
    the constant [representation_header_size] of the library. *)
Definition max_serialized_type_size (header size : Z) : Z :=
  wrapU 32 (4 + Z.land (wrapU 32 (size + 3)) (wrapU 32 (Z.lnot 3)) + header).

(** One pass of [ThroughputPublisher::run] for a size: the endpoints are made, used and
    destroyed.  The answers of the library come in the order of the calls; the result is
    whether the endpoints were ready, whether they were destroyed, and what is left. *)
Definition size_round (register_ok topic_ok endpoint_ok delete_ok delete_topic_ok unregister_ok : bool)
    (e : endpoints) : bool * bool * endpoints :=
  let '(r1, e1) := init_static_types register_ok e in
  let '(r2, e2) := if r1 then create_data_endpoints topic_ok endpoint_ok e1 else (false, e1) in
  let '(r3, e3) := destroy_data_endpoints delete_ok delete_topic_ok unregister_ok e2 in
  (r2, r3, e3).

(** What reaches the listener of a subscriber while its endpoints exist. *)
Inductive listener_event :=
  | SubMatched (total : Z)
  | DataAvailable (taken : list (option Z)).

Definition listen (ev : listener_event) (l : listener) : option listener :=
  match ev with
  | SubMatched total => Some (on_subscription_matched total l)
  | DataAvailable taken => on_data_available taken l
  end.

Fixpoint listen_all (evs : list listener_event) (l : listener) : option listener :=
  match evs with
  | [] => Some l
  | ev :: evs => match listen ev l with Some l' => listen_all evs l' | None => None end
  end.

Example three_lost :
  on_data_available [Some 1; Some 2; None; Some 6] (reset (new_listener None)) =
  Some (mkListener 6 3 3 0 (Some true) None).
Proof. reflexivity. Qed.

(** Samples that overtake each other are counted as lost although all have arrived. *)
Example overtaking :
  on_data_available [Some 2; Some 1; Some 3] (reset (new_listener None)) =
  Some (mkListener 3 2 3 0 (Some true) None).
Proof. reflexivity. Qed.

(** ** Sending *)

Lemma seq_snoc a n : seqZ a (Z.of_nat (S n)) = seqZ a (Z.of_nat n) ++ [a + Z.of_nat n].
Proof.
  rewrite Nat2Z.inj_succ, <- Z.add_1_r, seqZ_app by lia. done.
Qed.

Lemma write_batch_spec demand s :
  0 <= seqnum s -> seqnum s + Z.of_nat demand < 2 ^ 32 ->
  write_batch demand s =
    mkSending (samples s) (seqnum s + Z.of_nat demand) (t_end s)
      (writes s ++ seqZ (seqnum s + 1) (Z.of_nat demand)).
Proof.
  revert s. induction demand as [|n IH]; intros s H0 Hb.
  - cbn. rewrite Z.add_0_r, app_nil_r. by destruct s.
  - cbn [write_batch]. rewrite wrapU_small by lia.
    rewrite IH by (cbn; lia). cbn [samples seqnum t_end writes].
    f_equal; [lia|]. rewrite <- app_assoc. f_equal. cbn [app].
    replace (Z.of_nat (S n)) with (Z.succ (Z.of_nat n)) by lia.
    rewrite (seqZ_cons (seqnum s + 1)) by lia. by rewrite Z.pred_succ.
Qed.

(** The state of the loop after [k] batches. *)
Definition sent_ok (s : sending) : Prop :=
  0 <= seqnum s /\ samples s = seqnum s /\ writes s = seqZ 1 (seqnum s).

Lemma send_loop_spec clock t_start test_time demand s s' :
  sent_ok s -> seqnum s + Z.of_nat demand * Z.of_nat (length clock) < 2 ^ 32 ->
  send_loop clock t_start test_time demand s = Some s' ->
  sent_ok s' /\ test_time <= t_end s' - t_start /\
  exists k, (k <= length clock)%nat /\ seqnum s' = seqnum s + Z.of_nat demand * Z.of_nat k.
Proof.
  revert s. induction clock as [|now clock IH]; intros s Hs Hb H; cbn [send_loop length] in H, Hb.
  - destruct (_ <? _) eqn:E; [done|]. zbool. injection H as <-. split; [done|]. split; [lia|].
    exists 0%nat. lia.
  - destruct (_ <? _) eqn:E; zbool.
    2: { injection H as <-. split; [done|]. split; [lia|]. exists 0%nat. lia. }
    destruct Hs as (H0 & Hs & Hw).
    rewrite Nat2Z.inj_succ, Z.mul_succ_r in Hb.
    assert (0 <= Z.of_nat demand * Z.of_nat (length clock)) by nia.
    rewrite write_batch_spec in H by lia. cbn [samples seqnum writes] in H.
    apply IH in H as (Hs' & Ht & k & Hk & Ek).
    + split; [done|]. split; [done|]. exists (S k). cbn in Ek. split; [cbn; lia|].
      rewrite Nat2Z.inj_succ, Z.mul_succ_r. lia.
    + unfold sent_ok. cbn [samples seqnum writes].
      split; [lia|]. split; [rewrite wrapU_small; lia|]. rewrite Hw. rewrite (Z.add_comm (seqnum s) 1) at 1.
      rewrite (seqZ_app 1 (seqnum s) (Z.of_nat demand)) by lia. f_equal; f_equal; lia.
    + cbn. lia.
Qed.

(** If some reading of the clock lies [test_time] after the start, the loop ends. *)
Lemma send_loop_ends clock t_start test_time demand s :
  Exists (fun now => test_time <= now - t_start) clock ->
  is_Some (send_loop clock t_start test_time demand s).
Proof.
  intros H. revert s. induction H as [now clock Hn|now clock H IH]; intros s; cbn [send_loop].
  - destruct (_ <? _); [|by eexists].
    set (s1 := write_batch demand s). destruct clock; cbn [send_loop t_end];
      (replace (now - t_start <? test_time) with false by (symmetry; apply Z.ltb_ge; lia); by eexists).
  - destruct (_ <? _); [apply IH|by eexists].
Qed.

(** What [ThroughputPublisher::test] sends.  If the clock reaches [t_start + test_time]
    the loop ends, and however it ends it has written whole batches, numbered 1, 2, 3, ... in
    order and without gap, and [samples] is the number of them (as long as 32 bits hold it);
    the time is over then. *)
Theorem test_sends_spec clock t_start test_time t_end0 demand :
  Z.of_nat demand * Z.of_nat (length clock) < 2 ^ 32 ->
  Exists (fun now => test_time <= now - t_start) clock ->
  exists s k, test_sends clock t_start test_time t_end0 demand = Some s /\
    samples s = Z.of_nat demand * Z.of_nat k /\ (k <= length clock)%nat /\
    writes s = seqZ 1 (samples s) /\ test_time <= t_end s - t_start.
Proof.
  intros Hb Hc. unfold test_sends.
  destruct (send_loop_ends clock t_start test_time demand (mkSending 0 0 t_end0 []) Hc) as [s Hs].
  pose proof Hs as H. apply send_loop_spec in H as ((H0 & E & Hw) & Ht & k & Hk & Ek); [|done|cbn; lia].
  exists s, k. rewrite E. cbn in Ek. split_and!; [done|lia|done|done|done].
Qed.

Lemma test_sends_spec_witness :
  exists s k, test_sends [3; 7; 12; 40] 0 10 (-1) 2 = Some s /\
    samples s = 2 * Z.of_nat k /\ (k <= 4)%nat /\
    writes s = seqZ 1 (samples s) /\ 10 <= t_end s - 0.
Proof.
  refine (test_sends_spec [3; 7; 12; 40] 0 10 (-1) 2 _ _); [reflexivity|].
  do 2 constructor 2. constructor. lia.
Defined.

(** The loop that waits for results does not return once it is entered. *)
Lemma results_loop_spins fuel subscribers :
  0 < subscribers -> results_loop fuel false 0 subscribers = None.
Proof.
  intros H. apply Z.ltb_lt in H. induction fuel as [|n IH]; cbn; rewrite H; done.
Qed.

(** ** Counting *)

Definition count_all (nums : list Z) (l : listener) : listener :=
  foldl (fun l smp => count_sample smp l) l (Some <$> nums).

Definition uint32 (n : Z) : Prop := 0 <= n < 2 ^ 32.

Lemma last_from (n d : Z) nums : List.last (n :: nums) d = List.last nums n.
Proof.
  revert n d. induction nums as [|m nums IH]; intros n d; [done|].
  change (List.last (n :: m :: nums) d) with (List.last (m :: nums) d). by rewrite !IH.
Qed.

Lemma sorted_last_max (nums : list Z) d x :
  StronglySorted Z.lt (d :: nums) -> x ∈ nums -> x <= List.last nums d.
Proof.
  revert d x. induction nums as [|n nums IH]; intros d x H Hx; [by apply not_elem_of_nil in Hx|].
  rewrite last_from. apply StronglySorted_inv in H as [H _].
  apply elem_of_cons in Hx as [->|Hx]; [|by apply IH].
  destruct nums as [|m nums]; [done|].
  assert (m <= List.last (m :: nums) n) by (apply IH; [done|left]).
  apply StronglySorted_inv in H as [_ H]. apply Forall_cons in H as [? _]. lia.
Qed.

(** Increasing numbers: the gaps between them are added to the losses. *)
Lemma count_all_closed nums l :
  Forall uint32 nums -> StronglySorted Z.lt (last_seq_num_ l :: nums) -> 0 <= last_seq_num_ l ->
  0 <= lost_samples_ l <= last_seq_num_ l -> 0 <= received_samples_ l ->
  received_samples_ l + Z.of_nat (length nums) < 2 ^ 64 ->
  Z.of_nat (length nums) <= List.last nums (last_seq_num_ l) - last_seq_num_ l /\
  count_all nums l =
    mkListener (List.last nums (last_seq_num_ l))
      (lost_samples_ l + (List.last nums (last_seq_num_ l) - last_seq_num_ l - Z.of_nat (length nums)))
      (received_samples_ l + Z.of_nat (length nums)) (matched_ l) (enable_ l) (saved l).
Proof.
  revert l. induction nums as [|n nums IH]; intros l Hu Hs H0 Hl Hr Hb.
  { cbn. split; [lia|]. destruct l; cbn in *. f_equal; lia. }
  apply Forall_cons in Hu as [Hn Hu]. unfold uint32 in Hn.
  apply StronglySorted_inv in Hs as [Hs Hlt]. apply Forall_cons in Hlt as [Hlt _].
  rewrite last_from. cbn [length] in *.
  assert (E : count_sample (Some n) l =
    mkListener n (lost_samples_ l + (n - last_seq_num_ l - 1)) (received_samples_ l + 1)
      (matched_ l) (enable_ l) (saved l)).
  { cbn [count_sample]. rewrite (wrapU_small 32 (last_seq_num_ l + 1)), (wrapU_small 64) by lia.
    destruct (last_seq_num_ l + 1 <? n) eqn:C; zbool; f_equal; [|lia].
    rewrite (wrapU_small 32 (n - last_seq_num_ l - 1)), wrapU_small by lia. lia. }
  change (count_all (n :: nums) l) with (count_all nums (count_sample (Some n) l)).
  rewrite E. edestruct IH as [Hlen ->]; [exact Hu| | | | | |];
    cbn [last_seq_num_ lost_samples_ received_samples_ matched_ enable_ saved]; [exact Hs|lia..|].
  cbn [last_seq_num_] in Hlen. split; [lia|]. f_equal; lia.
Qed.

(** What a lossy network that keeps the order delivers of [1 .. N]: the numbers are
    increasing and bounded. *)
Lemma seqZ_sorted N : StronglySorted Z.lt (seqZ 1 N).
Proof.
  unfold seqZ. generalize 0%nat. induction (Z.to_nat N) as [|n IH]; intros a; [constructor|].
  cbn [seq fmap list_fmap]. constructor; [apply IH|].
  apply Forall_fmap, Forall_forall. intros x Hx%elem_of_seq. cbn. lia.
Qed.

Lemma sublist_sorted (l k : list Z) : l `sublist_of` k -> StronglySorted Z.lt k -> StronglySorted Z.lt l.
Proof.
  induction 1 as [|x l k Hs IH|x l k Hs IH]; intros H; [done| |].
  - apply StronglySorted_inv in H as [H Hx]. constructor; [auto|].
    rewrite Forall_forall in *. intros y Hy. apply Hx. by eapply elem_of_sublist.
  - apply StronglySorted_inv in H as [H _]. auto.
Qed.

(** The numbers up to the last one that have not arrived *)
Definition missing (nums : list Z) (last : Z) : list Z :=
  filter (fun k => k ∉ nums) (seqZ 1 last).

Lemma sorted_nodup (nums : list Z) : StronglySorted Z.lt nums -> NoDup nums.
Proof.
  induction 1 as [|n nums H IH Hn]; constructor; [|done].
  intros Hx. rewrite Forall_forall in Hn. apply Hn in Hx. lia.
Qed.

Lemma filter_split (nums l : list Z) :
  (length (filter (fun k => k ∉ nums) l) + length (filter (fun k => k ∈ nums) l) = length l)%nat.
Proof.
  induction l as [|k l IH]; [done|]. rewrite !filter_cons. repeat case_decide; cbn; naive_solver lia.
Qed.

Lemma missing_length nums last :
  NoDup nums -> Forall (fun k => 1 <= k <= last) nums -> 0 <= last ->
  Z.of_nat (length (missing nums last)) + Z.of_nat (length nums) = last.
Proof.
  intros Hd Hb H0.
  assert (Hp : nums ≡ₚ filter (fun k => k ∈ nums) (seqZ 1 last)).
  { apply NoDup_Permutation; [done|apply NoDup_filter, NoDup_seqZ|]. intros x.
    rewrite list_elem_of_filter, elem_of_seqZ. rewrite Forall_forall in Hb.
    split; [|tauto]. intros Hx. specialize (Hb x Hx). split; [done|lia]. }
  rewrite Hp at 2. unfold missing.
  rewrite <- Nat2Z.inj_add, filter_split, length_seqZ. lia.
Qed.

(** C21: The numbers of the listener are right over a network that loses samples and keeps
    their order: of the samples [1 .. N] of a publisher some arrive; after [reset] and any
    split of them into callbacks, [received_samples_] is their number, [last_seq_num_] the
    last of them and [lost_samples_] the number of those missing before it.  So received,
    lost and the ones lost after the last arrival, which the listener cannot see, make up
    what the publisher sent. *)
Theorem losses_counted (N : Z) (arrived : list Z) (l : listener) :
  0 <= N < 2 ^ 32 -> arrived `sublist_of` seqZ 1 N ->
  exists l', on_data_available (Some <$> arrived) (reset l) = Some l' /\
    received_samples_ l' = Z.of_nat (length arrived) /\
    last_seq_num_ l' = List.last arrived 0 /\
    lost_samples_ l' = Z.of_nat (length (missing arrived (last_seq_num_ l'))) /\
    received_samples_ l' + lost_samples_ l' + (N - last_seq_num_ l') = N.
Proof.
  intros HN Hs. exists (count_all arrived (reset l)).
  assert (Hin : forall x, x ∈ arrived -> 1 <= x <= N).
  { intros x Hx. eapply elem_of_sublist in Hx; [|done]. apply elem_of_seqZ in Hx. lia. }
  assert (Hsort : StronglySorted Z.lt (0 :: arrived)).
  { constructor; [by eapply sublist_sorted, seqZ_sorted|]. apply Forall_forall. intros x Hx%Hin. lia. }
  assert (Hlen : Z.of_nat (length arrived) <= N) by (apply sublist_length in Hs; rewrite length_seqZ in Hs; lia).
  destruct (count_all_closed arrived (reset l)) as [_ E]; cbn [reset last_seq_num_ received_samples_ lost_samples_];
    try done; try lia.
  { apply Forall_forall. intros x Hx%Hin. unfold uint32. lia. }
  cbn [reset last_seq_num_ lost_samples_ received_samples_] in E.
  split_and!; [done|by rewrite E|by rewrite E| |rewrite E; cbn; lia]. rewrite E. cbn [last_seq_num_ lost_samples_].
  assert (0 <= List.last arrived 0).
  { destruct arrived as [|x xs]; [done|]. transitivity x; [specialize (Hin x); assert (x ∈ x :: xs) by left; naive_solver lia|].
    apply sorted_last_max; [done|left]. }
  enough (Z.of_nat (length (missing arrived (List.last arrived 0))) + Z.of_nat (length arrived) = List.last arrived 0) by lia.
  apply missing_length; [|apply Forall_forall; intros x Hx|done].
  - apply StronglySorted_inv in Hsort as [Hsort _]. by apply sorted_nodup.
  - split; [by apply Hin|]. by apply sorted_last_max.
Qed.

Lemma losses_counted_witness :
  exists l', on_data_available (Some <$> [2; 3; 7]) (reset (new_listener None)) = Some l' /\
    received_samples_ l' = 3 /\ last_seq_num_ l' = 7 /\
    lost_samples_ l' = Z.of_nat (length (missing [2; 3; 7] (last_seq_num_ l'))) /\
    received_samples_ l' + lost_samples_ l' + (10 - last_seq_num_ l') = 10.
Proof.
  refine (losses_counted 10 [2; 3; 7] (new_listener None) _ _); [lia|].
  change (seqZ 1 10) with [1; 2; 3; 4; 5; 6; 7; 8; 9; 10].
  apply sublist_cons. do 2 apply sublist_skip. do 3 apply sublist_cons. apply sublist_skip.
  apply sublist_nil_l.
Defined.

(** The subscriber never counts: [reset], which enables the listener, is called only after
    the reader is deleted. *)
Lemma nothing_is_counted evs l :
  enable_ l = Some false ->
  exists l', listen_all evs l = Some l' /\ enable_ l' = Some false /\ saved l' = saved l /\
    (last_seq_num_ l', lost_samples_ l', received_samples_ l') =
    (last_seq_num_ l, lost_samples_ l, received_samples_ l).
Proof.
  revert l. induction evs as [|ev evs IH]; intros l Hl; [by exists l|].
  destruct ev as [total|taken]; cbn.
  - destruct (IH (on_subscription_matched total l)) as (l' & ? & ? & ? & ?); [done|]. by exists l'.
  - unfold on_data_available. rewrite Hl. destruct (IH l) as (l' & ? & ? & ? & ?); [done|]. by exists l'.
Qed.

(** What a run of the subscriber reports.  The listener as constructed is not enabled
    (with a value for [enable_], which only C++20 gives it), and nothing the program calls
    while the reader exists enables it: whatever arrives, the counters stay 0 and the saved
    numbers, which [run] prints, are never assigned. *)
Theorem subscriber_counts_nothing evs :
  exists l, listen_all evs (new_listener (Some false)) = Some l /\
    received_samples_ l = 0 /\ lost_samples_ l = 0 /\ last_seq_num_ l = 0 /\ saved l = None.
Proof.
  destruct (nothing_is_counted evs (new_listener (Some false))) as (l & H & _ & Hs & E); [done|].
  exists l. injection E as -> -> ->. by rewrite Hs.
Qed.

(** ** Endpoints *)

(** A pass of [run] over one size, from no endpoints: they are ready exactly when all
    three creations succeed and destroyed exactly when all six calls do, and nothing is left
    exactly then, or when the type alone was refused in no way at all; whatever is left, the
    destructor does not delete the participant. *)
Theorem size_round_spec r t e d dt u :
  let '(ready, destroyed, rest) := size_round r t e d dt u no_endpoints in
  (ready = true <-> r && t && e = true) /\
  (destroyed = true <-> r && t && e && d && dt && u = true) /\
  (destroyed = true <-> rest = no_endpoints) /\
  (dtor_deletes rest = true <-> rest = no_endpoints).
Proof. unfold no_endpoints. destruct r, t, e, d, dt, u; cbn; repeat split; intros; congruence. Qed.

(** After an incomplete pass no later one becomes ready. *)
Lemma left_over_blocks e r t ep :
  type_ e = true \/ topic e = true \/ endpoint e = true ->
  fst (init_static_types r e) && fst (create_data_endpoints t ep e) = false.
Proof.
  unfold init_static_types, create_data_endpoints.
  destruct e as [[] [] [] []]; cbn; destruct r; cbn; try done; naive_solver.
Qed.

(** ** The history *)

Definition int32 (v : Z) : Prop := - 2 ^ 31 <= v < 2 ^ 31.

Lemma as_unsigned_nonneg v : int32 v -> 0 <= v -> as_unsigned v = v.
Proof. intros H H0. apply wrapU_small. unfold int32 in H. lia. Qed.
Lemma as_signed_small v : int32 v -> as_signed v = v.
Proof. intros H. unfold as_signed. apply wrapS_small; [lia|]. unfold int32 in H. cbn. lia. Qed.

Lemma deep_enough md v :
  int32 v -> 0 <= md -> (v <? 0) || (as_unsigned v <? md) = negb (md <=? v).
Proof.
  intros Hv Hm. destruct (v <? 0) eqn:E; zbool; cbn [orb].
  - symmetry. apply negb_true_iff, Z.leb_gt. lia.
  - rewrite as_unsigned_nonneg by (done || lia). apply Z.ltb_antisym.
Qed.

Lemma limit_enough md v :
  int32 v -> 0 <= md -> (v <=? 0) || (as_unsigned v <? md) = negb ((0 <? v) && (md <=? v)).
Proof.
  intros Hv Hm. destruct (v <=? 0) eqn:E; zbool; cbn [orb].
  - replace (0 <? v) with false; [done|]. symmetry. apply Z.ltb_ge. lia.
  - rewrite as_unsigned_nonneg by (done || lia). rewrite (proj2 (Z.ltb_lt 0 v)) by lia.
    apply Z.ltb_antisym.
Qed.

(** The adjusted history holds a batch: for a demand that is an [int], the depth of a
    KEEP_LAST history and the limit of samples of a KEEP_ALL one are at least the demand,
    what already sufficed is kept, the allocation equals the limit, and adjusting again
    changes nothing. *)
Theorem adjust_history_spec max_demand q :
  0 <= max_demand < 2 ^ 31 -> int32 (depth q) -> int32 (max_samples q) ->
  let q' := adjust_history max_demand q in
  keep_last q' = keep_last q /\
  max_demand <= (if keep_last q then depth q' else max_samples q') /\
  (keep_last q = true -> max_demand <= depth q -> depth q' = depth q /\ max_samples q' = max_samples q) /\
  (keep_last q = false -> 0 < max_samples q -> max_demand <= max_samples q -> max_samples q' = max_samples q) /\
  allocated_samples q' = max_samples q' /\
  adjust_history max_demand q' = q'.
Proof.
  intros Hm Hd Hs. assert (Hi : int32 max_demand) by (unfold int32; lia).
  destruct q as [[] d m a]; cbn in Hd, Hs |- *; unfold adjust_history;
    cbn [keep_last depth max_samples allocated_samples].
  - rewrite !deep_enough by (done || lia).
    destruct (max_demand <=? d) eqn:E; cbn [negb keep_last depth max_samples allocated_samples].
    + rewrite deep_enough, E by (done || lia). zbool. done.
    + rewrite as_signed_small, deep_enough, Z.leb_refl by (done || lia). zbool.
      repeat split; (done || lia).
  - rewrite !limit_enough by (done || lia).
    destruct ((0 <? m) && (max_demand <=? m)) eqn:E; cbn [negb keep_last depth max_samples allocated_samples].
    + rewrite limit_enough, E by (done || lia). zbool. done.
    + rewrite as_signed_small, limit_enough by (done || lia).
      assert (~ (0 < m /\ max_demand <= m)).
      { intros [H1 H2]. apply Z.ltb_lt in H1. apply Z.leb_le in H2. by rewrite H1, H2 in E. }
      destruct (negb _); repeat split; (done || lia).
Qed.

Lemma adjust_history_spec_witness :
  let q' := adjust_history 500 (mkHistory false 1 (-1) 100) in
  keep_last q' = false /\ 500 <= max_samples q' /\ allocated_samples q' = max_samples q' /\
  adjust_history 500 q' = q'.
Proof.
  destruct (adjust_history_spec 500 (mkHistory false 1 (-1) 100) ltac:(lia)
    ltac:(unfold int32; cbn; lia) ltac:(unfold int32; cbn; lia)) as (H1 & H2 & _ & _ & H5 & H6).
  split_and!; [exact H1|exact H2|exact H5|exact H6].
Defined.

(** A demand that is no [int] gives a negative depth. *)
Lemma adjust_history_negative max_demand q :
  2 ^ 31 <= max_demand < 2 ^ 32 -> int32 (depth q) -> keep_last q = true ->
  depth (adjust_history max_demand q) < 0.
Proof.
  intros Hm Hd Hk. unfold adjust_history. rewrite Hk, deep_enough by (done || lia).
  unfold int32 in Hd. rewrite (proj2 (Z.leb_gt max_demand (depth q))) by lia. cbn [negb depth].
  unfold as_signed, wrapS. change (32 - 1) with 31.
  replace (max_demand + 2 ^ 31) with (max_demand - 2 ^ 31 + 1 * 2 ^ 32) by lia.
  rewrite Z.mod_add, Z.mod_small by lia. lia.
Qed.

Lemma max_demand_of_ge demands d : d ∈ demands -> d <= max_demand_of demands.
Proof.
  unfold max_demand_of. generalize 0 as m. induction demands as [|e ds IH]; intros m Hd; [set_solver|].
  cbn [foldl]. assert (Hm : forall ds m, m <= foldl Z.max m ds).
  { clear. induction ds as [|e ds IH]; intros m; cbn [foldl]; [lia|]. specialize (IH (Z.max m e)). lia. }
  apply elem_of_cons in Hd as [->|Hd]; [|by apply IH]. specialize (Hm ds (Z.max m e)). lia.
Qed.

(** ** The size of a sample *)

Lemma land_lnot3 n : 0 <= n < 2 ^ 32 -> Z.land n (wrapU 32 (Z.lnot 3)) = 4 * (n / 4).
Proof.
  intros H. change (wrapU 32 (Z.lnot 3)) with (Z.shiftl (Z.ones 30) 2).
  rewrite Z.mul_comm. change 4 with (2 ^ 2). rewrite <- Z.shiftr_div_pow2, <- Z.shiftl_mul_pow2 by lia.
  apply Z.bits_inj'. intros i Hi. rewrite Z.land_spec, !Z.shiftl_spec, Z.testbit_ones by lia.
  destruct (Z.leb_spec 2 i).
  - rewrite Z.shiftr_spec by lia. replace (i - 2 + 2) with i by lia.
    destruct (Z.ltb_spec (i - 2) 30).
    + replace (0 <=? i - 2) with true by (symmetry; apply Z.leb_le; lia). apply andb_true_r.
    + rewrite !andb_false_r. symmetry. destruct (Z.eq_dec n 0) as [->|]; [apply Z.bits_0|].
      apply Z.bits_above_log2; [lia|]. assert (Z.log2 n < 32) by (apply Z.log2_lt_pow2; lia). lia.
  - replace (0 <=? i - 2) with false by (symmetry; apply Z.leb_gt; lia).
    rewrite andb_false_r. symmetry. apply Z.testbit_neg_r. lia.
Qed.

(** The size announced for a serialised sample leaves room for the number, the payload
    and the header, is a multiple of four when the header is, and wastes at most three
    bytes. *)
Theorem max_serialized_type_size_spec header size :
  0 <= header -> 0 <= size -> size + 4 + header + 3 < 2 ^ 32 ->
  let m := max_serialized_type_size header size in
  4 + size + header <= m <= 4 + size + header + 3 /\ (m - header) `mod` 4 = 0.
Proof.
  intros Hh Hs Hb. unfold max_serialized_type_size.
  rewrite (wrapU_small 32 (size + 3)), land_lnot3 by lia.
  pose proof (Z.div_mod (size + 3) 4). pose proof (Z.mod_pos_bound (size + 3) 4).
  rewrite wrapU_small by lia. split; [lia|].
  replace (4 + 4 * ((size + 3) / 4) + header - header) with ((1 + (size + 3) / 4) * 4) by lia.
  apply Z.mod_mul. lia.
Qed.

Lemma max_serialized_type_size_spec_witness :
  let m := max_serialized_type_size 4 1021 in
  4 + 1021 + 4 <= m <= 4 + 1021 + 4 + 3 /\ (m - 4) `mod` 4 = 0.
Proof. refine (max_serialized_type_size_spec 4 1021 _ _ _); lia. Defined.

(** ** Waiting for the other side *)

Lemma total_count_app evs evs' : total_count (evs ++ evs') = (total_count evs + total_count evs')%nat.
Proof. unfold total_count. by rewrite List.filter_app, length_app. Qed.

(** What the sides wait for.  The count never falls, so that once a subscriber has come
    in excess of the expected number, be it the same one again after it left, the publisher
    never finds the expected number; and the subscriber waits for three matches, so that
    with one publisher for one subscriber the two are never both done. *)
Theorem discovery_waits subscribers evs evs' :
  (subscribers < on_matched evs -> pub_discovered subscribers (evs ++ evs') = false) /\
  (on_matched evs <= on_matched (evs ++ evs')) /\
  (pub_discovered 1 evs = true -> sub_discovered evs = false).
Proof.
  unfold pub_discovered, sub_discovered, on_matched. rewrite total_count_app. split_and!.
  - intros H. apply Z.eqb_neq. lia.
  - lia.
  - intros H. zbool. rewrite H. done.
Qed.

Lemma discovery_waits_witness :
  current_count 0 [Matched; Unmatched; Matched] = 1%nat /\
  pub_discovered 1 ([Matched; Unmatched; Matched] ++ []) = false.
Proof.
  split; [reflexivity|]. exact (proj1 (discovery_waits 1 [Matched; Unmatched; Matched] []) ltac:(vm_compute; reflexivity)).
Defined.

End Throughput.
