(* ===== verification/BenchTypes.v ===== *)
(** The messages of the throughput benchmark over DDS
    ([src/other/pubsub/dds/performance/throughout/ThroughputTypes.hpp] and [.cpp]): commands
    and samples, their bytes on the wire, and the round trips. *)
From S2P Require Import Prelude Throughput.

Module BenchTypes.

(** ** Commands

    The enumeration has a fixed underlying type, so that a value without a name, which
    [deserialize] can make of any four bytes, is a value of it: [OTHER]. *)
Inductive e_Command :=
  | DEFAULT | READY_TO_START | BEGIN | TEST_STARTS | TEST_ENDS
  | TYPE_NEW | TYPE_DISPOSE | TYPE_REMOVED | ALL_STOPS | TEST_RESULTS
  | OTHER (code : Z).

#[global] Instance e_Command_eq_dec : EqDecision e_Command.
Proof. solve_decision. Defined.

Definition command_code (c : e_Command) : Z :=
  match c with
  | DEFAULT => 0 | READY_TO_START => 1 | BEGIN => 2 | TEST_STARTS => 3 | TEST_ENDS => 4
  | TYPE_NEW => 5 | TYPE_DISPOSE => 6 | TYPE_REMOVED => 7 | ALL_STOPS => 8 | TEST_RESULTS => 9
  | OTHER code => code
  end.

(** [static_cast<e_Command>(command)] *)
Definition command_of (code : Z) : e_Command :=
  match code with
  | 0 => DEFAULT | 1 => READY_TO_START | 2 => BEGIN | 3 => TEST_STARTS | 4 => TEST_ENDS
  | 5 => TYPE_NEW | 6 => TYPE_DISPOSE | 7 => TYPE_REMOVED | 8 => ALL_STOPS | 9 => TEST_RESULTS
  | _ => OTHER code
  end.

Record ThroughputCommandType := mkCommand {
  m_command : e_Command;
  m_size : Z;
  m_demand : Z;
  m_receivedsamples : Z;
  m_lostsamples : Z;
  m_lastrecsample : Z;
  m_totaltime : Z;
}.

#[global] Instance command_eq_dec : EqDecision ThroughputCommandType.
Proof. solve_decision. Defined.

(** The constructor: a command without numbers *)
Definition plain (c : e_Command) : ThroughputCommandType := mkCommand c 0 0 0 0 0 0.

(** [operator <<] has no case for the three commands about types. *)
Definition command_text (c : e_Command) : string :=
  match c with
  | DEFAULT => "DEFAULT" | READY_TO_START => "READY_TO_START" | BEGIN => "BEGIN"
  | TEST_STARTS => "TEST_STARTS" | TEST_ENDS => "TEST_ENDS" | ALL_STOPS => "ALL_STOPS"
  | TEST_RESULTS => "TEST RESULTS" | _ => "UNKNOWN COMMAND"
  end%string.

(** ** Bytes

    A number of [n] bytes as it stands in memory, the lowest byte first. *)
Fixpoint bytes_of (n : nat) (v : Z) : list Z :=
  match n with
  | O => []
  | S n => v `mod` 256 :: bytes_of n (v / 256)
  end.

Fixpoint value_of (bs : list Z) : Z :=
  match bs with
  | [] => 0
  | b :: bs => b + 256 * value_of bs
  end.

(** [SerializedPayload_t]: the buffer, [length] and [pos] *)
Record payload := mkPayload {
  data : list Z;
  plength : nat;
  pos : nat;
}.

(** [memcpy] into and out of a buffer; outside of it the behaviour is undefined. *)
Definition memcpy_to (buf : list Z) (off : nat) (src : list Z) : option (list Z) :=
  if (off + length src <=? length buf)%nat
  then Some (take off buf ++ src ++ drop (off + length src) buf) else None.
Definition memcpy_from (buf : list Z) (off n : nat) : option (list Z) :=
  if (off + n <=? length buf)%nat then Some (take n (drop off buf)) else None.

(** A copy of a member to [p.data[p.length]], and of [p.data[p.pos]] to a member *)
Definition put (n : nat) (v : Z) (p : payload) : option payload :=
  d ← memcpy_to (data p) (plength p) (bytes_of n v);
  Some (mkPayload d (plength p + n) (pos p)).
Definition get (n : nat) (p : payload) : option (Z * payload) :=
  bs ← memcpy_from (data p) (pos p) n;
  Some (value_of bs, mkPayload (data p) (plength p) (pos p + n)).

(** [ThroughputCommandDataType::serialize] *)
Definition serialize_command (t : ThroughputCommandType) (p : payload) : option payload :=
  let p := mkPayload (data p) 0 (pos p) in
  p ← put 4 (command_code (m_command t)) p;
  p ← put 4 (m_size t) p;
  p ← put 4 (m_demand t) p;
  p ← put 4 (m_lostsamples t) p;
  p ← put 8 (m_receivedsamples t) p;
  p ← put 8 (m_lastrecsample t) p;
  put 8 (m_totaltime t) p.

(** [ThroughputCommandDataType::deserialize]: every member of the target is assigned. *)
Definition deserialize_command (p : payload) : option (ThroughputCommandType * payload) :=
  let p := mkPayload (data p) (plength p) 0 in
  '(command, p) ← get 4 p;
  '(size, p) ← get 4 p;
  '(demand, p) ← get 4 p;
  '(lostsamples, p) ← get 4 p;
  '(receivedsamples, p) ← get 8 p;
  '(lastrecsample, p) ← get 8 p;
  '(totaltime, p) ← get 8 p;
  Some (mkCommand (command_of command) size demand receivedsamples lostsamples lastrecsample totaltime, p).

Definition command_max_serialized_type_size : nat := 4 * 4 + 3 * 8 + 8.
Definition command_serialized_size : nat := 4 + 4 + 4 + 4 + 8 + 8 + 8.

(** ** Samples

    [ThroughputType] with an array of [buffer_size_] bytes. *)
Record ThroughputType := mkSample {
  seqnum : Z;
  bytes : list Z;
}.

(** [offsetof(ThroughputType, data)] *)
Definition overhead : Z := 4.
Definition representation_header_size : nat := 4.
Definition sample_max_size (size : Z) : Z := Throughput.max_serialized_type_size 4 size.

Definition compare_data (buffer_size : nat) (lt1 lt2 : ThroughputType) : bool :=
  if negb (seqnum lt1 =? seqnum lt2) then false
  else bool_decide (take buffer_size (bytes lt1) = take buffer_size (bytes lt2)).

(** [ThroughputDataType::serialize] *)
Definition serialize_sample (buffer_size : nat) (lt : ThroughputType) (p : payload) : option payload :=
  d ← memcpy_to (data p) 0 [0; 1; 0; 0];
  d ← memcpy_to d representation_header_size (bytes_of 4 (seqnum lt));
  body ← memcpy_from (bytes lt) 0 buffer_size;
  d ← memcpy_to d (representation_header_size + 4) body;
  Some (mkPayload d (Z.to_nat (sample_max_size (Z.of_nat buffer_size))) (pos p)).

(** [ThroughputDataType::deserialize] into [lt] *)
Definition deserialize_sample (buffer_size : nat) (p : payload) (lt : ThroughputType) : option ThroughputType :=
  if (0 <? plength p)%nat then
    s ← memcpy_from (data p) representation_header_size 4;
    body ← memcpy_from (data p) (representation_header_size + 4) buffer_size;
    bs ← memcpy_to (bytes lt) 0 body;
    Some (mkSample (value_of s) bs)
  else Some lt.

(** ** Reading back a number *)

Definition unsigned (n : nat) (v : Z) : Prop := 0 <= v < 256 ^ Z.of_nat n.

Lemma length_bytes_of n v : length (bytes_of n v) = n.
Proof. revert v. induction n as [|n IH]; intros v; [done|]. cbn. by rewrite IH. Qed.

Lemma value_of_bytes n v : unsigned n v -> value_of (bytes_of n v) = v.
Proof.
  revert v. induction n as [|n IH]; intros v Hv; unfold unsigned in *.
  - cbn in *. lia.
  - rewrite Nat2Z.inj_succ, Z.pow_succ_r in Hv by lia. cbn [bytes_of value_of].
    rewrite IH; [pose proof (Z.div_mod v 256); lia|].
    split; [apply Z.div_pos; lia|]. apply Z.div_lt_upper_bound; lia.
Qed.

Lemma bytes_of_value bs :
  Forall (fun b => 0 <= b < 256) bs -> bytes_of (length bs) (value_of bs) = bs.
Proof.
  induction 1 as [|b bs Hb _ IH]; [done|]. cbn [length bytes_of value_of].
  rewrite Z.mul_comm, Z.mod_add, Z.mod_small, Z.div_add, Z.div_small, Z.add_0_l by lia. by rewrite IH.
Qed.

Lemma put_spec n v pre rest q :
  (n <= length rest)%nat ->
  put n v (mkPayload (pre ++ rest) (length pre) q) =
    Some (mkPayload ((pre ++ bytes_of n v) ++ drop n rest) (length (pre ++ bytes_of n v)) q).
Proof.
  intros H. unfold put, memcpy_to. cbn [data plength pos]. rewrite length_bytes_of, length_app.
  rewrite (proj2 (Nat.leb_le _ _)) by lia. cbn [mbind option_bind].
  rewrite take_app_length, drop_app_add.
  by rewrite length_app, length_bytes_of, <- app_assoc.
Qed.

Lemma get_spec n v pre rest l :
  unsigned n v ->
  get n (mkPayload (pre ++ bytes_of n v ++ rest) l (length pre)) =
    Some (v, mkPayload ((pre ++ bytes_of n v) ++ rest) l (length (pre ++ bytes_of n v))).
Proof.
  intros H. unfold get, memcpy_from. cbn [data plength pos]. rewrite !length_app, length_bytes_of.
  rewrite (proj2 (Nat.leb_le _ _)) by lia. cbn [mbind option_bind].
  rewrite drop_app_length, take_app_length' by (by rewrite length_bytes_of).
  by rewrite value_of_bytes, <- app_assoc.
Qed.

Lemma get_first n v rest l :
  unsigned n v ->
  get n (mkPayload (bytes_of n v ++ rest) l 0) = Some (v, mkPayload (bytes_of n v ++ rest) l (length (bytes_of n v))).
Proof. apply (get_spec n v []). Qed.

(** The members of a command fit their widths; a command without a name is none of the
    named codes. *)
Definition named (c : e_Command) : Prop := command_of (command_code c) = c.
Definition command_ok (t : ThroughputCommandType) : Prop :=
  named (m_command t) /\ unsigned 4 (command_code (m_command t)) /\ unsigned 4 (m_size t) /\
  unsigned 4 (m_demand t) /\ unsigned 4 (m_lostsamples t) /\ unsigned 8 (m_receivedsamples t) /\
  unsigned 8 (m_lastrecsample t) /\ unsigned 8 (m_totaltime t).

#[global] Instance unsigned_dec n v : Decision (unsigned n v).
Proof. unfold unsigned. apply _. Defined.
#[global] Instance command_ok_dec t : Decision (command_ok t).
Proof. unfold command_ok, named. apply _. Defined.

(** The bytes of a command, in the order of [serialize] *)
Definition command_bytes (t : ThroughputCommandType) : list Z :=
  bytes_of 4 (command_code (m_command t)) ++ bytes_of 4 (m_size t) ++ bytes_of 4 (m_demand t) ++
  bytes_of 4 (m_lostsamples t) ++ bytes_of 8 (m_receivedsamples t) ++
  bytes_of 8 (m_lastrecsample t) ++ bytes_of 8 (m_totaltime t).

Lemma serialize_command_bytes t p :
  (command_serialized_size <= length (data p))%nat ->
  serialize_command t p =
    Some (mkPayload (command_bytes t ++ drop command_serialized_size (data p)) command_serialized_size (pos p)).
Proof.
  intros H. unfold serialize_command, command_serialized_size in *.
  change (mkPayload (data p) 0 (pos p)) with (mkPayload ([] ++ data p) (length (@nil Z)) (pos p)).
  do 7 (rewrite put_spec by (rewrite ?length_drop; lia); cbn [mbind option_bind]).
  by rewrite !drop_drop.
Qed.

Lemma deserialize_command_bytes t rest l q :
  command_ok t ->
  deserialize_command (mkPayload (command_bytes t ++ rest) l q) =
    Some (t, mkPayload (command_bytes t ++ rest) l command_serialized_size).
Proof.
  intros (Hn & H1 & H2 & H3 & H4 & H5 & H6 & H7). unfold deserialize_command, command_bytes.
  cbn [data plength]. rewrite <- !app_assoc.
  rewrite get_first by done. cbn [mbind option_bind].
  do 6 (rewrite get_spec by done; cbn [mbind option_bind]).
  by rewrite Hn, <- !app_assoc; destruct t.
Qed.

(** C39: A command that is written to a payload of at least the serialized size is read back
    as it was, whatever the receiver's variable held; nothing is written beyond the
    serialized size, which is what [calculate_serialized_size] says and is below the size
    announced for the type. *)
Theorem command_roundtrip t p :
  command_ok t -> (command_serialized_size <= length (data p))%nat ->
  exists p', serialize_command t p = Some p' /\
    plength p' = command_serialized_size /\ length (data p') = length (data p) /\
    drop command_serialized_size (data p') = drop command_serialized_size (data p) /\
    (plength p' <= command_max_serialized_type_size)%nat /\
    exists p'', deserialize_command p' = Some (t, p'').
Proof.
  intros Ht Hl. rewrite serialize_command_bytes by done. eexists. split; [done|].
  cbn [plength data].
  assert (Hb : length (command_bytes t) = command_serialized_size).
  { unfold command_bytes. by rewrite !length_app, !length_bytes_of. }
  split_and!; [done| | |unfold command_serialized_size, command_max_serialized_type_size; lia|].
  - rewrite length_app, length_drop. lia.
  - rewrite drop_app_length' by done. done.
  - eexists. by apply deserialize_command_bytes.
Qed.

Lemma command_roundtrip_witness :
  exists p', serialize_command (mkCommand TEST_RESULTS 1024 10000 409990 10 410000 1022114) (mkPayload (replicate 48 255) 7 3) = Some p' /\
    plength p' = 40%nat /\ length (data p') = 48%nat /\ drop 40 (data p') = replicate 8 255 /\
    (plength p' <= 48)%nat /\
    exists p'', deserialize_command p' = Some (mkCommand TEST_RESULTS 1024 10000 409990 10 410000 1022114, p'').
Proof.
  refine (command_roundtrip _ (mkPayload (replicate 48 255) 7 3) _ _).
  - apply (bool_decide_eq_true_1 _). vm_compute. reflexivity.
  - cbn. lia.
Defined.

Lemma split_buffer n (l : list Z) :
  (n <= length l)%nat -> exists h r, l = h ++ r /\ length h = n.
Proof. intros H. exists (take n l), (drop n l). rewrite take_drop, length_take. split; [done|lia]. Qed.

Lemma memcpy_to_at a b c src off :
  off = length a -> length src = length b -> memcpy_to (a ++ b ++ c) off src = Some (a ++ src ++ c).
Proof.
  intros -> H. unfold memcpy_to. rewrite !length_app, (proj2 (Nat.leb_le _ _)) by lia.
  by rewrite take_app_length, drop_app_add, H, drop_app_length.
Qed.

Lemma memcpy_from_at a b c off n :
  off = length a -> n = length b -> memcpy_from (a ++ b ++ c) off n = Some b.
Proof.
  intros -> ->. unfold memcpy_from. rewrite !length_app, (proj2 (Nat.leb_le _ _)) by lia.
  by rewrite drop_app_length, take_app_length.
Qed.

Lemma memcpy_to_first b c src : length src = length b -> memcpy_to (b ++ c) 0 src = Some (src ++ c).
Proof. by apply (memcpy_to_at [] b c src). Qed.
Lemma memcpy_to_all b src : length src = length b -> memcpy_to b 0 src = Some src.
Proof. intros H. rewrite <- (app_nil_r b), memcpy_to_first by done. by rewrite app_nil_r. Qed.
Lemma memcpy_from_all b n : n = length b -> memcpy_from b 0 n = Some b.
Proof. intros ->. rewrite <- (app_nil_r b) at 1. by apply (memcpy_from_at [] b []). Qed.

(** A sample that is written to a payload of the announced size is read back: the
    target, of the same type, compares equal to it, whatever it held.  [compare_data]
    decides equality for such samples. *)
Theorem sample_roundtrip n lt target p :
  Z.of_nat n < 2 ^ 31 -> unsigned 4 (seqnum lt) ->
  length (bytes lt) = n -> length (bytes target) = n ->
  (Z.to_nat (sample_max_size (Z.of_nat n)) <= length (data p))%nat ->
  exists p', serialize_sample n lt p = Some p' /\ length (data p') = length (data p) /\
    deserialize_sample n p' target = Some lt /\
    (compare_data n lt target = true <-> lt = target).
Proof.
  intros Hn Hs Hl Ht Hb. unfold sample_max_size in *.
  destruct (Throughput.max_serialized_type_size_spec 4 (Z.of_nat n)) as [Hm _]; [lia..|].
  destruct (split_buffer 4 (data p)) as (h & d1 & Ed & Hh); [lia|].
  destruct (split_buffer 4 d1) as (s & d2 & -> & Hs4); [rewrite Ed, length_app in Hb; lia|].
  destruct (split_buffer n d2) as (b & rest & -> & Hbl); [rewrite Ed, !length_app in Hb; lia|].
  unfold serialize_sample, sample_max_size. rewrite Ed.
  set (m := Throughput.max_serialized_type_size 4 (Z.of_nat n)) in *. clearbody m.
  rewrite memcpy_to_first by (rewrite Hh; done). cbn [mbind option_bind].
  rewrite (memcpy_to_at [0; 1; 0; 0] s _ (bytes_of 4 (seqnum lt))) by (rewrite ?length_bytes_of; done).
  cbn [mbind option_bind].
  rewrite (memcpy_from_all (bytes lt)) by done. cbn [mbind option_bind].
  assert (Hpre : length ([0; 1; 0; 0] ++ bytes_of 4 (seqnum lt)) = (representation_header_size + 4)%nat)
    by (rewrite length_app, length_bytes_of; done).
  change ([0; 1; 0; 0] ++ bytes_of 4 (seqnum lt) ++ b ++ rest) with
    (([0; 1; 0; 0] ++ bytes_of 4 (seqnum lt)) ++ b ++ rest).
  rewrite (memcpy_to_at _ b rest (bytes lt)) by congruence. cbn [mbind option_bind].
  eexists. split; [done|]. split; [|split].
  - cbn [data]. rewrite !length_app, length_bytes_of. cbn [length]. rewrite Hh, Hs4, Hbl, Hl. lia.
  - unfold deserialize_sample. cbn [data plength].
    rewrite (proj2 (Nat.ltb_lt _ _)) by lia. rewrite <- app_assoc.
    rewrite (memcpy_from_at [0; 1; 0; 0] (bytes_of 4 (seqnum lt)) (bytes lt ++ rest)
      representation_header_size 4 eq_refl eq_refl).
    cbn [mbind option_bind]. rewrite app_assoc, (memcpy_from_at _ (bytes lt)) by congruence.
    cbn [mbind option_bind].
    rewrite memcpy_to_all by congruence. cbn [mbind option_bind].
    rewrite value_of_bytes by done. by destruct lt.
  - unfold compare_data. destruct (seqnum lt =? seqnum target) eqn:E; cbn [negb]; zbool.
    + rewrite bool_decide_eq_true, !take_ge by lia. destruct lt, target; cbn in *. naive_solver.
    + split; [done|]. intros ->. done.
Qed.

Lemma sample_roundtrip_witness :
  exists p', serialize_sample 6 (mkSample 1000 [1; 2; 3; 4; 5; 6]) (mkPayload (replicate 20 9) 0 0) = Some p' /\
    length (data p') = 20%nat /\
    deserialize_sample 6 p' (mkSample 3 [0; 0; 0; 0; 0; 0]) = Some (mkSample 1000 [1; 2; 3; 4; 5; 6]) /\
    (compare_data 6 (mkSample 1000 [1; 2; 3; 4; 5; 6]) (mkSample 3 [0; 0; 0; 0; 0; 0]) = true <->
     mkSample 1000 [1; 2; 3; 4; 5; 6] = mkSample 3 [0; 0; 0; 0; 0; 0]).
Proof.
  refine (sample_roundtrip 6 (mkSample 1000 [1; 2; 3; 4; 5; 6]) (mkSample 3 [0; 0; 0; 0; 0; 0])
    (mkPayload (replicate 20 9) 0 0) _ _ _ _ _); [reflexivity| |reflexivity|reflexivity|vm_compute; lia].
  unfold unsigned; cbn; lia.
Defined.


End BenchTypes.
