(* ===== verification/BenchSub.v ===== *)
(** The subscriber of the throughput benchmark
    ([src/other/pubsub/dds/performance/throughout/ThroughputSubscriber.cpp]) with static
    types: the listener with and without loans, [process_message] and the loop of [run]. *)
From S2P Require Import Prelude Throughput BenchTypes.
Import Throughput BenchTypes.

Module BenchSub.

(** ** The listener with loaned samples

    One turn of the loop over [data_seq] of [on_data_available]: the sample's number and the
    answer of [is_sample_valid]; [last] is the local [last_seq_num]. *)
Definition loaned_sample (smp : Z * bool) (st : listener * Z) : listener * Z :=
  let '(l, last) := st in
  let seq_num := Z.max smp.1 last in
  if (wrapU 32 (last + 1) <? seq_num) && negb smp.2 then
    (mkListener (last_seq_num_ l) (wrapU 32 (lost_samples_ l + 1)) (received_samples_ l) (matched_ l)
       (enable_ l) (saved l), wrapU 32 (last + 1))
  else
    (mkListener (last_seq_num_ l) (lost_samples_ l) (wrapU 64 (received_samples_ l + 1)) (matched_ l)
       (enable_ l) (saved l), seq_num).

Definition on_data_loaned (data_seq : list (Z * bool)) (l : listener) : listener :=
  match enable_ l with
  | Some true =>
      let size := Z.of_nat (length data_seq) in
      let '(l1, last) := foldl (fun st smp => loaned_sample smp st) (l, last_seq_num_ l) data_seq in
      let lost :=
        if wrapU 32 (last_seq_num_ l1 + size) <? last
        then wrapU 32 (lost_samples_ l1 + wrapU 32 (last - last_seq_num_ l1 - size))
        else lost_samples_ l1 in
      mkListener last lost (received_samples_ l1) (matched_ l1) (enable_ l1) (saved l1)
  | _ => l
  end.

(** ** The subscriber *)

(** Where [run] stands: before the commands, in the loop, inside [process_message] waiting
    for the writer, returned, or after an undefined call or a failed assertion. *)
Inductive spc := SDiscovery | SLoop | SMatch | SEnded | SCrashed.

Record subscriber := mkSub {
  pc : spc;
  ends : endpoints;
  throughput_data_ : bool;
  data_reader_listener_ : listener;
  cmd_matches : Z;
  data_size_ : Z;
  demand_ : Z;
  t_start_ : Z;
  t_end_ : Z;
}.

Definition set_pc (p : spc) (s : subscriber) : subscriber :=
  mkSub p (ends s) (throughput_data_ s) (data_reader_listener_ s) (cmd_matches s) (data_size_ s)
    (demand_ s) (t_start_ s) (t_end_ s).
Definition set_data (e : endpoints) (d : bool) (s : subscriber) : subscriber :=
  mkSub (pc s) e d (data_reader_listener_ s) (cmd_matches s) (data_size_ s) (demand_ s) (t_start_ s) (t_end_ s).
Definition set_listener (l : listener) (s : subscriber) : subscriber :=
  mkSub (pc s) (ends s) (throughput_data_ s) l (cmd_matches s) (data_size_ s) (demand_ s) (t_start_ s) (t_end_ s).
Definition set_test (size demand : Z) (s : subscriber) : subscriber :=
  mkSub (pc s) (ends s) (throughput_data_ s) (data_reader_listener_ s) (cmd_matches s) size demand
    (t_start_ s) (t_end_ s).
Definition set_times (t0 t1 : Z) (s : subscriber) : subscriber :=
  mkSub (pc s) (ends s) (throughput_data_ s) (data_reader_listener_ s) (cmd_matches s) (data_size_ s)
    (demand_ s) t0 t1.

(** [total_matches], with its assertion *)
Definition total_matches (s : subscriber) : option Z :=
  let count := matched_ (data_reader_listener_ s) + cmd_matches s in
  if (0 <=? count) && (count <=? 3) then Some count else None.

(** The predicates of the two waits of [run] and [process_message] *)
Definition finds (n : Z) (s : subscriber) : bool :=
  match total_matches s with Some count => count =? n | None => false end.

(** [destroy_data_endpoints], with the listener's [reset] *)
Definition sub_destroy (delete_ok topic_ok unregister_ok : bool) (s : subscriber) : bool * subscriber :=
  let '(ok, e) := destroy_data_endpoints delete_ok topic_ok unregister_ok (ends s) in
  let l := if endpoint (ends s) && delete_ok
           then reset (data_reader_listener_ s) else data_reader_listener_ s in
  (ok, set_listener l (set_data e (throughput_data_ s) s)).

(** What a call of [process_message] comes to *)
Inductive outcome :=
  | Returned (code : Z) (s : subscriber) (written : list ThroughputCommandType)
  | Waits (s : subscriber)
  | Undefined.

(** The answers of the library to the calls for endpoints, and the reading of the clock *)
Record answers := mkAnswers {
  register_ok : bool; topic_ok : bool; endpoint_ok : bool;
  delete_ok : bool; delete_topic_ok : bool; unregister_ok : bool;
  now : Z;
}.

(** [process_message]; what is left in the history is consumed at [READY_TO_START] without
    being counted, by calls of the library alone.  [None] when no command is taken or the sample holds none, so that the
    variable stays as its constructor made it. *)
Definition process_message (a : answers) (taken : option ThroughputCommandType) (s : subscriber) : outcome :=
  match taken with
  | None => Returned 0 s []
  | Some command =>
      match m_command command with
      | TYPE_NEW =>
          let '(r1, e1) := init_static_types (register_ok a) (ends s) in
          let '(r2, e2) := if r1 then create_data_endpoints (topic_ok a) (endpoint_ok a) e1 else (false, e1) in
          if r2 then
            if throughput_data_ s then Undefined else Waits (set_data e2 true s)
          else Returned 2 (set_data e2 (throughput_data_ s) s) []
      | READY_TO_START =>
          if endpoint (ends s) then
            let s1 := set_test (m_size command) (m_demand command) s in
            Returned 0 (set_listener (reset (data_reader_listener_ s1)) s1) [plain BEGIN]
          else Undefined
      | TEST_STARTS => Returned 0 (set_times (now a) (t_end_ s) s) []
      | TEST_ENDS =>
          let s1 := set_times (t_start_ s) (now a) s in
          Returned 1 (set_listener (disable (save_numbers (data_reader_listener_ s1))) s1) []
      | TYPE_DISPOSE =>
          if type_ (ends s) then
            let '(ok, s1) := sub_destroy (delete_ok a) (delete_topic_ok a) (unregister_ok a)
                               (set_data (ends s) false s) in
            if ok then Returned 0 s1 [plain TYPE_REMOVED] else Returned 2 s1 []
          else Undefined
      | ALL_STOPS => Returned 2 s []
      | _ => Returned 0 s []
      end
  end.

(** [m_totaltime]: the duration, truncated, brought into 64 bits; a duration of exactly
    [2^64] passes the test and its conversion is undefined. *)
Definition totaltime (count : Z) : option Z :=
  if count <? 0 then Some 0
  else if 2 ^ 64 <? count then Some (2 ^ 64 - 1)
  else if count =? 2 ^ 64 then None else Some count.

(** The command with the results; [count] is the measured duration. *)
Definition test_results (count : Z) (s : subscriber) : option ThroughputCommandType :=
  t ← totaltime count;
  '(last, lost, received) ← saved (data_reader_listener_ s);
  Some (mkCommand TEST_RESULTS (wrapU 32 (data_size_ s + overhead)) (demand_ s) received lost last t).

(** A turn of the loop of [run] *)
Definition run_turn (a : answers) (count : Z) (taken : option ThroughputCommandType) (s : subscriber)
  : subscriber * list ThroughputCommandType :=
  match process_message a taken s with
  | Undefined => (set_pc SCrashed s, [])
  | Waits s1 => (set_pc SMatch s1, [])
  | Returned code s1 out =>
      if code =? 1 then
        match test_results count s1 with
        | Some c => (s1, out ++ [c])
        | None => (set_pc SCrashed s1, out)
        end
      else if code =? 2 then (set_pc SEnded s1, out)
      else (s1, out)
  end.

(** What happens to a subscriber *)
Inductive sub_event :=
  | Turn (a : answers) (count : Z) (taken : option ThroughputCommandType)
  | Wake
  | DataMatched (total : Z)
  | Data (numbers : list (option Z)).

(** [None]: not possible now.  An enabled listener asserts that there is a sample to fill. *)
Definition sub_step (ev : sub_event) (s : subscriber) : option (subscriber * list ThroughputCommandType) :=
  match ev, pc s with
  | Turn a count taken, SLoop => Some (run_turn a count taken s)
  | Wake, SDiscovery => if finds 2 s then Some (set_pc SLoop s, []) else None
  | Wake, SMatch => if finds 3 s then Some (set_pc SLoop s, []) else None
  | DataMatched total, _ =>
      if endpoint (ends s) then Some (set_listener (on_subscription_matched total (data_reader_listener_ s)) s, []) else None
  | Data numbers, _ =>
      if endpoint (ends s) then
        if negb (throughput_data_ s) && bool_decide (enable_ (data_reader_listener_ s) = Some true)
        then Some (set_pc SCrashed s, [])
        else match on_data_available numbers (data_reader_listener_ s) with
        | Some l => Some (set_listener l s, [])
        | None => Some (set_pc SCrashed s, [])
        end
      else None
  | _, _ => None
  end.

(** ** Loans make no difference

    as long as the numbers grow. *)

Lemma loaned_closed nums l last :
  Forall uint32 nums -> StronglySorted Z.lt (last :: nums) ->
  0 <= received_samples_ l -> received_samples_ l + Z.of_nat (length nums) < 2 ^ 64 ->
  foldl (fun st smp => loaned_sample smp st) (l, last) ((fun n => (n, true)) <$> nums) =
    (mkListener (last_seq_num_ l) (lost_samples_ l) (received_samples_ l + Z.of_nat (length nums))
       (matched_ l) (enable_ l) (saved l), List.last nums last).
Proof.
  revert l last. induction nums as [|n nums IH]; intros l last Hu Hs H0 Hr.
  { cbn. rewrite Z.add_0_r. by destruct l. }
  apply Forall_cons in Hu as [_ Hu].
  apply StronglySorted_inv in Hs as [Hs Hlt]. apply Forall_cons in Hlt as [Hlt _].
  rewrite last_from. cbn [fmap list_fmap foldl length] in *. unfold loaned_sample at 2. cbn [fst snd negb].
  rewrite andb_false_r, Z.max_l, wrapU_small by lia.
  rewrite IH; cbn [received_samples_ lost_samples_ last_seq_num_ matched_ enable_ saved]; try done; try lia.
  f_equal. f_equal. lia.
Qed.

Lemma last_uint32 nums n : uint32 n -> Forall uint32 nums -> uint32 (List.last nums n).
Proof.
  intros Hn Hu. revert n Hn. induction Hu as [|m ms Hm _ IH]; intros n Hn; [done|].
  rewrite last_from. by apply IH.
Qed.

(** With loaned samples the listener counts as it does without, when the numbers that
    arrive in a callback grow: both branches of [on_data_available] leave the same numbers. *)
Theorem loans_agree nums l :
  enable_ l = Some true -> Forall uint32 nums -> StronglySorted Z.lt (last_seq_num_ l :: nums) ->
  uint32 (last_seq_num_ l) -> 0 <= lost_samples_ l <= last_seq_num_ l -> 0 <= received_samples_ l ->
  received_samples_ l + Z.of_nat (length nums) < 2 ^ 64 ->
  Some (on_data_loaned ((fun n => (n, true)) <$> nums) l) = on_data_available (Some <$> nums) l.
Proof.
  intros He Hu Hs H0 Hl Hr Hb. destruct (count_all_closed nums l) as [Hlen E]; try done; [apply H0|].
  assert (Hlast : uint32 (List.last nums (last_seq_num_ l))).
  { destruct nums as [|n ns]; [done|]. rewrite last_from. apply Forall_cons in Hu as [Hn Hu].
    by apply last_uint32. }
  unfold uint32 in *. unfold on_data_available, on_data_loaned. rewrite He.
  fold (count_all nums l). rewrite E, loaned_closed by done. cbn [last_seq_num_ lost_samples_ received_samples_ matched_ enable_ saved].
  rewrite length_fmap. f_equal.
  assert (Hw : wrapU 32 (last_seq_num_ l + Z.of_nat (length nums)) = last_seq_num_ l + Z.of_nat (length nums))
    by (apply wrapU_small; lia). rewrite Hw.
  destruct (_ <? _) eqn:C; zbool; [rewrite !wrapU_small by (rewrite ?wrapU_small; lia)|]; f_equal; lia.
Qed.

Lemma loans_agree_witness :
  Some (on_data_loaned [(3, true); (4, true); (9, true)] (reset (new_listener None))) =
    on_data_available [Some 3; Some 4; Some 9] (reset (new_listener None)).
Proof.
  refine (loans_agree [3; 4; 9] (reset (new_listener None)) _ _ _ _ _ _ _); cbn; try done; try (unfold uint32; lia).
  - repeat constructor; unfold uint32; lia.
  - repeat constructor; lia.
Defined.

(** When they do not grow, the two differ: 1 after 2 makes a gap before the 3 without loans,
    and none with them. *)
Example loans_disagree :
  on_data_loaned [(2, true); (1, true); (3, true)] (reset (new_listener None)) = mkListener 3 0 3 0 (Some true) None /\
  on_data_available [Some 2; Some 1; Some 3] (reset (new_listener None)) = Some (mkListener 3 2 3 0 (Some true) None).
Proof. split; reflexivity. Qed.

End BenchSub.
