(* ===== verification/BenchPub.v ===== *)
(** The publisher of the throughput benchmark
    ([src/other/pubsub/dds/performance/throughout/ThroughputPublisher.cpp]) with static types
    and without loans: the loops of [run] and [test] as steps between two calls of the
    library. *)
From S2P Require Import Prelude Throughput BenchTypes.
Import Throughput BenchTypes.

Module BenchPub.

(** ** The state of [run] *)

(** Where [run], or [test] inside it, stands *)
Inductive ppc :=
  | PDiscovery          (* waiting for the command endpoints *)
  | PSize               (* at the head of the loop over the sizes *)
  | PMatch              (* waiting for the data endpoints *)
  | PDemand             (* at the head of the loops over demands and recovery times *)
  | PBegin              (* collecting BEGIN *)
  | PTest               (* entering [test] *)
  | PAckStart           (* waiting for TEST_STARTS to be acknowledged *)
  | PSend               (* the sending loop *)
  | PAckEnd             (* waiting for TEST_ENDS to be acknowledged *)
  | PResults            (* collecting TEST_RESULTS *)
  | PDispose            (* after the loops over demands *)
  | PRemoved            (* collecting TYPE_REMOVED *)
  | PStop               (* after the loop over the sizes *)
  | PAckStop            (* waiting for ALL_STOPS to be acknowledged *)
  | PDone               (* returned *)
  | PAborted.           (* a failed assertion *)

#[global] Instance ppc_eq_dec : EqDecision ppc.
Proof. solve_decision. Defined.

(** [TroughputResults], without the times and rates *)
Record result := mkResult {
  payload_size : Z;
  r_demand : Z;
  recovery_time_ms : Z;
  send_samples : Z;
  recv_samples : Z;
  lost_samples : Z;
}.

(** What the calling line and the options fix *)
Record setting := mkSetting {
  subscribers_ : Z;
  recovery_times_ : list Z;
  test_time : Z;
}.

(** [sizes] and [demands] are what remains of [demand_payload_] from [sit] and of its entry
    from [dit], [recs] what remains of [recovery_times_] from [i]. *)
Record publisher := mkPub {
  pc : ppc;
  sizes : list (Z * list Z);
  demands : list Z;
  recs : list Z;
  ends : endpoints;
  throughput_data_ : bool;
  data_matches : Z;
  cmd_matches : Z;
  command : ThroughputCommandType;
  valid_data : bool;
  ready : Z;
  samples : Z;
  t_end_ : Z;
  results_ : list result;
  test_failure : bool;
  printed : bool;
}.

(** [demand_payload_] and [recovery_times_] as [run] fills them when demand and size are
    given on the calling line. *)
Definition command_line_demands (demand msg_size : Z) : gmap Z (list Z) :=
  add_demand overhead demand msg_size ∅.

(** [total_matches], with its assertion *)
Definition total_matches (c : setting) (p : publisher) : option Z :=
  let count := data_matches p + cmd_matches p in
  if (0 <=? count) && (count <=? 3 * subscribers_ c) then Some count else None.
Definition finds (n : Z) (c : setting) (p : publisher) : bool :=
  match total_matches c p with Some count => count =? n * subscribers_ c | None => false end.

Definition goto (k : ppc) (p : publisher) : publisher :=
  mkPub k (sizes p) (demands p) (recs p) (ends p) (throughput_data_ p) (data_matches p) (cmd_matches p)
    (command p) (valid_data p) (ready p) (samples p) (t_end_ p) (results_ p) (test_failure p) (printed p).
Definition set_loops (s : list (Z * list Z)) (ds rs : list Z) (p : publisher) : publisher :=
  mkPub (pc p) s ds rs (ends p) (throughput_data_ p) (data_matches p) (cmd_matches p) (command p)
    (valid_data p) (ready p) (samples p) (t_end_ p) (results_ p) (test_failure p) (printed p).
Definition set_data (e : endpoints) (d : bool) (m : Z) (p : publisher) : publisher :=
  mkPub (pc p) (sizes p) (demands p) (recs p) e d m (cmd_matches p) (command p) (valid_data p) (ready p)
    (samples p) (t_end_ p) (results_ p) (test_failure p) (printed p).
Definition set_command (c : ThroughputCommandType) (v : bool) (r : Z) (p : publisher) : publisher :=
  mkPub (pc p) (sizes p) (demands p) (recs p) (ends p) (throughput_data_ p) (data_matches p) (cmd_matches p)
    c v r (samples p) (t_end_ p) (results_ p) (test_failure p) (printed p).
Definition set_sent (n t : Z) (p : publisher) : publisher :=
  mkPub (pc p) (sizes p) (demands p) (recs p) (ends p) (throughput_data_ p) (data_matches p) (cmd_matches p)
    (command p) (valid_data p) (ready p) n t (results_ p) (test_failure p) (printed p).
Definition set_results (rs : list result) (p : publisher) : publisher :=
  mkPub (pc p) (sizes p) (demands p) (recs p) (ends p) (throughput_data_ p) (data_matches p) (cmd_matches p)
    (command p) (valid_data p) (ready p) (samples p) (t_end_ p) rs (test_failure p) (printed p).
Definition fails (p : publisher) : publisher :=
  mkPub (pc p) (sizes p) (demands p) (recs p) (ends p) (throughput_data_ p) (data_matches p) (cmd_matches p)
    (command p) (valid_data p) (ready p) (samples p) (t_end_ p) (results_ p) true (printed p).
Definition prints (p : publisher) : publisher :=
  mkPub (pc p) (sizes p) (demands p) (recs p) (ends p) (throughput_data_ p) (data_matches p) (cmd_matches p)
    (command p) (valid_data p) (ready p) (samples p) (t_end_ p) (results_ p) (test_failure p) true.

(** ** What the library answers to the call a step stands at *)
Inductive answer :=
  | Nothing                                        (* no call, or one without an answer *)
  | Creates (register_ok topic_ok endpoint_ok : bool)
  | Deletes (delete_ok topic_ok unregister_ok : bool)
  | Acknowledged (ok : bool)
  | Taken (cmd : option ThroughputCommandType)     (* a sample; without valid data: [None] *)
  | NotTaken                                       (* nothing came within the time *)
  | Clock (t_start : Z) (readings : list Z).

(** The results of one subscriber enter [results_]: the first ones make an entry, the others
    are added to it; [None] when [assert(samples >= ...)] fails. *)
Definition enter_result (num payload demand recovery samples : Z) (c : ThroughputCommandType) (rs : list result)
  : option (list result) :=
  if samples <? m_receivedsamples c then None
  else
    let r := mkResult payload demand recovery samples (m_receivedsamples c)
               (wrapU 32 (samples - wrapU 32 (m_receivedsamples c))) in
    if num =? 1 then Some (rs ++ [r])
    else match last rs with
         | None => None
         | Some e => Some (removelast rs ++
             [mkResult (payload_size e) (r_demand e) (recovery_time_ms e)
                (wrapU 64 (send_samples e + send_samples r)) (wrapU 64 (recv_samples e + recv_samples r))
                (wrapU 32 (lost_samples e + lost_samples r))])
         end.

(** [test] returns false: the break leaves the loop over the recovery times. *)
Definition test_failed (c : setting) (p : publisher) : publisher :=
  goto PDemand (set_loops (sizes p) (tail (demands p)) (recovery_times_ c) (fails p)).

(** A turn of the loops that collect [BEGIN] and [TYPE_REMOVED]: a sample that is taken
    changes [command] and [info]; the test is made even when none is. *)
Definition collect (kind : e_Command) (a : answer) (p : publisher) : option publisher :=
  let count (p : publisher) :=
    if valid_data p && bool_decide (m_command (command p) = kind)
    then set_command (command p) (valid_data p) (ready p + 1) p else p in
  match a with
  | Taken (Some c) => Some (count (set_command c true (ready p) p))
  | Taken None => Some (count (set_command (command p) false (ready p) p))
  | NotTaken => Some (count p)
  | _ => None
  end.

(** The variable [command] is written again and again; the members that are not assigned
    keep what the last command taken left there. *)
Definition with_command (kind : e_Command) (size demand : Z) (c : ThroughputCommandType) : ThroughputCommandType :=
  mkCommand kind size demand (m_receivedsamples c) (m_lostsamples c) (m_lastrecsample c) (m_totaltime c).

(** ** The steps of [run] and [test]

    The next state, the commands written and the numbers of the samples written; [None] when
    the thread waits or the answer is none to the call it stands at. *)
Definition run_step (c : setting) (a : answer) (p : publisher)
  : option (publisher * list ThroughputCommandType * list Z) :=
  let size := match sizes p with (s, _) :: _ => s | [] => 0 end in
  match pc p with
  | PDiscovery =>
      if finds 2 c p then Some (goto PSize p, [], []) else None
  | PSize =>
      match sizes p with
      | [] => match a with Nothing => Some (goto PStop p, [], []) | _ => None end
      | (s, ds) :: _ =>
          match a with
          | Creates register_ok topic_ok endpoint_ok =>
              let cmd := with_command TYPE_NEW s (max_demand_of ds) (command p) in
              let p1 := set_command cmd (valid_data p) (ready p) p in
              if throughput_data_ p then Some (goto PAborted p1, [cmd], [])
              else
                let '(r1, e1) := init_static_types register_ok (ends p) in
                let '(r2, e2) := if r1 then create_data_endpoints topic_ok endpoint_ok e1 else (false, e1) in
                let p2 := set_data e2 false (data_matches p) p1 in
                Some (if r2 then goto PMatch p2 else goto PStop (fails p2), [cmd], [])
          | _ => None
          end
      end
  | PMatch =>
      if finds 3 c p then
        let ds := match sizes p with (_, ds) :: _ => ds | [] => [] end in
        Some (goto PDemand (set_loops (sizes p) ds (recovery_times_ c)
                (set_data (ends p) true (data_matches p) p)), [], [])
      else None
  | PDemand =>
      match demands p, recs p with
      | [], _ => Some (goto PDispose p, [], [])
      | _ :: ds, [] => Some (set_loops (sizes p) ds (recovery_times_ c) p, [], [])
      | d :: _, _ :: _ =>
          let cmd := with_command READY_TO_START size d (command p) in
          Some (goto PBegin (set_command cmd (valid_data p) 0 p), [cmd], [])
      end
  | PBegin =>
      if ready p <? subscribers_ c then
        p1 ← collect BEGIN a p; Some (p1, [], [])
      else Some (goto PTest p, [], [])
  | PDispose =>
      match a, sizes p with
      | Deletes delete_ok topic_ok unregister_ok, (s, ds) :: _ =>
          let cmd := with_command TYPE_DISPOSE s (max_demand_of ds) (command p) in
          let '(ok, e) := destroy_data_endpoints delete_ok topic_ok unregister_ok (ends p) in
          let m := if endpoint (ends p) && delete_ok then 0 else data_matches p in
          let p1 := set_data e false m (set_command cmd (valid_data p) 0 p) in
          Some (if ok then goto PRemoved p1 else goto PStop (fails p1), [cmd], [])
      | _, _ => None
      end
  | PRemoved =>
      if ready p <? subscribers_ c then
        p1 ← collect TYPE_REMOVED a p; Some (p1, [], [])
      else Some (goto PSize (set_loops (tail (sizes p)) (demands p) (recs p) p), [], [])
  | PStop =>
      let cmd := with_command ALL_STOPS (m_size (command p)) (m_demand (command p)) (command p) in
      Some (goto (if test_failure p then PDone else PAckStop) (set_command cmd (valid_data p) (ready p) p), [cmd], [])
  | PAckStop =>
      match a with
      | Acknowledged _ => Some (goto PDone (prints p), [], [])
      | _ => None
      end
  | _ => None
  end.

Definition test_step (c : setting) (a : answer) (p : publisher)
  : option (publisher * list ThroughputCommandType * list Z) :=
  let size := match sizes p with (s, _) :: _ => s | [] => 0 end in
  match pc p with
  | PTest =>
      if finds 3 c p then Some (goto PAckStart p, [plain TEST_STARTS], [])
      else Some (goto PAborted p, [], [])
  | PAckStart =>
      match a with
      | Acknowledged true => Some (goto PSend p, [], [])
      | Acknowledged false => Some (test_failed c p, [], [])
      | _ => None
      end
  | PSend =>
      match a, demands p with
      | Clock t_start readings, d :: _ =>
          s ← test_sends readings t_start (test_time c) (t_end_ p) (Z.to_nat d);
          Some (goto PAckEnd (set_sent (Throughput.samples s) (Throughput.t_end s) p), [plain TEST_ENDS], writes s)
      | _, _ => None
      end
  | PAckEnd =>
      match a with
      | Acknowledged true => Some (goto PResults (set_command (command p) (valid_data p) 0 p), [], [])
      | Acknowledged false => Some (test_failed c p, [], [])
      | _ => None
      end
  | PResults =>
      if ready p <? subscribers_ c then
        match a with
        | Taken (Some cmd) =>
            if bool_decide (m_command cmd = TEST_RESULTS) then
              match demands p, recs p with
              | d :: _, r :: _ =>
                  match enter_result (ready p + 1) (wrapU 32 (size + overhead)) d r (samples p) cmd (results_ p) with
                  | Some rs => Some (set_command (command p) (valid_data p) (ready p + 1) (set_results rs p), [], [])
                  | None => Some (goto PAborted p, [], [])
                  end
              | _, _ => None
              end
            else Some (test_failed c p, [], [])
        | Taken None | NotTaken => Some (test_failed c p, [], [])
        | _ => None
        end
      else Some (goto PDemand (set_loops (sizes p) (demands p) (tail (recs p)) p), [], [])
  | _ => None
  end.

Definition pub_step (c : setting) (a : answer) (p : publisher)
  : option (publisher * list ThroughputCommandType * list Z) :=
  match pc p with
  | PTest | PAckStart | PSend | PAckEnd | PResults => test_step c a p
  | _ => run_step c a p
  end.

(** [on_publication_matched] of the data writer *)
Definition on_publication_matched (total : Z) (p : publisher) : publisher :=
  set_data (ends p) (throughput_data_ p) total p.

(** [run] from its start, with the command endpoints matched as given *)
Definition start (sz : list (Z * list Z)) (matches : Z) : publisher :=
  mkPub PDiscovery sz [] [] no_endpoints false 0 matches (plain DEFAULT) false 0 0 0 [] false false.

(** ** A subscriber that is slow is counted for another

    [NotTaken] leaves [command] and [info] as the last sample taken made them. *)

Fixpoint pub_steps (c : setting) (answers : list answer) (p : publisher) : option publisher :=
  match answers with
  | [] => Some p
  | a :: answers => '(p1, _, _) ← pub_step c a p; pub_steps c answers p1
  end.

Lemma collect_counts kind cmd p :
  m_command cmd = kind -> collect kind (Taken (Some cmd)) p = Some (set_command cmd true (ready p + 1) p).
Proof. intros H. cbn. by rewrite bool_decide_true. Qed.

Lemma timeouts_count c p n :
  pc p = PBegin -> valid_data p = true -> m_command (command p) = BEGIN ->
  ready p + Z.of_nat n <= subscribers_ c ->
  exists p', pub_steps c (replicate n NotTaken) p = Some p' /\ pc p' = PBegin /\
    ready p' = ready p + Z.of_nat n.
Proof.
  revert p. induction n as [|n IH]; intros p Hpc Hv Hc Hr.
  - exists p. cbn. split_and!; [done|done|lia].
  - cbn [replicate pub_steps]. unfold pub_step at 1. rewrite Hpc. unfold run_step at 1. rewrite Hpc.
    rewrite (proj2 (Z.ltb_lt _ _)) by lia. cbn [collect mbind option_bind].
    rewrite Hv, bool_decide_true by done. cbn [andb].
    destruct (IH (set_command (command p) true (ready p + 1) p)) as (p' & E & H1 & H2);
      [done|done|done|cbn [ready set_command]; lia|].
    exists p'. cbn [ready set_command] in H2. split_and!; [done|done|lia].
Qed.

Lemma timeouts_wait c p n :
  pc p = PBegin -> m_command (command p) <> BEGIN -> ready p < subscribers_ c ->
  pub_steps c (replicate n NotTaken) p = Some p.
Proof.
  intros Hpc Hc Hr. induction n as [|n IH]; [done|].
  cbn [replicate pub_steps]. unfold pub_step. rewrite Hpc. unfold run_step. rewrite Hpc, (proj2 (Z.ltb_lt _ _)) by lia.
  cbn [collect mbind option_bind]. by rewrite bool_decide_false, andb_false_r.
Qed.

Lemma pub_steps_app c as1 as2 p :
  pub_steps c (as1 ++ as2) p = p1 ← pub_steps c as1 p; pub_steps c as2 p1.
Proof.
  revert p. induction as1 as [|a as1 IH]; intros p; [done|]. cbn [app pub_steps].
  destruct (pub_step c a p) as [[[p1 out] ws]|]; [|done]. cbn [mbind option_bind]. apply IH.
Qed.

(** One subscriber is ready and the others are not within the time the publisher waits:
    each further wait that ends without a sample counts the first BEGIN again, and the
    publisher enters the test although one of its subscribers is ready.  Right after the
    READY_TO_START, before any BEGIN, a wait that ends so changes nothing. *)
Theorem slow_subscribers_counted c p cmd n :
  pc p = PBegin -> ready p = 0 -> m_command cmd = BEGIN -> m_command (command p) = READY_TO_START ->
  subscribers_ c = Z.of_nat (S n) ->
  (exists p', pub_steps c (Taken (Some cmd) :: replicate n NotTaken ++ [Nothing]) p = Some p' /\ pc p' = PTest) /\
  pub_steps c (replicate n NotTaken) p = Some p.
Proof.
  intros Hpc Hr Hc Hp Hs. split; [|apply timeouts_wait; [done|by rewrite Hp|lia]].
  cbn [pub_steps]. unfold pub_step at 1. rewrite Hpc. unfold run_step at 1. rewrite Hpc, (proj2 (Z.ltb_lt _ _)) by lia.
  rewrite collect_counts by done. cbn [mbind option_bind]. rewrite Hr, pub_steps_app.
  destruct (timeouts_count c (set_command cmd true (0 + 1) p) n) as (p' & -> & H1 & H2);
    [done|done|done|cbn [ready set_command]; lia|].
  cbn [mbind option_bind pub_steps]. unfold pub_step. rewrite H1. unfold run_step. rewrite H1, (proj2 (Z.ltb_ge _ _)).
  - cbn [mbind option_bind]. by eexists.
  - cbn [ready set_command] in H2. lia.
Qed.

Lemma slow_subscribers_counted_witness :
  exists p', pub_steps (mkSetting 3 [100] 1)
      (Taken (Some (plain BEGIN)) :: replicate 2 NotTaken ++ [Nothing])
      (goto PBegin (set_command (plain READY_TO_START) true 0 (start [(16, [10])] 6))) = Some p' /\ pc p' = PTest.
Proof.
  exact (proj1 (slow_subscribers_counted (mkSetting 3 [100] 1)
    (goto PBegin (set_command (plain READY_TO_START) true 0 (start [(16, [10])] 6))) (plain BEGIN) 2
    eq_refl eq_refl eq_refl eq_refl eq_refl)).
Defined.

End BenchPub.
