(* ===== verification/BenchSystem.v ===== *)
(** The throughput benchmark as a whole: one publisher and any number of subscribers over a
    library that delivers commands reliably and in order, as the endpoints of the commands
    ask for, and that may lose samples.

    The calls succeed, the commands are acknowledged, no wait for a command runs
    out, and a test writes fewer than [2^32] samples; what happens otherwise is in the files
    of the two sides.  In particular the branches of [run] where [take_next_sample] brings
    nothing (ThroughputPublisher.cpp:620 and 669) are steps of [BenchPub] that no run of the
    system makes ([BenchPub.slow_subscribers_counted] says what they do).

    At READY_TO_START a subscriber consumes what has arrived, until nothing comes for a
    millisecond (ThroughputSubscriber.cpp:648): a sample may still be on its way.  With
    [prompt] set the runs are those where none is; without, a subscriber may be left with
    any rest of them. *)
From S2P Require Import Prelude Throughput BenchTypes BenchSub BenchPub.
Import BenchTypes.

Module BenchSystem.

Section Protocol.
Context (prompt : bool) (c : BenchPub.setting).

(** A subscriber with the commands on their way to it and the samples on their way to its
    reader; [linked] whether its reader has been matched with the writer. *)
Record node := mkNode {
  sub : BenchSub.subscriber;
  inbox : list ThroughputCommandType;
  wire : list Z;
  linked : bool;
}.

Record system := mkSys {
  pub : BenchPub.publisher;
  subs : list node;
  to_pub : list ThroughputCommandType;
}.

(** Every subscriber has a reader for the commands, and one for the samples. *)
Definition send (out : list ThroughputCommandType) (ws : list Z) (n : node) : node :=
  mkNode (sub n) (inbox n ++ out) (wire n ++ ws) (linked n).
Definition broadcast (out : list ThroughputCommandType) (ws : list Z) (ns : list node) : list node :=
  send out ws <$> ns.

(** ** The steps *)

Definition has_reader (s : BenchSub.subscriber) : bool := Throughput.endpoint (BenchSub.ends s).
Definition enabled (s : BenchSub.subscriber) : option bool :=
  Throughput.enable_ (BenchSub.data_reader_listener_ s).
Definition received (s : BenchSub.subscriber) : Z :=
  Throughput.received_samples_ (BenchSub.data_reader_listener_ s).
Definition matched (s : BenchSub.subscriber) : Z :=
  Throughput.matched_ (BenchSub.data_reader_listener_ s).

(** After a turn: READY_TO_START consumes the [d] samples that arrive before a millisecond
    passes without one, and with the reader its samples go. *)
Definition left_wire (d : nat) (cmd : ThroughputCommandType) (s' : BenchSub.subscriber) (w : list Z) : list Z :=
  if bool_decide (m_command cmd = READY_TO_START) then drop d w else if has_reader s' then w else [].

Definition succeeds (a : BenchSub.answers) : Prop :=
  BenchSub.register_ok a && BenchSub.topic_ok a && BenchSub.endpoint_ok a &&
  BenchSub.delete_ok a && BenchSub.delete_topic_ok a && BenchSub.unregister_ok a = true.

(** A step of a subscriber; [writer] whether there is a writer, [k] whether it is matched. *)
Inductive node_step (writer : bool) : node -> node -> list ThroughputCommandType -> bool -> Prop :=
  | node_turn s cmd q w lk a count d s' out :
      succeeds a -> 0 <= count < 2 ^ 64 -> (prompt = true -> (length w <= d)%nat) ->
      BenchSub.sub_step (BenchSub.Turn a count (Some cmd)) s = Some (s', out) ->
      node_step writer (mkNode s (cmd :: q) w lk)
        (mkNode s' q (left_wire d cmd s' w) (lk && has_reader s')) out false
  | node_wake s q w lk s' out :
      BenchSub.sub_step BenchSub.Wake s = Some (s', out) ->
      node_step writer (mkNode s q w lk) (mkNode s' q w lk) out false
  | node_match s q w s' out :
      writer = true -> has_reader s = true ->
      BenchSub.sub_step (BenchSub.DataMatched 1) s = Some (s', out) ->
      node_step writer (mkNode s q w false) (mkNode s' q w true) out true
  | node_data s q x w lk s' out :
      enabled s = Some true ->
      BenchSub.sub_step (BenchSub.Data [Some x]) s = Some (s', out) ->
      node_step writer (mkNode s q (x :: w) lk) (mkNode s' q w lk) out false
  | node_lose s q x w lk :
      node_step writer (mkNode s q (x :: w) lk) (mkNode s q w lk) [] false.

(** Answers of the library to the publisher when nothing fails; the clock is read so often
    that the number of samples fits 32 bits. *)
Definition granted (p : BenchPub.publisher) (a : BenchPub.answer) : Prop :=
  match a with
  | BenchPub.Nothing => True
  | BenchPub.Creates r t e => r && t && e = true
  | BenchPub.Deletes d t u => d && t && u = true
  | BenchPub.Acknowledged ok => ok = true
  | BenchPub.Clock _ readings =>
      Z.of_nat (Z.to_nat (List.hd 0 (BenchPub.demands p))) * Z.of_nat (length readings) < 2 ^ 32
  | _ => False
  end.

Definition collecting (k : BenchPub.ppc) : bool :=
  match k with BenchPub.PBegin | BenchPub.PResults | BenchPub.PRemoved => true | _ => false end.

Definition link (k : bool) (p : BenchPub.publisher) : BenchPub.publisher :=
  if k then BenchPub.on_publication_matched (BenchPub.data_matches p + 1) p else p.

Inductive sys_step : system -> system -> Prop :=
  | step_pub p ns tp a p' out ws :
      granted p a -> BenchPub.pub_step c a p = Some (p', out, ws) ->
      sys_step (mkSys p ns tp) (mkSys p' (broadcast out ws ns) tp)
  | step_take p ns cmd tp p' out ws :
      collecting (BenchPub.pc p) = true -> BenchPub.ready p < BenchPub.subscribers_ c ->
      BenchPub.pub_step c (BenchPub.Taken (Some cmd)) p = Some (p', out, ws) ->
      sys_step (mkSys p ns (cmd :: tp)) (mkSys p' (broadcast out ws ns) tp)
  | step_node p l1 n n' l2 tp out k :
      node_step (Throughput.endpoint (BenchPub.ends p)) n n' out k ->
      sys_step (mkSys p (l1 ++ n :: l2) tp) (mkSys (link k p) (l1 ++ n' :: l2) (tp ++ out)).

(** The start: the command endpoints of all are there. *)
Definition new_sub : BenchSub.subscriber :=
  BenchSub.mkSub BenchSub.SDiscovery Throughput.no_endpoints false
    (Throughput.new_listener (Some false)) 2 0 0 0 0.
Definition start (sizes : list (Z * list Z)) : system :=
  mkSys (BenchPub.start sizes (2 * BenchPub.subscribers_ c))
    (replicate (Z.to_nat (BenchPub.subscribers_ c)) (mkNode new_sub [] [] false)) [].

(** ** Where the subscribers are while the publisher is where it is *)

Definition full : Throughput.endpoints := Throughput.mkEndpoints true true true true.

Definition off (n : node) : Prop :=
  (BenchSub.pc (sub n) = BenchSub.SDiscovery \/ BenchSub.pc (sub n) = BenchSub.SLoop) /\
  BenchSub.ends (sub n) = Throughput.no_endpoints /\ BenchSub.throughput_data_ (sub n) = false /\
  BenchSub.cmd_matches (sub n) = 2 /\ matched (sub n) = 0 /\ linked n = false /\ wire n = [] /\
  enabled (sub n) <> None.
Definition waits (n : node) : Prop :=
  BenchSub.pc (sub n) = BenchSub.SMatch /\
  BenchSub.ends (sub n) = full /\ BenchSub.throughput_data_ (sub n) = true /\
  BenchSub.cmd_matches (sub n) = 2 /\ matched (sub n) = (if linked n then 1 else 0) /\ wire n = [] /\
  enabled (sub n) <> None.
Definition on (n : node) : Prop :=
  BenchSub.pc (sub n) = BenchSub.SLoop /\
  BenchSub.ends (sub n) = full /\ BenchSub.throughput_data_ (sub n) = true /\
  BenchSub.cmd_matches (sub n) = 2 /\ linked n = true /\ enabled (sub n) <> None.
Definition gone (n : node) : Prop :=
  BenchSub.pc (sub n) = BenchSub.SEnded /\ BenchSub.ends (sub n) = Throughput.no_endpoints /\ wire n = [].

Definition kinds (n : node) : list e_Command := m_command <$> inbox n.
Definition fresh (n : node) : Prop :=
  (prompt = true -> wire n = [] /\ received (sub n) = 0) /\ 0 <= received (sub n) /\
  enabled (sub n) = Some true.
Definition counts (samples : Z) (n : node) : Prop :=
  0 <= received (sub n) /\
  (prompt = true -> received (sub n) + Z.of_nat (length (wire n)) <= samples) /\
  samples < 2 ^ 32 /\ enabled (sub n) = Some true.

Definition ok (k : BenchPub.ppc) (samples : Z) (n : node) : Prop :=
  match k with
  | BenchPub.PDiscovery | BenchPub.PSize | BenchPub.PStop => off n /\ kinds n = []
  | BenchPub.PMatch =>
      (off n /\ kinds n = [TYPE_NEW]) \/ (waits n /\ kinds n = []) \/ (on n /\ kinds n = [])
  | BenchPub.PDemand | BenchPub.PDispose =>
      ((waits n /\ linked n = true) \/ on n) /\ kinds n = []
  | BenchPub.PBegin =>
      (((waits n /\ linked n = true) \/ on n) /\ kinds n = [READY_TO_START]) \/
      (on n /\ fresh n /\ kinds n = [])
  | BenchPub.PTest => on n /\ fresh n /\ kinds n = []
  | BenchPub.PAckStart | BenchPub.PSend =>
      on n /\ fresh n /\ (kinds n = [TEST_STARTS] \/ kinds n = [])
  | BenchPub.PAckEnd | BenchPub.PResults | BenchPub.PAborted =>
      (on n /\ counts samples n /\ (kinds n = [TEST_STARTS; TEST_ENDS] \/ kinds n = [TEST_ENDS])) \/
      (on n /\ kinds n = [])
  | BenchPub.PRemoved =>
      (((waits n /\ linked n = true) \/ on n) /\ kinds n = [TYPE_DISPOSE]) \/ (off n /\ kinds n = [])
  | BenchPub.PAckStop | BenchPub.PDone =>
      (off n /\ kinds n = [ALL_STOPS]) \/ (gone n /\ kinds n = [])
  end.

(** The reply a subscriber gives while the publisher is at [k]. *)
Definition reply_ok (k : BenchPub.ppc) (samples : Z) (cmd : ThroughputCommandType) : Prop :=
  match k with
  | BenchPub.PBegin => m_command cmd = BEGIN
  | BenchPub.PAckEnd | BenchPub.PResults | BenchPub.PAborted =>
      m_command cmd = TEST_RESULTS /\ 0 <= m_receivedsamples cmd /\
      (prompt = true -> m_receivedsamples cmd <= samples)
  | BenchPub.PRemoved => m_command cmd = TYPE_REMOVED
  | _ => False
  end.

Definition replied (n : node) : nat := match inbox n with [] => 1 | _ => 0 end.

(** ** The turns of a subscriber that the phases allow *)

Lemma turn_eq a count cmd s :
  BenchSub.pc s = BenchSub.SLoop ->
  BenchSub.sub_step (BenchSub.Turn a count (Some cmd)) s = Some (BenchSub.run_turn a count (Some cmd) s).
Proof. intros H. unfold BenchSub.sub_step. by rewrite H. Qed.

Lemma succeeds_inv a :
  succeeds a -> BenchSub.register_ok a = true /\ BenchSub.topic_ok a = true /\ BenchSub.endpoint_ok a = true /\
  BenchSub.delete_ok a = true /\ BenchSub.delete_topic_ok a = true /\ BenchSub.unregister_ok a = true.
Proof. unfold succeeds. rewrite !andb_true_iff. tauto. Qed.

Lemma turn_type_new a count cmd s :
  succeeds a -> m_command cmd = TYPE_NEW ->
  BenchSub.ends s = Throughput.no_endpoints -> BenchSub.throughput_data_ s = false ->
  BenchSub.run_turn a count (Some cmd) s =
    (BenchSub.set_pc BenchSub.SMatch (BenchSub.set_data full true s), []).
Proof.
  intros (H1 & H2 & H3 & _)%succeeds_inv Hc He Hd.
  unfold BenchSub.run_turn, BenchSub.process_message. rewrite Hc, He, Hd, H1, H2, H3. done.
Qed.

Lemma turn_ready a count cmd s :
  m_command cmd = READY_TO_START -> BenchSub.ends s = full ->
  BenchSub.run_turn a count (Some cmd) s =
    (BenchSub.set_listener (Throughput.reset (BenchSub.data_reader_listener_ s))
       (BenchSub.set_test (m_size cmd) (m_demand cmd) s), [plain BEGIN]).
Proof. intros Hc He. unfold BenchSub.run_turn, BenchSub.process_message. by rewrite Hc, He. Qed.

Lemma turn_starts a count cmd s :
  m_command cmd = TEST_STARTS ->
  BenchSub.run_turn a count (Some cmd) s =
    (BenchSub.set_times (BenchSub.now a) (BenchSub.t_end_ s) s, []).
Proof. intros Hc. unfold BenchSub.run_turn, BenchSub.process_message. by rewrite Hc. Qed.

Lemma turn_ends a count cmd s :
  m_command cmd = TEST_ENDS -> 0 <= count < 2 ^ 64 ->
  exists r, BenchSub.run_turn a count (Some cmd) s =
    (BenchSub.set_listener (Throughput.disable (Throughput.save_numbers (BenchSub.data_reader_listener_ s)))
       (BenchSub.set_times (BenchSub.t_start_ s) (BenchSub.now a) s), [r]) /\
    m_command r = TEST_RESULTS /\ m_receivedsamples r = received s.
Proof.
  intros Hc Hn. unfold BenchSub.run_turn, BenchSub.process_message. rewrite Hc.
  unfold BenchSub.test_results, BenchSub.totaltime.
  rewrite (proj2 (Z.ltb_ge count 0)), (proj2 (Z.ltb_ge (2 ^ 64) count)), (proj2 (Z.eqb_neq count (2 ^ 64))) by lia.
  cbn. eexists. split; [reflexivity|]. by split.
Qed.

Lemma turn_dispose a count cmd s :
  succeeds a -> m_command cmd = TYPE_DISPOSE -> BenchSub.ends s = full ->
  BenchSub.run_turn a count (Some cmd) s =
    (BenchSub.set_listener (Throughput.reset (BenchSub.data_reader_listener_ s))
       (BenchSub.set_data Throughput.no_endpoints false s), [plain TYPE_REMOVED]).
Proof.
  intros (_ & _ & _ & H1 & H2 & H3)%succeeds_inv Hc He.
  unfold BenchSub.run_turn, BenchSub.process_message. rewrite Hc, He. cbn.
  unfold BenchSub.sub_destroy. cbn. rewrite H1, H2, H3. reflexivity.
Qed.

Lemma turn_stops a count cmd s :
  m_command cmd = ALL_STOPS ->
  BenchSub.run_turn a count (Some cmd) s = (BenchSub.set_pc BenchSub.SEnded s, []).
Proof. intros Hc. unfold BenchSub.run_turn, BenchSub.process_message. by rewrite Hc. Qed.

(** ** A step of a subscriber keeps its place *)

Definition tracked (k : BenchPub.ppc) : bool :=
  match k with
  | BenchPub.PBegin | BenchPub.PAckEnd | BenchPub.PResults | BenchPub.PRemoved | BenchPub.PAborted => true
  | _ => false
  end.

Definition kept (k : BenchPub.ppc) (sm : Z) (n n' : node) (out : list ThroughputCommandType) (lk : bool) : Prop :=
  ok k sm n' /\
  (if tracked k then replied n' = (replied n + length out)%nat else out = []) /\
  Forall (reply_ok k sm) out /\
  (if lk then linked n = false /\ linked n' = true else linked n' = linked n \/ k = BenchPub.PRemoved).

Lemma finds3_waits n : waits n -> BenchSub.finds 3 (sub n) = linked n.
Proof.
  intros (_ & _ & _ & Hc & Hm & _). unfold BenchSub.finds, BenchSub.total_matches.
  unfold matched in Hm. rewrite Hm, Hc. by destruct (linked n).
Qed.

(** Waking up *)
Lemma wake_kept k sm s q w lk s' out :
  ok k sm (mkNode s q w lk) -> BenchSub.sub_step BenchSub.Wake s = Some (s', out) ->
  kept k sm (mkNode s q w lk) (mkNode s' q w lk) out false.
Proof.
  intros Hok H. unfold BenchSub.sub_step in H.
  assert (Hs : out = [] /\
    ((BenchSub.pc s = BenchSub.SDiscovery /\ s' = BenchSub.set_pc BenchSub.SLoop s) \/
     (BenchSub.pc s = BenchSub.SMatch /\ s' = BenchSub.set_pc BenchSub.SLoop s /\ BenchSub.finds 3 s = true))).
  { destruct (BenchSub.pc s); try discriminate; destruct (BenchSub.finds _ s) eqn:F; try discriminate; naive_solver. }
  destruct Hs as [-> Hs].
  assert (Hoff : off (mkNode s q w lk) -> off (mkNode s' q w lk)).
  { intros (Hp & Hr). destruct Hs as [[_ ->]|[Hp' _]]; [|cbn in Hp; naive_solver congruence].
    split; [by right|]. exact Hr. }
  assert (Hwait : waits (mkNode s q w lk) -> lk = true /\ on (mkNode s' q w lk) /\ w = []).
  { intros Hw. pose proof (finds3_waits _ Hw) as F. destruct Hw as (Hp & He & Hd & Hc & Hm & Hw & Hen).
    cbn in *. destruct Hs as [[Hp' _]|(_ & -> & F')]; [congruence|]. split; [congruence|].
    split; [|done]. rewrite F in F'. by split_and!. }
  assert (Hon : on (mkNode s q w lk) -> False).
  { intros (Hp & _). cbn in Hp. naive_solver congruence. }
  assert (Hgone : gone (mkNode s q w lk) -> False).
  { intros (Hp & _). cbn in Hp. naive_solver congruence. }
  unfold kept. split; [|destruct (tracked k); cbn; split_and!; auto; lia].
  destruct k; cbn [ok] in *; unfold kinds in *; cbn [inbox linked] in *; tauto.
Qed.

(** Being matched *)
Lemma match_kept k sm s q w s' out :
  ok k sm (mkNode s q w false) -> has_reader s = true ->
  BenchSub.sub_step (BenchSub.DataMatched 1) s = Some (s', out) ->
  kept k sm (mkNode s q w false) (mkNode s' q w true) out true.
Proof.
  intros Hok Hr H.
  assert (Hoff : off (mkNode s q w false) -> False).
  { intros (_ & He & _). cbn in He. unfold has_reader in Hr. by rewrite He in Hr. }
  assert (Hon : on (mkNode s q w false) -> False) by (intros (_ & _ & _ & _ & Hl & _); done).
  assert (Hgone : gone (mkNode s q w false) -> False).
  { intros (_ & He & _). cbn in He. unfold has_reader in Hr. by rewrite He in Hr. }
  assert (Hw : waits (mkNode s q w false) -> out = [] /\ waits (mkNode s' q w true)).
  { intros (Hp & He & Hd & Hc & Hm & Hw & Hen). cbn in Hp, He. unfold BenchSub.sub_step in H.
    rewrite He in H. cbn in H. injection H as <- <-. split; [done|]. by split_and!. }
  assert (Ht : true = false -> False) by done. assert (Hf : false = true -> False) by done.
  unfold kept.
  assert (k = BenchPub.PMatch /\ out = []) as [-> ->]
    by (destruct k; cbn [ok linked] in *; unfold kinds in *; cbn [inbox linked] in *; tauto).
  cbn [tracked ok linked] in *. unfold kinds in *. cbn [inbox] in *. split_and!; try done. tauto.
Qed.

Lemma on_wire s q w w' lk : on (mkNode s q w lk) -> on (mkNode s q w' lk).
Proof. done. Qed.

(** Samples that arrive or are lost *)
Lemma data_kept k sm s q x w lk s' out :
  ok k sm (mkNode s q (x :: w) lk) -> enabled s = Some true ->
  BenchSub.sub_step (BenchSub.Data [Some x]) s = Some (s', out) ->
  kept k sm (mkNode s q (x :: w) lk) (mkNode s' q w lk) out false.
Proof.
  intros Hok Hen H.
  assert (Hoff : off (mkNode s q (x :: w) lk) -> False) by (intros (_ & _ & _ & _ & _ & _ & Hw & _); done).
  assert (Hwt : waits (mkNode s q (x :: w) lk) -> False) by (intros (_ & _ & _ & _ & _ & Hw & _); done).
  assert (Hg : gone (mkNode s q (x :: w) lk) -> False) by (intros (_ & _ & Hw); done).
  assert (Hon : on (mkNode s q (x :: w) lk) -> out = [] /\ on (mkNode s' q w lk) /\
    (fresh (mkNode s q (x :: w) lk) -> fresh (mkNode s' q w lk)) /\
    (counts sm (mkNode s q (x :: w) lk) -> counts sm (mkNode s' q w lk))).
  { intros (Hp & He & Hd & Hc & Hl & _). cbn in Hp, He, Hd, Hc, Hl.
    unfold BenchSub.sub_step in H. unfold enabled in Hen. rewrite He, Hd in H. cbn in H.
    unfold Throughput.on_data_available in H. rewrite Hen in H. cbn [foldl] in H. injection H as <- <-.
    split; [done|]. split.
    - split_and!; try done. unfold enabled. cbn. by rewrite Hen.
    - unfold fresh, counts, received, enabled. cbn -[wrapU wrapU_range]. rewrite Hen. split.
      + intros (Hp' & H0 & _). split_and!; [|apply wrapU_range; lia|done]. intros E. by destruct (Hp' E).
      + intros (H0 & Hs & Hsm & _). split_and!; [apply wrapU_range; lia| |done|done].
        intros E. specialize (Hs E). rewrite wrapU_small by lia. lia. }
  unfold kept. destruct k; cbn [ok tracked linked] in *; unfold kinds, replied in *; cbn [inbox] in *;
    try tauto; (assert (on (mkNode s q (x :: w) lk)) as Ho by tauto; destruct (Hon Ho) as (-> & Hon1 & Hon2 & Hon3);
    cbn [length]; rewrite ?Nat.add_0_r; split_and!; try done; tauto).
Qed.

Lemma lose_kept k sm s q x w lk :
  ok k sm (mkNode s q (x :: w) lk) -> kept k sm (mkNode s q (x :: w) lk) (mkNode s q w lk) [] false.
Proof.
  intros Hok.
  assert (Hoff : off (mkNode s q (x :: w) lk) -> False) by (intros (_ & _ & _ & _ & _ & _ & Hw & _); done).
  assert (Hwt : waits (mkNode s q (x :: w) lk) -> False) by (intros (_ & _ & _ & _ & _ & Hw & _); done).
  assert (Hg : gone (mkNode s q (x :: w) lk) -> False) by (intros (_ & _ & Hw); done).
  assert (Hf : fresh (mkNode s q (x :: w) lk) -> fresh (mkNode s q w lk)).
  { unfold fresh. cbn [sub wire]. intros (H & ? & ?). split_and!; try done. intros E. by destruct (H E). }
  assert (Hcn : counts sm (mkNode s q (x :: w) lk) -> counts sm (mkNode s q w lk)).
  { unfold counts. cbn [sub wire length]. intros (? & H & ? & ?). split_and!; try done. intros E. specialize (H E). lia. }
  pose proof (on_wire s q (x :: w) w lk) as Hon.
  unfold kept. destruct k; cbn [ok tracked linked] in *; unfold kinds, replied in *; cbn [inbox] in *;
    try tauto; (cbn [length]; rewrite ?Nat.add_0_r; split_and!; try done; tauto).
Qed.

(** Handling a command: one lemma for each that comes *)
Section Turns.
Context (a : BenchSub.answers) (count : Z) (cmd : ThroughputCommandType) (q : list ThroughputCommandType).
Context (s : BenchSub.subscriber) (w : list Z) (lk : bool) (d : nat) (s' : BenchSub.subscriber)
  (out : list ThroughputCommandType).
Context (Ha : succeeds a) (Hcount : 0 <= count < 2 ^ 64) (Hd : prompt = true -> (length w <= d)%nat).
Context (Hstep : BenchSub.sub_step (BenchSub.Turn a count (Some cmd)) s = Some (s', out)).
Let n := mkNode s (cmd :: q) w lk.
Let n' := mkNode s' q (left_wire d cmd s' w) (lk && has_reader s').

Lemma turn_pc : BenchSub.pc s = BenchSub.SLoop /\ BenchSub.run_turn a count (Some cmd) s = (s', out).
Proof.
  unfold BenchSub.sub_step in Hstep. destruct (BenchSub.pc s); try discriminate.
  split; [done|]. by injection Hstep.
Qed.

Lemma not_waiting : waits n -> False.
Proof. destruct turn_pc as [Hp _]. intros (Hp' & _). cbn in Hp'. congruence. Qed.
Lemma not_gone : gone n -> False.
Proof. destruct turn_pc as [Hp _]. intros (Hp' & _). cbn in Hp'. congruence. Qed.

Lemma new_turn : off n -> m_command cmd = TYPE_NEW -> out = [] /\ waits n' /\ linked n' = linked n.
Proof.
  destruct turn_pc as [Hp E]. intros (_ & He & Htd & Hc & Hm & Hl & Hw & Hen) Hk.
  cbn in He, Htd, Hc, Hm, Hl, Hw, Hen. rewrite turn_type_new in E by done. injection E as <- <-.
  split; [done|]. subst w lk. unfold n', left_wire. rewrite Hk. by split_and!.
Qed.

Lemma ready_turn : on n -> m_command cmd = READY_TO_START ->
  (exists r, out = [r] /\ m_command r = BEGIN) /\ on n' /\ fresh n' /\ linked n' = linked n.
Proof.
  destruct turn_pc as [_ E]. intros Hon Hk. pose proof Hon as (Hp & He & Htd & Hc & Hl & Hen).
  cbn in Hp, He, Htd, Hc, Hl, Hen. rewrite turn_ready in E by done. injection E as <- <-.
  split; [by eexists|]. unfold n', left_wire, has_reader, fresh. cbn. rewrite bool_decide_true, He, Hl by done.
  split; [by split_and!|]. split; [|done]. split_and!; [|done|done]. intros Ep. by rewrite drop_ge by auto.
Qed.

Lemma starts_turn : on n -> m_command cmd = TEST_STARTS ->
  out = [] /\ on n' /\ linked n' = linked n /\ (fresh n -> fresh n') /\ (forall sm, counts sm n -> counts sm n').
Proof.
  destruct turn_pc as [_ E]. intros Hon Hk. pose proof Hon as (Hp & He & Htd & Hc & Hl & Hen).
  cbn in Hp, He, Htd, Hc, Hl, Hen. rewrite turn_starts in E by done. injection E as <- <-.
  split; [done|]. unfold n', left_wire, has_reader. cbn. rewrite bool_decide_false, He, Hl by congruence.
  by split_and!.
Qed.

Lemma ends_turn : on n -> m_command cmd = TEST_ENDS ->
  (exists r, out = [r] /\ m_command r = TEST_RESULTS /\ m_receivedsamples r = received s) /\
  on n' /\ linked n' = linked n.
Proof.
  destruct turn_pc as [_ E]. intros Hon Hk. pose proof Hon as (Hp & He & Htd & Hc & Hl & Hen).
  cbn in Hp, He, Htd, Hc, Hl, Hen. destruct (turn_ends a count cmd s) as (r & Er & H1 & H2); [done|done|].
  rewrite Er in E. injection E as <- <-. split; [by exists r|].
  unfold n', left_wire, has_reader. cbn. rewrite bool_decide_false, He, Hl by congruence.
  by split_and!.
Qed.

Lemma dispose_turn : on n -> m_command cmd = TYPE_DISPOSE ->
  (exists r, out = [r] /\ m_command r = TYPE_REMOVED) /\ off n'.
Proof.
  destruct turn_pc as [_ E]. intros Hon Hk. pose proof Hon as (Hp & He & Htd & Hc & Hl & Hen).
  cbn in Hp, He, Htd, Hc, Hl, Hen. rewrite turn_dispose in E by done. injection E as <- <-.
  split; [by eexists|]. unfold n', left_wire, has_reader. cbn. rewrite bool_decide_false, Hl by congruence.
  split_and!; try done. by right.
Qed.

Lemma stops_turn : off n -> m_command cmd = ALL_STOPS -> out = [] /\ gone n' /\ linked n' = linked n.
Proof.
  destruct turn_pc as [_ E]. intros (_ & He & _ & Hc & Hm & Hl & Hw & Hen) Hk.
  cbn in He, Hl, Hw. rewrite turn_stops in E by done. injection E as <- <-.
  split; [done|]. unfold n', left_wire, has_reader. cbn. rewrite bool_decide_false, He, Hl by congruence.
  by split_and!.
Qed.

Lemma kinds_nil : kinds n = [] -> False.
Proof. done. Qed.
Lemma kinds_one K : kinds n = [K] -> m_command cmd = K /\ kinds n' = [] /\ replied n' = 1%nat.
Proof. unfold kinds, replied. cbn. destruct q; [|done]. intros [= ->]. done. Qed.
Lemma kinds_two K K' : kinds n = [K; K'] -> m_command cmd = K /\ kinds n' = [K'] /\ replied n' = 0%nat.
Proof.
  unfold kinds, replied. cbn. destruct q as [|x [|y r]]; try done. cbn. intros [= -> ->]. done.
Qed.

(** What happens between TEST_STARTS and the results *)
Lemma results_kept k sm :
  on n /\ counts sm n /\ (kinds n = [TEST_STARTS; TEST_ENDS] \/ kinds n = [TEST_ENDS]) \/ on n /\ kinds n = [] ->
  (on n' /\ counts sm n' /\ (kinds n' = [TEST_STARTS; TEST_ENDS] \/ kinds n' = [TEST_ENDS]) \/ on n' /\ kinds n' = []) /\
  replied n' = (replied n + length out)%nat /\
  Forall (fun r => m_command r = TEST_RESULTS /\ 0 <= m_receivedsamples r /\
    (prompt = true -> m_receivedsamples r <= sm)) out /\
  (linked n' = linked n \/ k = BenchPub.PRemoved).
Proof.
  assert (Hr : replied n = 0%nat) by done. rewrite Hr.
  intros [(Ho & Hc & [Hk|Hk])|[_ Hk]]; [| |done].
  - apply kinds_two in Hk as (Hk & Hk' & ->). destruct (starts_turn Ho Hk) as (-> & ? & ? & _ & Hcn).
    split_and!; auto.
  - apply kinds_one in Hk as (Hk & Hk' & ->). destruct (ends_turn Ho Hk) as ((r & -> & H1 & H2) & ? & ?).
    split_and!; auto. constructor; [|constructor]. rewrite H2.
    destruct Hc as (? & Hcn & ? & _). cbn in *. split_and!; [done|done|]. intros Ep. specialize (Hcn Ep). lia.
Qed.

Lemma turn_kept k sm : ok k sm n -> kept k sm n n' out false.
Proof.
  intros Hok. pose proof not_waiting as NW. pose proof not_gone as NG. pose proof kinds_nil as NK.
  assert (Hr : replied n = 0%nat) by done. unfold kept.
  destruct k; cbn [ok tracked] in *; try tauto.
  - (* PMatch *)
    assert (Hn : off n /\ kinds n = [TYPE_NEW]) by tauto. destruct Hn as [Ho Hk].
    apply kinds_one in Hk as (Hk & Hk' & _). destruct (new_turn Ho Hk) as (-> & ? & ?).
    split_and!; auto.
  - (* PBegin *)
    assert (Hn : on n /\ kinds n = [READY_TO_START]) by tauto. destruct Hn as [Ho Hk].
    apply kinds_one in Hk as (Hk & Hk' & Hr'). destruct (ready_turn Ho Hk) as ((r & -> & Hc) & ? & ? & ?).
    rewrite Hr, Hr'. split_and!; auto.
  - (* PAckStart *)
    assert (Hn : on n /\ fresh n /\ kinds n = [TEST_STARTS]) by tauto. destruct Hn as (Ho & Hf & Hk).
    apply kinds_one in Hk as (Hk & Hk' & _). destruct (starts_turn Ho Hk) as (-> & ? & ? & ? & _).
    split_and!; auto.
  - (* PSend *)
    assert (Hn : on n /\ fresh n /\ kinds n = [TEST_STARTS]) by tauto. destruct Hn as (Ho & Hf & Hk).
    apply kinds_one in Hk as (Hk & Hk' & _). destruct (starts_turn Ho Hk) as (-> & ? & ? & ? & _).
    split_and!; auto.
  - (* PAckEnd *) by apply results_kept.
  - (* PResults *) by apply results_kept.
  - (* PRemoved *)
    assert (Hn : on n /\ kinds n = [TYPE_DISPOSE]) by tauto. destruct Hn as [Ho Hk].
    apply kinds_one in Hk as (Hk & Hk' & Hr'). destruct (dispose_turn Ho Hk) as ((r & -> & Hc) & ?).
    rewrite Hr, Hr'. split_and!; auto.
  - (* PAckStop *)
    assert (Hn : off n /\ kinds n = [ALL_STOPS]) by tauto. destruct Hn as [Ho Hk].
    apply kinds_one in Hk as (Hk & Hk' & _). destruct (stops_turn Ho Hk) as (-> & ? & ?). split_and!; auto.
  - (* PDone *)
    assert (Hn : off n /\ kinds n = [ALL_STOPS]) by tauto. destruct Hn as [Ho Hk].
    apply kinds_one in Hk as (Hk & Hk' & _). destruct (stops_turn Ho Hk) as (-> & ? & ?). split_and!; auto.
  - (* PAborted *) by apply results_kept.
Qed.

End Turns.

Lemma node_kept k sm writer n n' out lk :
  ok k sm n -> node_step writer n n' out lk -> kept k sm n n' out lk.
Proof.
  intros Hok H. destruct H.
  - by eapply turn_kept.
  - by apply wake_kept.
  - by apply match_kept.
  - by eapply data_kept.
  - by apply lose_kept.
Qed.

(** ** The invariant *)

Definition nreplied (ns : list node) : nat := sum_list_with replied ns.
Definition nlinked (ns : list node) : nat := sum_list_with (fun n => if linked n then 1 else 0)%nat ns.

(** The writer exists. *)
Definition writing (k : BenchPub.ppc) : bool :=
  match k with
  | BenchPub.PMatch | BenchPub.PDemand | BenchPub.PBegin | BenchPub.PTest | BenchPub.PAckStart
  | BenchPub.PSend | BenchPub.PAckEnd | BenchPub.PResults | BenchPub.PDispose | BenchPub.PAborted => true
  | _ => false
  end.

(** The publisher itself *)
Definition in_size (p : BenchPub.publisher) : Prop := BenchPub.sizes p <> [].
Definition in_test (p : BenchPub.publisher) : Prop :=
  BenchPub.sizes p <> [] /\ BenchPub.demands p <> [] /\ BenchPub.recs p <> [].

Definition pub_ok (p : BenchPub.publisher) : Prop :=
  BenchPub.cmd_matches p = 2 * BenchPub.subscribers_ c /\ BenchPub.test_failure p = false /\
  BenchPub.ends p = (if writing (BenchPub.pc p) then full else Throughput.no_endpoints) /\
  BenchPub.throughput_data_ p =
    (writing (BenchPub.pc p) && negb (bool_decide (BenchPub.pc p = BenchPub.PMatch))) /\
  match BenchPub.pc p with
  | BenchPub.PMatch | BenchPub.PDemand | BenchPub.PDispose | BenchPub.PRemoved => in_size p
  | BenchPub.PBegin | BenchPub.PTest | BenchPub.PAckStart | BenchPub.PSend | BenchPub.PAckEnd => in_test p
  | BenchPub.PResults => in_test p /\ (0 < BenchPub.ready p -> BenchPub.results_ p <> [])
  | BenchPub.PAborted => prompt = false
  | _ => True
  end.

(** The replies taken; that of a failed assertion is not counted by the code. *)
Definition counted (p : BenchPub.publisher) : Z :=
  if collecting (BenchPub.pc p) then BenchPub.ready p
  else if bool_decide (BenchPub.pc p = BenchPub.PAborted) then BenchPub.ready p + 1 else 0.

(** The replies on their way and the ones counted are those of the subscribers that replied. *)
Definition replies_ok (p : BenchPub.publisher) (ns : list node) (tp : list ThroughputCommandType) : Prop :=
  let k := BenchPub.pc p in
  Forall (reply_ok k (BenchPub.samples p)) tp /\
  if tracked k
  then (collecting k = true -> 0 <= BenchPub.ready p) /\
       Z.of_nat (length tp) + counted p = Z.of_nat (nreplied ns)
  else tp = [].

Definition Inv (s : system) : Prop :=
  pub_ok (pub s) /\ Z.of_nat (length (subs s)) = BenchPub.subscribers_ c /\
  Forall (ok (BenchPub.pc (pub s)) (BenchPub.samples (pub s))) (subs s) /\
  BenchPub.data_matches (pub s) = (if writing (BenchPub.pc (pub s)) then Z.of_nat (nlinked (subs s)) else 0) /\
  replies_ok (pub s) (subs s) (to_pub s).

Lemma step_node_inv p l1 n n' l2 tp out lk :
  Inv (mkSys p (l1 ++ n :: l2) tp) -> node_step (Throughput.endpoint (BenchPub.ends p)) n n' out lk ->
  Inv (mkSys (link lk p) (l1 ++ n' :: l2) (tp ++ out)).
Proof.
  intros (Hp & Hl & Hok & Hm & Hr & Ht) H. cbn [pub subs to_pub] in *.
  assert (Hpc : BenchPub.pc (link lk p) = BenchPub.pc p) by (by destruct lk).
  assert (Hsm : BenchPub.samples (link lk p) = BenchPub.samples p) by (by destruct lk).
  assert (Hrd : BenchPub.ready (link lk p) = BenchPub.ready p) by (by destruct lk).
  assert (Hct : counted (link lk p) = counted p) by (by destruct lk).
  pose proof Hok as Hok'. apply Forall_app in Hok' as [Ho1 Ho2]. apply Forall_cons in Ho2 as [Hon Ho2].
  destruct (node_kept _ _ _ _ _ _ _ Hon H) as (Hk & Hrep & Hout & Hlk).
  unfold Inv, replies_ok. cbn [pub subs to_pub]. rewrite Hpc, Hsm, Hrd, Hct. split_and!.
  - by destruct lk.
  - rewrite length_app in *. cbn [length] in *. destruct lk; exact Hl.
  - apply Forall_app. split; [done|]. by constructor.
  - unfold nlinked in *. rewrite sum_middle in *. destruct lk.
    + destruct Hlk as [El El']. cbn beta in *. rewrite El in Hm. rewrite El'. assert (Hw : writing (BenchPub.pc p) = true).
      { destruct Hp as (_ & _ & He & _). inversion H; subst. rewrite He in *.
        by destruct (writing (BenchPub.pc p)). }
      rewrite Hw in *. cbn [link BenchPub.on_publication_matched BenchPub.set_data BenchPub.data_matches]. lia.
    + cbn beta in *. destruct Hlk as [El|El]; [rewrite El; exact Hm|]. rewrite El in *. exact Hm.
  - apply Forall_app. by split.
  - unfold nreplied in *. rewrite sum_middle in *. destruct (tracked (BenchPub.pc p)).
    + destruct Ht as [Ht0 Ht]. split; [done|]. rewrite Hrep, length_app. lia.
    + subst. done.
Qed.

(** ** The publisher's steps *)

Lemma replied_le n : (replied n <= 1)%nat.
Proof. unfold replied. destruct (inbox n); lia. Qed.

Lemma kinds_app n out ws : kinds (send out ws n) = kinds n ++ (m_command <$> out).
Proof. unfold kinds, send. cbn [inbox]. apply fmap_app. Qed.

Lemma off_send out n : off n -> off (send out [] n).
Proof. unfold off, send. cbn [sub wire linked]. by rewrite app_nil_r. Qed.
Lemma waits_send out n : waits n -> waits (send out [] n).
Proof. unfold waits, send. cbn [sub wire linked]. by rewrite app_nil_r. Qed.
Lemma on_send out ws n : on n -> on (send out ws n).
Proof. done. Qed.
Lemma fresh_send out n : fresh n -> fresh (send out [] n).
Proof. unfold fresh, send. cbn [sub wire linked]. by rewrite app_nil_r. Qed.
Lemma send_nothing n : send [] [] n = n.
Proof. unfold send. rewrite !app_nil_r. by destruct n. Qed.
Lemma broadcast_nothing ns : broadcast [] [] ns = ns.
Proof. unfold broadcast. rewrite <- (list_fmap_id ns) at 2. apply list_fmap_ext. intros. apply send_nothing. Qed.

Lemma nlinked_broadcast out ws ns : nlinked (broadcast out ws ns) = nlinked ns.
Proof.
  unfold nlinked, broadcast. induction ns as [|n ns IH]; [done|]. cbn [fmap list_fmap sum_list_with]. by rewrite IH.
Qed.
Lemma nreplied_sent cmd ws ns : nreplied (broadcast [cmd] ws ns) = 0%nat.
Proof.
  unfold nreplied, broadcast. induction ns as [|n ns IH]; [done|]. cbn [fmap list_fmap sum_list_with]. rewrite IH.
  unfold replied, send. cbn. destruct (inbox n); done.
Qed.

Lemma broadcast_ok (P Q : node -> Prop) out ws ns :
  Forall P ns -> (forall n, P n -> Q (send out ws n)) -> Forall Q (broadcast out ws ns).
Proof. intros H Himp. apply Forall_fmap. eapply Forall_impl; [exact H|]. exact Himp. Qed.

(** When as many are counted as there are subscribers, all have replied. *)
Lemma all_replied p ns tp :
  replies_ok p ns tp -> collecting (BenchPub.pc p) = true ->
  Z.of_nat (length ns) = BenchPub.subscribers_ c -> BenchPub.subscribers_ c <= BenchPub.ready p ->
  tp = [] /\ Forall (fun n => kinds n = []) ns.
Proof.
  intros [_ Ht] Hc Hl Hr.
  assert (tracked (BenchPub.pc p) = true) as E by (by destruct (BenchPub.pc p)).
  unfold counted in Ht. rewrite E, Hc in Ht. destruct Ht as [_ Ht].
  pose proof (sum_le_length replied ns replied_le). unfold nreplied in *.
  assert (length tp = 0%nat) by lia. split; [by destruct tp|].
  assert (Hall : sum_list_with replied ns = length ns) by lia.
  eapply Forall_impl; [by apply sum_all; [apply replied_le|lia]|]. cbn.
  intros n Hn. unfold replied, kinds in *. by destruct (inbox n).
Qed.

Lemma all_linked ns : nlinked ns = length ns -> Forall (fun n => linked n = true) ns.
Proof.
  intros H. eapply Forall_impl; [apply (sum_all (fun n => if linked n then 1 else 0)%nat); [|unfold nlinked in H; lia]|]; cbn; intros n; destruct (linked n); lia || done.
Qed.

End Protocol.
End BenchSystem.
