(* ===== verification/BenchRun.v ===== *)
(** Runs of the throughput benchmark: the invariant of [BenchSystem] is kept by every step
    of the publisher, and as long as no sample outlives a READY_TO_START every run ends, and
    it ends with all the results. *)
From S2P Require Import Prelude Throughput BenchTypes BenchSub BenchPub BenchSystem.
Import BenchTypes BenchSystem.

Module BenchRun.

(** ** The invariant is kept, whatever is still on its way at a READY_TO_START *)
Section Steps.
Context (prompt : bool) (c : BenchPub.setting).

#[local] Abbreviation Inv := (BenchSystem.Inv prompt c).

Lemma none_linked ns : Forall off ns -> nlinked ns = 0%nat.
Proof.
  unfold nlinked. induction 1 as [|n l Hn _ IH]; [done|]. cbn [sum_list_with].
  destruct Hn as (_ & _ & _ & _ & _ & Hl & _). cbn beta. rewrite Hl, IH. lia.
Qed.

Lemma linked_all ns : Forall (fun n => linked n = true) ns -> nlinked ns = length ns.
Proof.
  unfold nlinked. induction 1 as [|n l Hn _ IH]; [done|]. cbn [sum_list_with length]. cbn beta. rewrite Hn, IH. lia.
Qed.

#[local] Arguments kinds : simpl never.
#[local] Arguments send : simpl never.
#[local] Arguments broadcast : simpl never.
#[local] Arguments nlinked : simpl never.
#[local] Arguments nreplied : simpl never.

Section PubSteps.
Context (p : BenchPub.publisher) (ns : list node) (tp : list ThroughputCommandType).
Context (Hinv : Inv (mkSys p ns tp)).

Lemma inv_parts :
  pub_ok prompt c p /\ Z.of_nat (length ns) = BenchPub.subscribers_ c /\
  Forall (ok prompt (BenchPub.pc p) (BenchPub.samples p)) ns /\
  BenchPub.data_matches p = (if writing (BenchPub.pc p) then Z.of_nat (nlinked ns) else 0) /\
  replies_ok prompt p ns tp.
Proof. exact Hinv. Qed.

Lemma length_broadcast out ws : length (broadcast out ws ns) = length ns.
Proof. apply length_fmap. Qed.

(** Outside of the phases that collect replies nothing is on its way to the publisher. *)
Lemma nothing_pending : tracked (BenchPub.pc p) = false -> tp = [].
Proof. destruct inv_parts as (_ & _ & _ & _ & _ & Ht). intros E. by rewrite E in Ht. Qed.

Lemma discovery_inv p' out ws a :
  BenchPub.pc p = BenchPub.PDiscovery -> BenchPub.pub_step c a p = Some (p', out, ws) ->
  Inv (mkSys p' (broadcast out ws ns) tp).
Proof.
  intros Epc E. destruct inv_parts as (Hp & Hl & Hok & Hm & Hr).
  unfold BenchPub.pub_step, BenchPub.run_step, BenchPub.test_step in E. rewrite Epc in *. destruct (BenchPub.finds 2 c p); [|done].
  injection E as <- <- <-. rewrite broadcast_nothing. unfold pub_ok, replies_ok, counted in *. rewrite Epc in *.
  by split_and!.
Qed.

Lemma size_inv p' out ws a :
  BenchPub.pc p = BenchPub.PSize -> granted p a -> BenchPub.pub_step c a p = Some (p', out, ws) ->
  Inv (mkSys p' (broadcast out ws ns) tp).
Proof.
  intros Epc Hg E. destruct inv_parts as (Hp & Hl & Hok & Hm & Hr).
  unfold BenchPub.pub_step, BenchPub.run_step, BenchPub.test_step in E. rewrite Epc in *. unfold pub_ok in Hp. rewrite Epc in Hp.
  destruct Hp as (Hc & Hf & He & Hd & _).
  pose proof (nothing_pending ltac:(by rewrite Epc)) as ->.
  destruct (BenchPub.sizes p) as [|[s ds] sz] eqn:Es.
  - destruct a; try done. injection E as <- <- <-. rewrite broadcast_nothing.
    unfold Inv, BenchSystem.Inv, pub_ok, replies_ok, counted. cbn. by split_and!.
  - destruct a as [|r t e| | | | |]; try done. cbn in Hg. apply andb_true_iff in Hg as [Hg ->].
    apply andb_true_iff in Hg as [-> ->]. cbn in Hd. rewrite Hd, He in E. cbn in E. injection E as <- <- <-.
    unfold Inv, BenchSystem.Inv, pub_ok, replies_ok, counted, in_size. cbn. rewrite Es, length_broadcast, nlinked_broadcast.
    rewrite none_linked by (eapply Forall_impl; [exact Hok|]; cbn; tauto).
    split_and!; try done.
    eapply broadcast_ok; [exact Hok|]. cbn. intros n [Ho Hk]. left. split; [by apply off_send|].
    by rewrite kinds_app, Hk.
Qed.

Lemma match_inv p' out ws a :
  BenchPub.pc p = BenchPub.PMatch -> BenchPub.pub_step c a p = Some (p', out, ws) ->
  Inv (mkSys p' (broadcast out ws ns) tp).
Proof.
  intros Epc E. destruct inv_parts as (Hp & Hl & Hok & Hm & Hr).
  pose proof (nothing_pending ltac:(by rewrite Epc)) as ->.
  unfold BenchPub.pub_step, BenchPub.run_step, BenchPub.test_step in E. rewrite Epc in *. unfold pub_ok in Hp. rewrite Epc in Hp.
  destruct Hp as (Hc & Hf & He & Hd & Hz). cbn [writing] in Hm, He.
  destruct (BenchPub.finds 3 c p) eqn:F; [|done]. injection E as <- <- <-. rewrite broadcast_nothing.
  assert (Hall : Forall (fun n => linked n = true) ns).
  { apply all_linked. unfold BenchPub.finds, BenchPub.total_matches in F.
    destruct (_ && _); [|done]. zbool. lia. }
  unfold BenchSystem.Inv, pub_ok, replies_ok, counted, in_size in *. cbn.
  split_and!; try done.
  eapply Forall_impl; [apply Forall_and; split; [exact Hok|exact Hall]|]. cbn.
  intros n [[[Ho _]|Hn] Hln]; [|tauto].
  destruct Ho as (_ & _ & _ & _ & _ & Hln' & _). congruence.
Qed.

Lemma demand_inv p' out ws a :
  BenchPub.pc p = BenchPub.PDemand -> BenchPub.pub_step c a p = Some (p', out, ws) ->
  Inv (mkSys p' (broadcast out ws ns) tp).
Proof.
  intros Epc E. destruct inv_parts as (Hp & Hl & Hok & Hm & Hr).
  pose proof (nothing_pending ltac:(by rewrite Epc)) as ->.
  unfold BenchPub.pub_step, BenchPub.run_step, BenchPub.test_step in E. rewrite Epc in *. unfold pub_ok in Hp. rewrite Epc in Hp.
  destruct Hp as (Hc & Hf & He & Hd & Hz). cbn [writing] in Hm, He. unfold in_size in Hz.
  destruct (BenchPub.demands p) as [|d ds] eqn:Ed; [|destruct (BenchPub.recs p) as [|r rs] eqn:Er];
    injection E as <- <- <-; rewrite ?broadcast_nothing;
    unfold BenchSystem.Inv, pub_ok, replies_ok, counted, in_size, in_test; cbn; rewrite ?Epc; cbn.
  - by split_and!.
  - by split_and!.
  - rewrite length_broadcast, nlinked_broadcast, nreplied_sent, Ed, Er. split_and!; try done.
    eapply broadcast_ok; [exact Hok|]. cbn. intros n [Hn Hk]. left. rewrite kinds_app, Hk. split; [|done].
    destruct Hn as [[Hn Hln]|Hn]; [left; split; [by apply waits_send|done]|right; by apply on_send].
Qed.

Lemma begin_inv p' out ws a :
  BenchPub.pc p = BenchPub.PBegin -> granted p a -> BenchPub.pub_step c a p = Some (p', out, ws) ->
  Inv (mkSys p' (broadcast out ws ns) tp).
Proof.
  intros Epc Hg E. destruct inv_parts as (Hp & Hl & Hok & Hm & Hr).
  unfold BenchPub.pub_step, BenchPub.run_step, BenchPub.test_step in E. rewrite Epc in E.
  destruct (_ <? _) eqn:C; zbool; [by destruct a|].
  destruct (all_replied prompt c p ns tp) as [-> Hall]; [done|by rewrite Epc|done|done|].
  injection E as <- <- <-. rewrite broadcast_nothing. unfold pub_ok in Hp. rewrite Epc in *.
  unfold BenchSystem.Inv, pub_ok, replies_ok, counted, in_test in *. cbn. cbn in Hp.
  split_and!; try tauto; try done.
  eapply Forall_impl; [apply Forall_and; split; [exact Hok|exact Hall]|]. cbn.
  intros n [[[_ Hk]|Hn] Hk']; [congruence|done].
Qed.

Lemma test_finds : BenchPub.pc p = BenchPub.PTest -> BenchPub.finds 3 c p = true.
Proof.
  intros Epc. destruct inv_parts as (Hp & Hl & Hok & Hm & _). unfold pub_ok in Hp. rewrite Epc in *.
  destruct Hp as (Hc & _). cbn [writing] in Hm.
  unfold BenchPub.finds, BenchPub.total_matches. rewrite Hm, Hc, linked_all.
  - rewrite Hl. replace (_ && _) with true; [apply Z.eqb_eq; lia|].
    symmetry. apply andb_true_iff. rewrite !Z.leb_le. lia.
  - eapply Forall_impl; [exact Hok|]. cbn. intros n (Hon & _). apply Hon.
Qed.

Lemma test_inv p' out ws a :
  BenchPub.pc p = BenchPub.PTest -> BenchPub.pub_step c a p = Some (p', out, ws) ->
  Inv (mkSys p' (broadcast out ws ns) tp).
Proof.
  intros Epc E. pose proof (test_finds Epc) as F. destruct inv_parts as (Hp & Hl & Hok & Hm & Hr).
  pose proof (nothing_pending ltac:(by rewrite Epc)) as ->.
  unfold BenchPub.pub_step, BenchPub.run_step, BenchPub.test_step in E. rewrite Epc in *. unfold pub_ok in Hp. rewrite Epc in Hp.
  destruct Hp as (Hc & Hf & He & Hd & Hz). cbn [writing] in Hm, He.
  rewrite F in E. injection E as <- <- <-. unfold BenchSystem.Inv, pub_ok, replies_ok, counted in *. cbn.
  rewrite length_broadcast, nlinked_broadcast. split_and!; try done.
  eapply broadcast_ok; [exact Hok|]. cbn. intros n (Hon & Hfr & Hk). rewrite kinds_app, Hk.
  split_and!; [by apply on_send|by apply fresh_send|by left].
Qed.

Lemma ack_start_inv p' out ws a :
  BenchPub.pc p = BenchPub.PAckStart -> granted p a -> BenchPub.pub_step c a p = Some (p', out, ws) ->
  Inv (mkSys p' (broadcast out ws ns) tp).
Proof.
  intros Epc Hg E. destruct inv_parts as (Hp & Hl & Hok & Hm & Hr).
  unfold BenchPub.pub_step, BenchPub.run_step, BenchPub.test_step in E. rewrite Epc in *. unfold pub_ok, replies_ok, counted in *. rewrite Epc in *.
  destruct a as [| | |[]| | |]; try done. injection E as <- <- <-. rewrite broadcast_nothing. by split_and!.
Qed.

Lemma ack_end_inv p' out ws a :
  BenchPub.pc p = BenchPub.PAckEnd -> granted p a -> BenchPub.pub_step c a p = Some (p', out, ws) ->
  Inv (mkSys p' (broadcast out ws ns) tp).
Proof.
  intros Epc Hg E. destruct inv_parts as (Hp & Hl & Hok & Hm & Hr).
  unfold BenchPub.pub_step, BenchPub.run_step, BenchPub.test_step in E. rewrite Epc in *. unfold pub_ok, replies_ok, counted in *. rewrite Epc in *.
  destruct a as [| | |[]| | |]; try done. injection E as <- <- <-. rewrite broadcast_nothing.
  destruct Hp as (? & ? & ? & ? & ?). destruct Hr as [Hr [_ Ht]].
  split_and!; try done. all: cbn; lia || done.
Qed.

(** The loop of [test] writes as many samples as it says. *)
Lemma clock_sends t_start readings t_end0 d st :
  Z.of_nat (Z.to_nat d) * Z.of_nat (length readings) < 2 ^ 32 ->
  Throughput.test_sends readings t_start (BenchPub.test_time c) t_end0 (Z.to_nat d) = Some st ->
  Z.of_nat (length (Throughput.writes st)) = Throughput.samples st /\ 0 <= Throughput.samples st < 2 ^ 32.
Proof.
  intros Hb H. apply Throughput.send_loop_spec in H as ((H0 & E & Hw) & _ & k & Hk & Ek);
    [|split_and!; done|cbn; lia].
  rewrite Hw, E, length_seqZ. cbn in Ek. nia.
Qed.

Lemma send_inv p' out ws a :
  BenchPub.pc p = BenchPub.PSend -> granted p a -> BenchPub.pub_step c a p = Some (p', out, ws) ->
  Inv (mkSys p' (broadcast out ws ns) tp).
Proof.
  intros Epc Hg E. destruct inv_parts as (Hp & Hl & Hok & Hm & Hr).
  pose proof (nothing_pending ltac:(by rewrite Epc)) as ->.
  unfold BenchPub.pub_step, BenchPub.run_step, BenchPub.test_step in E. rewrite Epc in *. unfold pub_ok in Hp. rewrite Epc in Hp.
  destruct a as [| | | | | |t0 rd]; try done. destruct (BenchPub.demands p) as [|d ds] eqn:Ed; [done|].
  cbn in Hg. rewrite Ed in Hg. cbn in Hg.
  destruct (Throughput.test_sends _ _ _ _ _) as [st|] eqn:Es; [|done]. injection E as <- <- <-.
  apply clock_sends in Es as [Hlen Hsm]; [|done].
  unfold BenchSystem.Inv, pub_ok, replies_ok, counted, in_test in *. cbn. cbn in Hp. rewrite Ed in *.
  rewrite length_broadcast, nlinked_broadcast, nreplied_sent. split_and!; try tauto; try done.
  eapply broadcast_ok; [exact Hok|]. cbn. intros n (Hon & (Hw & Hrc & Hen) & Hk). left.
  rewrite kinds_app. split_and!; [by apply on_send| |destruct Hk as [-> | ->]; cbn; tauto].
  unfold counts. change (wire (send _ _ n)) with (wire n ++ Throughput.writes st).
  change (sub (send _ _ n)) with (sub n). split_and!; [done| |lia|done].
  intros Ep. destruct (Hw Ep) as [-> ->]. cbn [app]. lia.
Qed.

Lemma results_inv p' out ws a :
  BenchPub.pc p = BenchPub.PResults -> granted p a -> BenchPub.pub_step c a p = Some (p', out, ws) ->
  Inv (mkSys p' (broadcast out ws ns) tp).
Proof.
  intros Epc Hg E. destruct inv_parts as (Hp & Hl & Hok & Hm & Hr).
  unfold BenchPub.pub_step, BenchPub.run_step, BenchPub.test_step in E. rewrite Epc in E.
  destruct (_ <? _) eqn:C; zbool; [by destruct a|].
  destruct (all_replied prompt c p ns tp) as [-> Hall]; [done|by rewrite Epc|done|done|].
  injection E as <- <- <-. rewrite broadcast_nothing. unfold pub_ok in Hp. rewrite Epc in *.
  unfold BenchSystem.Inv, pub_ok, replies_ok, counted, in_test, in_size in *. cbn. cbn in Hp.
  split_and!; try tauto; try done.
  eapply Forall_impl; [apply Forall_and; split; [exact Hok|exact Hall]|]. cbn.
  intros n [[(_ & _ & [Hk|Hk])|Hn] Hk']; [congruence|congruence|tauto].
Qed.

Lemma dispose_inv p' out ws a :
  BenchPub.pc p = BenchPub.PDispose -> granted p a -> BenchPub.pub_step c a p = Some (p', out, ws) ->
  Inv (mkSys p' (broadcast out ws ns) tp).
Proof.
  intros Epc Hg E. destruct inv_parts as (Hp & Hl & Hok & Hm & Hr).
  pose proof (nothing_pending ltac:(by rewrite Epc)) as ->.
  unfold BenchPub.pub_step, BenchPub.run_step, BenchPub.test_step in E. rewrite Epc in *. unfold pub_ok in Hp. rewrite Epc in Hp.
  destruct Hp as (Hc & Hf & He & Hd & Hz). cbn [writing] in Hm, He. unfold in_size in Hz.
  destruct a as [| |d t u| | | |]; try done. cbn in Hg. apply andb_true_iff in Hg as [Hg ->].
  apply andb_true_iff in Hg as [-> ->].
  destruct (BenchPub.sizes p) as [|[s ds] sz] eqn:Es; [done|]. rewrite He in E. cbn in E. injection E as <- <- <-.
  unfold BenchSystem.Inv, pub_ok, replies_ok, counted, in_size. cbn.
  rewrite length_broadcast, nreplied_sent, Es. split_and!; try done.
  eapply broadcast_ok; [exact Hok|]. cbn. intros n [Hn Hk]. left. rewrite kinds_app, Hk. split; [|done].
  destruct Hn as [[Hn Hln]|Hn]; [left; split; [by apply waits_send|done]|right; by apply on_send].
Qed.

Lemma removed_inv p' out ws a :
  BenchPub.pc p = BenchPub.PRemoved -> granted p a -> BenchPub.pub_step c a p = Some (p', out, ws) ->
  Inv (mkSys p' (broadcast out ws ns) tp).
Proof.
  intros Epc Hg E. destruct inv_parts as (Hp & Hl & Hok & Hm & Hr).
  unfold BenchPub.pub_step, BenchPub.run_step, BenchPub.test_step in E. rewrite Epc in E.
  destruct (_ <? _) eqn:C; zbool; [by destruct a|].
  destruct (all_replied prompt c p ns tp) as [-> Hall]; [done|by rewrite Epc|done|done|].
  injection E as <- <- <-. rewrite broadcast_nothing. unfold pub_ok in Hp. rewrite Epc in *.
  unfold BenchSystem.Inv, pub_ok, replies_ok, counted in *. cbn. cbn in Hp.
  split_and!; try tauto; try done.
  eapply Forall_impl; [apply Forall_and; split; [exact Hok|exact Hall]|]. cbn.
  intros n [[[_ Hk]|Hn] Hk']; [congruence|tauto].
Qed.

Lemma stop_inv p' out ws a :
  BenchPub.pc p = BenchPub.PStop -> BenchPub.pub_step c a p = Some (p', out, ws) ->
  Inv (mkSys p' (broadcast out ws ns) tp).
Proof.
  intros Epc E. destruct inv_parts as (Hp & Hl & Hok & Hm & Hr).
  pose proof (nothing_pending ltac:(by rewrite Epc)) as ->.
  unfold BenchPub.pub_step, BenchPub.run_step, BenchPub.test_step in E. rewrite Epc in *. unfold pub_ok in Hp. rewrite Epc in Hp.
  destruct Hp as (Hc & Hf & He & Hd & _). rewrite Hf in E. injection E as <- <- <-.
  unfold BenchSystem.Inv, pub_ok, replies_ok, counted. cbn. rewrite length_broadcast. split_and!; try done.
  eapply broadcast_ok; [exact Hok|]. cbn. intros n [Hn Hk]. left. rewrite kinds_app, Hk.
  split; [by apply off_send|done].
Qed.

Lemma ack_stop_inv p' out ws a :
  BenchPub.pc p = BenchPub.PAckStop -> BenchPub.pub_step c a p = Some (p', out, ws) ->
  Inv (mkSys p' (broadcast out ws ns) tp).
Proof.
  intros Epc E. destruct inv_parts as (Hp & Hl & Hok & Hm & Hr).
  pose proof (nothing_pending ltac:(by rewrite Epc)) as ->.
  unfold BenchPub.pub_step, BenchPub.run_step, BenchPub.test_step in E. rewrite Epc in *. unfold pub_ok in Hp. rewrite Epc in Hp.
  destruct a; try done. injection E as <- <- <-. rewrite broadcast_nothing.
  unfold BenchSystem.Inv, pub_ok, replies_ok, counted. cbn. cbn in Hp. split_and!; try tauto; done.
Qed.

Lemma pub_inv p' out ws a :
  granted p a -> BenchPub.pub_step c a p = Some (p', out, ws) -> Inv (mkSys p' (broadcast out ws ns) tp).
Proof.
  intros Hg E. destruct (BenchPub.pc p) eqn:Epc.
  - by eapply discovery_inv.
  - by eapply size_inv.
  - by eapply match_inv.
  - by eapply demand_inv.
  - by eapply begin_inv.
  - by eapply test_inv.
  - by eapply ack_start_inv.
  - by eapply send_inv.
  - by eapply ack_end_inv.
  - by eapply results_inv.
  - by eapply dispose_inv.
  - by eapply removed_inv.
  - by eapply stop_inv.
  - by eapply ack_stop_inv.
  - unfold BenchPub.pub_step, BenchPub.run_step, BenchPub.test_step in E. by rewrite Epc in E.
  - unfold BenchPub.pub_step, BenchPub.run_step, BenchPub.test_step in E. by rewrite Epc in E.
Qed.

(** None of these steps aborts. *)
Lemma pub_no_abort p' out ws a :
  granted p a -> BenchPub.pub_step c a p = Some (p', out, ws) -> BenchPub.pc p' <> BenchPub.PAborted.
Proof.
  intros Hg E. destruct inv_parts as ((_ & _ & _ & Htd & _) & _). pose proof test_finds as F.
  unfold BenchPub.pub_step, BenchPub.run_step, BenchPub.test_step in E.
  destruct (BenchPub.pc p) eqn:Epc; cbn [writing] in Htd; try done.
  all: try rewrite F in E by done.
  all: rewrite ?Htd in E; cbn in E; repeat case_match; simplify_eq/=; try done.
  all: try congruence.
  all: try (destruct a; done).
  destruct (Throughput.test_sends _ _ _ _ _); by simplify_eq/=.
Qed.

End PubSteps.

(** A command is taken. *)
Lemma enter_result_some num payload d r samples cmd rs :
  m_receivedsamples cmd <= samples -> num = 1 \/ rs <> [] ->
  exists rs', BenchPub.enter_result num payload d r samples cmd rs = Some rs' /\ rs' <> [].
Proof.
  intros Hs Hn. unfold BenchPub.enter_result. rewrite (proj2 (Z.ltb_ge _ _)) by lia.
  destruct (num =? 1) eqn:E; zbool.
  - eexists. split; [done|]. by destruct rs.
  - destruct Hn as [Hn|Hn]; [done|]. destruct (last rs) eqn:El.
    + eexists. split; [done|]. intros H. by apply app_eq_nil in H as [_ H].
    + apply last_None in El. done.
Qed.

Lemma enter_result_none num payload d r samples cmd rs :
  samples < m_receivedsamples cmd -> BenchPub.enter_result num payload d r samples cmd rs = None.
Proof. intros Hs. unfold BenchPub.enter_result. by rewrite (proj2 (Z.ltb_lt _ _)) by lia. Qed.

Lemma take_inv p ns cmd tp p' out ws :
  Inv (mkSys p ns (cmd :: tp)) -> collecting (BenchPub.pc p) = true ->
  BenchPub.ready p < BenchPub.subscribers_ c ->
  BenchPub.pub_step c (BenchPub.Taken (Some cmd)) p = Some (p', out, ws) ->
  Inv (mkSys p' (broadcast out ws ns) tp).
Proof.
  intros Hinv Hcol Hrd E. destruct Hinv as (Hp & Hl & Hok & Hm & Hr & Ht). cbn [pub subs to_pub] in *.
  apply Forall_cons in Hr as [Hc Hr]. unfold BenchPub.pub_step, BenchPub.run_step, BenchPub.test_step in E.
  rewrite (proj2 (Z.ltb_lt _ _) Hrd) in E. unfold pub_ok in Hp.
  destruct (BenchPub.pc p) eqn:Epc; try done; cbn [tracked collecting reply_ok] in *;
    destruct Ht as [Ht0 Ht]; specialize (Ht0 eq_refl); cbn [length] in Ht.
  - rewrite BenchPub.collect_counts in E by done. injection E as <- <- <-. rewrite broadcast_nothing.
    unfold BenchSystem.Inv, pub_ok, replies_ok, counted in *. cbn. rewrite Epc in *. cbn in *.
    split_and!; try tauto; try done; lia.
  - destruct Hp as (? & ? & ? & ? & Hit & Hne). pose proof Hit as (_ & Hd & Hrs).
    rewrite bool_decide_true in E by tauto.
    destruct (BenchPub.demands p) as [|d ds] eqn:Ed; [done|].
    destruct (BenchPub.recs p) as [|r rs] eqn:Er; [done|].
    destruct (Z.lt_ge_cases (BenchPub.samples p) (m_receivedsamples cmd)) as [C|C].
    { rewrite enter_result_none in E by done. injection E as <- <- <-. rewrite broadcast_nothing.
      assert (prompt = false) by (destruct prompt; [|done]; destruct Hc as (_ & _ & Hc); specialize (Hc eq_refl); lia).
      unfold BenchSystem.Inv, pub_ok, replies_ok, counted in *. cbn. rewrite Epc in *.
      split_and!; try tauto; try done. cbn in *. rewrite bool_decide_true by done. lia. }
    destruct (enter_result_some (BenchPub.ready p + 1)
      (wrapU 32 (match BenchPub.sizes p with (s, _) :: _ => s | [] => 0 end + overhead)) d r
      (BenchPub.samples p) cmd (BenchPub.results_ p)) as (rs' & E' & Hrs'); [done| |].
    { destruct (Z.eq_dec (BenchPub.ready p) 0); [left; lia|right; apply Hne; lia]. }
    rewrite E' in E. injection E as <- <- <-. rewrite broadcast_nothing.
    unfold BenchSystem.Inv, pub_ok, replies_ok, counted, in_test in *. cbn. rewrite Epc, Ed, Er in *. cbn in *.
    split_and!; try tauto; try done; lia.
  - rewrite BenchPub.collect_counts in E by done. injection E as <- <- <-. rewrite broadcast_nothing.
    unfold BenchSystem.Inv, pub_ok, replies_ok, counted, in_size in *. cbn. rewrite Epc in *. cbn in *.
    split_and!; try tauto; try done; lia.
Qed.

Lemma step_inv s s' : Inv s -> sys_step prompt c s s' -> Inv s'.
Proof.
  intros Hi Hs. destruct Hs.
  - by eapply pub_inv.
  - by eapply take_inv.
  - by eapply step_node_inv.
Qed.

Lemma start_inv sizes : 0 <= BenchPub.subscribers_ c -> Inv (start c sizes).
Proof.
  intros H. unfold BenchSystem.Inv, pub_ok, replies_ok, counted. cbn. rewrite length_replicate.
  split_and!; try done; [lia|]. apply Forall_replicate. split; [|done].
  split_and!; try done. by left.
Qed.

End Steps.

Section Runs.
Context (c : BenchPub.setting).

#[local] Arguments kinds : simpl never.
#[local] Arguments send : simpl never.
#[local] Arguments broadcast : simpl never.
#[local] Arguments nlinked : simpl never.
#[local] Arguments nreplied : simpl never.

#[local] Abbreviation Inv1 := (BenchSystem.Inv true c).

(** When no sample outlives a READY_TO_START the publisher does not abort. *)
Lemma not_aborted p : pub_ok true c p -> BenchPub.pc p <> BenchPub.PAborted.
Proof. intros (_ & _ & _ & _ & H) E. by rewrite E in H. Qed.

(** ** The results

    The tests that [run] makes, in their order: payload, demand and recovery time. *)
Definition key (r : BenchPub.result) : Z * Z * Z :=
  (BenchPub.payload_size r, BenchPub.r_demand r, BenchPub.recovery_time_ms r).
Definition demand_tests (s d : Z) (rs : list Z) : list (Z * Z * Z) :=
  (fun r => (wrapU 32 (s + overhead), d, r)) <$> rs.
Definition size_tests (s : Z) (ds : list Z) : list (Z * Z * Z) :=
  ds ≫= (fun d => demand_tests s d (BenchPub.recovery_times_ c)).
Definition all_tests (sz : list (Z * list Z)) : list (Z * Z * Z) :=
  sz ≫= (fun sd => size_tests sd.1 sd.2).

(** What remains of the current size, and of all *)
Definition current (p : BenchPub.publisher) : list (Z * Z * Z) :=
  match BenchPub.sizes p, BenchPub.demands p with
  | (s, _) :: _, d :: ds => demand_tests s d (BenchPub.recs p) ++ size_tests s ds
  | _, _ => []
  end.
Definition remaining (p : BenchPub.publisher) : list (Z * Z * Z) :=
  match BenchPub.pc p with
  | BenchPub.PDiscovery | BenchPub.PSize | BenchPub.PMatch => all_tests (BenchPub.sizes p)
  | BenchPub.PDemand | BenchPub.PBegin | BenchPub.PTest | BenchPub.PAckStart | BenchPub.PSend | BenchPub.PAckEnd =>
      current p ++ all_tests (tail (BenchPub.sizes p))
  | BenchPub.PResults =>
      (if BenchPub.ready p =? 0 then current p else tail (current p)) ++ all_tests (tail (BenchPub.sizes p))
  | BenchPub.PDispose | BenchPub.PRemoved => all_tests (tail (BenchPub.sizes p))
  | _ => []
  end.

(** Received and lost samples make up the sent ones, as far as 32 bits show it. *)
Definition balanced (r : BenchPub.result) : Prop :=
  wrapU 32 (BenchPub.recv_samples r + BenchPub.lost_samples r) = wrapU 32 (BenchPub.send_samples r).

Record ledger (all : list (Z * Z * Z)) (p : BenchPub.publisher) : Prop := {
  ledger_keys : (key <$> BenchPub.results_ p) ++ remaining p = all;
  ledger_balanced : Forall balanced (BenchPub.results_ p);
  ledger_printed : BenchPub.pc p = BenchPub.PDone -> BenchPub.printed p = true;
  ledger_sizes : Forall (fun sd => Forall Throughput.uint32 sd.2) (BenchPub.sizes p);
  ledger_demands : Forall Throughput.uint32 (BenchPub.demands p);
}.

Lemma wrapU_eq a b q : a = b + q * 2 ^ 32 -> wrapU 32 a = wrapU 32 b.
Proof. intros ->. unfold wrapU. by rewrite Z.mod_add. Qed.

Lemma wrapU_spec w x : exists q, wrapU w x = x + q * 2 ^ w.
Proof.
  unfold wrapU. exists (- (x / 2 ^ w)). destruct (Z.eq_dec (2 ^ w) 0) as [E|E].
  - rewrite E, Z.mod_0_r. lia.
  - pose proof (Z.div_mod x (2 ^ w) E). lia.
Qed.

Lemma enter_result_ledger num payload d r samples cmd rs rs' :
  BenchPub.enter_result num payload d r samples cmd rs = Some rs' -> Forall balanced rs ->
  Forall balanced rs' /\
  (key <$> rs') = if num =? 1 then (key <$> rs) ++ [(payload, d, r)] else key <$> rs.
Proof.
  unfold BenchPub.enter_result. intros H Hb. destruct (_ <? _); [done|].
  assert (Hn : balanced (BenchPub.mkResult payload d r samples (m_receivedsamples cmd)
    (wrapU 32 (samples - wrapU 32 (m_receivedsamples cmd))))).
  { unfold balanced. cbn [BenchPub.recv_samples BenchPub.lost_samples BenchPub.send_samples].
    destruct (wrapU_spec 32 (m_receivedsamples cmd)) as [q1 E1].
    destruct (wrapU_spec 32 (samples - wrapU 32 (m_receivedsamples cmd))) as [q2 E2].
    apply (wrapU_eq _ _ (q2 - q1)). rewrite E2, E1. lia. }
  destruct (num =? 1).
  - injection H as <-. split; [by apply Forall_app; split; [|constructor]|]. by rewrite fmap_app.
  - destruct (last rs) as [e|] eqn:El; [|done]. injection H as <-.
    apply last_Some in El as [rs0 ->]. rewrite removelast_last.
    apply Forall_app in Hb as [Hb0 He]. apply Forall_cons in He as [He _]. split.
    + apply Forall_app. split; [done|]. constructor; [|constructor].
      unfold balanced in *. cbn [BenchPub.recv_samples BenchPub.lost_samples BenchPub.send_samples] in *.
      set (r0 := BenchPub.recv_samples e) in *. set (l0 := BenchPub.lost_samples e) in *.
      set (s0 := BenchPub.send_samples e) in *. clearbody r0 l0 s0.
      set (l1 := wrapU 32 (samples - wrapU 32 (m_receivedsamples cmd))) in *. clearbody l1.
      destruct (wrapU_spec 64 (s0 + samples)) as [q1 E1].
      destruct (wrapU_spec 64 (r0 + m_receivedsamples cmd)) as [q2 E2].
      destruct (wrapU_spec 32 (l0 + l1)) as [q3 E3].
      destruct (wrapU_spec 32 (r0 + l0)) as [q4 E4]. destruct (wrapU_spec 32 s0) as [q5 E5].
      destruct (wrapU_spec 32 (m_receivedsamples cmd + l1)) as [q6 E6]. destruct (wrapU_spec 32 samples) as [q7 E7].
      rewrite E1, E2, E3. apply (wrapU_eq _ _ ((q2 - q1) * 2 ^ 32 + q3 + q5 - q4 + q7 - q6)). lia.
    + by rewrite !fmap_app.
Qed.

Lemma all_tests_cons s ds sz : all_tests ((s, ds) :: sz) = size_tests s ds ++ all_tests sz.
Proof. done. Qed.
Lemma current_nil p : BenchPub.demands p = [] -> current p = [].
Proof. unfold current. intros ->. by destruct (BenchPub.sizes p) as [|[]]. Qed.
Lemma current_cons p s ds0 sz d ds :
  BenchPub.sizes p = (s, ds0) :: sz -> BenchPub.demands p = d :: ds ->
  current p = demand_tests s d (BenchPub.recs p) ++ size_tests s ds.
Proof. unfold current. by intros -> ->. Qed.

Lemma ledger_pub all p a p' out ws :
  pub_ok true c p -> 0 < BenchPub.subscribers_ c -> granted p a ->
  BenchPub.pub_step c a p = Some (p', out, ws) -> pub_ok true c p' -> ledger all p -> ledger all p'.
Proof.
  intros Hp HN Hg E Hp' [Hk Hb Hpr Hs Hd]. unfold BenchPub.pub_step, BenchPub.run_step, BenchPub.test_step in E. unfold remaining in Hk. unfold pub_ok in Hp.
  destruct Hp as (Hc & Hf & He & Htd & Hx).
  destruct (BenchPub.pc p) eqn:Epc; cbn [writing] in *; try done.
  - destruct (BenchPub.finds 2 c p); [|done]. by injection E as <- <- <-.
  - destruct (BenchPub.sizes p) as [|[s ds] sz] eqn:Es.
    + destruct a; try done. injection E as <- <- <-. constructor; cbn; try done. by rewrite Es.
    + destruct a as [|r t e| | | | |]; try done. cbn in Hg. apply andb_true_iff in Hg as [Hg ->].
      apply andb_true_iff in Hg as [-> ->]. cbn in Htd. rewrite Htd, He in E. cbn in E. injection E as <- <- <-.
      constructor; cbn; rewrite ?Es; done.
  - destruct (BenchPub.finds 3 c p); [|done]. injection E as <- <- <-. unfold in_size in Hx.
    destruct (BenchPub.sizes p) as [|[s ds] sz] eqn:Es; [done|].
    constructor; cbn; try done; rewrite ?Es; [|by apply Forall_cons in Hs as [? _]].
    rewrite all_tests_cons in Hk. unfold current. cbn. rewrite ?Es.
    destruct ds as [|d ds]; [done|]. cbn in Hk. by rewrite <- app_assoc in *.
  - unfold in_size in Hx. destruct (BenchPub.sizes p) as [|[s ds0] sz] eqn:Es; [done|].
    destruct (BenchPub.demands p) as [|d ds] eqn:Ed; [|destruct (BenchPub.recs p) as [|r rs] eqn:Er];
      injection E as <- <- <-.
    + constructor; cbn; rewrite ?Es, ?Ed; try done. by rewrite current_nil in Hk.
    + rewrite (current_cons p s ds0 sz d ds), Er in Hk by done. cbn [demand_tests fmap list_fmap app] in Hk.
      constructor; cbn; rewrite ?Epc, ?Es; try done; [|by apply Forall_cons in Hd as [_ ?]].
      unfold remaining. cbn. rewrite Epc. unfold current. cbn.
      destruct ds as [|d' ds]; [done|]. exact Hk.
    + constructor; cbn; rewrite ?Es, ?Ed; done.
  - destruct (_ <? _) eqn:C; [by destruct a|]. by injection E as <- <- <-.
  - destruct (BenchPub.finds 3 c p); injection E as <- <- <-; [done|]. by apply not_aborted in Hp'.
  - destruct a as [| | |[]| | |]; try done. by injection E as <- <- <-.
  - destruct a as [| | | | | |t0 rd]; try done. destruct (BenchPub.demands p) as [|d ds] eqn:Ed; [done|].
    destruct (Throughput.test_sends _ _ _ _ _) as [st|]; [|done]. injection E as <- <- <-.
    constructor; cbn; rewrite ?Ed; done.
  - destruct a as [| | |[]| | |]; try done. by injection E as <- <- <-.
  - destruct (_ <? _) eqn:C; [by destruct a|]. injection E as <- <- <-. zbool.
    rewrite (proj2 (Z.eqb_neq _ _)) in Hk by lia.
    destruct Hx as [(Hz & Hdn & Hrn) _]. constructor; cbn; try done.
    destruct (BenchPub.sizes p) as [|[s ds0] sz] eqn:Es; [done|].
    destruct (BenchPub.demands p) as [|d ds] eqn:Ed; [done|].
    destruct (BenchPub.recs p) as [|r rs] eqn:Er; [done|].
    rewrite (current_cons p s ds0 sz d ds), Er in Hk by done. exact Hk.
  - destruct a as [| |d t u| | | |]; try done. destruct (BenchPub.sizes p) as [|[s ds] sz] eqn:Es; [done|].
    destruct (Throughput.destroy_data_endpoints d t u (BenchPub.ends p)) as [[] e]; injection E as <- <- <-.
    + constructor; cbn; rewrite ?Es; done.
    + exfalso. destruct Hp' as (_ & Hf' & _). done.
  - destruct (_ <? _) eqn:C; [by destruct a|]. injection E as <- <- <-. zbool.
    constructor; cbn; try done. by destruct Hs.
  - rewrite Hf in E. injection E as <- <- <-. constructor; cbn; done.
  - destruct a; try done. injection E as <- <- <-. constructor; cbn; done.
Qed.

Lemma ledger_take all p cmd tp p' out ws :
  pub_ok true c p -> Forall (reply_ok true (BenchPub.pc p) (BenchPub.samples p)) (cmd :: tp) ->
  collecting (BenchPub.pc p) = true -> BenchPub.ready p < BenchPub.subscribers_ c ->
  0 <= BenchPub.ready p ->
  BenchPub.pub_step c (BenchPub.Taken (Some cmd)) p = Some (p', out, ws) -> pub_ok true c p' -> ledger all p -> ledger all p'.
Proof.
  intros Hp Hr Hcol Hrd H0 E Hp' [Hk Hb Hpr Hs Hd]. apply Forall_cons in Hr as [Hr _].
  unfold BenchPub.pub_step, BenchPub.run_step, BenchPub.test_step in E. rewrite (proj2 (Z.ltb_lt _ _) Hrd) in E.
  unfold remaining in Hk. destruct Hp as (_ & _ & _ & _ & Hx).
  destruct (BenchPub.pc p) eqn:Epc; try done; cbn [reply_ok] in Hr.
  - rewrite BenchPub.collect_counts in E by done. injection E as <- <- <-.
    constructor; cbn; rewrite ?Epc; try done. unfold remaining. cbn. by rewrite Epc.
  - rewrite bool_decide_true in E by tauto. destruct Hx as [(Hz & Hdn & Hrn) _].
    destruct (BenchPub.sizes p) as [|[s ds0] sz] eqn:Es; [done|].
    destruct (BenchPub.demands p) as [|d ds] eqn:Ed; [done|].
    destruct (BenchPub.recs p) as [|r rs] eqn:Er; [done|].
    destruct (BenchPub.enter_result _ _ _ _ _ _ _) as [rs'|] eqn:En; injection E as <- <- <-;
      [|by apply not_aborted in Hp'].
    apply enter_result_ledger in En as [Hb' Hkeys]; [|done].
    rewrite (current_cons p s ds0 sz d ds), Er in Hk by done.
    constructor; cbn; rewrite ?Epc, ?Es, ?Ed; try done.
    unfold remaining. cbn. rewrite Epc, Hkeys, Es, (proj2 (Z.eqb_neq (BenchPub.ready p + 1) 0)) by lia.
    rewrite (current_cons _ s ds0 sz d ds) by done. cbn. rewrite Er.
    destruct (BenchPub.ready p =? 0) eqn:C; zbool.
    + rewrite C in *. change (0 + 1 =? 1) with true. cbn in Hk |- *. by rewrite <- ?app_assoc in *.
    + rewrite (proj2 (Z.eqb_neq (BenchPub.ready p + 1) 1)) by lia. exact Hk.
  - rewrite BenchPub.collect_counts in E by done. injection E as <- <- <-.
    constructor; cbn; rewrite ?Epc; try done. unfold remaining. cbn. by rewrite Epc.
Qed.

(** ** Every run ends

    The steps the publisher has still to make when all goes well *)
Section Measure.
Let n : nat := Z.to_nat (BenchPub.subscribers_ c).
Let rn : nat := length (BenchPub.recovery_times_ c).
Let test_work : nat := 2 * n + 7.

Definition demands_work (ds rs : list Z) : nat :=
  match ds with [] => 0 | _ :: ds => length rs * test_work + 1 + length ds * (rn * test_work + 1) end.
Definition sizes_work (sz : list (Z * list Z)) : nat :=
  sum_list_with (fun sd => 2 + demands_work sd.2 (BenchPub.recovery_times_ c) + n + 3)%nat sz.
Lemma sizes_work_cons s ds sz :
  sizes_work ((s, ds) :: sz) = (2 + demands_work ds (BenchPub.recovery_times_ c) + n + 3 + sizes_work sz)%nat.
Proof. done. Qed.
#[local] Arguments sizes_work : simpl never.

Definition to_collect (p : BenchPub.publisher) : nat := Z.to_nat (BenchPub.subscribers_ c - BenchPub.ready p).

Definition work (p : BenchPub.publisher) : nat :=
  let after := (sizes_work (tail (BenchPub.sizes p)) + 3)%nat in
  let next := (demands_work (BenchPub.demands p) (tail (BenchPub.recs p)) + n + 3 + after)%nat in
  match BenchPub.pc p with
  | BenchPub.PDiscovery => sizes_work (BenchPub.sizes p) + 4
  | BenchPub.PSize => sizes_work (BenchPub.sizes p) + 3
  | BenchPub.PMatch =>
      match BenchPub.sizes p with
      | (_, ds) :: _ => 1 + demands_work ds (BenchPub.recovery_times_ c) + n + 3 + after
      | [] => 0
      end
  | BenchPub.PDemand => demands_work (BenchPub.demands p) (BenchPub.recs p) + n + 3 + after
  | BenchPub.PBegin => next + n + 6 + to_collect p
  | BenchPub.PTest => next + n + 5
  | BenchPub.PAckStart => next + n + 4
  | BenchPub.PSend => next + n + 3
  | BenchPub.PAckEnd => next + n + 2
  | BenchPub.PResults => next + 1 + to_collect p
  | BenchPub.PDispose => n + 2 + after
  | BenchPub.PRemoved => to_collect p + 1 + after
  | BenchPub.PStop => 2
  | BenchPub.PAckStop => 1
  | BenchPub.PDone | BenchPub.PAborted => 0
  end%nat.

Lemma work_pub p a p' out ws :
  pub_ok true c p -> granted p a -> BenchPub.pub_step c a p = Some (p', out, ws) -> pub_ok true c p' ->
  (work p' < work p)%nat.
Proof.
  intros Hp Hg E Hp'. unfold BenchPub.pub_step, BenchPub.run_step, BenchPub.test_step in E. destruct Hp as (Hc & Hf & He & Htd & Hx).
  unfold work at 2. destruct (BenchPub.pc p) eqn:Epc; cbn [writing] in *; try done.
  - destruct (BenchPub.finds 2 c p); [|done]. injection E as <- <- <-. unfold work. cbn. lia.
  - destruct (BenchPub.sizes p) as [|[s ds] sz] eqn:Es.
    + destruct a; try done. injection E as <- <- <-. unfold work. cbn. lia.
    + destruct a as [|r t e| | | | |]; try done. cbn in Hg. apply andb_true_iff in Hg as [Hg ->].
      apply andb_true_iff in Hg as [-> ->]. cbn in Htd. rewrite Htd, He in E. cbn in E. injection E as <- <- <-.
      rewrite sizes_work_cons. unfold work. cbn. rewrite ?Es. cbn. lia.
  - destruct (BenchPub.finds 3 c p); [|done]. injection E as <- <- <-. unfold in_size in Hx.
    destruct (BenchPub.sizes p) as [|[s ds] sz] eqn:Es; [done|]. unfold work. cbn. rewrite ?Es. cbn. lia.
  - destruct (BenchPub.demands p) as [|d ds] eqn:Ed; [|destruct (BenchPub.recs p) as [|r rs] eqn:Er];
      injection E as <- <- <-; unfold work; cbn; rewrite ?Epc, ?Ed, ?Er; cbn.
    + lia.
    + destruct ds; cbn; fold rn; lia.
    + unfold to_collect. cbn. rewrite Z.sub_0_r. fold n. lia.
  - destruct (_ <? _) eqn:C; [by destruct a|]. injection E as <- <- <-. unfold work. cbn. lia.
  - destruct (BenchPub.finds 3 c p); injection E as <- <- <-; unfold work; cbn; lia.
  - destruct a as [| | |[]| | |]; try done. injection E as <- <- <-. unfold work. cbn. lia.
  - destruct a as [| | | | | |t0 rd]; try done. destruct (BenchPub.demands p) as [|d ds] eqn:Ed; [done|].
    destruct (Throughput.test_sends _ _ _ _ _) as [st|]; [|done]. injection E as <- <- <-.
    unfold work. cbn. rewrite ?Ed. cbn. lia.
  - destruct a as [| | |[]| | |]; try done. injection E as <- <- <-. unfold work, to_collect. cbn.
    rewrite Z.sub_0_r. fold n. lia.
  - destruct (_ <? _) eqn:C; [by destruct a|]. injection E as <- <- <-. unfold work. cbn. lia.
  - destruct a as [| |d t u| | | |]; try done. destruct (BenchPub.sizes p) as [|[s ds] sz] eqn:Es; [done|].
    destruct (Throughput.destroy_data_endpoints d t u (BenchPub.ends p)) as [[] e]; injection E as <- <- <-;
      unfold work, to_collect; cbn; rewrite ?Es; cbn; rewrite ?Z.sub_0_r; fold n; lia.
  - destruct (_ <? _) eqn:C; [by destruct a|]. injection E as <- <- <-. unfold work. cbn. lia.
  - rewrite Hf in E. injection E as <- <- <-. unfold work. cbn. lia.
  - destruct a; try done. injection E as <- <- <-. unfold work. cbn. lia.
Qed.

Lemma work_take p cmd tp p' out ws :
  pub_ok true c p -> Forall (reply_ok true (BenchPub.pc p) (BenchPub.samples p)) (cmd :: tp) ->
  collecting (BenchPub.pc p) = true -> BenchPub.ready p < BenchPub.subscribers_ c ->
  0 <= BenchPub.ready p ->
  BenchPub.pub_step c (BenchPub.Taken (Some cmd)) p = Some (p', out, ws) -> pub_ok true c p' ->
  (work p' < work p)%nat.
Proof.
  intros Hp Hr Hcol Hrd H0 E Hp'. apply Forall_cons in Hr as [Hr _].
  unfold BenchPub.pub_step, BenchPub.run_step, BenchPub.test_step in E. rewrite (proj2 (Z.ltb_lt _ _) Hrd) in E.
  destruct (BenchPub.pc p) eqn:Epc; try done; cbn [reply_ok] in Hr.
  - rewrite BenchPub.collect_counts in E by done. injection E as <- <- <-.
    unfold work, to_collect. cbn. rewrite Epc. lia.
  - rewrite bool_decide_true in E by tauto.
    destruct (BenchPub.demands p) as [|d ds] eqn:Ed; [done|].
    destruct (BenchPub.recs p) as [|r rs] eqn:Er; [done|].
    destruct (BenchPub.enter_result _ _ _ _ _ _ _) as [rs'|] eqn:En; injection E as <- <- <-;
      [|by apply not_aborted in Hp'].
    unfold work, to_collect. cbn. rewrite Epc. lia.
  - rewrite BenchPub.collect_counts in E by done. injection E as <- <- <-.
    unfold work, to_collect. cbn. rewrite Epc. lia.
Qed.
End Measure.

(** The steps a subscriber can make before the publisher moves *)
Definition pc_work (k : BenchSub.spc) : nat :=
  match k with BenchSub.SDiscovery | BenchSub.SMatch => 1 | _ => 0 end.
Definition link_work (reader lk : bool) : nat := if reader && negb lk then 1 else 0.
Definition node_work (nd : node) : nat :=
  length (wire nd) + 4 * length (inbox nd) + pc_work (BenchSub.pc (sub nd)) +
  link_work (has_reader (sub nd)) (linked nd).

Lemma node_work_step writer nd nd' out k :
  node_step true writer nd nd' out k -> (node_work nd' < node_work nd)%nat.
Proof.
  assert (Hpc : forall k, (pc_work k <= 1)%nat) by (intros []; cbn; lia).
  assert (Hlk : forall r lk, (link_work r lk <= 1)%nat) by (intros [] []; cbn; lia).
  intros H. destruct H as [s cmd q w lk a count d s' out Ha Hc Hd E|s q w lk s' out E|s q w s' out Hw Hr E|s q x w lk s' out He E|s q x w lk];
    unfold node_work; cbn [wire inbox sub linked length].
  - unfold BenchSub.sub_step in E. destruct (BenchSub.pc s); try discriminate.
    assert (length (left_wire d cmd s' w) <= length w)%nat.
    { unfold left_wire. repeat case_match; rewrite ?length_drop; cbn; lia. }
    specialize (Hpc (BenchSub.pc s')). specialize (Hlk (has_reader s') (lk && has_reader s')). lia.
  - unfold BenchSub.sub_step in E. destruct (BenchSub.pc s) eqn:Ep; try discriminate;
      destruct (BenchSub.finds _ s); try discriminate; injection E as <- <-;
      change (has_reader (BenchSub.set_pc BenchSub.SLoop s)) with (has_reader s); cbn [BenchSub.set_pc BenchSub.pc pc_work]; lia.
  - unfold has_reader in Hr. unfold BenchSub.sub_step in E. rewrite Hr in E.
    assert (s' = BenchSub.set_listener (Throughput.on_subscription_matched 1 (BenchSub.data_reader_listener_ s)) s) as ->
      by (destruct (BenchSub.pc s); by injection E).
    unfold has_reader. cbn. rewrite Hr. cbn. lia.
  - assert (Hs : (pc_work (BenchSub.pc s') <= pc_work (BenchSub.pc s))%nat /\ has_reader s' = has_reader s).
    { assert (s' = BenchSub.set_pc BenchSub.SCrashed s \/ exists l, s' = BenchSub.set_listener l s) as [->|[l ->]];
        [|cbn; split; [lia|done]|by split].
      unfold BenchSub.sub_step in E. destruct (BenchSub.pc s);
        (destruct (Throughput.endpoint _); [|done]);
        (destruct (_ && _); [injection E as <- <-; by left|]);
        (destruct (Throughput.on_data_available _ _) as [l|]; injection E as <- <-; [right; by exists l|by left]). }
    destruct Hs as [Hs ->]. lia.
  - lia.
Qed.

(** ** Until the end somebody can move *)

Definition all_good : BenchSub.answers := BenchSub.mkAnswers true true true true true true 0.

(** A subscriber that has a command to handle, or waits for what is there, can move. *)
Lemma turn_possible writer nd :
  BenchSub.pc (sub nd) = BenchSub.SLoop -> inbox nd <> [] -> exists nd' out k, node_step true writer nd nd' out k.
Proof.
  destruct nd as [s [|cmd q] w lk]; cbn; [done|]. intros Hp _.
  destruct (BenchSub.run_turn all_good 0 (Some cmd) s) as [s' out] eqn:E.
  do 3 eexists. eapply (node_turn true writer s cmd q w lk all_good 0 (length w)); [done|lia|done|]. by rewrite turn_eq, E.
Qed.

Lemma wake_possible writer nd :
  (BenchSub.pc (sub nd) = BenchSub.SDiscovery /\ BenchSub.finds 2 (sub nd) = true) \/
  (BenchSub.pc (sub nd) = BenchSub.SMatch /\ BenchSub.finds 3 (sub nd) = true) ->
  exists nd' out k, node_step true writer nd nd' out k.
Proof.
  destruct nd as [s q w lk]; cbn. intros [[Hp F]|[Hp F]];
    (do 3 eexists; eapply (node_wake true writer s q w lk); unfold BenchSub.sub_step; by rewrite Hp, F).
Qed.

Lemma off_can writer nd : off nd -> inbox nd <> [] -> exists nd' out k, node_step true writer nd nd' out k.
Proof.
  intros ([Hp|Hp] & He & Hd & Hc & Hm & _) Hi; [|by apply turn_possible].
  apply wake_possible. left. split; [done|]. unfold BenchSub.finds, BenchSub.total_matches.
  unfold matched in Hm. by rewrite Hm, Hc.
Qed.

Lemma waits_can writer nd : waits nd -> linked nd = true \/ writer = true -> exists nd' out k, node_step true writer nd nd' out k.
Proof.
  intros Hw Hlk. destruct (linked nd) eqn:El.
  - apply wake_possible. right. split; [apply Hw|]. by rewrite finds3_waits.
  - destruct Hlk as [?|Hwr]; [done|]. destruct Hw as (Hp & He & _). destruct nd as [s q w lk]; cbn in *. subst lk.
    do 3 eexists. eapply (node_match true writer s q w); [done|unfold has_reader; by rewrite He|].
    unfold BenchSub.sub_step. by rewrite He.
Qed.

Lemma on_can writer nd : on nd -> inbox nd <> [] -> exists nd' out k, node_step true writer nd nd' out k.
Proof. intros (Hp & _) Hi. by apply turn_possible. Qed.

Lemma node_moves p ns tp nd nd' out k :
  nd ∈ ns -> node_step true (Throughput.endpoint (BenchPub.ends p)) nd nd' out k ->
  exists s', sys_step true c (mkSys p ns tp) s'.
Proof.
  intros Hin H. apply list_elem_of_split in Hin as (l1 & l2 & ->). eexists. by eapply step_node.
Qed.

Lemma linked_le : forall n, ((fun n => if linked n then 1 else 0) n <= 1)%nat.
Proof. intros n. cbn. destruct (linked n); lia. Qed.

(** Some subscriber has not replied, or is not matched. *)
Lemma not_all (f : node -> nat) ns :
  (forall n, f n <= 1)%nat -> (sum_list_with f ns < length ns)%nat -> exists n, n ∈ ns /\ f n = 0%nat.
Proof.
  intros _ H. destruct (sum_short f ns H) as (l1 & n & l2 & -> & Hn). exists n. split; [set_solver|done].
Qed.

Lemma kinds_inbox nd K ks : kinds nd = K :: ks -> inbox nd <> [].
Proof. unfold kinds. intros H E. by rewrite E in H. Qed.

Definition finished (s : system) : Prop :=
  BenchPub.pc (pub s) = BenchPub.PDone /\ Forall (fun n => gone n /\ kinds n = []) (subs s).

(** In a phase that collects: the next reply, or a subscriber on its way to it *)
Lemma collecting_moves p ns tp :
  Inv1 (mkSys p ns tp) -> collecting (BenchPub.pc p) = true -> BenchPub.ready p < BenchPub.subscribers_ c ->
  (forall cmd, reply_ok true (BenchPub.pc p) (BenchPub.samples p) cmd ->
     exists r, BenchPub.pub_step c (BenchPub.Taken (Some cmd)) p = Some r) ->
  exists s', sys_step true c (mkSys p ns tp) s'.
Proof.
  intros (Hp & Hl & Hok & Hm & Hr & Ht) Hcol Hrd Htake. cbn [pub subs to_pub] in *.
  assert (tracked (BenchPub.pc p) = true) as Etr by (by destruct (BenchPub.pc p)).
  unfold counted in Ht. rewrite Etr, Hcol in Ht. destruct Ht as [H0 Ht].
  destruct tp as [|cmd tp].
  - destruct (not_all replied ns) as (nd & Hin & Hnd); [apply replied_le|unfold nreplied in Ht; cbn in Ht; lia|].
    assert (Hi : inbox nd <> []) by (unfold replied in Hnd; by destruct (inbox nd)).
    rewrite Forall_forall in Hok. specialize (Hok nd Hin).
    assert (Hcan : exists nd' out k, node_step true (Throughput.endpoint (BenchPub.ends p)) nd nd' out k).
    { assert (Hk : kinds nd <> []) by (unfold kinds; destruct (inbox nd); done).
      destruct (BenchPub.pc p); try done; cbn [ok] in Hok.
      - destruct Hok as [[[[Hw Hln]|Ho] _]|(Ho & _ & ?)]; [|by apply on_can|done]. apply waits_can; auto.
      - destruct Hok as [(Ho & _)|[_ ?]]; [by apply on_can|done].
      - destruct Hok as [[[[Hw Hln]|Ho] _]|[_ ?]]; [|by apply on_can|done]. apply waits_can; auto. }
    destruct Hcan as (nd' & out & k & Hs). by eapply node_moves.
  - apply Forall_cons in Hr as [Hr _]. destruct (Htake cmd Hr) as [[[p' out] ws] E].
    eexists. by eapply step_take.
Qed.

Lemma pub_moves p ns tp a r :
  granted p a -> BenchPub.pub_step c a p = Some r -> exists s', sys_step true c (mkSys p ns tp) s'.
Proof. destruct r as [[p' out] ws]. intros Hg E. eexists. by eapply step_pub. Qed.

Lemma progress all s :
  Inv1 s -> ledger all (pub s) -> finished s \/ exists s', sys_step true c s s'.
Proof.
  destruct s as [p ns tp]. intros Hinv Hled. pose proof Hinv as (Hp & Hl & Hok & Hm & Hr). cbn [pub subs to_pub] in *.
  destruct Hp as (Hc & Hf & He & Htd & Hx).
  destruct (BenchPub.pc p) eqn:Epc; cbn [writing] in *; try done.
  - right. eapply (pub_moves p ns tp BenchPub.Nothing); [done|]. unfold BenchPub.pub_step, BenchPub.run_step, BenchPub.test_step. rewrite Epc.
    unfold BenchPub.finds, BenchPub.total_matches. rewrite Hm, Hc.
    replace (_ && _) with true by (symmetry; apply andb_true_iff; rewrite !Z.leb_le; lia).
    by rewrite (proj2 (Z.eqb_eq _ _)) by lia.
  - right. destruct (BenchPub.sizes p) as [|[s ds] sz] eqn:Es.
    + eapply (pub_moves p ns tp BenchPub.Nothing); [done|]. unfold BenchPub.pub_step, BenchPub.run_step, BenchPub.test_step. by rewrite Epc, Es.
    + eapply (pub_moves p ns tp (BenchPub.Creates true true true)); [done|]. unfold BenchPub.pub_step, BenchPub.run_step, BenchPub.test_step.
      by rewrite Epc, Es, Htd, He.
  - right. pose proof (sum_le_length _ ns linked_le) as Hle.
    destruct (decide (nlinked ns = length ns)) as [E|E].
    + eapply (pub_moves p ns tp BenchPub.Nothing); [done|]. unfold BenchPub.pub_step, BenchPub.run_step, BenchPub.test_step. rewrite Epc.
      unfold BenchPub.finds, BenchPub.total_matches. rewrite Hm, Hc, E, Hl.
      replace (_ && _) with true by (symmetry; apply andb_true_iff; rewrite !Z.leb_le; lia).
      by rewrite (proj2 (Z.eqb_eq _ _)) by lia.
    + destruct (not_all _ ns linked_le) as (nd & Hin & Hnd); [unfold nlinked in E; lia|].
      rewrite Forall_forall in Hok. specialize (Hok nd Hin). cbn [ok] in Hok.
      assert (Hcan : exists nd' out k, node_step true (Throughput.endpoint (BenchPub.ends p)) nd nd' out k).
      { destruct Hok as [[Ho Hk]|[[Hw _]|[Ho _]]].
        - apply off_can; [done|]. by eapply kinds_inbox.
        - apply waits_can; [done|]. right. by rewrite He.
        - destruct Ho as (_ & _ & _ & _ & Hln & _). by rewrite Hln in Hnd. }
      destruct Hcan as (nd' & out & k & Hs). by eapply node_moves.
  - right. destruct (BenchPub.demands p) as [|d ds] eqn:Ed; [|destruct (BenchPub.recs p) as [|r rs] eqn:Er];
      (eapply (pub_moves p ns tp BenchPub.Nothing); [done|]; unfold BenchPub.pub_step, BenchPub.run_step, BenchPub.test_step; rewrite Epc, Ed, ?Er; done).
  - right. destruct (Z.lt_ge_cases (BenchPub.ready p) (BenchPub.subscribers_ c)) as [C|C].
    + apply collecting_moves; [done|by rewrite Epc|done|]. rewrite Epc. intros cmd Hcmd.
      unfold BenchPub.pub_step, BenchPub.run_step, BenchPub.test_step. rewrite Epc, (proj2 (Z.ltb_lt _ _) C), BenchPub.collect_counts by done. by eexists.
    + eapply (pub_moves p ns tp BenchPub.Nothing); [done|]. unfold BenchPub.pub_step, BenchPub.run_step, BenchPub.test_step.
      by rewrite Epc, (proj2 (Z.ltb_ge _ _) C).
  - right. destruct (BenchPub.finds 3 c p) eqn:F;
      (eapply (pub_moves p ns tp BenchPub.Nothing); [done|]; unfold BenchPub.pub_step, BenchPub.run_step, BenchPub.test_step; by rewrite Epc, F).
  - right. eapply (pub_moves p ns tp (BenchPub.Acknowledged true)); [done|]. unfold BenchPub.pub_step, BenchPub.run_step, BenchPub.test_step. by rewrite Epc.
  - right. destruct Hx as (_ & Hdn & _). destruct (BenchPub.demands p) as [|d ds] eqn:Ed; [done|].
    destruct Hled as [_ _ _ _ Hd]. cbn [pub] in Hd. rewrite Ed in Hd. apply Forall_cons in Hd as [Hd _].
    destruct (Throughput.send_loop_ends [BenchPub.test_time c] 0 (BenchPub.test_time c) (Z.to_nat d)
      (Throughput.mkSending 0 0 (BenchPub.t_end_ p) [])) as [st Est]; [by constructor; lia|].
    eapply (pub_moves p ns tp (BenchPub.Clock 0 [BenchPub.test_time c])).
    + cbn. rewrite Ed. cbn. unfold Throughput.uint32 in Hd. lia.
    + unfold BenchPub.pub_step, BenchPub.run_step, BenchPub.test_step. rewrite Epc, Ed. unfold Throughput.test_sends. by rewrite Est.
  - right. eapply (pub_moves p ns tp (BenchPub.Acknowledged true)); [done|]. unfold BenchPub.pub_step, BenchPub.run_step, BenchPub.test_step. by rewrite Epc.
  - right. destruct (Z.lt_ge_cases (BenchPub.ready p) (BenchPub.subscribers_ c)) as [C|C].
    + apply collecting_moves; [done|by rewrite Epc|done|]. rewrite Epc. intros cmd [Hk Hrecv].
      unfold BenchPub.pub_step, BenchPub.run_step, BenchPub.test_step. rewrite Epc, (proj2 (Z.ltb_lt _ _) C), bool_decide_true by done.
      destruct Hx as [(_ & Hdn & Hrn) Hne].
      destruct (BenchPub.demands p) as [|d ds]; [done|]. destruct (BenchPub.recs p) as [|r rs]; [done|].
      destruct (enter_result_some (BenchPub.ready p + 1)
        (wrapU 32 (match BenchPub.sizes p with (s, _) :: _ => s | [] => 0 end + overhead)) d r
        (BenchPub.samples p) cmd (BenchPub.results_ p)) as (rs' & -> & _); [lia| |by eexists].
      destruct Hr as [_ Hr]. rewrite Epc in Hr. destruct Hr as [Hr0 _]. specialize (Hr0 eq_refl).
      destruct (Z.eq_dec (BenchPub.ready p) 0); [left; lia|right; apply Hne; lia].
    + eapply (pub_moves p ns tp BenchPub.Nothing); [done|]. unfold BenchPub.pub_step, BenchPub.run_step, BenchPub.test_step.
      by rewrite Epc, (proj2 (Z.ltb_ge _ _) C).
  - right. unfold in_size in Hx. destruct (BenchPub.sizes p) as [|[s ds] sz] eqn:Es; [done|].
    eapply (pub_moves p ns tp (BenchPub.Deletes true true true)); [done|]. unfold BenchPub.pub_step, BenchPub.run_step, BenchPub.test_step.
    by rewrite Epc, Es, He.
  - right. destruct (Z.lt_ge_cases (BenchPub.ready p) (BenchPub.subscribers_ c)) as [C|C].
    + apply collecting_moves; [done|by rewrite Epc|done|]. rewrite Epc. intros cmd Hcmd.
      unfold BenchPub.pub_step, BenchPub.run_step, BenchPub.test_step. rewrite Epc, (proj2 (Z.ltb_lt _ _) C), BenchPub.collect_counts by done. by eexists.
    + eapply (pub_moves p ns tp BenchPub.Nothing); [done|]. unfold BenchPub.pub_step, BenchPub.run_step, BenchPub.test_step.
      by rewrite Epc, (proj2 (Z.ltb_ge _ _) C).
  - right. eapply (pub_moves p ns tp BenchPub.Nothing); [done|]. unfold BenchPub.pub_step, BenchPub.run_step, BenchPub.test_step. by rewrite Epc.
  - right. eapply (pub_moves p ns tp (BenchPub.Acknowledged true)); [done|]. unfold BenchPub.pub_step, BenchPub.run_step, BenchPub.test_step. by rewrite Epc.
  - destruct (decide (Forall (fun n => inbox n = []) ns)) as [Hall|Hnot].
    + left. split; [done|]. cbn [subs]. eapply Forall_impl; [apply Forall_and; split; [exact Hok|exact Hall]|].
      cbn. intros n [[[_ Hk]|Hg] Hi]; [|done]. unfold kinds in Hk. by rewrite Hi in Hk.
    + right. apply not_Forall_Exists in Hnot; [|apply _]. apply Exists_exists in Hnot as (nd & Hin & Hi).
      rewrite Forall_forall in Hok. specialize (Hok nd Hin). cbn [ok] in Hok.
      destruct Hok as [[Ho _]|[_ Hk]].
      * destruct (off_can (Throughput.endpoint (BenchPub.ends p)) nd Ho Hi) as (nd' & out & k & Hs).
        by eapply node_moves.
      * exfalso. apply Hi. unfold kinds in Hk. by apply fmap_nil_inv in Hk.
Qed.

(** ** The theorems *)

Definition good (all : list (Z * Z * Z)) (s : system) : Prop := Inv1 s /\ ledger all (pub s).

Lemma good_step all s s' : 0 < BenchPub.subscribers_ c -> good all s -> sys_step true c s s' -> good all s'.
Proof.
  intros HN [Hi Hl] Hs. assert (Hi' : Inv1 s') by (by eapply step_inv). split; [done|].
  destruct Hs as [p ns tp a p' out ws Hg E|p ns cmd tp p' out ws Hcol Hrd E|p l1 n n' l2 tp out k Hn]; cbn [pub] in *.
  - eapply ledger_pub; [apply Hi|done|done|done|apply Hi'|done].
  - destruct Hi as (Hp & _ & _ & _ & Hr & Ht). cbn [pub to_pub] in *.
    assert (0 <= BenchPub.ready p).
    { assert (tracked (BenchPub.pc p) = true) as E0 by (by destruct (BenchPub.pc p)).
      rewrite E0 in Ht. by apply Ht. }
    eapply ledger_take; [done|exact Hr|done|done|done|done|apply Hi'|done].
  - destruct k; [|done]. destruct Hl. by constructor.
Qed.

Lemma good_start sizes :
  0 < BenchPub.subscribers_ c -> Forall (fun sd => Forall Throughput.uint32 sd.2) sizes ->
  good (all_tests sizes) (start c sizes).
Proof.
  intros HN Hs. split; [apply start_inv; lia|]. constructor; cbn; done.
Qed.

Lemma good_reachable sizes s :
  0 < BenchPub.subscribers_ c -> Forall (fun sd => Forall Throughput.uint32 sd.2) sizes ->
  rtc (sys_step true c) (start c sizes) s -> good (all_tests sizes) s.
Proof.
  intros HN Hs Hr. pose proof (good_start sizes HN Hs) as Hg. revert Hg.
  induction Hr as [|x y z Hxy _ IH]; [done|]. intros Hx. apply IH. by eapply good_step.
Qed.

(** The publisher's work goes down, or it stays and that of the subscribers goes down. *)
Definition subs_work (ns : list node) : nat := sum_list_with node_work ns.

Lemma measure_step all s s' :
  good all s -> good all s' -> sys_step true c s s' ->
  (work (pub s') < work (pub s))%nat \/
  (work (pub s') = work (pub s) /\ (subs_work (subs s') < subs_work (subs s))%nat).
Proof.
  intros [Hi _] [Hi' _] Hs.
  destruct Hs as [p ns tp a p' out ws Hg E|p ns cmd tp p' out ws Hcol Hrd E|p l1 n n' l2 tp out k Hn]; cbn [pub subs] in *.
  - left. eapply work_pub; [apply Hi|done|done|apply Hi'].
  - left. destruct Hi as (Hp & _ & _ & _ & Hr & Ht). cbn [pub to_pub] in *.
    assert (0 <= BenchPub.ready p).
    { assert (tracked (BenchPub.pc p) = true) as E0 by (by destruct (BenchPub.pc p)).
      rewrite E0 in Ht. by apply Ht. }
    eapply work_take; [done|exact Hr|done|done|done|done|apply Hi'].
  - right. split; [by destruct k|]. unfold subs_work. rewrite !sum_middle.
    apply node_work_step in Hn. lia.
Qed.

Lemma good_sn all s : 0 < BenchPub.subscribers_ c -> good all s -> sn (sys_step true c) s.
Proof.
  intros HN. remember (work (pub s)) as w eqn:Ew. revert s Ew.
  induction w as [w IHw] using lt_wf_ind. intros s ->.
  remember (subs_work (subs s)) as m eqn:Em. revert s Em IHw.
  induction m as [m IHm] using lt_wf_ind. intros s -> IHw Hg.
  constructor. intros s' Hs. assert (Hg' : good all s') by (by eapply good_step).
  destruct (measure_step all s s' Hg Hg' Hs) as [H|[H1 H2]].
  - by eapply IHw.
  - eapply IHm; [exact H2|done|by rewrite H1|done].
Qed.

Lemma good_ends all s :
  0 < BenchPub.subscribers_ c -> good all s -> exists s', rtc (sys_step true c) s s' /\ finished s'.
Proof.
  intros HN Hg. pose proof (good_sn all s HN Hg) as Hsn. revert Hg. induction Hsn as [s _ IH]. intros Hg.
  destruct (progress all s) as [Hf|[s' Hs]]; [apply Hg|apply Hg|by exists s|].
  destruct (IH s' Hs) as (s'' & Hr & Hf); [by eapply good_step|]. exists s''. split; [by eapply rtc_l|done].
Qed.

(** What the end of a run looks like: the table has one line for each size, demand and
    recovery time, in this order, and is printed. *)
Definition complete (sizes : list (Z * list Z)) (s : system) : Prop :=
  finished s /\ BenchPub.printed (pub s) = true /\ BenchPub.test_failure (pub s) = false /\
  key <$> BenchPub.results_ (pub s) = all_tests sizes /\ Forall balanced (BenchPub.results_ (pub s)) /\
  BenchPub.ends (pub s) = Throughput.no_endpoints.

Lemma finished_complete sizes s : good (all_tests sizes) s -> finished s -> complete sizes s.
Proof.
  intros [(Hp & _) Hled] [Hf Hn]. destruct Hled as [Hk Hb Hpr _ _]. unfold remaining in Hk.
  rewrite Hf in Hk. rewrite app_nil_r in Hk. destruct Hp as (_ & Htf & He & _). rewrite Hf in He.
  split_and!; try done. by apply Hpr.
Qed.


End Runs.

(** What a place says of the subscriber *)
Lemma place_safe prompt k sm n :
  ok prompt k sm n ->
  BenchSub.pc (sub n) <> BenchSub.SCrashed /\
  (BenchSub.pc (sub n) = BenchSub.SEnded -> k = BenchPub.PAckStop \/ k = BenchPub.PDone) /\
  (k = BenchPub.PSend -> on n /\ fresh prompt n).
Proof.
  assert (Hoff : off n -> BenchSub.pc (sub n) <> BenchSub.SCrashed /\ BenchSub.pc (sub n) <> BenchSub.SEnded)
    by (intros ([Hq|Hq] & _); rewrite Hq; done).
  assert (Hwt : waits n -> BenchSub.pc (sub n) <> BenchSub.SCrashed /\ BenchSub.pc (sub n) <> BenchSub.SEnded)
    by (intros (Hq & _); rewrite Hq; done).
  assert (Hon : on n -> BenchSub.pc (sub n) <> BenchSub.SCrashed /\ BenchSub.pc (sub n) <> BenchSub.SEnded)
    by (intros (Hq & _); rewrite Hq; done).
  assert (Hg : gone n -> BenchSub.pc (sub n) <> BenchSub.SCrashed) by (intros (Hq & _); rewrite Hq; done).
  intros Hn. destruct k; cbn [ok] in Hn; split_and!; try done; tauto.
Qed.

Lemma inv_reachable prompt c sizes s :
  0 < BenchPub.subscribers_ c -> rtc (sys_step prompt c) (start c sizes) s -> Inv prompt c s.
Proof.
  intros HN Hr. assert (Hi : Inv prompt c (start c sizes)) by (apply start_inv; lia). revert Hi.
  induction Hr as [|x y z Hxy _ IH]; [done|]. intros Hx. apply IH. by eapply step_inv.
Qed.

(** The only way to abort: the results of a subscriber count more samples than were sent. *)
Lemma aborts_on_results prompt c s s' :
  Inv prompt c s -> sys_step prompt c s s' -> BenchPub.pc (pub s') = BenchPub.PAborted ->
  BenchPub.pc (pub s) = BenchPub.PAborted \/
  (BenchPub.pc (pub s) = BenchPub.PResults /\
   exists r tp, to_pub s = r :: tp /\ m_command r = TEST_RESULTS /\ BenchPub.samples (pub s) < m_receivedsamples r).
Proof.
  intros Hi Hs Ha.
  destruct Hs as [p ns tp a p' out ws Hg E|p ns cmd tp p' out ws Hcol Hrd E|p l1 n n' l2 tp out k Hn];
    cbn [pub to_pub] in *.
  - by apply pub_no_abort with (1 := Hi) (2 := Hg) in E.
  - right. destruct Hi as (Hp & _ & _ & _ & Hr & Ht). unfold pub_ok, counted in *. cbn [pub to_pub] in *. apply Forall_cons in Hr as [Hr _].
    unfold BenchPub.pub_step, BenchPub.run_step, BenchPub.test_step in E. rewrite (proj2 (Z.ltb_lt _ _) Hrd) in E.
    destruct (BenchPub.pc p) eqn:Epc; try done; cbn [reply_ok] in Hr;
      try (rewrite BenchPub.collect_counts in E by done; injection E as <- <- <-; cbn in Ha; congruence).
    split; [done|]. exists cmd, tp. destruct Hr as [Hr _]. split_and!; [done|done|].
    destruct (Z.lt_ge_cases (BenchPub.samples p) (m_receivedsamples cmd)) as [C|C]; [done|exfalso].
    rewrite bool_decide_true in E by done. destruct Hp as (_ & _ & _ & _ & _ & Hne).
    destruct Ht as [Ht _]. specialize (Ht eq_refl).
    destruct (BenchPub.demands p) as [|d ds]; [done|]. destruct (BenchPub.recs p) as [|r rs]; [done|].
    destruct (enter_result_some (BenchPub.ready p + 1)
      (wrapU 32 (match BenchPub.sizes p with (s, _) :: _ => s | [] => 0 end + overhead)) d r
      (BenchPub.samples p) cmd (BenchPub.results_ p)) as (rs' & E' & _); [done| |].
    { destruct (Z.eq_dec (BenchPub.ready p) 0); [left; lia|right; apply Hne; lia]. }
    rewrite E' in E. injection E as <- <- <-. cbn in Ha. congruence.
  - left. by destruct k.
Qed.

Definition example_setting : BenchPub.setting := BenchPub.mkSetting 2 [0; 100] 1000.
Definition example_sizes : list (Z * list Z) := [(12, [100; 500]); (1020, [100])].

Lemma example_sizes_ok : Forall (fun sd => Forall Throughput.uint32 sd.2) example_sizes.
Proof. repeat constructor; unfold Throughput.uint32; lia. Defined.


End BenchRun.
