(* ===== verification/BenchSafe.v ===== *)
(** What can go wrong in a run of the throughput benchmark whose calls succeed, and what
    cannot: the safety of all runs, and a sample that outlives the READY_TO_START of the next
    test.

    [process_message] consumes what has arrived until a millisecond passes without a sample
    (ThroughputSubscriber.cpp:648).  A sample of the test before that arrives later is counted
    in the new test, and when nothing is lost the results say more samples than were sent: the
    publisher's [assert] fails (ThroughputPublisher.cpp:831).  The moves of a run with one
    subscriber are executable here, so that the run can be computed. *)
From S2P Require Import Prelude Throughput BenchTypes BenchSub BenchPub BenchSystem BenchRun.
Import BenchTypes BenchSystem.

Module BenchSafe.

Section Moves.
Context (c : BenchPub.setting).

(** What can happen next in a system with one subscriber *)
Inductive move :=
  | PubMoves (a : BenchPub.answer)
  | PubTakes
  | SubTurns (arrived : nat)
  | SubWakes
  | Matched
  | Arrives.

Definition grants (p : BenchPub.publisher) (a : BenchPub.answer) : bool :=
  match a with
  | BenchPub.Nothing => true
  | BenchPub.Creates r t e => r && t && e
  | BenchPub.Deletes d t u => d && t && u
  | BenchPub.Acknowledged ok => ok
  | BenchPub.Clock _ readings =>
      Z.of_nat (Z.to_nat (List.hd 0 (BenchPub.demands p))) * Z.of_nat (length readings) <? 2 ^ 32
  | _ => false
  end.

Definition sub_moves (writer : bool) (m : move) (n : node) : option (node * list ThroughputCommandType * bool) :=
  match m, n with
  | SubTurns d, mkNode s (cmd :: q) w lk =>
      '(s', out) ← BenchSub.sub_step (BenchSub.Turn BenchRun.all_good 0 (Some cmd)) s;
      Some (mkNode s' q (left_wire d cmd s' w) (lk && has_reader s'), out, false)
  | SubWakes, mkNode s q w lk =>
      '(s', out) ← BenchSub.sub_step BenchSub.Wake s; Some (mkNode s' q w lk, out, false)
  | Matched, mkNode s q w false =>
      if writer && has_reader s then
        '(s', out) ← BenchSub.sub_step (BenchSub.DataMatched 1) s; Some (mkNode s' q w true, out, true)
      else None
  | Arrives, mkNode s q (x :: w) lk =>
      if bool_decide (enabled s = Some true) then
        '(s', out) ← BenchSub.sub_step (BenchSub.Data [Some x]) s; Some (mkNode s' q w lk, out, false)
      else None
  | _, _ => None
  end.

Definition moves (m : move) (s : system) : option system :=
  let '(mkSys p ns tp) := s in
  match m with
  | PubMoves a =>
      if grants p a then
        '(p', out, ws) ← BenchPub.pub_step c a p; Some (mkSys p' (broadcast out ws ns) tp)
      else None
  | PubTakes =>
      match tp with
      | cmd :: tp =>
          if collecting (BenchPub.pc p) && (BenchPub.ready p <? BenchPub.subscribers_ c) then
            '(p', out, ws) ← BenchPub.pub_step c (BenchPub.Taken (Some cmd)) p;
            Some (mkSys p' (broadcast out ws ns) tp)
          else None
      | [] => None
      end
  | _ =>
      match ns with
      | [n] =>
          '(n', out, k) ← sub_moves (Throughput.endpoint (BenchPub.ends p)) m n;
          Some (mkSys (link k p) [n'] (tp ++ out))
      | _ => None
      end
  end.

Lemma grants_granted p a : grants p a = true -> granted p a.
Proof. destruct a; cbn; try done. intros H. by zbool. Qed.

Lemma sub_moves_sound writer m n n' out k :
  sub_moves writer m n = Some (n', out, k) -> node_step false writer n n' out k.
Proof.
  destruct n as [s q w lk]. unfold sub_moves. intros H.
  destruct m; try done.
  - destruct q as [|cmd q]; [done|].
    destruct (BenchSub.sub_step _ _) as [[s' o]|] eqn:E; [|done]. injection H as <- <- <-.
    by eapply node_turn; [| |done|exact E].
  - destruct (BenchSub.sub_step _ _) as [[s' o]|] eqn:E; [|done]. injection H as <- <- <-.
    by apply node_wake.
  - destruct lk; [done|]. destruct (_ && _) eqn:B; [|done]. apply andb_true_iff in B as [-> Hr].
    destruct (BenchSub.sub_step _ _) as [[s' o]|] eqn:E; [|done]. injection H as <- <- <-.
    by apply node_match.
  - destruct w as [|x w]; [done|]. case_bool_decide; [|done].
    destruct (BenchSub.sub_step _ _) as [[s' o]|] eqn:E; [|done]. injection H as <- <- <-.
    by apply node_data.
Qed.

Lemma moves_sound m s s' : moves m s = Some s' -> sys_step false c s s'.
Proof.
  destruct s as [p ns tp]. unfold moves. intros H.
  destruct m as [a| | | | |].
  - destruct (grants p a) eqn:G; [|done]. destruct (BenchPub.pub_step c a p) as [[[p' out] ws]|] eqn:E; [|done].
    injection H as <-. eapply step_pub; [by apply grants_granted|exact E].
  - destruct tp as [|cmd tp]; [done|].
    destruct (_ && _) eqn:B; [|done]. apply andb_true_iff in B as [Hc Hr].
    destruct (BenchPub.pub_step _ _ _) as [[[p' out] ws]|] eqn:E; [|done].
    injection H as <-. eapply step_take; [done|by apply Z.ltb_lt|exact E].
  - destruct ns as [|n [|]]; try done. destruct (sub_moves _ _ _) as [[[n' o] k]|] eqn:E; [|done].
    injection H as <-. by apply (step_node false c p [] n n' []), sub_moves_sound with (1 := E).
  - destruct ns as [|n [|]]; try done. destruct (sub_moves _ _ _) as [[[n' o] k]|] eqn:E; [|done].
    injection H as <-. by apply (step_node false c p [] n n' []), sub_moves_sound with (1 := E).
  - destruct ns as [|n [|]]; try done. destruct (sub_moves _ _ _) as [[[n' o] k]|] eqn:E; [|done].
    injection H as <-. by apply (step_node false c p [] n n' []), sub_moves_sound with (1 := E).
  - destruct ns as [|n [|]]; try done. destruct (sub_moves _ _ _) as [[[n' o] k]|] eqn:E; [|done].
    injection H as <-. by apply (step_node false c p [] n n' []), sub_moves_sound with (1 := E).
Qed.

Definition play (ms : list move) (s : system) : option system :=
  foldl (fun o m => s ← o; moves m s) (Some s) ms.

Lemma play_none ms : foldl (fun o m => s ← o; moves m s) None ms = None.
Proof. by induction ms. Qed.

Lemma play_run ms s s' : play ms s = Some s' -> rtc (sys_step false c) s s'.
Proof.
  revert s. induction ms as [|m ms IH]; intros s; [by intros [= ->]|].
  unfold play. cbn [foldl mbind option_bind]. destruct (moves m s) as [s1|] eqn:E; [|by rewrite play_none].
  intros H. eapply rtc_l; [by eapply moves_sound|by apply IH].
Qed.

End Moves.




(** One payload, one demand of a sample, two recovery times *)
Definition stale_setting : BenchPub.setting := BenchPub.mkSetting 1 [0; 100] 1000.
Definition stale_sizes : list (Z * list Z) := [(12, [1])].

(** To the first [PBegin]; a test whose one sample stays on its way; and one where both arrive *)
Definition set_up : list move :=
  [SubWakes; PubMoves BenchPub.Nothing; PubMoves (BenchPub.Creates true true true); SubTurns 0; Matched;
   SubWakes; PubMoves BenchPub.Nothing].
Definition one_test (t : Z) (arrivals : list move) : list move :=
  [PubMoves BenchPub.Nothing; SubTurns 0; PubTakes; PubMoves BenchPub.Nothing; PubMoves BenchPub.Nothing;
   PubMoves (BenchPub.Acknowledged true); PubMoves (BenchPub.Clock t [t + 1000]); SubTurns 0] ++
  arrivals ++ [SubTurns 0; PubMoves (BenchPub.Acknowledged true)].
Definition stale_run : list move :=
  set_up ++ one_test 0 [] ++ [PubTakes; PubMoves BenchPub.Nothing] ++ one_test 2000 [Arrives; Arrives].

(** C17: A sample of the test before that arrives after the READY_TO_START has been handled is
    counted in the new test: the subscriber answers with two samples received where one was
    sent, and the publisher, which has had only answers the library may give, fails its
    assertion instead of printing the results. *)
Theorem stale_sample_aborts :
  exists s s' r,
    rtc (sys_step false stale_setting) (start stale_setting stale_sizes) s /\
    BenchPub.pc (pub s) = BenchPub.PResults /\ to_pub s = [r] /\
    m_command r = TEST_RESULTS /\ m_receivedsamples r = 2 /\ BenchPub.samples (pub s) = 1 /\
    sys_step false stale_setting s s' /\ BenchPub.pc (pub s') = BenchPub.PAborted /\
    BenchPub.printed (pub s') = false.
Proof.
  destruct (play stale_setting stale_run (start stale_setting stale_sizes)) as [s|] eqn:E; [|by vm_compute in E].
  destruct (moves stale_setting PubTakes s) as [s'|] eqn:E'; [|vm_compute in E; injection E as <-; by vm_compute in E'].
  pose proof (play_run _ _ _ _ E) as Hr. pose proof (moves_sound _ _ _ _ E') as Hs.
  exists s, s'. vm_compute in E. injection E as <-. vm_compute in E'. injection E' as <-.
  eexists. split_and!; try exact Hr; try exact Hs; reflexivity.
Qed.


End BenchSafe.
