(* ===== verification/BenchFiles.v ===== *)
(** The files of the throughput benchmark
    ([load_demands_payload] and [load_recoveries] of
    [src/other/pubsub/dds/performance/throughout/ThroughputPublisher.cpp]): fields between
    semicolons, read with [>>]. *)
From stdpp Require Import pretty sorting.
From S2P Require Import Prelude Calculator Throughput BenchTypes.
From Stdlib Require Import Ascii.
Import Calculator.

Module BenchFiles.

(** ** [>>] into a number

    A stream without anything but spaces leaves the variable as it is; other failures set it
    to 0 or to the nearest bound. *)
Inductive extraction := NoInput | Bad (v : Z) | Good (v : Z).

Definition value (x : option Z) (e : extraction) : option Z :=
  match e with NoInput => x | Bad v | Good v => Some v end.

Definition read_unsigned (field : string) : extraction :=
  match skip_spaces field with
  | EmptyString => NoInput
  | s =>
      let '(sign, s) := split_sign s in
      if starts_with_digit s then
        let m := digits 0 s in
        if m <? 2 ^ 32 then Good (wrapU 32 (sign * m)) else Bad (2 ^ 32 - 1)
      else Bad 0
  end.

Definition read_signed (field : string) : extraction :=
  match skip_spaces field with
  | EmptyString => NoInput
  | s =>
      let '(sign, s) := split_sign s in
      if starts_with_digit s then
        let v := sign * digits 0 s in
        if is_int v then Good v else Bad (if sign <? 0 then INT_MIN else INT_MAX)
      else Bad 0
  end.

(** ** Fields

    [find] and [substr] cut the line at the semicolons.  With none, [end] is [npos] and
    [end + 1] is 0 again: the only field is read a second time as the last one. *)
Definition semicolon (ch : Ascii.ascii) : bool := (Ascii.N_of_ascii ch =? 59)%N.

Fixpoint split_fields (s : string) : list string :=
  match s with
  | EmptyString => [""%string]
  | String ch s =>
      if semicolon ch then ""%string :: split_fields s
      else match split_fields s with
           | f :: fs => String ch f :: fs
           | [] => [String ch ""%string]
           end
  end.

(** The fields of the turns of the inner loop, and the one read after the last turn *)
Definition loop_fields (line : string) : list string * string :=
  match split_fields line with
  | [] => ([], ""%string)
  | [f] => ([f], f)
  | fs => (removelast fs, List.last fs ""%string)
  end.

(** ** [load_demands_payload] *)

(** [demand_payload_[payload_].push_back(demand)] *)
Definition push (payload demand : Z) (m : gmap Z (list Z)) : gmap Z (list Z) :=
  <[payload := default [] (m !! payload) ++ [demand]]> m.

(** The result of a load; a variable that is used before it has a value has none. *)
Inductive loaded (A : Type) := Loaded (a : A) | Refused | Unassigned.
Arguments Loaded {A} a.
Arguments Refused {A}.
Arguments Unassigned {A}.

Definition lbind {A B} (x : loaded A) (f : A -> loaded B) : loaded B :=
  match x with Loaded a => f a | Refused => Refused | Unassigned => Unassigned end.

(** The turns after the first: each pushes what [demand] holds. *)
Fixpoint push_fields (fields : list string) (payload : Z) (demand : option Z) (m : gmap Z (list Z))
  : loaded (option Z * gmap Z (list Z)) :=
  match fields with
  | [] => Loaded (demand, m)
  | f :: fields =>
      match value demand (read_unsigned f) with
      | Some d => push_fields fields payload (Some d) (push payload d m)
      | None => Unassigned
      end
  end.

Definition load_line (overhead : Z) (line : string) (st : Z * gmap Z (list Z)) : loaded (Z * gmap Z (list Z)) :=
  let '(payload_, m) := st in
  let '(fields, last) := loop_fields line in
  let first := List.hd ""%string fields in
  let payload := default payload_ (value None (read_unsigned first)) in
  if payload <? overhead then Refused
  else
    let payload := payload - overhead in
    lbind (push_fields (tail fields) payload None m) (fun '(_, m) =>
      Loaded (payload, match read_unsigned last with Good d => push payload d m | _ => m end)).

Fixpoint load_lines (overhead : Z) (lines : list string) (st : Z * gmap Z (list Z)) : loaded (Z * gmap Z (list Z)) :=
  match lines with
  | [] => Loaded st
  | line :: lines => lbind (load_line overhead line st) (load_lines overhead lines)
  end.

(** From [payload_ = 0] and an empty map; at the end the overhead is added again. *)
Definition load_demands_payload (overhead : Z) (lines : list string) : loaded (Z * gmap Z (list Z)) :=
  lbind (load_lines overhead lines (0, ∅)) (fun '(payload, m) => Loaded (wrapU 32 (payload + overhead), m)).

(** The loop of [run] goes over the map in the order of its keys. *)
Definition in_order (a b : Z * list Z) : Prop := a.1 <= b.1.
#[local] Instance in_order_dec a b : Decision (in_order a b).
Proof. unfold in_order. apply _. Defined.
Definition sizes_of (m : gmap Z (list Z)) : list (Z * list Z) := merge_sort in_order (map_to_list m).

(** ** [load_recoveries] *)

Definition add_recovery (recovery : Z) (times : list Z) : list Z :=
  if bool_decide (recovery ∈ times) then times else times ++ [recovery].

Fixpoint recovery_fields (fields : list string) (input : option Z) (times : list Z) : loaded (option Z * list Z) :=
  match fields with
  | [] => Loaded (input, times)
  | f :: fields =>
      match value input (read_signed f) with
      | Some v => if v <? 0 then Refused else recovery_fields fields (Some v) (add_recovery v times)
      | None => Unassigned
      end
  end.

Fixpoint recovery_lines (lines : list string) (input : option Z) (times : list Z) : loaded (list Z) :=
  match lines with
  | [] => Loaded times
  | line :: lines =>
      let '(fields, last) := loop_fields line in
      lbind (recovery_fields fields input times) (fun '(input, times) =>
        recovery_lines lines input
          (match read_unsigned last with Good v => add_recovery v times | _ => times end))
  end.

Definition load_recoveries (lines : list string) : loaded (list Z) := recovery_lines lines None [].

(** The files of the repository *)
Example shipped_demands :
  load_demands_payload 4 ["16;100"; "32;100"]%string = Loaded (32, {[12 := [100]; 28 := [100]]}).
Proof. vm_compute. reflexivity. Qed.
Example shipped_recoveries : load_recoveries ["0;"]%string = Loaded [0].
Proof. reflexivity. Qed.

(** A line without a semicolon names its payload as demand, a field that is left empty
    repeats the demand before it, and a negative recovery time is refused only where it is
    not the last of its line. *)
Example alone : load_demands_payload 4 ["1024"]%string = Loaded (1024, {[1020 := [1024]]}).
Proof. vm_compute. reflexivity. Qed.
Example empty_field : load_demands_payload 4 ["16;100;;7"]%string = Loaded (16, {[12 := [100; 100; 7]]}).
Proof. vm_compute. reflexivity. Qed.
Example negative_recovery :
  load_recoveries ["5;-5;6"]%string = Refused /\ load_recoveries ["5;6;-5"]%string = Loaded [5; 6; 4294967291].
Proof. split; reflexivity. Qed.
Example negative_alone : load_recoveries ["-5"]%string = Refused.
Proof. reflexivity. Qed.

(** ** Printing a file of demands *)

Fixpoint join (fields : list string) : string :=
  match fields with
  | [] => ""
  | [f] => f
  | f :: fields => f +:+ String ";"%char (join fields)
  end%string.

(** A line: the payload and its demands *)
Definition print_row (row : N * list N) : string := join (pretty <$> (row.1 :: row.2)).

(** What the lines mean: the demands of each payload, in the order of the file *)
Definition table (overhead : Z) (rows : list (N * list N)) (m : gmap Z (list Z)) : gmap Z (list Z) :=
  foldl (fun m row => foldl (fun m d => push (Z.of_N row.1 - overhead) (Z.of_N d) m) m row.2) m rows.

Fixpoint free_of_semicolons (s : string) : bool :=
  match s with EmptyString => true | String ch s => negb (semicolon ch) && free_of_semicolons s end.

#[local] Arguments semicolon : simpl never.

Lemma split_free s : free_of_semicolons s = true -> split_fields s = [s].
Proof.
  induction s as [|ch s IH]; [done|]. cbn. intros [Hc Hs]%andb_true_iff.
  apply negb_true_iff in Hc. by rewrite Hc, IH.
Qed.

Lemma split_field s rest : free_of_semicolons s = true -> split_fields (s +:+ String ";"%char rest) = s :: split_fields rest.
Proof.
  induction s as [|ch s IH]; [done|]. cbn. intros [Hc Hs]%andb_true_iff.
  apply negb_true_iff in Hc.
  change (String ch s +:+ String ";"%char rest)%string with (String ch (s +:+ String ";"%char rest))%string.
  cbn. by rewrite Hc, IH.
Qed.

Lemma split_join_fields f fields :
  Forall (fun f => free_of_semicolons f = true) (f :: fields) -> split_fields (join (f :: fields)) = f :: fields.
Proof.
  revert f. induction fields as [|g fields IH]; intros f [Hf Hs]%Forall_cons; [by apply split_free|].
  change (join (f :: g :: fields)) with (f +:+ String ";"%char (join (g :: fields)))%string.
  rewrite split_field by done. by rewrite IH.
Qed.

Lemma digit_no_semicolon d : (d < 10)%N -> semicolon (pretty_N_char d) = false.
Proof.
  intros Hd. pose proof (digit_pretty d Hd) as E. unfold digit in E. unfold semicolon.
  destruct ((48 <=? _) && _) eqn:C; [|done]. apply andb_true_iff in C as [C1 C2]. zbool.
  apply N.eqb_neq. lia.
Qed.

Lemma free_go n s : free_of_semicolons s = true -> free_of_semicolons (pretty_N_go n s) = true.
Proof.
  revert s. induction (N.lt_wf_0 n) as [n _ IH]; intros s H.
  destruct (decide (0 < n)%N) as [Hn|Hn].
  - rewrite pretty_N_go_step by done. apply IH; [apply N.div_lt; lia|]. cbn.
    by rewrite digit_no_semicolon by (apply N.mod_lt; lia).
  - assert (n = 0%N) as -> by lia. by rewrite pretty_N_go_0.
Qed.

Lemma free_pretty (n : N) : free_of_semicolons (pretty n) = true.
Proof. unfold pretty, pretty_N. case_decide; [done|]. by apply free_go. Qed.

Lemma read_pretty (n : N) : Z.of_N n < 2 ^ 32 -> read_unsigned (pretty n) = Good (Z.of_N n).
Proof.
  intros Hn. pose proof (starts_with_digit_pretty_N n) as Hd. destruct (plain_number _ Hd) as [E1 E2].
  unfold read_unsigned. rewrite E1. destruct (pretty n) as [|ch s] eqn:Ep; [done|]. rewrite <- Ep in *.
  rewrite E2, Hd, digits_pretty_N, (proj2 (Z.ltb_lt _ _)) by done. by rewrite Z.mul_1_l, wrapU_small by lia.
Qed.

Lemma push_fields_pretty ds payload demand m :
  Forall (fun d => Z.of_N d < 2 ^ 32) ds ->
  exists demand', push_fields (pretty <$> ds) payload demand m =
    Loaded (demand', foldl (fun m d => push payload (Z.of_N d) m) m ds).
Proof.
  intros H. revert demand m. induction H as [|d ds Hd _ IH]; intros demand m; [by eexists|].
  cbn [fmap list_fmap push_fields]. rewrite read_pretty by done. cbn [value foldl]. apply IH.
Qed.

(** A row of the file as it can be written: a payload of at least the overhead, some demands *)
Definition row_ok (overhead : Z) (row : N * list N) : Prop :=
  overhead <= Z.of_N row.1 < 2 ^ 32 /\ row.2 <> [] /\ Forall (fun d => Z.of_N d < 2 ^ 32) row.2.

Lemma load_row overhead row st :
  row_ok overhead row ->
  load_line overhead (print_row row) st =
    Loaded (Z.of_N row.1 - overhead, foldl (fun m d => push (Z.of_N row.1 - overhead) (Z.of_N d) m) st.2 row.2).
Proof.
  destruct row as [p ds], st as [pl m]. intros (Hp & Hne & Hd). cbn [fst snd] in *.
  unfold load_line, loop_fields, print_row. cbn [fst snd fmap list_fmap].
  rewrite split_join_fields.
  2: { constructor; [apply free_pretty|]. apply Forall_fmap, Forall_true. intros n. apply free_pretty. }
  destruct (exists_last Hne) as (ds0 & d & ->). rewrite fmap_app. cbn [fmap list_fmap].
  destruct ((pretty <$> ds0) ++ [pretty d]) as [|z zs] eqn:Ez; [by apply app_eq_nil in Ez as [_ ?]|].
  rewrite <- Ez. change (pretty p :: (pretty <$> ds0) ++ [pretty d]) with ((pretty p :: (pretty <$> ds0)) ++ [pretty d]).
  rewrite removelast_last, List.last_last. cbn [List.hd tail].
  rewrite read_pretty by lia. cbn [value default from_option id].
  rewrite (proj2 (Z.ltb_ge _ _)) by lia.
  apply Forall_app in Hd as [Hd0 Hd1]. apply Forall_cons in Hd1 as [Hd1 _].
  destruct (push_fields_pretty ds0 (Z.of_N p - overhead) None m Hd0) as [dm ->]. cbn [lbind].
  rewrite read_pretty by done. by rewrite foldl_app.
Qed.

Lemma load_rows overhead rows st :
  Forall (row_ok overhead) rows ->
  load_lines overhead (print_row <$> rows) st =
    Loaded (List.last ((fun row => Z.of_N row.1 - overhead) <$> rows) st.1, table overhead rows st.2).
Proof.
  intros H. revert st. induction H as [|row rows Hr _ IH]; intros st; [by destruct st|].
  cbn [fmap list_fmap load_lines]. rewrite load_row by done. cbn [lbind]. rewrite IH. cbn [fst snd].
  by rewrite Throughput.last_from.
Qed.

(** What stands in the map *)
Lemma push_all_lookup p ds m k :
  default [] (foldl (fun m d => push p (Z.of_N d) m) m ds !! k) =
    default [] (m !! k) ++ (if decide (p = k) then Z.of_N <$> ds else []).
Proof.
  revert m. induction ds as [|d ds IH]; intros m; cbn [foldl].
  - case_decide; by rewrite app_nil_r.
  - rewrite IH. unfold push. case_decide as E.
    + subst k. rewrite lookup_insert_eq. cbn. by rewrite <- app_assoc.
    + by rewrite lookup_insert_ne.
Qed.

Lemma table_lookup overhead rows m k :
  default [] (table overhead rows m !! k) =
    default [] (m !! k) ++
    (rows ≫= (fun row => if decide (Z.of_N row.1 - overhead = k) then Z.of_N <$> row.2 else [])).
Proof.
  revert m. induction rows as [|row rows IH]; intros m; [by rewrite app_nil_r|].
  change (table overhead (row :: rows) m) with
    (table overhead rows (foldl (fun m d => push (Z.of_N row.1 - overhead) (Z.of_N d) m) m row.2)).
  rewrite IH, push_all_lookup. cbn. by rewrite app_assoc.
Qed.

(** A file of demands is read as it is written: for lines of a payload and at least one
    demand, [load_demands_payload] succeeds, [payload_] is the last payload, and under each
    payload, less the overhead, the map has the demands of all its lines in their order. *)
Theorem demands_roundtrip overhead rows row :
  0 <= overhead -> Forall (row_ok overhead) (rows ++ [row]) ->
  exists m, load_demands_payload overhead (print_row <$> rows ++ [row]) = Loaded (Z.of_N row.1, m) /\
  forall k, default [] (m !! k) =
    (rows ++ [row]) ≫= (fun row => if decide (Z.of_N row.1 - overhead = k) then Z.of_N <$> row.2 else []).
Proof.
  intros H0 H. unfold load_demands_payload. rewrite load_rows by done. cbn [lbind fst snd].
  rewrite fmap_app. cbn [fmap list_fmap]. rewrite List.last_last.
  apply Forall_app in H as [_ H]. apply Forall_cons in H as [(Hr & _) _].
  eexists. split.
  - rewrite wrapU_small by lia. do 3 f_equal. lia.
  - intros k. rewrite table_lookup. by rewrite lookup_empty.
Qed.

Lemma demands_roundtrip_witness :
  exists m, load_demands_payload 4 (print_row <$> [(16, [100; 200]); (32, [50]); (16, [7])]%N) = Loaded (16, m) /\
  forall k, default [] (m !! k) =
    [(16, [100; 200]); (32, [50]); (16, [7])]%N ≫= (fun row => if decide (Z.of_N row.1 - 4 = k) then Z.of_N <$> row.2 else []).
Proof.
  refine (demands_roundtrip 4 [(16, [100; 200]); (32, [50])]%N (16, [7])%N _ _); [lia|].
  repeat constructor; cbn; lia || done.
Defined.

(** The map in the order of the loop: the same entries, sorted *)
#[local] Instance in_order_total : Total in_order.
Proof. intros a b. unfold in_order. lia. Qed.
#[local] Instance in_order_trans : Transitive in_order.
Proof. intros a b d. unfold in_order. lia. Qed.

Lemma sizes_of_spec m :
  sizes_of m ≡ₚ map_to_list m /\ StronglySorted in_order (sizes_of m).
Proof.
  unfold sizes_of. split; [apply merge_sort_Permutation|apply (StronglySorted_merge_sort in_order)].
Qed.

(** ** Recovery times *)

Lemma add_recovery_nodup v times : NoDup times -> NoDup (add_recovery v times).
Proof.
  intros H. unfold add_recovery. case_bool_decide; [done|]. apply NoDup_app. split_and!; [done| |apply NoDup_singleton].
  intros x Hx ->%list_elem_of_singleton. done.
Qed.

Lemma add_recovery_uint32 v times :
  Throughput.uint32 v -> Forall Throughput.uint32 times -> Forall Throughput.uint32 (add_recovery v times).
Proof.
  intros Hv H. unfold add_recovery. case_bool_decide; [done|]. apply Forall_app. by split; [|constructor].
Qed.

Lemma read_unsigned_range f v : read_unsigned f = Good v -> Throughput.uint32 v.
Proof.
  unfold read_unsigned, Throughput.uint32. destruct (skip_spaces f); [done|].
  destruct (split_sign _) as [sg s']. destruct (starts_with_digit s'); [|done]. destruct (_ <? _); [|done].
  intros [= <-]. apply wrapU_range. lia.
Qed.

Lemma read_signed_range f v : read_signed f = Good v \/ read_signed f = Bad v -> INT_MIN <= v <= INT_MAX.
Proof.
  unfold read_signed. destruct (skip_spaces f); [naive_solver|].
  destruct (split_sign _) as [sg s']. destruct (starts_with_digit s'); [|intros [?|[= <-]]; [done|unfold INT_MIN, INT_MAX; lia]].
  destruct (is_int _) eqn:E; [apply is_int_spec in E; naive_solver|].
  intros [?|[= <-]]; [done|]. unfold INT_MIN, INT_MAX. destruct (_ <? _); lia.
Qed.

Definition times_ok (times : list Z) : Prop := NoDup times /\ Forall Throughput.uint32 times.

Lemma add_recovery_ok v times : Throughput.uint32 v -> times_ok times -> times_ok (add_recovery v times).
Proof. intros Hv [H1 H2]. split; [by apply add_recovery_nodup|by apply add_recovery_uint32]. Qed.

Lemma recovery_fields_ok fields input times input' times' :
  (forall v, input = Some v -> v <= INT_MAX) -> times_ok times ->
  recovery_fields fields input times = Loaded (input', times') ->
  (forall v, input' = Some v -> v <= INT_MAX) /\ times_ok times' /\ (forall x, x ∈ times -> x ∈ times').
Proof.
  revert input times. induction fields as [|f fields IH]; intros input times Hi Ht H; cbn in H.
  { injection H as <- <-. by split_and!. }
  destruct (value input (read_signed f)) as [v|] eqn:E; [|done].
  destruct (v <? 0) eqn:C; [done|]. zbool.
  assert (Hv : v <= INT_MAX).
  { destruct (read_signed f) as [|b|g] eqn:R; cbn in E; [by apply Hi| |]; injection E as <-;
      [apply (read_signed_range f); by right|apply (read_signed_range f); by left]. }
  apply IH in H as (H1 & H2 & H3); [| |].
  - split_and!; [done|done|]. intros x Hx. apply H3. unfold add_recovery. case_bool_decide; [done|].
    apply elem_of_app. by left.
  - by intros w [= <-].
  - apply add_recovery_ok; [|done]. unfold Throughput.uint32, INT_MAX in *. lia.
Qed.

(** Whatever the file holds, the recovery times that are loaded are different and fit
    [uint32_t]. *)
Theorem recoveries_distinct lines times :
  load_recoveries lines = Loaded times -> NoDup times /\ Forall Throughput.uint32 times.
Proof.
  unfold load_recoveries. assert (Hi : forall v, @None Z = Some v -> v <= INT_MAX) by done.
  assert (Ht : times_ok []) by (split; constructor). revert Hi Ht.
  generalize (@None Z) as input. generalize (@nil Z) as ts.
  induction lines as [|line lines IH]; intros ts input Hi Ht H; cbn in H; [by injection H as <-|].
  destruct (loop_fields line) as [fields last].
  destruct (recovery_fields fields input ts) as [[input' ts']| |] eqn:E; cbn in H; try done.
  apply recovery_fields_ok in E as (Hi' & Ht' & _); [|done|done].
  apply IH in H; [done|done|].
  destruct (read_unsigned last) eqn:R; [done|done|]. apply add_recovery_ok; [by eapply read_unsigned_range|done].
Qed.

Lemma recoveries_distinct_witness : NoDup [0; 100; 5] /\ Forall Throughput.uint32 [0; 100; 5].
Proof. exact (recoveries_distinct ["0;100;0"; "5;100"]%string [0; 100; 5] eq_refl). Defined.

End BenchFiles.
