(* ===== verification/TimerManager.v ===== *)
(** [src/other/timer/testtimer/TimerManager.hpp]: one-shot and periodic tasks over a [Timer].
    ([scheduleOneShot] assigns the future that [asyncAfter] returns to an identifier, which
    no compiler accepts, so that only what comes after this call is modelled.) *)
From S2P Require Import Prelude PQueue.

Module TimerManager.

(** ** Tasks *)
Record OneShotTask := mkOneShot {
  id : Z;
  expiry : Z;
  priority : Z;
}.

#[global] Instance oneshot_eq_dec : EqDecision OneShotTask.
Proof. solve_decision. Defined.

(** [OneShotTask::operator<] *)
Definition less (a b : OneShotTask) : bool :=
  if negb (expiry a =? expiry b) then expiry b <? expiry a else priority a <? priority b.

#[global] Instance less_order : StrictWeakOrder less.
Proof.
  split; unfold less.
  - intros x y. destruct (expiry x =? expiry y) eqn:E; rewrite Z.eqb_sym, E; cbn; intros; zbool; apply Z.ltb_ge; lia.
  - intros x y z. destruct (Z.eqb_spec (expiry x) (expiry z)), (Z.eqb_spec (expiry x) (expiry y)),
      (Z.eqb_spec (expiry y) (expiry z)); cbn; rewrite !Z.ltb_lt; lia.
Qed.

(** One pending call less *)
Fixpoint remove_one (key : Z) (l : list Z) : list Z :=
  match l with
  | [] => []
  | x :: l => if x =? key then l else x :: remove_one key l
  end.

Record PeriodicTask := mkPeriodic {
  interval : Z;
  nextExpiry : Z;
  isActive : bool;
}.

Section Manager.
Context {Q : Type} `{PQ : !PriorityQueue OneShotTask less Q}.

(** [armed] holds the identifiers for which a call [asyncAfter] of [timer_] is pending, each
    for a turn of its periodic task; [cancelled] the calls [timer_.cancel]. *)
Record manager := mkManager {
  oneShotTasks_ : Q;
  periodicTasks_ : gmap Z PeriodicTask;
  nextId_ : Z;
  armed : list Z;
  cancelled : list Z;
}.

(** The loop that moves all tasks but those of an identifier to [newQueue]; the fuel is the
    size of the queue. *)
Fixpoint drain (fuel : nat) (key : Z) (q newQueue : Q) (found : bool) (calls : list Z) : Q * bool * list Z :=
  match fuel, pq_top q with
  | S fuel, Some task =>
      if id task =? key then drain fuel key (pq_pop q) newQueue true (calls ++ [key])
      else drain fuel key (pq_pop q) (pq_push task newQueue) found calls
  | _, _ => (newQueue, found, calls)
  end.
Definition drain_all (key : Z) (q : Q) : Q * bool * list Z :=
  drain (length (pq_elems q)) key q pq_empty false [].

(** [removeOneShotTask] *)
Definition removeOneShotTask (key : Z) (s : manager) : manager :=
  let '(q, _, _) := drain_all key (oneShotTasks_ s) in
  mkManager q (periodicTasks_ s) (nextId_ s) (armed s) (cancelled s).

(** [cancel] *)
Definition cancel (key : Z) (s : manager) : bool * manager :=
  let '(q, found, calls) := drain_all key (oneShotTasks_ s) in
  match periodicTasks_ s !! key with
  | Some _ => (true, mkManager q (delete key (periodicTasks_ s)) (nextId_ s) (armed s) (cancelled s ++ calls ++ [key]))
  | None => (found, mkManager q (periodicTasks_ s) (nextId_ s) (armed s) (cancelled s ++ calls))
  end.

(** The task of [scheduleOneShot], once it has an identifier *)
Definition push_one_shot (key now delay prio : Z) (s : manager) : manager :=
  mkManager (pq_push (mkOneShot key (now + delay) prio) (oneShotTasks_ s)) (periodicTasks_ s) (nextId_ s)
    (armed s) (cancelled s).

(** [scheduleNextPeriodic] *)
Definition scheduleNextPeriodic (key : Z) (s : manager) : manager :=
  match periodicTasks_ s !! key with
  | Some task =>
      if isActive task
      then mkManager (oneShotTasks_ s) (periodicTasks_ s) (nextId_ s) (armed s ++ [key]) (cancelled s)
      else s
  | None => s
  end.

(** [schedulePeriodic] *)
Definition schedulePeriodic (now ival : Z) (s : manager) : Z * manager :=
  let key := nextId_ s in
  (key, scheduleNextPeriodic key
    (mkManager (oneShotTasks_ s) (<[key := mkPeriodic ival (now + ival) true]> (periodicTasks_ s))
       (wrapU 64 (key + 1)) (armed s) (cancelled s))).

(** The timer calls back for an armed identifier: the first component is whether the task's
    callback runs. *)
Definition periodic_fires (key now : Z) (s : manager) : bool * manager :=
  let s := mkManager (oneShotTasks_ s) (periodicTasks_ s) (nextId_ s)
             (remove_one key (armed s)) (cancelled s) in
  match periodicTasks_ s !! key with
  | Some task =>
      (true,
       if isActive task then
         scheduleNextPeriodic key
           (mkManager (oneShotTasks_ s) (<[key := mkPeriodic (interval task) (now + interval task) true]> (periodicTasks_ s))
              (nextId_ s) (armed s) (cancelled s))
       else s)
  | None => (false, s)
  end.

(** [nextTaskDelay], for the time [now]; [TIME_MAX] is [TimePoint::max()]. *)
Definition TIME_MAX : Z := 2 ^ 63 - 1.
Definition nextTaskDelay (now : Z) (s : manager) : option Z :=
  if bool_decide (pq_elems (oneShotTasks_ s) = []) && bool_decide (periodicTasks_ s = ∅) then None
  else
    let first := match pq_top (oneShotTasks_ s) with Some t => Z.min TIME_MAX (expiry t) | None => TIME_MAX end in
    let next := foldl (fun m (kt : Z * PeriodicTask) => Z.min m (nextExpiry kt.2)) first (map_to_list (periodicTasks_ s)) in
    Some (Z.max 0 (next - now)).

(** ** The queue *)

(** The task that is next has the earliest time and, among those of the same time, the
    greatest number, although the comments call smaller numbers more urgent. *)
Lemma top_first s t u :
  pq_top (oneShotTasks_ s) = Some t -> u ∈ pq_elems (oneShotTasks_ s) ->
  expiry t < expiry u \/ (expiry t = expiry u /\ priority u <= priority t).
Proof.
  intros Ht Hu. pose proof (pq_top_max _ _ _ Ht Hu) as H. unfold less in H.
  destruct (Z.eqb_spec (expiry t) (expiry u)); cbn in H; zbool; lia.
Qed.

Lemma drain_queue_spec fuel key q nq found calls :
  (length (pq_elems q) <= fuel)%nat ->
  let '(q', found', calls') := drain fuel key q nq found calls in
  pq_elems q' ≡ₚ filter (fun t => id t <> key) (pq_elems q) ++ pq_elems nq /\
  (found' = true <-> found = true \/ exists t, t ∈ pq_elems q /\ id t = key) /\
  exists n, calls' = calls ++ replicate n key.
Proof.
  revert q nq found calls. induction fuel as [|fuel IH]; intros q nq found calls Hf; cbn [drain].
  - destruct (pq_elems q) eqn:E; [|cbn in Hf; lia]. split_and!; [done| |exists 0%nat; by rewrite app_nil_r].
    split; [by left|]. intros [?|(t & Ht & _)]; [done|]. by apply not_elem_of_nil in Ht.
  - destruct (pq_top q) as [task|] eqn:Et.
    + pose proof (pq_elems_pop q task Et) as Hp. pose proof (pq_pop_length q task Et) as Hl.
      destruct (Z.eqb_spec (id task) key) as [E|E].
      * specialize (IH (pq_pop q) nq true (calls ++ [key]) ltac:(lia)).
        destruct (drain fuel key (pq_pop q) nq true (calls ++ [key])) as [[q' f'] c'].
        destruct IH as (H1 & H2 & n & H3). split_and!.
        -- rewrite H1, <- Hp, filter_cons_False by congruence. done.
        -- split; [|intros _; apply H2; by left]. intros _. right. exists task. split; [|done].
           rewrite <- Hp. by left.
        -- exists (S n). by rewrite H3, <- app_assoc.
      * specialize (IH (pq_pop q) (pq_push task nq) found calls ltac:(lia)).
        destruct (drain fuel key (pq_pop q) (pq_push task nq) found calls) as [[q' f'] c'].
        destruct IH as (H1 & H2 & H3). split_and!; [| |done].
        -- rewrite H1, <- Hp, filter_cons_True by done. rewrite pq_elems_push. by rewrite <- Permutation_middle.
        -- rewrite H2. split; (intros [?|(t & Ht & Hk)]; [by left|right; exists t; split; [|done]]).
           ++ rewrite <- Hp. by right.
           ++ rewrite <- Hp in Ht. apply elem_of_cons in Ht as [->|Ht]; [congruence|done].
    + apply pq_top_None in Et. rewrite Et. split_and!; [done| |exists 0%nat; by rewrite app_nil_r].
      split; [by left|]. intros [?|(t & Ht & _)]; [done|]. by apply not_elem_of_nil in Ht.
Qed.

(** [cancel] removes exactly the tasks with the identifier, one-shot and periodic, keeps
    all others, and tells whether there was one; [removeOneShotTask] removes the same from
    the queue alone. *)
Theorem cancel_spec key s :
  let '(found, s') := cancel key s in
  pq_elems (oneShotTasks_ s') ≡ₚ filter (fun t => id t <> key) (pq_elems (oneShotTasks_ s)) /\
  periodicTasks_ s' = delete key (periodicTasks_ s) /\
  (found = true <-> (exists t, t ∈ pq_elems (oneShotTasks_ s) /\ id t = key) \/ is_Some (periodicTasks_ s !! key)) /\
  pq_elems (oneShotTasks_ (removeOneShotTask key s)) ≡ₚ pq_elems (oneShotTasks_ s').
Proof.
  unfold cancel, removeOneShotTask, drain_all.
  pose proof (drain_queue_spec (length (pq_elems (oneShotTasks_ s))) key (oneShotTasks_ s) pq_empty false [] ltac:(lia)) as H.
  destruct (drain _ _ _ _ _ _) as [[q f] calls]. rewrite pq_elems_empty, app_nil_r in H.
  destruct H as (H1 & H2 & _).
  destruct (periodicTasks_ s !! key) as [t|] eqn:E; cbn; split_and!; try done.
  - split; [|done]. intros _. right. by eexists.
  - by rewrite delete_id.
  - rewrite H2. split; [intros [?|?]; [done|by left]|intros [?|[? ?]]; [by right|done]].
Qed.

(** [nextTaskDelay] is empty exactly when there is no task, and otherwise the time to the
    earliest one, or 0 when that is past. *)
Theorem nextTaskDelay_spec now s :
  (nextTaskDelay now s = None <-> pq_elems (oneShotTasks_ s) = [] /\ periodicTasks_ s = ∅) /\
  (forall d, nextTaskDelay now s = Some d ->
     0 <= d /\
     (forall t, t ∈ pq_elems (oneShotTasks_ s) -> d <= Z.max 0 (expiry t - now)) /\
     (forall k t, periodicTasks_ s !! k = Some t -> d <= Z.max 0 (nextExpiry t - now))).
Proof.
  unfold nextTaskDelay. split.
  { destruct (bool_decide _ && bool_decide _) eqn:E.
    - apply andb_true_iff in E. rewrite !bool_decide_eq_true in E. done.
    - split; [done|]. intros [H1 H2]. rewrite !bool_decide_true in E by done. done. }
  destruct (_ && _); [done|]. intros d [= <-].
  assert (Hfold : forall (l : list (Z * PeriodicTask)) m,
    foldl (fun m kt => Z.min m (nextExpiry kt.2)) m l <= m /\
    forall kt, kt ∈ l -> foldl (fun m kt => Z.min m (nextExpiry kt.2)) m l <= nextExpiry kt.2).
  { induction l as [|x l IH]; intros m; cbn; [split; [lia|]; intros kt Hk; by apply not_elem_of_nil in Hk|].
    destruct (IH (Z.min m (nextExpiry x.2))) as [I1 I2]. split; [lia|].
    intros kt [->|Hk]%elem_of_cons; [lia|by apply I2]. }
  set (first := match pq_top _ with Some t => _ | None => _ end).
  destruct (Hfold (map_to_list (periodicTasks_ s)) first) as [Hf1 Hf2].
  split_and!; [lia| |].
  - intros t Ht. assert (first <= expiry t).
    { subst first. destruct (pq_top (oneShotTasks_ s)) as [u|] eqn:Et.
      - pose proof (top_first s u t Et Ht). lia.
      - apply pq_top_None in Et. rewrite Et in Ht. by apply not_elem_of_nil in Ht. }
    lia.
  - intros k t Hk. specialize (Hf2 (k, t)). cbn in Hf2.
    assert ((k, t) ∈ map_to_list (periodicTasks_ s)) by by apply elem_of_map_to_list. naive_solver lia.
Qed.

(** ** Periodic tasks *)

(** What a client or the timer does; a call that is not armed cannot fire. *)
Inductive op := OpSchedule (now ival : Z) | OpFires (key now : Z) | OpCancel (key : Z) | OpPush (key now delay prio : Z).

(** One operation, with the identifiers whose callbacks it runs *)
Definition exec (o : op) (s : manager) : manager * list Z :=
  match o with
  | OpSchedule now ival => ((schedulePeriodic now ival s).2, [])
  | OpFires key now =>
      if bool_decide (key ∈ armed s) then
        let '(ran, s') := periodic_fires key now s in (s', if ran then [key] else [])
      else (s, [])
  | OpCancel key => ((cancel key s).2, [])
  | OpPush key now delay prio => (push_one_shot key now delay prio s, [])
  end.

Fixpoint execs (os : list op) (s : manager) : manager * list Z :=
  match os with
  | [] => (s, [])
  | o :: os => let '(s1, e1) := exec o s in let '(s2, e2) := execs os s1 in (s2, e1 ++ e2)
  end.

Definition init : manager := mkManager pq_empty ∅ 1 [] [].

(** Every task of the map is active and has a call pending, no identifier has two, and those
    in use are below [nextId_]. *)
Definition wf (s : manager) : Prop :=
  NoDup (armed s) /\
  (forall k t, periodicTasks_ s !! k = Some t -> isActive t = true /\ k ∈ armed s) /\
  (forall k, k ∈ armed s -> k < nextId_ s) /\
  1 <= nextId_ s.

Lemma elem_of_remove_one key l x : NoDup l -> x ∈ remove_one key l <-> x ∈ l /\ x <> key.
Proof.
  induction 1 as [|y l Hy _ IH]; cbn; [set_solver|].
  destruct (Z.eqb_spec y key) as [->|]; [set_solver|]. rewrite !elem_of_cons, IH. set_solver.
Qed.

Lemma NoDup_remove_one key l : NoDup l -> NoDup (remove_one key l).
Proof.
  induction 1 as [|y l Hy Hl IH]; cbn; [constructor|].
  destruct (y =? key); [done|]. constructor; [|done]. rewrite elem_of_remove_one by done. tauto.
Qed.

Lemma cancel_frame key s :
  let s' := (cancel key s).2 in
  periodicTasks_ s' = delete key (periodicTasks_ s) /\ nextId_ s' = nextId_ s /\ armed s' = armed s.
Proof.
  unfold cancel. destruct (drain_all _ _) as [[q f] c].
  destruct (periodicTasks_ s !! key) eqn:E; cbn; [done|]. by rewrite delete_id.
Qed.

Lemma wf_cancel key s : wf s -> wf (cancel key s).2.
Proof.
  destruct (cancel_frame key s) as (E1 & E2 & E3). intros (W1 & W2 & W3 & W4).
  split_and!; rewrite ?E1, ?E2, ?E3; try done.
  intros k t [_ Ht]%lookup_delete_Some. by apply W2 in Ht.
Qed.

Lemma wf_schedule now ival s :
  wf s -> nextId_ s < 2 ^ 64 - 1 ->
  let s' := (schedulePeriodic now ival s).2 in wf s' /\ nextId_ s' = nextId_ s + 1.
Proof.
  intros (W1 & W2 & W3 & W4) Hn. unfold schedulePeriodic, scheduleNextPeriodic; cbn.
  rewrite lookup_insert_eq. cbn. rewrite wrapU_small by lia. split; [|done]. split_and!; cbn.
  - apply NoDup_app. split_and!; [done| |apply NoDup_singleton].
    intros x Hx Hx'%list_elem_of_singleton. subst x. specialize (W3 _ Hx). lia.
  - intros k t [[<- <-]|[Hk Ht]]%lookup_insert_Some; [set_solver|]. destruct (W2 _ _ Ht). set_solver.
  - intros k [Hk|Hk%list_elem_of_singleton]%elem_of_app; [specialize (W3 _ Hk)|]; lia.
  - lia.
Qed.

Lemma wf_fires key now s :
  wf s -> key ∈ armed s ->
  let '(ran, s') := periodic_fires key now s in
  wf s' /\ nextId_ s' = nextId_ s /\ (ran = true <-> is_Some (periodicTasks_ s !! key)) /\
  dom (periodicTasks_ s') = dom (periodicTasks_ s).
Proof.
  intros (W1 & W2 & W3 & W4) Hk. unfold periodic_fires, scheduleNextPeriodic. cbn.
  pose proof (elem_of_remove_one key (armed s)) as Hrm. pose proof (NoDup_remove_one key _ W1) as Hnd.
  destruct (periodicTasks_ s !! key) as [t|] eqn:E.
  - destruct (W2 _ _ E) as [-> _]. cbn. rewrite lookup_insert_eq. cbn. split_and!; [|done|naive_solver|].
    + split_and!; cbn; [| |intros k; rewrite elem_of_app, Hrm, list_elem_of_singleton by done; naive_solver|done].
      * apply NoDup_app. split_and!; [done| |apply NoDup_singleton].
        intros x Hx Hx'%list_elem_of_singleton. subst x. apply Hrm in Hx; tauto.
      * intros k u [[<- <-]|[Hne Hu]]%lookup_insert_Some; [set_solver|].
        destruct (W2 _ _ Hu). rewrite elem_of_app, Hrm by done. naive_solver.
    + rewrite dom_insert_L. apply elem_of_dom_2 in E. set_solver.
  - split_and!; [|done| |done].
    + split_and!; cbn; [done| |intros k; rewrite Hrm by done; naive_solver|done].
      intros k u Hu. destruct (W2 _ _ Hu). rewrite Hrm by done. split; [done|]. split; [done|congruence].
    + split; [done|]. by intros [? ?].
Qed.

(** One operation: the invariant, the identifiers, and whose callback runs *)
Lemma wf_exec o s :
  wf s -> nextId_ s < 2 ^ 64 - 1 ->
  let '(s', ran) := exec o s in
  wf s' /\ nextId_ s <= nextId_ s' <= nextId_ s + 1 /\
  (forall k, k ∈ ran -> is_Some (periodicTasks_ s !! k)) /\
  (forall k, k < nextId_ s -> periodicTasks_ s !! k = None -> periodicTasks_ s' !! k = None).
Proof.
  intros Hw Hn. destruct o as [now ival|key now|key|key now delay prio]; cbn.
  - destruct (wf_schedule now ival s Hw Hn) as [H1 H2]. cbn in H1, H2. rewrite H2. split_and!; [done|lia|lia|set_solver|].
    intros k Hk E. unfold schedulePeriodic, scheduleNextPeriodic. cbn. rewrite lookup_insert_eq. cbn.
    by rewrite lookup_insert_ne by lia.
  - case_bool_decide as Hk; [|split_and!; [done|lia|lia|set_solver|done]].
    pose proof (wf_fires key now s Hw Hk) as H. destruct (periodic_fires key now s) as [ran s'].
    destruct H as (H1 & H2 & H3 & H4). split_and!; [done|lia|lia| |].
    + intros k Hr. destruct ran; [|set_solver]. apply list_elem_of_singleton in Hr as ->. by apply H3.
    + intros k _. rewrite <- !not_elem_of_dom, H4. done.
  - destruct (cancel_frame key s) as (E1 & E2 & E3). rewrite E2.
    split_and!; [by apply wf_cancel|lia|lia|set_solver|]. intros k _ Hk. by rewrite E1, lookup_delete_None; right.
  - split_and!; [exact Hw|lia|lia|set_solver|done].
Qed.

Lemma wf_execs os s :
  wf s -> nextId_ s + Z.of_nat (length os) < 2 ^ 64 ->
  let '(s', ran) := execs os s in
  wf s' /\ nextId_ s <= nextId_ s' <= nextId_ s + Z.of_nat (length os) /\
  (forall k, k < nextId_ s -> periodicTasks_ s !! k = None -> ~ (k ∈ ran) /\ periodicTasks_ s' !! k = None).
Proof.
  revert s. induction os as [|o os IH]; intros s Hw Hn; cbn.
  - split_and!; [done|lia|lia|]. intros; split; [set_solver|done].
  - cbn in Hn. pose proof (wf_exec o s Hw ltac:(lia)) as H. destruct (exec o s) as [s1 e1].
    destruct H as (H1 & H2 & H3 & H4). specialize (IH s1 H1 ltac:(lia)). destruct (execs os s1) as [s2 e2].
    destruct IH as (I1 & I2 & I3). split_and!; [done|lia|lia|]. intros k Hk E.
    destruct (I3 k ltac:(lia) (H4 k Hk E)) as [Hni ?]. split; [|done].
    rewrite elem_of_app. intros [He|He]; [|done]. apply H3 in He as [? ?]. congruence.
Qed.

Lemma wf_init : wf init.
Proof. split_and!; cbn; [constructor|intros k t Hk; set_solver|set_solver|lia]. Qed.

(** as long as the identifiers do not wrap around, every periodic task has exactly one
    call pending, whatever is scheduled, fired and cancelled, and none is inactive. *)
Theorem periodic_armed_once os s :
  Z.of_nat (length os) < 2 ^ 64 - 1 -> s = (execs os init).1 ->
  NoDup (armed s) /\ forall k t, periodicTasks_ s !! k = Some t -> isActive t = true /\ k ∈ armed s.
Proof.
  intros Hl ->. pose proof (wf_execs os init wf_init) as H. cbn in H. specialize (H ltac:(lia)).
  destruct (execs os init) as [s' ran]. destruct H as [(W1 & W2 & _) _]. done.
Qed.

(** once [cancel] has returned for a task that was scheduled, its callback never runs
    again, although the call that is pending is not the one [timer_.cancel] is given. *)
Theorem cancelled_never_runs os os' key :
  Z.of_nat (length os + length os') < 2 ^ 64 - 1 ->
  is_Some (periodicTasks_ (execs os init).1 !! key) ->
  let s := (cancel key (execs os init).1).2 in
  ~ (key ∈ (execs os' s).2) /\ periodicTasks_ (execs os' s).1 !! key = None.
Proof.
  intros Hl [t Ht]. pose proof (wf_execs os init wf_init) as H. cbn in H. specialize (H ltac:(lia)).
  destruct (execs os init) as [s0 ran]. cbn in *. destruct H as (Hw & Hn & _).
  assert (Hkey : key < nextId_ s0) by (destruct Hw as (_ & W2 & W3 & _); by apply W3, (W2 _ t)).
  pose proof (wf_cancel key s0 Hw) as Hw'.
  destruct (cancel_frame key s0) as (E1 & E2 & E3).
  pose proof (wf_execs os' (cancel key s0).2 Hw') as H. rewrite E2 in H. specialize (H ltac:(lia)).
  destruct (execs os' _) as [s1 ran1]. cbn. apply H; [lia|]. rewrite E1. apply lookup_delete_eq.
Qed.

End Manager.

Lemma periodic_armed_once_witness :
  let s : manager (Q := list_queue less) := (execs [OpSchedule 0 10; OpSchedule 0 7; OpFires 1 10] init).1 in
  armed s = [2; 1] /\ NoDup (armed s).
Proof.
  split; [vm_compute; reflexivity|].
  apply (periodic_armed_once [OpSchedule 0 10; OpSchedule 0 7; OpFires 1 10] _); [cbn; lia|reflexivity].
Defined.

Lemma cancelled_never_runs_witness :
  let s0 : manager (Q := list_queue less) := (execs [OpSchedule 0 10] init).1 in
  armed s0 = [1] /\ ~ (1 ∈ (execs [OpFires 1 10] (cancel 1 s0).2).2).
Proof.
  split; [vm_compute; reflexivity|].
  apply (cancelled_never_runs (Q := list_queue less) [OpSchedule 0 10] [OpFires 1 10] 1); [cbn; lia|].
  eexists; vm_compute; reflexivity.
Defined.

(** ** The manager's thread

    [managerThreadFunc] holds [mutex_], which is not recursive, when it calls
    [nextTaskDelay], which locks it.  A step is what a thread does up to the next point where
    it can wait. *)
Inductive mpc := MTest | MLock | MHold | MWait | MRelock | MExited.
Inductive cpc := CIdle | CDone.
Inductive spc := SFlag | SNotify | SJoin | SClear | SDone.
Inductive owner := Nobody | Manager.

Record threads := mkThreads {
  running_ : bool;
  has_task : bool;
  mutex_ : owner;
  mgr : mpc;
  client : cpc;
  stopper : spc;
}.

(** [managerThreadFunc] *)
Definition manager_step (s : threads) : option threads :=
  match mgr s with
  | MTest => Some (mkThreads (running_ s) (has_task s) (mutex_ s) (if running_ s then MLock else MExited) (client s) (stopper s))
  | MLock | MRelock =>
      match mutex_ s with
      | Nobody => Some (mkThreads (running_ s) (has_task s) Manager MHold (client s) (stopper s))
      | _ => None
      end
  | MHold =>
      Some (if has_task s
            then mkThreads (running_ s) (has_task s) Manager MRelock (client s) (stopper s)
            else mkThreads (running_ s) (has_task s) Nobody MWait (client s) (stopper s))
  | MWait | MExited => None
  end.

(** A waiting manager that is woken locks, unlocks ([continue]) and tests again. *)
Definition notify (m : mpc) : mpc := match m with MWait => MTest | _ => m end.

(** [schedulePeriodic], as far as the mutex and the condition variable go *)
Definition client_step (s : threads) : option threads :=
  match client s, mutex_ s with
  | CIdle, Nobody => Some (mkThreads (running_ s) true Nobody (notify (mgr s)) CDone (stopper s))
  | _, _ => None
  end.

(** [stop] *)
Definition stop_step (s : threads) : option threads :=
  match stopper s with
  | SFlag => Some (mkThreads false (has_task s) (mutex_ s) (mgr s) (client s) SNotify)
  | SNotify => Some (mkThreads (running_ s) (has_task s) (mutex_ s) (notify (mgr s)) (client s) SJoin)
  | SJoin => match mgr s with
             | MExited => Some (mkThreads (running_ s) (has_task s) (mutex_ s) (mgr s) (client s) SClear)
             | _ => None
             end
  | SClear => match mutex_ s with
              | Nobody => Some (mkThreads (running_ s) false Nobody (mgr s) (client s) SDone)
              | _ => None
              end
  | SDone => None
  end.

Inductive tid := TManager | TClient | TStop.
Definition thread_step (t : tid) : threads -> option threads :=
  match t with TManager => manager_step | TClient => client_step | TStop => stop_step end.

Definition deadlocked (s : threads) : Prop := mgr s = MRelock /\ mutex_ s = Manager.

Lemma deadlocked_step s t s' : deadlocked s -> thread_step t s = Some s' -> deadlocked s'.
Proof.
  intros [H1 H2]. destruct t; cbn; unfold manager_step, client_step, stop_step; rewrite ?H1, ?H2;
    [done|by destruct (client s)|]. destruct (stopper s); intros; simplify_eq; done.
Qed.

(** once the manager's thread has found a task it waits for the mutex it holds, for ever:
    no later [schedulePeriodic] returns and [stop] never gets past [join]. *)
Theorem manager_deadlocks s :
  mgr s = MHold -> has_task s = true -> mutex_ s = Manager -> stopper s <> SClear -> stopper s <> SDone ->
  exists s1, thread_step TManager s = Some s1 /\
    forall s2, reachable thread_step s1 s2 ->
      thread_step TManager s2 = None /\ client s2 = client s /\ mgr s2 = MRelock /\
      mutex_ s2 = Manager /\ stopper s2 <> SClear /\ stopper s2 <> SDone.
Proof.
  intros Hm Ht Ho Hs1 Hs2. eexists. split; [cbn; unfold manager_step; by rewrite Hm, Ht|].
  intros s2 Hr.
  assert (H : deadlocked s2 /\ client s2 = client s /\ stopper s2 <> SClear /\ stopper s2 <> SDone).
  { revert s2 Hr. apply reachable_inv; [done|]. intros s2 t s3 (Hd & Hc & H3 & H4) Hst.
    split; [by eapply deadlocked_step|]. destruct Hd as [D1 D2].
    destruct t; cbn in Hst; unfold manager_step, client_step, stop_step in Hst; rewrite ?D1, ?D2 in Hst;
      [done|by destruct (client s2)|]. destruct (stopper s2); simplify_eq; done. }
  destruct H as ((D1 & D2) & Hc & H3 & H4). cbn. unfold manager_step. rewrite D1, D2. split_and!; done.
Qed.

(** It happens when a periodic task is added while the manager runs. *)
Lemma manager_deadlocks_witness :
  let s0 := mkThreads true false Nobody MTest CIdle SFlag in
  exists s, run_schedule thread_step [TManager; TManager; TManager; TClient; TManager; TManager] s0 = Some s /\
  exists s1, thread_step TManager s = Some s1 /\
    forall s2, reachable thread_step s1 s2 ->
      thread_step TManager s2 = None /\ client s2 = client s /\ mgr s2 = MRelock /\
      mutex_ s2 = Manager /\ stopper s2 <> SClear /\ stopper s2 <> SDone.
Proof.
  eexists. split; [vm_compute; reflexivity|]. apply manager_deadlocks; cbn; done.
Defined.

End TimerManager.
