(* ===== verification/LatencyTypes.v ===== *)
(** The messages of the latency benchmark over DDS
    ([src/other/pubsub/dds/performance/latency/LatencyTestTypes.hpp] and [.cpp]), the sizes
    of its samples, and the file they are read from ([main_LatencyTest.cpp]). *)
From stdpp Require Import pretty.
From S2P Require Import Prelude Calculator Throughput BenchTypes BenchFiles.
Import BenchTypes.

Module LatencyTypes.

(** ** Commands *)

(** A value without a name, which [deserialize] can make of any four bytes, is [OTHER]. *)
Inductive TESTCOMMAND := DEFAULT | READY | BEGIN | STOP | END | STOP_ERROR | OTHER (code : Z).

#[global] Instance TESTCOMMAND_eq_dec : EqDecision TESTCOMMAND.
Proof. solve_decision. Defined.

Definition code_of (c : TESTCOMMAND) : Z :=
  match c with
  | DEFAULT => 0 | READY => 1 | BEGIN => 2 | STOP => 3 | END => 4 | STOP_ERROR => 5 | OTHER code => code
  end.
Definition of_code (code : Z) : TESTCOMMAND :=
  match code with
  | 0 => DEFAULT | 1 => READY | 2 => BEGIN | 3 => STOP | 4 => END | 5 => STOP_ERROR | _ => OTHER code
  end.

(** [TestCommandDataType::serialize], [deserialize] and [calculate_serialized_size] *)
Definition serialize_test_command (c : TESTCOMMAND) (p : payload) : option payload :=
  d ← memcpy_to (data p) 0 (bytes_of 4 (code_of c));
  Some (mkPayload d 4 (pos p)).
Definition deserialize_test_command (p : payload) : option TESTCOMMAND :=
  bs ← memcpy_from (data p) 0 4;
  Some (of_code (value_of bs)).
Definition test_command_size : nat := 4.

(** ** Samples *)

Record LatencyType := mkLatency {
  seqnum : Z;
  bounce : Z;
  body : list Z;
}.

#[global] Instance LatencyType_eq_dec : EqDecision LatencyType.
Proof. solve_decision. Defined.

(** [LatencyType::overhead]: two numbers of four bytes before [data], and the header *)
Definition overhead : Z := 8 + 4.

(** [LatencyDataType]: the size of the array and the size announced.  The rounding is made on
    64 bits; [max_serialized_type_size] has 32. *)
Record LatencyDataType := mkType {
  buffer_size_ : Z;
  max_serialized_type_size : Z;
}.
Definition LatencyDataType_of (size : Z) : LatencyDataType :=
  mkType size (wrapU 32 (4 + 4 + Z.land (wrapU 64 (size + 3)) (wrapU 64 (Z.lnot 3)) + 4)).

(** [init_static_types]: the array for a demand; [None] when [assert(padding > 0)] fails.
    The difference is unsigned. *)
Definition type_for (demand : Z) : option LatencyDataType :=
  let padding := wrapU 64 (demand - overhead) in
  if 0 <? padding then Some (LatencyDataType_of padding) else None.

Section Type_.
Context (t : LatencyDataType).
#[local] Abbreviation n := (Z.to_nat (buffer_size_ t)).

(** [compare_data], [copy_data] *)
Definition compare_data (lt1 lt2 : LatencyType) : bool :=
  if negb (seqnum lt1 =? seqnum lt2) then false
  else bool_decide (take n (body lt1) = take n (body lt2)).
Definition copy_data (src dst : LatencyType) : option LatencyType :=
  bs ← memcpy_from (body src) 0 n;
  b ← memcpy_to (body dst) 0 bs;
  Some (mkLatency (seqnum src) (bounce src) b).

(** [serialize], [deserialize] *)
Definition serialize (lt : LatencyType) (p : payload) : option payload :=
  d ← memcpy_to (data p) 0 [0; 1; 0; 0];
  d ← memcpy_to d 4 (bytes_of 4 (seqnum lt));
  d ← memcpy_to d 8 (bytes_of 4 (bounce lt));
  bs ← memcpy_from (body lt) 0 n;
  d ← memcpy_to d 12 bs;
  Some (mkPayload d (Z.to_nat (max_serialized_type_size t)) (pos p)).
Definition deserialize (p : payload) (lt : LatencyType) : option LatencyType :=
  s ← memcpy_from (data p) 4 4;
  b ← memcpy_from (data p) 8 4;
  bs ← memcpy_from (data p) 12 n;
  body' ← memcpy_to (body lt) 0 bs;
  Some (mkLatency (value_of s) (value_of b) body').

(** [create_data]: an array of bytes of the announced size, in which the two numbers come
    first; the rest is [data]. *)
Definition create_data (memory : list Z) : LatencyType :=
  mkLatency (value_of (take 4 memory)) (value_of (take 4 (drop 4 memory)))
    (drop 8 (take (Z.to_nat (max_serialized_type_size t)) memory)).
End Type_.

(** ** Sizes *)

Lemma round_up size :
  0 <= size -> Z.land size (wrapU 64 (Z.lnot 3)) = 4 * (size / 4) \/ 2 ^ 64 <= size.
Proof.
  intros H. destruct (decide (2 ^ 64 <= size)); [by right|left].
  replace (wrapU 64 (Z.lnot 3)) with (Z.ldiff (Z.ones 64) (Z.ones 2)) by reflexivity.
  rewrite Z.ldiff_land, Z.land_assoc, Z.land_ones, Z.mod_small by lia.
  rewrite <- Z.ldiff_land, Z.ldiff_ones_r by lia.
  rewrite Z.shiftl_mul_pow2, Z.shiftr_div_pow2 by lia. change (2 ^ 2) with 4. lia.
Qed.

Lemma announced size :
  0 <= size < 2 ^ 64 - 3 ->
  max_serialized_type_size (LatencyDataType_of size) = wrapU 32 (overhead + 4 * ((size + 3) / 4)).
Proof.
  intros H. unfold LatencyDataType_of, overhead. cbn [max_serialized_type_size].
  rewrite (wrapU_small 64 (size + 3)) by lia. destruct (round_up (size + 3)) as [-> |]; [lia| |lia].
  f_equal. lia.
Qed.

(** A demand of more than the overhead of 12 bytes gets a type whose samples are announced
    with the demand, rounded up to four bytes, and whose objects fit into the memory of
    [create_data].  A demand of 12 fails the assertion.  One below 12, which the test of the
    option file lets through at the end of a line, passes the assertion with an array of
    nearly 2^64 bytes, and no copy of such a sample stays inside its buffers. *)
Theorem type_for_spec demand :
  0 <= demand < 2 ^ 32 - 3 ->
  (overhead < demand ->
     exists t, type_for demand = Some t /\ buffer_size_ t = demand - overhead /\
       max_serialized_type_size t = 4 * ((demand + 3) / 4) /\
       8 + buffer_size_ t <= max_serialized_type_size t /\
       forall memory, length memory = Z.to_nat (max_serialized_type_size t) ->
         buffer_size_ t <= Z.of_nat (length (body (create_data t memory)))) /\
  (demand = overhead -> type_for demand = None) /\
  (demand < overhead ->
     exists t, type_for demand = Some t /\ 2 ^ 63 < buffer_size_ t /\
       forall src dst, Z.of_nat (length (body src)) < 2 ^ 63 -> copy_data t src dst = None).
Proof.
  intros Hd. unfold type_for, overhead in *. split_and!.
  - intros Ho. rewrite wrapU_small, (proj2 (Z.ltb_lt _ _)) by lia. eexists. split; [done|].
    rewrite announced by lia. unfold overhead. cbn [buffer_size_ LatencyDataType_of].
    assert (4 * ((demand + 3) / 4) = 12 + 4 * ((demand - (8 + 4) + 3) / 4)) as ->.
    { replace (demand + 3) with (demand - (8 + 4) + 3 + 3 * 4) by lia. rewrite Z.div_add by lia. ring. }
    pose proof (Z.div_mod (demand - (8 + 4) + 3) 4). pose proof (Z.mod_pos_bound (demand - (8 + 4) + 3) 4).
    rewrite wrapU_small by lia. split_and!; [done|lia|lia|].
    intros memory Hm. unfold create_data. cbn [body]. rewrite length_drop, length_take, announced by lia.
    unfold overhead. rewrite wrapU_small by lia. lia.
  - intros ->. reflexivity.
  - intros Ho. assert (E : wrapU 64 (demand - (8 + 4)) = demand - 12 + 2 ^ 64).
    { unfold wrapU. rewrite <- (Z.mod_add _ 1) by lia. rewrite Z.mod_small; lia. }
    rewrite E, (proj2 (Z.ltb_lt _ _)) by lia. eexists. split; [done|]. cbn [buffer_size_ LatencyDataType_of].
    split; [lia|]. intros src dst Hs. unfold copy_data, memcpy_from. cbn [buffer_size_ LatencyDataType_of].
    rewrite (proj2 (Nat.leb_gt _ _)) by lia. done.
Qed.

Lemma type_for_spec_witness :
  (exists t, type_for 16 = Some t /\ max_serialized_type_size t = 16) /\ type_for 12 = None /\
  (exists t, type_for 8 = Some t /\ 2 ^ 63 < buffer_size_ t).
Proof.
  split_and!.
  - destruct (proj1 (type_for_spec 16 ltac:(lia)) ltac:(unfold overhead; lia)) as (t & H1 & _ & H2 & _).
    by exists t.
  - exact (proj1 (proj2 (type_for_spec 12 ltac:(lia))) eq_refl).
  - destruct (proj2 (proj2 (type_for_spec 8 ltac:(lia))) ltac:(unfold overhead; lia)) as (t & H1 & H2 & _).
    by exists t.
Defined.

(** ** Round trips *)

(** The fields of a sample of [size] bytes fit their widths. *)
Definition sample_ok (size : Z) (lt : LatencyType) : Prop :=
  unsigned 4 (seqnum lt) /\ unsigned 4 (bounce lt) /\ Z.of_nat (length (body lt)) = size.

#[global] Instance sample_ok_dec size lt : Decision (sample_ok size lt).
Proof. unfold sample_ok. apply _. Defined.

(** A sample written to a payload of the announced size is read back as it was, whatever
    the target of the same type held, and nothing is written outside the payload. *)
Theorem latency_sample_roundtrip size lt target p :
  0 < size < 2 ^ 31 -> sample_ok size lt -> sample_ok size target ->
  max_serialized_type_size (LatencyDataType_of size) <= Z.of_nat (length (data p)) ->
  exists p', serialize (LatencyDataType_of size) lt p = Some p' /\ length (data p') = length (data p) /\
    Z.of_nat (plength p') = max_serialized_type_size (LatencyDataType_of size) /\
    deserialize (LatencyDataType_of size) p' target = Some lt.
Proof.
  intros Hn (Hs & Hb & Hl) (_ & _ & Ht) Hp. pose proof (announced size ltac:(lia)) as Hm.
  pose proof (Z.div_mod (size + 3) 4). pose proof (Z.mod_pos_bound (size + 3) 4). unfold overhead in Hm.
  rewrite wrapU_small in Hm by lia.
  unfold serialize, deserialize. set (m := max_serialized_type_size _) in *. clearbody m.
  change (buffer_size_ (LatencyDataType_of size)) with size.
  destruct (split_buffer 4 (data p)) as (h & d1 & Ed & Hh); [lia|].
  destruct (split_buffer 4 d1) as (s4 & d2 & -> & Hs4); [rewrite Ed, length_app in Hp; lia|].
  destruct (split_buffer 4 d2) as (b4 & d3 & -> & Hb4); [rewrite Ed, !length_app in Hp; lia|].
  destruct (split_buffer (Z.to_nat size) d3) as (b & rest & -> & Hbl); [rewrite Ed, !length_app in Hp; lia|].
  rewrite Ed. rewrite memcpy_to_first by (rewrite Hh; done). cbn [mbind option_bind].
  assert (H8 : length ([0; 1; 0; 0] ++ bytes_of 4 (seqnum lt)) = 8%nat) by (rewrite length_app, length_bytes_of; done).
  assert (H12 : length (([0; 1; 0; 0] ++ bytes_of 4 (seqnum lt)) ++ bytes_of 4 (bounce lt)) = 12%nat)
    by (rewrite length_app, H8, length_bytes_of; done).
  rewrite (memcpy_to_at [0; 1; 0; 0] s4 _ (bytes_of 4 (seqnum lt))) by (rewrite ?length_bytes_of; done).
  cbn [mbind option_bind]. rewrite (app_assoc [0; 1; 0; 0]).
  rewrite (memcpy_to_at _ b4 _ (bytes_of 4 (bounce lt))) by (rewrite ?length_bytes_of; done).
  cbn [mbind option_bind]. rewrite (memcpy_from_all (body lt)) by lia. cbn [mbind option_bind].
  rewrite (app_assoc _ (bytes_of 4 (bounce lt))). rewrite memcpy_to_at by (rewrite ?H12; lia || done).
  cbn [mbind option_bind]. eexists. split; [done|]. cbn [data plength pos]. split_and!.
  - rewrite !length_app, !length_bytes_of. cbn [length]. lia.
  - lia.
  - rewrite <- !app_assoc.
    rewrite (memcpy_from_at [0; 1; 0; 0] (bytes_of 4 (seqnum lt)) _ 4 4) by (by rewrite ?length_bytes_of).
    cbn [mbind option_bind]. rewrite (app_assoc [0; 1; 0; 0]).
    rewrite (memcpy_from_at _ (bytes_of 4 (bounce lt)) _ 8 4) by (by rewrite ?length_bytes_of).
    cbn [mbind option_bind].
    rewrite (app_assoc _ (bytes_of 4 (bounce lt))), (memcpy_from_at _ (body lt) _ 12 _) by (rewrite ?H12; lia || done).
    cbn [mbind option_bind]. rewrite memcpy_to_all by lia. cbn [mbind option_bind].
    rewrite !value_of_bytes by done. by destruct lt.
Qed.

Lemma latency_sample_roundtrip_witness :
  exists p', serialize (LatencyDataType_of 5) (mkLatency 7 70000 [1; 2; 3; 4; 5]) (mkPayload (replicate 20 255) 0 0) = Some p' /\
    length (data p') = 20%nat /\ plength p' = 20%nat /\
    deserialize (LatencyDataType_of 5) p' (mkLatency 0 0 [0; 0; 0; 0; 0]) = Some (mkLatency 7 70000 [1; 2; 3; 4; 5]).
Proof.
  destruct (latency_sample_roundtrip 5 (mkLatency 7 70000 [1; 2; 3; 4; 5]) (mkLatency 0 0 [0; 0; 0; 0; 0])
    (mkPayload (replicate 20 255) 0 0)) as (p' & H1 & H2 & H3 & H4);
    [lia|apply (bool_decide_eq_true_1 _); vm_compute; reflexivity|apply (bool_decide_eq_true_1 _); vm_compute; reflexivity|
     vm_compute; discriminate|].
  exists p'. change (max_serialized_type_size (LatencyDataType_of 5)) with 20 in H3. split_and!; [done|done|lia|done].
Defined.

Lemma memcpy_from_first b c n : n = length b -> memcpy_from (b ++ c) 0 n = Some b.
Proof. by apply (memcpy_from_at [] b c). Qed.

(** Commands are read back, and every four bytes make one. *)
Lemma test_command_roundtrip c p :
  of_code (code_of c) = c -> unsigned 4 (code_of c) -> (4 <= length (data p))%nat ->
  exists p', serialize_test_command c p = Some p' /\ plength p' = test_command_size /\
    deserialize_test_command p' = Some c.
Proof.
  intros Hc Hu Hl. unfold serialize_test_command, deserialize_test_command.
  destruct (split_buffer 4 (data p)) as (h & r & -> & Hh); [done|].
  rewrite memcpy_to_first by (rewrite length_bytes_of; done). cbn [mbind option_bind].
  eexists. split_and!; [done|done|]. cbn [data].
  rewrite memcpy_from_first by (by rewrite length_bytes_of).
  cbn [mbind option_bind]. by rewrite value_of_bytes, Hc.
Qed.

(** ** The file of demands *)

(** [load_demands_payload]: whether it succeeded and what it left in [demands]; the caller
    goes on with that in both cases.  [payload] is declared anew in every turn, so that an empty
    field reads an unassigned variable: [None].  The last field of a line is not tested. *)
Fixpoint check_fields (fields : list string) (demands : list Z) : option (bool * list Z) :=
  match fields with
  | [] => Some (true, demands)
  | f :: fields =>
      v ← BenchFiles.value None (BenchFiles.read_unsigned f);
      if v <? 16 then Some (false, demands) else check_fields fields (demands ++ [v])
  end.

Fixpoint load_lines (lines : list string) (demands : list Z) : option (bool * list Z) :=
  match lines with
  | [] => Some (true, demands)
  | line :: lines =>
      let '(fields, last) := BenchFiles.loop_fields line in
      '(ok, demands) ← check_fields fields demands;
      if ok : bool
      then load_lines lines (match BenchFiles.read_unsigned last with BenchFiles.Good v => demands ++ [v] | _ => demands end)
      else Some (false, demands)
  end.

Definition load_demands_payload (lines : list string) : option (bool * list Z) := load_lines lines [].

(** The sizes without a file ([LatencyDataSizes]) *)
Definition sample_sizes : list Z := [16; 1024; 64512; 1048576].

(** The file of the repository, a line without a semicolon, a small size at the end of a line
    and one before it *)
Example shipped_payloads : load_demands_payload ["16;16384;"]%string = Some (true, [16; 16384]).
Proof. vm_compute. reflexivity. Qed.
Example payload_alone : load_demands_payload ["1024"]%string = Some (true, [1024; 1024]).
Proof. vm_compute. reflexivity. Qed.
Example small_last : load_demands_payload ["16;8"]%string = Some (true, [16; 8]).
Proof. vm_compute. reflexivity. Qed.
Example small_first : load_demands_payload ["16;8;32"]%string = Some (false, [16]).
Proof. vm_compute. reflexivity. Qed.

(** A line as the file of the repository has it: every field is followed by a semicolon. *)
Definition print_line (ds : list N) : string := BenchFiles.join ((pretty <$> ds) ++ [""%string]).

Definition demand_ok (d : N) : Prop := 16 <= Z.of_N d < 2 ^ 32.

Lemma check_fields_pretty ds demands :
  Forall demand_ok ds -> check_fields (pretty <$> ds) demands = Some (true, demands ++ (Z.of_N <$> ds)).
Proof.
  intros H. revert demands. induction H as [|d ds [Hd1 Hd2] _ IH]; intros demands; [by rewrite app_nil_r|].
  cbn [fmap list_fmap check_fields]. rewrite BenchFiles.read_pretty by done. cbn [BenchFiles.value mbind option_bind].
  rewrite (proj2 (Z.ltb_ge _ _)), IH by lia. by rewrite <- app_assoc.
Qed.

Lemma loop_fields_line ds :
  ds <> [] -> BenchFiles.loop_fields (print_line ds) = (pretty <$> ds, ""%string).
Proof.
  intros Hne. destruct ds as [|d ds]; [done|]. unfold BenchFiles.loop_fields, print_line. cbn [fmap list_fmap app].
  rewrite BenchFiles.split_join_fields.
  2: { constructor; [apply BenchFiles.free_pretty|]. apply Forall_app. split; [|by repeat constructor].
       apply Forall_fmap, Forall_true. intros k. apply BenchFiles.free_pretty. }
  destruct ((pretty <$> ds) ++ [""%string]) as [|x l] eqn:E; [by apply app_eq_nil in E as [_ ?]|].
  rewrite <- E. change (pretty d :: (pretty <$> ds) ++ [""%string]) with ((pretty d :: (pretty <$> ds)) ++ [""%string]).
  by rewrite removelast_last, List.last_last.
Qed.

(** A file whose fields are all closed by a semicolon is read as it is written. *)
Theorem latency_demands_roundtrip lines :
  Forall (fun ds => ds <> [] /\ Forall demand_ok ds) lines ->
  load_demands_payload (print_line <$> lines) = Some (true, Z.of_N <$> mjoin lines).
Proof.
  intros H. unfold load_demands_payload. rewrite <- (app_nil_l (Z.of_N <$> mjoin lines)).
  generalize (@nil Z) as acc. induction H as [|ds lines [Hne Hd] _ IH]; intros acc; [by rewrite app_nil_r|].
  cbn [fmap list_fmap load_lines]. rewrite loop_fields_line, check_fields_pretty by done.
  cbn [mbind option_bind]. change (BenchFiles.read_unsigned "") with BenchFiles.NoInput. rewrite IH.
  cbn. by rewrite fmap_app, app_assoc.
Qed.

Lemma latency_demands_roundtrip_witness :
  load_demands_payload (print_line <$> [[16; 1024]; [64512]]%N) = Some (true, [16; 1024; 64512]).
Proof.
  apply (latency_demands_roundtrip [[16; 1024]; [64512]]%N).
  repeat constructor; cbn; lia || done.
Defined.

End LatencyTypes.
