(* ===== verification/Percentile.v ===== *)
(** The statistics of the latency benchmark ([LatencyTestPublisher::analyze_times] of
    [src/other/pubsub/dds/performance/latency/LatencyTestPublisher.cpp]) and the trial of them in
    [src/other/traits/perf_percentile.cpp].  Durations are of type [double]. *)
From stdpp Require Import sorting.
From S2P Require Import Prelude Double.
Import Double.

Module Percentile.

(** ** [sort], [min_element] and [max_element] *)

(** [sort] leaves no element that is less than one before it. *)
Definition not_after (x y : double) : Prop := dlt y x = false.
#[export] Instance not_after_dec x y : Decision (not_after x y).
Proof. unfold not_after. apply _. Defined.
Definition sort (times : list double) : list double := merge_sort not_after times.

(** They start with the first element and keep it among equals; an empty range has none. *)
Definition min_element (times : list double) : option double :=
  match times with [] => None | x :: l => Some (foldl (fun m y => if dlt y m then y else m) x l) end.
Definition max_element (times : list double) : option double :=
  match times with [] => None | x :: l => Some (foldl (fun m y => if dlt m y then y else m) x l) end.

(** ** Percentiles *)

(** [elem = static_cast<size_t>(times_.size() * q)]; the place is [elem - 1], and NAN without
    one. *)
Definition elem (q : double) (size : Z) : Z := default 0 (truncated (dmul (of_int size) q)).
Definition percentile (q : double) (sorted : list double) : double :=
  let e := elem q (Z.of_nat (length sorted)) in
  if (0 <? e) && (e <=? Z.of_nat (length sorted))
  then default S754_nan (sorted !! Z.to_nat (e - 1)) else S754_nan.

Definition q50 : double := decimal 5 1.
Definition q90 : double := decimal 9 1.
Definition q99 : double := decimal 99 2.
Definition q9999 : double := decimal 9999 4.

Record TimeStats := mkStats {
  bytes_ : Z;
  received_ : Z;
  minimum_ : double;
  maximum_ : double;
  percentile_50_ : double;
  percentile_90_ : double;
  percentile_99_ : double;
  percentile_9999_ : double;
  mean_ : double;
  stdev_ : double;
}.

(** [std::pow] is rounded as the mathematical library does it. *)
Section Statistics.
Context (pow : double -> double -> double).

(** [analyze_times]: the statistics and the list, which it sorts; [None] when it reads the
    elements of an empty one. *)
Definition analyze_times (datasize received_count : Z) (times : list double) : option (TimeStats * list double) :=
  minimum ← min_element times;
  maximum ← max_element times;
  let size := of_int (Z.of_nat (length times)) in
  let mean := ddiv (foldl dadd (of_int 0) times) size in
  let aux := foldl (fun a x => dadd a (pow (dsub x mean) (of_int 2))) (of_int 0) times in
  let sorted := sort times in
  Some (mkStats datasize (wrapU 32 (received_count - 1)) minimum maximum
          (percentile q50 sorted) (percentile q90 sorted) (percentile q99 sorted) (percentile q9999 sorted)
          mean (dsqrt (ddiv aux size)), sorted).

(** The end of [test]: the first measurement is dropped, from a list that may be empty. *)
Definition drop_first_and_analyze (datasize received_count : Z) (times : list double) : option (TimeStats * list double) :=
  match times with
  | [] => None
  | _ :: times => analyze_times datasize received_count times
  end.
End Statistics.

(** ** Order *)

Lemma sort_perm times : sort times ≡ₚ times.
Proof. apply merge_sort_Permutation. Qed.

#[local] Instance not_after_total : Total not_after.
Proof.
  intros x y. unfold not_after, dlt, SFltb.
  destruct (SFcompare y x) as [[]|] eqn:E; auto. right.
  pose proof (dle_not_lt y x) as H. unfold dlt, dle, SFltb, SFleb in H. rewrite E in H. specialize (H eq_refl).
  by destruct (SFcompare x y) as [[]|].
Qed.

Lemma sort_sorted times :
  Forall positive times -> StronglySorted (fun x y => dle x y = true) (sort times).
Proof.
  intros H. assert (Hp : Forall positive (sort times)) by (by rewrite sort_perm).
  assert (Hs : Sorted not_after (sort times)) by apply (Sorted_merge_sort not_after). revert Hp Hs.
  generalize (sort times) as l. clear H. induction l as [|x l IH]; intros Hp Hs; [constructor|].
  apply Forall_cons in Hp as [Hx Hl]. apply Sorted_inv in Hs as [Hs Hh]. specialize (IH Hl Hs).
  constructor; [done|]. destruct l as [|y l]; [constructor|].
  apply Forall_cons in Hl as [Hy Hl]. inversion Hh as [|? ? Hxy]; subst.
  assert (dle x y = true) by (by apply not_dlt_dle). constructor; [done|].
  apply StronglySorted_inv in IH as [_ IH]. apply Forall_forall. intros z Hz.
  rewrite Forall_forall in IH, Hl. eapply (dle_trans x y z); auto.
Qed.

Lemma sorted_lookup l i j x y :
  Forall positive l -> StronglySorted (fun x y => dle x y = true) l ->
  l !! i = Some x -> l !! j = Some y -> (i <= j)%nat -> dle x y = true.
Proof.
  intros Hp Hs. revert i j. induction Hs as [|z l _ IH Hz]; intros i j Hi Hj Hij; [done|].
  apply Forall_cons in Hp as [Hpz Hp]. destruct i as [|i], j as [|j]; cbn in *; simplify_eq; try lia.
  - by apply dle_refl.
  - rewrite Forall_forall in Hz. apply Hz. by eapply list_elem_of_lookup_2.
  - eapply IH; [done|done|done|lia].
Qed.

(** The fold of [min_element] and [max_element]: an element that is at least as good as all *)
Lemma extremum (better : double -> double -> bool) x l :
  (forall a b d, positive a -> positive b -> positive d -> better b a = false -> better d b = false -> better d a = false) ->
  (forall a, positive a -> better a a = false) ->
  (forall a b, positive a -> positive b -> better a b = true -> better b a = false) ->
  Forall positive (x :: l) ->
  let m := foldl (fun m y => if better y m then y else m) x l in
  m ∈ x :: l /\ positive m /\ forall y, y ∈ x :: l -> better y m = false.
Proof.
  intros Htr Hirr Has. revert x. induction l as [|y l IH]; intros x [Hx Hl]%Forall_cons; cbn.
  - split_and!; [by left|done|]. intros y ->%list_elem_of_singleton. by apply Hirr.
  - apply Forall_cons in Hl as [Hy Hl]. destruct (better y x) eqn:E.
    + destruct (IH y) as (H1 & H2 & H3); [by constructor|]. split_and!; [by right|done|].
      intros z [->|Hz]%elem_of_cons; [|by apply H3].
      eapply (Htr _ y x); [done..|apply H3; by left|by apply Has].
    + destruct (IH x) as (H1 & H2 & H3); [by constructor|]. split_and!; [|done|].
      * apply elem_of_cons in H1 as [->|H1]; [by left|by right; right].
      * intros z [->|[->|Hz]%elem_of_cons]%elem_of_cons; [apply H3; by left| |apply H3; by right].
        eapply (Htr _ x y); [done..|apply H3; by left|done].
Qed.

Lemma dlt_irrefl x : positive x -> dlt x x = false.
Proof.
  intros Hx. destruct (dlt x x) eqn:E; [|done]. apply dle_not_lt in E. by rewrite dle_refl in E.
Qed.
Lemma dlt_asym x y : positive x -> positive y -> dlt x y = true -> dlt y x = false.
Proof.
  intros Hx Hy E. destruct (dlt y x) eqn:F; [|done]. apply dle_not_lt in E.
  destruct (dle_total x y Hx Hy) as [H|H]; [|congruence]. apply dle_not_lt in F. congruence.
Qed.
Lemma dle_not_dlt x y : dle x y = true -> dlt y x = false.
Proof. intros H. destruct (dlt y x) eqn:E; [|done]. apply dle_not_lt in E. congruence. Qed.

Lemma min_element_spec times :
  Forall positive times -> times <> [] ->
  exists m, min_element times = Some m /\ m ∈ times /\ forall y, y ∈ times -> dle m y = true.
Proof.
  intros Hp Hne. destruct times as [|x l]; [done|]. eexists. split; [done|].
  destruct (extremum dlt x l) as (H1 & H2 & H3); [| | |done|].
  - intros a b d Ha Hb Hd H1 H2. apply dle_not_dlt.
    eapply (dle_trans a b d); [done..|by apply not_dlt_dle|by apply not_dlt_dle].
  - apply dlt_irrefl.
  - apply dlt_asym.
  - split; [exact H1|]. intros y Hy. rewrite Forall_forall in Hp. apply not_dlt_dle; [done|by apply Hp|by apply H3].
Qed.

Lemma max_element_spec times :
  Forall positive times -> times <> [] ->
  exists m, max_element times = Some m /\ m ∈ times /\ forall y, y ∈ times -> dle y m = true.
Proof.
  intros Hp Hne. destruct times as [|x l]; [done|]. eexists. split; [done|].
  destruct (extremum (fun a b => dlt b a) x l) as (H1 & H2 & H3); [| | |done|].
  - intros a b d Ha Hb Hd H1 H2. apply dle_not_dlt.
    eapply (dle_trans d b a); [done..|by apply not_dlt_dle|by apply not_dlt_dle].
  - apply dlt_irrefl.
  - intros a b Ha Hb. by apply dlt_asym.
  - split; [exact H1|]. intros y Hy. rewrite Forall_forall in Hp. apply not_dlt_dle; [by apply Hp|done|by apply H3].
Qed.

(** ** The places of the percentiles *)

Fixpoint from_to (fuel : nat) (z : Z) (P : Z -> bool) : bool :=
  match fuel with O => true | S fuel => P z && from_to fuel (z + 1) P end.
Lemma from_to_spec fuel z P k : from_to fuel z P = true -> z <= k < z + Z.of_nat fuel -> P k = true.
Proof.
  revert z. induction fuel as [|fuel IH]; intros z; cbn [from_to]; [lia|].
  intros [H1 H2]%andb_true_iff Hk. destruct (Z.eq_dec k z) as [->|]; [done|]. apply (IH (z + 1)); [done|lia].
Qed.

(** Up to this number of measurements the places are computed in the proof. *)
Definition limit : Z := 1000.

Definition places (n : Z) : bool :=
  (elem q50 n =? n / 2) && (elem q90 n =? n * 9 / 10) && (elem q99 n =? n * 99 / 100) &&
  (elem q9999 n =? n * 9999 / 10000).

Lemma places_checked : from_to (Z.to_nat limit) 1 places = true.
Proof. vm_cast_no_check (eq_refl true). Qed.

Lemma elem_places n :
  1 <= n <= limit ->
  elem q50 n = n / 2 /\ elem q90 n = n * 9 / 10 /\ elem q99 n = n * 99 / 100 /\ elem q9999 n = n * 9999 / 10000.
Proof.
  intros H. pose proof (from_to_spec _ _ _ n places_checked) as E. unfold limit in *.
  specialize (E ltac:(lia)). unfold places in E. rewrite !andb_true_iff, !Z.eqb_eq in E. tauto.
Qed.

(** The percentile at [e]: [e] measurements are not greater, the others not less. *)
Definition at_place (e : Z) (times : list double) (x : double) : Prop :=
  if (0 <? e) && (e <=? Z.of_nat (length times))
  then exists lower upper, times ≡ₚ lower ++ upper /\ Z.of_nat (length lower) = e /\ x ∈ lower /\
    (forall y, y ∈ lower -> dle y x = true) /\ (forall y, y ∈ upper -> dle x y = true)
  else x = S754_nan.

Lemma percentile_at q times :
  Forall positive times -> at_place (elem q (Z.of_nat (length times))) times (percentile q (sort times)).
Proof.
  intros Hp. unfold percentile, at_place. rewrite (Permutation_length (sort_perm times)).
  generalize (elem q (Z.of_nat (length times))) as e. intros e.
  destruct ((0 <? e) && (e <=? Z.of_nat (length times))) eqn:E; [|done]. zbool.
  assert (Hlen : length (sort times) = length times) by (apply Permutation_length, sort_perm).
  destruct (lookup_lt_is_Some_2 (sort times) (Z.to_nat (e - 1))) as [x Hx]; [lia|]. rewrite Hx. cbn [default from_option].
  assert (Hps : Forall positive (sort times)) by (by rewrite sort_perm).
  pose proof (sort_sorted times Hp) as Hs.
  exists (take (Z.to_nat e) (sort times)), (drop (Z.to_nat e) (sort times)). rewrite take_drop, length_take. split_and!.
  - by rewrite sort_perm.
  - lia.
  - apply (list_elem_of_lookup_2 _ (Z.to_nat (e - 1))). rewrite lookup_take_lt by lia. done.
  - intros y [i Hi]%list_elem_of_lookup. apply lookup_take_Some in Hi as [Hi Hlt].
    eapply (sorted_lookup (sort times) i (Z.to_nat (e - 1))); [done..|lia].
  - intros y [i Hi]%list_elem_of_lookup. rewrite lookup_drop in Hi.
    eapply (sorted_lookup (sort times) (Z.to_nat (e - 1)) (Z.to_nat e + i)); [done..|lia].
Qed.

(** C23: The statistics of positive measurements: the minimum and the maximum are measurements
    with no smaller and no greater one; each percentile is a measurement such that just the
    stated share of them, rounded down, is not greater and the others are not less, and it is
    not a number when the share is none.  The share is computed with [double]s; up to 1000
    measurements the rounding does not show.  Without measurements there is nothing but
    undefined behaviour, and so there is without a second one when the first is dropped. *)
Theorem analyze_times_spec pow datasize received times :
  Forall positive times ->
  (times <> [] ->
    exists st, analyze_times pow datasize received times = Some (st, sort times) /\
      sort times ≡ₚ times /\
      (minimum_ st ∈ times /\ forall y, y ∈ times -> dle (minimum_ st) y = true) /\
      (maximum_ st ∈ times /\ forall y, y ∈ times -> dle y (maximum_ st) = true) /\
      let n := Z.of_nat (length times) in
      at_place (elem q50 n) times (percentile_50_ st) /\ at_place (elem q90 n) times (percentile_90_ st) /\
      at_place (elem q99 n) times (percentile_99_ st) /\ at_place (elem q9999 n) times (percentile_9999_ st) /\
      (n <= limit -> elem q50 n = n / 2 /\ elem q90 n = n * 9 / 10 /\ elem q99 n = n * 99 / 100 /\
                     elem q9999 n = n * 9999 / 10000)) /\
  (drop_first_and_analyze pow datasize received times = None <-> (length times <= 1)%nat).
Proof.
  intros Hp. split.
  - intros Hne. unfold analyze_times.
    destruct (min_element_spec times Hp Hne) as (mn & -> & Hmn). destruct (max_element_spec times Hp Hne) as (mx & -> & Hmx).
    cbn [mbind option_bind]. eexists. split; [done|].
    cbn [minimum_ maximum_ percentile_50_ percentile_90_ percentile_99_ percentile_9999_]. split; [apply sort_perm|].
    split_and!; try apply Hmn; try apply Hmx; try by apply percentile_at.
    intros Hl. apply elem_places. destruct times; [done|]. cbn [length] in *. lia.
  - destruct times as [|x [|y l]]; cbn [drop_first_and_analyze length]; [by split; [lia|]|by split; [lia|]|].
    split; [|lia]. unfold analyze_times. cbn. done.
Qed.

Lemma example_positive : Forall positive (of_int <$> [30; 10; 20; 50; 40]).
Proof. repeat (apply Forall_cons; split; [exact I|]). by apply Forall_nil. Qed.

Lemma analyze_times_spec_witness :
  let times := of_int <$> [30; 10; 20; 50; 40] in
  exists st, analyze_times dmul 16 6 times = Some (st, sort times) /\
    at_place (elem q50 5) times (percentile_50_ st) /\ percentile_50_ st = of_int 20 /\ minimum_ st = of_int 10.
Proof.
  destruct (proj1 (analyze_times_spec dmul 16 6 (of_int <$> [30; 10; 20; 50; 40])
    example_positive) ltac:(done)) as (st & H & _ & _ & _ & H2 & _).
  exists st. split_and!; [exact H|exact H2| |]; vm_compute in H; injection H as <-; reflexivity.
Defined.

(** ** [perf_percentile.cpp]: ten readings of the clock since the start *)

Section Main.
Context (pow : double -> double -> double).

(** The lines of a base, an exponent and the result, the measurements in order and the percentiles that are
    printed: NAN is not *)
Definition perf_main (readings : list double) : list (double * double) * list double * list double :=
  let lines := (fun i => (of_int (3 + i), pow (of_int (3 + i)) (of_int 4))) <$> seqZ 0 10 in
  let sorted := sort readings in
  let shown q := let e := elem q (Z.of_nat (length sorted)) in
    if (0 <? e) && (e <=? Z.of_nat (length sorted)) then [percentile q sorted] else [] in
  (lines, sorted, shown q50 ++ shown q90 ++ shown q99 ++ shown q9999).
End Main.

(** Of ten measurements the 90th, the 99th and the 99.99th percentile are the same. *)
Lemma perf_main_spec pow readings :
  length readings = 10%nat ->
  exists x y, (perf_main pow readings).2 = [x; y; y; y] /\
    sort readings !! 4%nat = Some x /\ sort readings !! 8%nat = Some y.
Proof.
  intros H. assert (Hl : length (sort readings) = 10%nat) by (by rewrite (Permutation_length (sort_perm readings))).
  unfold perf_main, percentile. cbn [snd]. rewrite Hl. change (Z.of_nat 10) with 10.
  replace (elem q50 10) with 5 by (vm_compute; reflexivity). replace (elem q90 10) with 9 by (vm_compute; reflexivity).
  replace (elem q99 10) with 9 by (vm_compute; reflexivity). replace (elem q9999 10) with 9 by (vm_compute; reflexivity).
  destruct (lookup_lt_is_Some_2 (sort readings) 4) as [x Hx]; [lia|].
  destruct (lookup_lt_is_Some_2 (sort readings) 8) as [y Hy]; [lia|].
  exists x, y. cbn [Z.ltb Z.leb Z.compare Pos.compare Pos.compare_cont andb app].
  change (Z.to_nat (5 - 1)) with 4%nat. change (Z.to_nat (9 - 1)) with 8%nat. by rewrite Hx, Hy.
Qed.

End Percentile.
