(* ===== verification/LatencyTest.v ===== *)
(** The latency benchmark over DDS
    ([src/other/pubsub/dds/performance/latency/LatencyTestPublisher.cpp] and
    [LatencyTestSubscriber.cpp]): the endpoints of a payload, the listeners, and [run] and
    [test] of both sides as steps between two calls of the library.  What the library answers
    and the readings of the clock are arguments. *)
From S2P Require Import Prelude Double LatencyTypes Percentile.
Import Double.

Module LatencyTest.
Import LatencyTypes Percentile.

(** ** The endpoints for a payload: the pointers that are set *)
Record endpoints := mkEnds {
  type_ : bool;          (* latency_data_type_ *)
  registered : bool;     (* the participant knows the type *)
  pub_topic : bool;      (* latency_data_pub_topic_ *)
  sub_topic : bool;
  writer : bool;
  reader : bool;
}.
Definition no_ends : endpoints := mkEnds false false false false false false.
Definition full : endpoints := mkEnds true true true true true true.

(** The answers to the calls that make them, in the order of the publisher; the subscriber
    creates the two topics the other way round. *)
Record creation := mkCreation {
  register_ok : bool;
  pub_topic_ok : bool;
  sub_topic_ok : bool;
  writer_ok : bool;
  reader_ok : bool;
}.

(** [init_static_types] *)
Definition init_static_types (a : creation) (e : endpoints) : bool * endpoints :=
  if type_ e then (false, e)
  else if registered e then (false, e)
  else (register_ok a, mkEnds true (register_ok a) (pub_topic e) (sub_topic e) (writer e) (reader e)).

(** The two calls for the writer and the reader *)
Definition create_writer_reader (a : creation) (e : endpoints) : bool * endpoints :=
  let e := mkEnds (type_ e) (registered e) (pub_topic e) (sub_topic e) (writer_ok a) (reader e) in
  if negb (writer_ok a) then (false, e)
  else (reader_ok a, mkEnds (type_ e) (registered e) (pub_topic e) (sub_topic e) (writer e) (reader_ok a)).

(** [LatencyTestPublisher::create_data_endpoints] *)
Definition pub_create_data_endpoints (a : creation) (e : endpoints) : bool * endpoints :=
  if pub_topic e || sub_topic e || writer e || reader e then (false, e)
  else
    let e := mkEnds (type_ e) (registered e) (pub_topic_ok a) (sub_topic e) (writer e) (reader e) in
    if negb (pub_topic_ok a) then (false, e)
    else
      let e := mkEnds (type_ e) (registered e) (pub_topic e) (sub_topic_ok a) (writer e) (reader e) in
      if negb (sub_topic_ok a) then (false, e) else create_writer_reader a e.

(** [LatencyTestSubscriber::create_data_endpoints] *)
Definition sub_create_data_endpoints (a : creation) (e : endpoints) : bool * endpoints :=
  if pub_topic e || sub_topic e || writer e || reader e then (false, e)
  else
    let e := mkEnds (type_ e) (registered e) (pub_topic e) (sub_topic_ok a) (writer e) (reader e) in
    if negb (sub_topic_ok a) then (false, e)
    else
      let e := mkEnds (type_ e) (registered e) (pub_topic_ok a) (sub_topic e) (writer e) (reader e) in
      if negb (pub_topic_ok a) then (false, e) else create_writer_reader a e.

Record deletion := mkDeletion {
  delete_writer_ok : bool;
  delete_reader_ok : bool;
  delete_pub_topic_ok : bool;
  delete_sub_topic_ok : bool;
  unregister_ok : bool;
}.

(** [destroy_data_endpoints], the same on both sides: the result, what is left, and whether the
    listeners of the writer and of the reader are reset. *)
Definition destroy_data_endpoints (a : deletion) (e : endpoints) : bool * endpoints * bool * bool :=
  if negb (writer e) || negb (delete_writer_ok a) then (false, e, false, false)
  else
    let e := mkEnds (type_ e) (registered e) (pub_topic e) (sub_topic e) false (reader e) in
    if negb (reader e) || negb (delete_reader_ok a) then (false, e, true, false)
    else
      let e := mkEnds (type_ e) (registered e) (pub_topic e) (sub_topic e) false false in
      if negb (pub_topic e) || negb (delete_pub_topic_ok a) then (false, e, true, true)
      else
        let e := mkEnds (type_ e) (registered e) false (sub_topic e) false false in
        if negb (sub_topic e) || negb (delete_sub_topic_ok a) then (false, e, true, true)
        else
          let e := mkEnds (type_ e) (registered e) false false false false in
          if negb (unregister_ok a) then (false, e, true, true)
          else (true, no_ends, true, true).

(** The test of [destroy_user_entities] with static types: whether it reports an error *)
Definition destroy_user_entities_error (e : endpoints) : bool :=
  writer e || reader e || pub_topic e || sub_topic e || negb (type_ e).

(** [matched_] of the four listeners *)
Record matches := mkMatches {
  data_writer : Z;
  data_reader : Z;
  command_writer : Z;
  command_reader : Z;
}.
Definition total (m : matches) : Z := data_writer m + data_reader m + command_writer m + command_reader m.
(** [total_matches]; [None] when [assert(count >= 0 && count <= most)] fails *)
Definition total_matches (most : Z) (m : matches) : option Z :=
  if (0 <=? total m) && (total m <=? most) then Some (total m) else None.

Inductive listener := DataWriter | DataReader | CommandWriter | CommandReader.
(** [on_publication_matched] and [on_subscription_matched]: [matched_ = info.total_count] *)
Definition on_matched (l : listener) (total_count : Z) (m : matches) : matches :=
  match l with
  | DataWriter => mkMatches total_count (data_reader m) (command_writer m) (command_reader m)
  | DataReader => mkMatches (data_writer m) total_count (command_writer m) (command_reader m)
  | CommandWriter => mkMatches (data_writer m) (data_reader m) total_count (command_reader m)
  | CommandReader => mkMatches (data_writer m) (data_reader m) (command_writer m) total_count
  end.
Definition reset_matches (w r : bool) (m : matches) : matches :=
  mkMatches (if w then 0 else data_writer m) (if r then 0 else data_reader m) (command_writer m) (command_reader m).

(** ** The publisher *)

Record setting := mkSetting {
  subscribers_ : Z;
  samples_ : Z;
  dynamic_types_ : bool;
  data_loans_ : bool;
  overhead_time_ : double;
}.

(** Where [run] and [test] stand: before a payload, in the three waits, before and after
    a sample is written, before STOP, before the samples are deleted, before the endpoints are;
    [PDone] [run] has left its loop, [PAborted] the process has ended or its behaviour is
    undefined. *)
Inductive ppc :=
  | PTest | PDiscovery | PBegin | PSample | PWait | PStop | PEnd | PFree | PDestroy | PDone | PAborted.

#[global] Instance ppc_eq_dec : EqDecision ppc.
Proof. solve_decision. Defined.

(** The measuring part: [latency_data_out_->seqnum] (or the value in [dynamic_data_out_]),
    [start_time_], [times_], [received_count_], [data_msg_count_] *)
Record measuring := mkMeasuring {
  out_seqnum : Z;
  start_time_ : Z;
  times_ : list double;
  received_count_ : Z;
  data_msg_count_ : Z;
}.

Record publisher := mkPub {
  pc : ppc;
  payloads : list Z;         (* data_size_pub_ from the current one on *)
  ends : endpoints;
  samples_live : bool;       (* latency_data_in_ and _out_ (dynamic_data_...) are not deleted *)
  matched : matches;
  command_msg_count_ : Z;
  meas : measuring;
  count : Z;                 (* of the loop over the samples *)
  stats_ : list TimeStats;
}.

Definition goto (k : ppc) (p : publisher) : publisher :=
  mkPub k (payloads p) (ends p) (samples_live p) (matched p) (command_msg_count_ p) (meas p) (count p) (stats_ p).
Definition set_ends (e : endpoints) (live : bool) (m : matches) (p : publisher) : publisher :=
  mkPub (pc p) (payloads p) e live m (command_msg_count_ p) (meas p) (count p) (stats_ p).
Definition set_commands (n : Z) (p : publisher) : publisher :=
  mkPub (pc p) (payloads p) (ends p) (samples_live p) (matched p) n (meas p) (count p) (stats_ p).
Definition set_meas (m : measuring) (n : Z) (p : publisher) : publisher :=
  mkPub (pc p) (payloads p) (ends p) (samples_live p) (matched p) (command_msg_count_ p) m n (stats_ p).
Definition next_payload (st : TimeStats) (sorted : list double) (p : publisher) : publisher :=
  mkPub PTest (tail (payloads p)) (ends p) (samples_live p) (matched p) (command_msg_count_ p)
    (mkMeasuring (out_seqnum (meas p)) (start_time_ (meas p)) sorted (received_count_ (meas p)) (data_msg_count_ (meas p)))
    (count p) (stats_ p ++ [st]).

Inductive answer :=
  | Nothing
  | Creates (a : creation) (ready_ok : bool)
  | DynamicData (in_ok out_ok : bool) (ready_ok : bool)
  | Writes (loaned write_ok : bool) (now : Z)
  | TimesOut
  | Deletes (a : deletion).

(** [duration<double, micro>(end_time_ - start_time_) / 2.0 - overhead_time_], in nanoseconds of
    the clock; [bounce_time] is taken off [end_time_]. *)
Definition roundtrip (c : setting) (start now bounce_time : Z) : double :=
  dsub (ddiv (ddiv (of_int (now - bounce_time - start)) (of_int 1000)) (of_int 2)) (overhead_time_ c).

(** Is a measurement kept?  With loans the very long ones are taken for failed loans. *)
Definition keeps (c : setting) (r : double) : bool :=
  dlt (of_int 0) r && negb (data_loans_ c && dlt (of_int 10000) r).

(** [LatencyDataReaderListener::on_data_available] of the publisher, for a sample that is taken *)
Definition on_echo (c : setting) (in_seqnum bounce now : Z) (m : measuring) : measuring :=
  let bounce_time := if data_loans_ c then bounce else 0 in
  if in_seqnum =? out_seqnum m then
    let r := roundtrip c (start_time_ m) now bounce_time in
    let '(times, received) :=
      if keeps c r then (times_ m ++ [r], wrapU 32 (received_count_ m + 1)) else (times_ m, received_count_ m) in
    mkMeasuring 0 (start_time_ m) times received (data_msg_count_ m + 1)
  else mkMeasuring (out_seqnum m) (start_time_ m) (times_ m) (received_count_ m) (data_msg_count_ m + 1).

(** The number of the last turn of the loop: [samples_ + 1], unsigned as [count] is *)
Definition last_count (c : setting) : Z := wrapU 32 (samples_ c + 1).
Definition next_sample (c : setting) (p : publisher) : publisher :=
  let n := wrapU 32 (count p + 1) in
  goto (if n <=? last_count c then PSample else PStop) (set_meas (meas p) n p).

(** A number below the last one does not wrap. *)
Lemma next_sample_eq c p :
  0 <= count p < 2 ^ 32 - 1 ->
  next_sample c p = goto (if count p + 1 <=? last_count c then PSample else PStop) (set_meas (meas p) (count p + 1) p).
Proof. intros H. unfold next_sample. cbv zeta. by rewrite wrapU_small by lia. Qed.

Section Publisher.
Context (pow : double -> double -> double) (c : setting).

(** The begin of [test]: state reset, samples and endpoints made, READY written *)
Definition test_begins (a : answer) (p : publisher) : option (publisher * list TESTCOMMAND) :=
  let fresh := mkMeasuring (out_seqnum (meas p)) (start_time_ (meas p)) (times_ (meas p)) 0 (data_msg_count_ (meas p)) in
  let p := set_meas fresh (count p) p in
  let ready (live : bool) (e : endpoints) (ok : bool) :=
    let cleared := mkMeasuring (out_seqnum fresh) (start_time_ fresh) [] 0 (data_msg_count_ fresh) in
    let p := set_meas cleared (count p) (set_ends e live (matched p) p) in
    if ok : bool then (goto PDiscovery p, [READY]) else (goto PDone p, []) in
  match a with
  | DynamicData in_ok out_ok ready_ok =>
      if negb (dynamic_types_ c) then None
      else if in_ok && out_ok then Some (ready true (ends p) ready_ok)
      else Some (goto PDone p, [])
  | Creates a ready_ok =>
      if dynamic_types_ c then None
      else
        let '(r1, e1) := init_static_types a (ends p) in
        let '(r2, e2) := if r1 then pub_create_data_endpoints a e1 else (false, e1) in
        if r2 then Some (ready true e2 ready_ok)
        else Some (goto PDone (set_ends e2 (samples_live p) (matched p) p), [])
  | _ => None
  end.

(** The end of [test] once the endpoints are gone *)
Definition test_ends (p : publisher) : publisher :=
  match drop_first_and_analyze pow (List.hd 0 (payloads p)) (received_count_ (meas p)) (times_ (meas p)) with
  | Some (st, sorted) => next_payload st sorted p
  | None => goto PAborted p
  end.

(** The steps of the thread of [run]: the next state, the commands and the samples written;
    [None] when it waits or the answer is none to the call it stands at. *)
Definition pub_step (a : answer) (p : publisher) : option (publisher * list TESTCOMMAND * list Z) :=
  match pc p with
  | PTest =>
      match payloads p with
      | [] => match a with Nothing => Some (goto PDone p, [], []) | _ => None end
      | _ => '(p1, out) ← test_begins a p; Some (p1, out, [])
      end
  | PDiscovery =>
      match total_matches (4 * subscribers_ c) (matched p) with
      | None => Some (goto PAborted p, [], [])
      | Some n => if n =? 4 * subscribers_ c then Some (goto PBegin p, [], []) else None
      end
  | PBegin =>
      if subscribers_ c <=? command_msg_count_ p
      then Some (goto (if 1 <=? last_count c then PSample else PStop) (set_commands 0 (set_meas (meas p) 1 p)), [], [])
      else None
  | PSample =>
      match a with
      | Writes loaned write_ok now =>
          let m := meas p in
          let m1 := mkMeasuring (count p) (start_time_ m) (times_ m) (received_count_ m) (data_msg_count_ m) in
          if data_loans_ c && negb (dynamic_types_ c) && negb loaned
          then Some (next_sample c (set_meas m1 (count p) p), [], [])
          else
            let m2 := mkMeasuring (count p) now (times_ m) (received_count_ m) (data_msg_count_ m) in
            let p1 := set_meas m2 (count p) p in
            if write_ok then Some (goto PWait p1, [], [count p]) else Some (goto PDone p1, [], [])
      | _ => None
      end
  | PWait =>
      if (subscribers_ c <=? data_msg_count_ (meas p)) || match a with TimesOut => true | _ => false end then
        let m := meas p in
        Some (next_sample c (set_meas (mkMeasuring (out_seqnum m) (start_time_ m) (times_ m) (received_count_ m) 0) (count p) p), [], [])
      else None
  | PStop => Some (goto PEnd p, [STOP], [])
  | PEnd =>
      if subscribers_ c <=? command_msg_count_ p
      then Some (goto PFree (set_commands 0 p), [], []) else None
  | PFree => Some (goto PDestroy (set_ends (ends p) false (matched p) p), [], [])
  | PDestroy =>
      if dynamic_types_ c then Some (test_ends p, [], [])
      else match a with
           | Deletes a =>
               let '(ok, e, w, r) := destroy_data_endpoints a (ends p) in
               let p1 := set_ends e false (reset_matches w r (matched p)) p in
               Some (if ok then test_ends p1 else goto PDone p1, [], [])
           | _ => None
           end
  | PDone | PAborted => None
  end.

(** The callbacks: a match, a command that is taken, an echo that is taken.  [reader] writes
    into [latency_data_in_], which may have been deleted. *)
Definition pub_matched (l : listener) (total_count : Z) (p : publisher) : publisher :=
  set_ends (ends p) (samples_live p) (on_matched l total_count (matched p)) p.
Definition on_command (cmd : TESTCOMMAND) (p : publisher) : publisher :=
  match cmd with
  | BEGIN | END => set_commands (command_msg_count_ p + 1) p
  | _ => p
  end.
Definition pub_echo (in_seqnum bounce now : Z) (p : publisher) : publisher :=
  if samples_live p then set_meas (on_echo c in_seqnum bounce now (meas p)) (count p) p else goto PAborted p.

(** What can happen to the publisher next, and a sequence of it *)
Inductive pub_event :=
  | Turn (a : answer)
  | Matched (l : listener) (total_count : Z)
  | Commanded (cmd : TESTCOMMAND)
  | Echoed (in_seqnum bounce now : Z).

Definition pub_react (e : pub_event) (p : publisher) : option (publisher * list TESTCOMMAND * list Z) :=
  match e with
  | Turn a => pub_step a p
  | Matched l n => Some (pub_matched l n p, [], [])
  | Commanded cmd => Some (on_command cmd p, [], [])
  | Echoed n bounce now => Some (pub_echo n bounce now p, [], [])
  end.

Fixpoint pub_run (es : list pub_event) (p : publisher) : option (publisher * list Z) :=
  match es with
  | [] => Some (p, [])
  | e :: es =>
      '(p1, _, ws) ← pub_react e p;
      '(p2, ws') ← pub_run es p1;
      Some (p2, ws ++ ws')
  end.
End Publisher.

(** [run] from its start, with the command endpoints matched *)
Definition start_pub (c : setting) (sizes : list Z) : publisher :=
  mkPub PTest sizes no_ends false (mkMatches 0 0 (subscribers_ c) (subscribers_ c)) 0 (mkMeasuring 0 0 [] 0 0) 0 [].

(** ** The subscriber *)

(** [SDiscovery]: [run] waits for the command endpoints; [SReady] for READY; [SCreate] makes type
    and endpoints; [SMatch] waits for them; [SBegin] is about to write BEGIN; [SStop] waits for
    STOP; [SFree] deletes the sample, [SDestroy] the endpoints; [SEnd] is about to write END,
    [SAck] waits for it to be acknowledged. *)
Inductive spc :=
  | SDiscovery | SReady | SCreate | SMatch | SBegin | SStop | SFree | SDestroy | SEnd | SAck | SEnded | SCrashed.

#[global] Instance spc_eq_dec : EqDecision spc.
Proof. solve_decision. Defined.

Record subscriber := mkSub {
  spc_ : spc;
  sizes : list Z;            (* data_size_sub_ from the current one on *)
  sends : endpoints;
  sample_live : bool;        (* latency_data_ (dynamic_data_) *)
  smatched : matches;
  commands : Z;              (* command_msg_count_ *)
  test_status_ : Z;
}.

Definition sgoto (k : spc) (s : subscriber) : subscriber :=
  mkSub k (sizes s) (sends s) (sample_live s) (smatched s) (commands s) (test_status_ s).
Definition sset_ends (e : endpoints) (live : bool) (m : matches) (s : subscriber) : subscriber :=
  mkSub (spc_ s) (sizes s) e live m (commands s) (test_status_ s).
Definition sset_commands (n st : Z) (s : subscriber) : subscriber :=
  mkSub (spc_ s) (sizes s) (sends s) (sample_live s) (smatched s) n st.
Definition snext (s : subscriber) : subscriber :=
  mkSub SAck (tail (sizes s)) (sends s) (sample_live s) (smatched s) (commands s) (test_status_ s).

Inductive sanswer :=
  | SNothing
  | SCreates (a : creation)
  | SDynamic (ok : bool)
  | SWrites (ok : bool)
  | SDeletes (a : deletion)
  | SAcknowledged (ok : bool).

(** A wait for matches; the assertion is [count < 5]. *)
Definition sub_waits (n : Z) (next : spc) (s : subscriber) : option (subscriber * list TESTCOMMAND) :=
  match total_matches 4 (smatched s) with
  | None => Some (sgoto SCrashed s, [])
  | Some k => if k =? n then Some (sgoto next s, []) else None
  end.

Section Subscriber.
Context (dynamic : bool).

Definition sub_step (a : sanswer) (s : subscriber) : option (subscriber * list TESTCOMMAND) :=
  match spc_ s with
  | SDiscovery => sub_waits (if dynamic then 4 else 2) SReady s
  | SReady =>
      match sizes s with
      | [] => Some (sgoto SEnded s, [])
      | _ => if commands s =? 0 then None else Some (sgoto SCreate (sset_commands 0 (test_status_ s) s), [])
      end
  | SCreate =>
      match a with
      | SDynamic ok =>
          if negb dynamic then None
          else Some (if ok : bool then sgoto SBegin (sset_ends (sends s) true (smatched s) s) else sgoto SEnded s, [])
      | SCreates a =>
          if dynamic then None
          else
            let '(r1, e1) := init_static_types a (sends s) in
            let '(r2, e2) := if r1 then sub_create_data_endpoints a e1 else (false, e1) in
            Some (if r2 then sgoto SMatch (sset_ends e2 true (smatched s) s)
                  else sgoto SEnded (sset_ends e2 (sample_live s) (smatched s) s), [])
      | _ => None
      end
  | SMatch => sub_waits 4 SBegin s
  | SBegin =>
      match a with
      | SWrites ok =>
          let s := sset_commands (commands s) 0 s in
          Some (if ok : bool then (sgoto SStop s, [BEGIN]) else (sgoto SEnded s, []))
      | _ => None
      end
  | SStop => if commands s =? 0 then None else Some (sgoto SFree (sset_commands 0 (test_status_ s) s), [])
  | SFree => Some (sgoto SDestroy (sset_ends (sends s) false (smatched s) s), [])
  | SDestroy =>
      if dynamic then Some (sgoto (if test_status_ s =? -1 then SEnded else SEnd) s, [])
      else match a with
           | SDeletes a =>
               let '(_, e, w, r) := destroy_data_endpoints a (sends s) in
               Some (sgoto (if test_status_ s =? -1 then SEnded else SEnd)
                       (sset_ends e false (reset_matches w r (smatched s)) s), [])
           | _ => None
           end
  | SEnd =>
      match a with
      | SWrites ok => Some (if ok : bool then (snext s, [END]) else (sgoto SEnded s, []))
      | _ => None
      end
  | SAck =>
      match a with
      | SAcknowledged ok => Some (sgoto (if ok : bool then SReady else SEnded) s, [])
      | _ => None
      end
  | SEnded | SCrashed => None
  end.
End Subscriber.

(** The callbacks of the subscriber *)
Definition sub_matched (l : listener) (total_count : Z) (s : subscriber) : subscriber :=
  sset_ends (sends s) (sample_live s) (on_matched l total_count (smatched s)) s.
Definition sub_command (cmd : TESTCOMMAND) (s : subscriber) : subscriber :=
  let st := match cmd with STOP_ERROR => -1 | _ => test_status_ s end in
  if bool_decide (cmd = DEFAULT) then s else sset_commands (commands s + 1) st s.

(** [LatencyDataReaderListener::on_data_available] of the subscriber: the sample is read into
    the sample of [test], which may have been deleted, or, with loans, copied into it before it
    is echoed; the numbers that are echoed. *)
Definition sub_data (echo_ : bool) (return_ok loaned write_ok : bool) (data_loans : bool) (seq : Z) (s : subscriber)
  : subscriber * list Z :=
  if data_loans && negb echo_ then (s, [])
  else if negb (sample_live s) then (sgoto SCrashed s, [])
  else if negb echo_ then (s, [])
  else if data_loans && negb (return_ok && loaned) then (s, [])
  else (s, if write_ok then [seq] else []).

Definition start_sub (sz : list Z) : subscriber :=
  mkSub SDiscovery sz no_ends false (mkMatches 0 0 1 1) 0 0.

End LatencyTest.
