(* ===== verification/LatencyMeasure.v ===== *)
(** What the publisher of the latency benchmark measures: which echoes make a measurement, what
    one late echo does to all that follow, and how many samples are too many.

    [test] sets the number and the time of a sample without the mutex that the callback holds when it
    compares and clears the number, so that a callback for an old echo can clear the new number:
    here, as in [LatencyTest.pub_step], the setting is one step. *)
From S2P Require Import Prelude Double LatencyTypes Percentile LatencyTest.
Import Double LatencyTypes Percentile LatencyTest.

Module LatencyMeasure.

(** ** Which echoes count *)

(** A sample with its number, the time before it is written, and the echoes taken until the
    next sample is prepared: number, bounce and time *)
Record turn := mkTurn {
  number : Z;
  started : Z;
  echoes : list (Z * Z * Z);
}.

Definition take_echo (c : setting) (m : measuring) (e : Z * Z * Z) : measuring :=
  on_echo c e.1.1 e.1.2 e.2 m.

(** The code: the number is set, the clock read, the echoes come, and the count of arrivals is
    set back. *)
Definition one_turn (c : setting) (m : measuring) (t : turn) : measuring :=
  let m := mkMeasuring (number t) (started t) (times_ m) (received_count_ m) (data_msg_count_ m) in
  let m := foldl (take_echo c) m (echoes t) in
  mkMeasuring (out_seqnum m) (start_time_ m) (times_ m) (received_count_ m) 0.

(** The reference: the first echo with the number of the sample, if it is kept *)
Definition measured (c : setting) (t : turn) : option double :=
  match List.find (fun e => e.1.1 =? number t) (echoes t) with
  | Some e =>
      let r := roundtrip c (started t) e.2 (if data_loans_ c then e.1.2 else 0) in
      if keeps c r then Some r else None
  | None => None
  end.

Lemma take_other c m e :
  (e.1.1 =? out_seqnum m) = false ->
  take_echo c m e = mkMeasuring (out_seqnum m) (start_time_ m) (times_ m) (received_count_ m) (data_msg_count_ m + 1).
Proof. intros H. unfold take_echo, on_echo. by rewrite H. Qed.

(** Once a sample is answered its number is 0, and no echo bears it. *)
Lemma answered_echoes c es m :
  out_seqnum m = 0 -> Forall (fun e => e.1.1 <> 0) es ->
  let m' := foldl (take_echo c) m es in
  out_seqnum m' = 0 /\ times_ m' = times_ m /\ received_count_ m' = received_count_ m.
Proof.
  intros Hm H. revert m Hm. induction H as [|e es He _ IH]; intros m Hm; [done|]. cbn [foldl].
  rewrite take_other by (rewrite Hm; by apply Z.eqb_neq).
  specialize (IH (mkMeasuring (out_seqnum m) (start_time_ m) (times_ m) (received_count_ m) (data_msg_count_ m + 1)) Hm).
  exact IH.
Qed.

Lemma turn_spec c es m :
  out_seqnum m <> 0 -> Forall (fun e => e.1.1 <> 0) es ->
  let m' := foldl (take_echo c) m es in
  let r := measured c (mkTurn (out_seqnum m) (start_time_ m) es) in
  times_ m' = times_ m ++ option_list r /\
  received_count_ m' = match r with Some _ => wrapU 32 (received_count_ m + 1) | None => received_count_ m end.
Proof.
  intros Hm H. revert m Hm. induction H as [|e es He Hes IH]; intros m Hm.
  { cbn. by rewrite app_nil_r. }
  cbn [foldl]. unfold measured. cbn [List.find echoes number started].
  destruct (e.1.1 =? out_seqnum m) eqn:E.
  - set (m1 := take_echo c m e). assert (Hm1 : out_seqnum m1 = 0).
    { subst m1. unfold take_echo, on_echo. rewrite E. by destruct (keeps c _). }
    destruct (answered_echoes c es m1 Hm1 Hes) as (_ & -> & ->).
    subst m1. unfold take_echo, on_echo. rewrite E. destruct (keeps c _); cbn; by rewrite ?app_nil_r.
  - rewrite take_other by done.
    specialize (IH (mkMeasuring (out_seqnum m) (start_time_ m) (times_ m) (received_count_ m) (data_msg_count_ m + 1)) Hm).
    exact IH.
Qed.


Definition example_setting : setting := mkSetting 2 3 false false (of_int 0).
Definition example_turns : list turn :=
  [mkTurn 1 1000 [(1, 0, 3000); (1, 0, 5000)]; mkTurn 2 10000 [(1, 0, 11000)]; mkTurn 3 20000 [(2, 0, 21000); (3, 0, 26000)]].


(** A turn is what the steps of the publisher do from a sample to the end of its wait. *)
Definition events_of (t : turn) : list pub_event :=
  [Turn (Writes true true (started t))] ++ ((fun e => Echoed e.1.1 e.1.2 e.2) <$> echoes t) ++ [Turn TimesOut].

Lemma turn_is_run pow c p t :
  pc p = PSample -> count p = number t -> samples_live p = true ->
  exists p', pub_run pow c (events_of t) p = Some (p', [number t]) /\ meas p' = one_turn c (meas p) t.
Proof.
  intros Hpc Hn Hl. unfold events_of, one_turn. set (m1 := mkMeasuring (number t) (started t) _ _ _).
  assert (Hrun : forall es q, pc q = PWait -> samples_live q = true ->
    exists p', pub_run pow c (((fun e => Echoed e.1.1 e.1.2 e.2) <$> es) ++ [Turn TimesOut]) q = Some (p', []) /\
      let m := foldl (take_echo c) (meas q) es in
      meas p' = mkMeasuring (out_seqnum m) (start_time_ m) (times_ m) (received_count_ m) 0).
  { induction es as [|e es IH]; intros q Hq Hlq.
    - cbn [fmap list_fmap app pub_run pub_react]. unfold pub_step. rewrite Hq, orb_true_r. cbn. eexists. by split.
    - destruct (IH (pub_echo c e.1.1 e.1.2 e.2 q)) as (p' & E & Em); [unfold pub_echo; by rewrite Hlq..|].
      exists p'. cbn [fmap list_fmap app pub_run pub_react mbind option_bind]. change (list_fmap _ _ _ es) with ((fun e => Echoed e.1.1 e.1.2 e.2) <$> es).
      rewrite E. split; [done|]. rewrite Em. cbn [foldl]. unfold pub_echo. by rewrite Hlq. }
  destruct (Hrun (echoes t) (goto PWait (set_meas m1 (count p) p)) eq_refl Hl) as (p' & E & Em).
  exists p'. split; [|exact Em]. change ([Turn (Writes true true (started t))] ++ ?l) with (Turn (Writes true true (started t)) :: l).
  cbn [pub_run pub_react app]. unfold pub_step at 1. rewrite Hpc. cbn [negb]. rewrite andb_false_r, Hn. cbn [mbind option_bind].
  rewrite Hn in E. fold m1. rewrite E. done.
Qed.

(** ** Too many samples

    With 2^32 - 2 samples the last number is the largest of its type. *)
Definition in_loop (k : ppc) : Prop := k = PSample \/ k = PWait.

Lemma loop_stays pow c e p p' out ws :
  samples_ c = 2 ^ 32 - 2 -> in_loop (pc p) -> pub_react pow c e p = Some (p', out, ws) ->
  in_loop (pc p') \/ pc p' = PDone \/ pc p' = PAborted.
Proof.
  intros Hs Hp H. assert (HL : last_count c = 2 ^ 32 - 1) by (unfold last_count; by rewrite Hs).
  assert (Hn : forall q, in_loop (pc (next_sample c q))).
  { intros q. unfold next_sample. cbv zeta. pose proof (wrapU_range 32 (count q + 1) ltac:(lia)).
    rewrite (proj2 (Z.leb_le _ _)) by lia. by left. }
  unfold in_loop in *. destruct e as [a|l n|cmd|n b now]; cbn [pub_react] in H.
  - unfold pub_step in H. destruct Hp as [Hp|Hp]; rewrite Hp in H.
    + destruct a as [| | |loaned wr now| |]; try done. destruct (_ && negb loaned); [simplify_eq; left; apply Hn|].
      destruct wr; simplify_eq; cbn; auto.
    + destruct (_ || _); [|done]. simplify_eq. left. apply Hn.
  - simplify_eq. by left.
  - simplify_eq. left. by destruct cmd.
  - simplify_eq. unfold pub_echo. destruct (samples_live p); [by left|]. by right; right.
Qed.

(** with 2^32 - 2 samples the loop over the samples has no end: whatever happens, a publisher within
    it writes and waits on, or returns because a write fails, and never gets to STOP. *)
Theorem samples_never_end pow c es : forall p p' ws,
  samples_ c = 2 ^ 32 - 2 -> in_loop (pc p) -> pub_run pow c es p = Some (p', ws) ->
  in_loop (pc p') \/ pc p' = PDone \/ pc p' = PAborted.
Proof.
  intros p p' ws Hs Hp. assert (Hq : in_loop (pc p) \/ pc p = PDone \/ pc p = PAborted) by auto. clear Hp. revert p p' ws Hq.
  induction es as [|e es IH]; intros p p' ws Hq H; cbn [pub_run] in H; [by simplify_eq|].
  apply bind_Some in H as ([[p1 out] ws1] & H1 & ([p2 ws2] & H2 & [= <- <-])%bind_Some).
  apply (IH p1 p2 ws2); [|done]. destruct Hq as [Hq|Hq]; [by eapply loop_stays|].
  right. destruct e as [a|l n|cmd|n b now]; cbn [pub_react] in H1.
  - unfold pub_step in H1. by destruct Hq as [Hq|Hq]; rewrite Hq in H1.
  - simplify_eq. exact Hq.
  - simplify_eq. by destruct cmd.
  - simplify_eq. unfold pub_echo. destruct (samples_live p); [exact Hq|]. by right.
Qed.

(** ** One late echo *)

(** The echo of the first sample comes after its wait has ended; from then on every wait is
    ended by the echo of the sample before. *)
Definition behind (k : Z) : list pub_event := [Turn (Writes true true 0); Echoed (k - 1) 0 0; Turn Nothing].
Fixpoint lagging (n : nat) (k : Z) : list pub_event :=
  match n with O => [] | S n => behind k ++ lagging n (k + 1) end.

Section Late.
Context (pow : double -> double -> double) (c : setting).
Context (H1 : subscribers_ c = 1) (Hloans : data_loans_ c = false) (Hn : 0 <= samples_ c < 2 ^ 32 - 2).

Lemma last_count_eq : last_count c = samples_ c + 1.
Proof. unfold last_count. by rewrite wrapU_small by lia. Qed.

(** A publisher within the loop over the samples, nothing measured and no arrival counted *)
Record lagged (k : Z) (p : publisher) : Prop := {
  lagged_pc : pc p = if k <=? last_count c then PSample else PStop;
  lagged_count : count p = k;
  lagged_live : samples_live p = true;
  lagged_times : times_ (meas p) = [];
  lagged_arrivals : data_msg_count_ (meas p) = 0;
  lagged_commands : command_msg_count_ p = 0;
}.

Lemma pub_run_app es es' p :
  pub_run pow c (es ++ es') p =
    '(p1, ws) ← pub_run pow c es p; '(p2, ws') ← pub_run pow c es' p1; Some (p2, ws ++ ws').
Proof.
  revert p. induction es as [|e es IH]; intros p; cbn [app pub_run].
  - cbn. by destruct (pub_run pow c es' p) as [[]|].
  - destruct (pub_react pow c e p) as [[[p1 out] ws]|]; [|done]. cbn [mbind option_bind]. rewrite IH.
    destruct (pub_run pow c es p1) as [[p2 ws']|]; [|done]. cbn [mbind option_bind].
    destruct (pub_run pow c es' p2) as [[p3 ws'']|]; [|done]. cbn. by rewrite app_assoc.
Qed.

(** The steps of the loop and of the end of a test *)
Lemma sample_step p now :
  pc p = PSample ->
  pub_step pow c (Writes true true now) p =
    Some (goto PWait (set_meas (mkMeasuring (count p) now (times_ (meas p)) (received_count_ (meas p))
      (data_msg_count_ (meas p))) (count p) p), [], [count p]).
Proof. intros H. unfold pub_step. by rewrite H, Hloans. Qed.

Lemma wait_step a p :
  pc p = PWait -> 1 <= data_msg_count_ (meas p) \/ a = TimesOut ->
  pub_step pow c a p =
    Some (next_sample c (set_meas (mkMeasuring (out_seqnum (meas p)) (start_time_ (meas p)) (times_ (meas p))
      (received_count_ (meas p)) 0) (count p) p), [], []).
Proof.
  intros H [Ha|Ha]; unfold pub_step; rewrite H, H1.
  - by rewrite (proj2 (Z.leb_le _ _)).
  - subst a. by rewrite orb_true_r.
Qed.

Lemma end_step a p : pc p = PEnd -> command_msg_count_ p = 1 -> pub_step pow c a p = Some (goto PFree (set_commands 0 p), [], []).
Proof. intros H Hc. unfold pub_step. by rewrite H, H1, Hc. Qed.

Lemma run_turn a es p p1 out ws :
  pub_step pow c a p = Some (p1, out, ws) ->
  pub_run pow c (Turn a :: es) p = '(p2, ws') ← pub_run pow c es p1; Some (p2, ws ++ ws').
Proof. intros H. cbn [pub_run pub_react]. by rewrite H. Qed.

Lemma behind_step k p :
  1 < k <= last_count c -> lagged k p ->
  exists p', pub_run pow c (behind k) p = Some (p', [k]) /\ lagged (k + 1) p' /\ payloads p' = payloads p /\ ends p' = ends p.
Proof.
  intros Hk [Hpc Hc Hl Ht Ha Hm]. rewrite (proj2 (Z.leb_le _ _)) in Hpc by lia.
  unfold behind. rewrite (run_turn _ _ _ _ _ _ (sample_step p 0 Hpc)).
  cbn [pub_run pub_react]. unfold pub_echo. cbn [samples_live goto set_meas]. rewrite Hl.
  unfold on_echo. cbn [meas out_seqnum times_ start_time_ received_count_ data_msg_count_ goto set_meas count]. rewrite Hc.
  rewrite (proj2 (Z.eqb_neq (k - 1) k)) by lia. cbn [mbind option_bind].
  rewrite wait_step; [|done|left; cbn; lia]. cbn [mbind option_bind app].
  eexists. split; [reflexivity|]. pose proof last_count_eq. rewrite next_sample_eq by (cbn; lia).
  split; [|done]. constructor; cbn; by rewrite ?Hc.
Qed.

Lemma lagging_run n k p :
  1 < k -> k + Z.of_nat n = last_count c + 1 -> lagged k p ->
  exists p', pub_run pow c (lagging n k) p = Some (p', seqZ k (Z.of_nat n)) /\ lagged (last_count c + 1) p' /\
    payloads p' = payloads p /\ ends p' = ends p.
Proof.
  revert k p. induction n as [|n IH]; intros k p Hk He Hp.
  - exists p. split_and!; [done| |done|done]. by replace (last_count c + 1) with k by lia.
  - cbn [lagging]. destruct (behind_step k p) as (p1 & E1 & Hp1 & Hz & He1); [lia|done|].
    destruct (IH (k + 1) p1) as (p2 & E2 & Hp2 & Hz2 & He2); [lia|lia|done|].
    exists p2. rewrite pub_run_app, E1. cbn [mbind option_bind]. rewrite E2. cbn [mbind option_bind].
    rewrite (seqZ_cons k) by lia. split_and!; [|done|congruence|congruence]. cbn [app]. do 3 f_equal. f_equal; lia.
Qed.

(** C14: One subscriber, static types, no loans, fewer than 2^32 - 2 samples, calls that succeed: let
    the echo of the first sample come only after the 100 ms the publisher waits for it, just after the
    second sample is written, and every other echo just after the next sample is written, too.  Then
    every sample is written and echoed, every wait but the first is ended by an echo, and not
    one measurement is made; at the end of the test the first one is removed from the
    empty vector of measurements. *)
Theorem one_late_echo_loses_all p a :
  dynamic_types_ c = false -> ends p = full -> payloads p <> [] -> lagged 1 p ->
  delete_writer_ok a && delete_reader_ok a && delete_pub_topic_ok a && delete_sub_topic_ok a && unregister_ok a = true ->
  exists p1 p2 p3,
    pub_run pow c [Turn (Writes true true 0); Turn TimesOut] p = Some (p1, [1]) /\
    pub_run pow c (lagging (Z.to_nat (samples_ c)) 2) p1 = Some (p2, seqZ 2 (samples_ c)) /\
    times_ (meas p2) = [] /\
    pub_run pow c [Turn Nothing; Commanded END; Turn Nothing; Turn Nothing; Turn (Deletes a)] p2 = Some (p3, []) /\
    pc p3 = PAborted.
Proof.
  intros Hdyn He Hz Hp Ha. pose proof last_count_eq as HL. pose proof Hp as [Hpc Hc Hl Ht Harr Hm].
  assert (exists p1, pub_run pow c [Turn (Writes true true 0); Turn TimesOut] p = Some (p1, [1]) /\ lagged 2 p1 /\
            ends p1 = full /\ payloads p1 = payloads p) as (p1 & E1 & Hp1 & He1 & Hz1).
  { rewrite (proj2 (Z.leb_le _ _)) in Hpc by lia. rewrite (run_turn _ _ _ _ _ _ (sample_step p 0 Hpc)).
    erewrite run_turn by (apply wait_step; [done|by right]). cbn [pub_run mbind option_bind app].
    eexists. split; [by rewrite Hc|]. rewrite next_sample_eq by (cbn; lia). split_and!; [|done|done].
    constructor; cbn; by rewrite ?Hc. }
  destruct (lagging_run (Z.to_nat (samples_ c)) 2 p1) as (p2 & E2 & Hp2 & Hz2 & He2); [lia|lia|done|].
  rewrite Z2Nat.id in E2 by lia. rewrite He1 in He2.
  exists p1, p2.
  destruct Hp2 as [Hpc2 Hc2 Hl2 Ht2 Ha2 Hm2]. rewrite (proj2 (Z.leb_gt _ _)) in Hpc2 by lia.
  repeat setoid_rewrite andb_true_iff in Ha. destruct Ha as ((((A1 & A2) & A3) & A4) & A5).
  eexists. split_and!; [exact E1|exact E2|exact Ht2| |].
  - erewrite run_turn by (unfold pub_step; rewrite Hpc2; reflexivity). cbn [pub_run pub_react mbind option_bind].
    rewrite end_step by (cbn; rewrite ?Hm2; done). cbn [mbind option_bind].
    unfold pub_step at 1. cbn [pc goto set_commands mbind option_bind]. unfold pub_step. cbn [pc goto set_ends set_commands].
    rewrite Hdyn. cbn [ends goto set_ends set_commands on_command]. unfold destroy_data_endpoints. rewrite He2, A1, A2, A3, A4, A5. cbn.
    reflexivity.
  - unfold test_ends. cbn. by rewrite Ht2.
Qed.
End Late.

Lemma one_late_echo_loses_all_witness :
  exists p1 p2 p3,
    pub_run dmul (mkSetting 1 3 false false (of_int 0)) [Turn (Writes true true 0); Turn TimesOut]
      (mkPub PSample [16] full true (mkMatches 1 1 1 1) 0 (mkMeasuring 0 0 [] 0 0) 1 []) = Some (p1, [1]) /\
    pub_run dmul (mkSetting 1 3 false false (of_int 0)) (lagging 3 2) p1 = Some (p2, [2; 3; 4]) /\
    times_ (meas p2) = [] /\
    pub_run dmul (mkSetting 1 3 false false (of_int 0))
      [Turn Nothing; Commanded END; Turn Nothing; Turn Nothing; Turn (Deletes (mkDeletion true true true true true))] p2 = Some (p3, []) /\
    pc p3 = PAborted.
Proof.
  refine (one_late_echo_loses_all dmul (mkSetting 1 3 false false (of_int 0)) eq_refl eq_refl _
    (mkPub PSample [16] full true (mkMatches 1 1 1 1) 0 (mkMeasuring 0 0 [] 0 0) 1 [])
    (mkDeletion true true true true true) eq_refl eq_refl _ _ eq_refl); [cbn; lia|done|by constructor].
Defined.

(** The largest number is followed by 0. *)
Lemma samples_never_end_witness :
  exists p' ws, pub_run dmul (mkSetting 1 (2 ^ 32 - 2) false false (of_int 0)) [Turn (Writes true true 0); Turn TimesOut]
    (mkPub PSample [16] full true (mkMatches 1 1 1 1) 0 (mkMeasuring 0 0 [] 0 0) (2 ^ 32 - 1) []) = Some (p', ws) /\
    count p' = 0 /\ (in_loop (pc p') \/ pc p' = PDone \/ pc p' = PAborted).
Proof.
  do 2 eexists. split; [vm_compute; reflexivity|]. split; [reflexivity|].
  eapply (samples_never_end dmul (mkSetting 1 (2 ^ 32 - 2) false false (of_int 0)) [Turn (Writes true true 0); Turn TimesOut]
    (mkPub PSample [16] full true (mkMatches 1 1 1 1) 0 (mkMeasuring 0 0 [] 0 0) (2 ^ 32 - 1) [])); [reflexivity|by left|vm_compute; reflexivity].
Defined.

End LatencyMeasure.
