(* ===== verification/LatencySystem.v ===== *)
(** The latency benchmark as a whole: one publisher and any number of subscribers with static
    types, over a library that delivers commands reliably and in order, as their endpoints ask
    for, and that may lose and delay samples and echoes at will.  Calls for endpoints succeed.  The steps have
    a parameter: with [prompt] no sample or echo is delivered between the deletion of the buffer it
    is read into and that of the reader; [LatencyEnd.latency_samples_safe] shows that without it such a
    delivery is the only thing that can go wrong, and [LatencyEnd.late_sample_is_fatal] that it
    happens. *)
From S2P Require Import Prelude Double LatencyTypes Percentile LatencyTest.
Import LatencyTypes LatencyTest.

Module LatencySystem.

(** A subscriber with the commands on their way to and from it, the samples on their way to
    it and the echoes on their way back; [pw] and [pr] whether the publisher's writer and
    reader have been matched with its endpoints. *)
Record node := mkNode {
  sub : subscriber;
  inbox : list TESTCOMMAND;
  outbox : list TESTCOMMAND;
  wire : list Z;
  back : list Z;
  pw : bool;
  pr : bool;
}.

Record system := mkSys {
  pub : publisher;
  subs : list node;
}.

(** ** The steps *)

Definition creation_ok (a : creation) : bool :=
  register_ok a && pub_topic_ok a && sub_topic_ok a && writer_ok a && reader_ok a.
Definition deletion_ok (a : deletion) : bool :=
  delete_writer_ok a && delete_reader_ok a && delete_pub_topic_ok a && delete_sub_topic_ok a && unregister_ok a.

(** The answers when nothing fails; a loan may. *)
Definition granted (a : answer) : bool :=
  match a with
  | Nothing | TimesOut => true
  | Creates a ready_ok => creation_ok a && ready_ok
  | Writes _ write_ok _ => write_ok
  | Deletes a => deletion_ok a
  | DynamicData _ _ _ => false
  end.
Definition sgranted (a : sanswer) : bool :=
  match a with
  | SNothing => true
  | SCreates a => creation_ok a
  | SWrites ok | SAcknowledged ok => ok
  | SDeletes a => deletion_ok a
  | SDynamic _ => false
  end.

(** What goes with the reader of a subscriber: the samples on their way to it *)
Definition keep_wire (s : subscriber) (w : list Z) : list Z := if reader (sends s) then w else [].

Section Nodes.
Context (prompt : bool).

(** A step of a subscriber alone; [pe] are the endpoints of the publisher. *)
Inductive node_step (pe : endpoints) : node -> node -> Prop :=
  | node_turn a s i o w b x y s' out :
      sgranted a = true -> sub_step false a s = Some (s', out) ->
      node_step pe (mkNode s i o w b x y) (mkNode s' i (o ++ out) (keep_wire s' w) b x y)
  | node_command cmd s i o w b x y :
      node_step pe (mkNode s (cmd :: i) o w b x y) (mkNode (sub_command cmd s) i o w b x y)
  | node_match_writer s i o w b x y :
      reader pe = true -> writer (sends s) = true -> data_writer (smatched s) = 0 ->
      node_step pe (mkNode s i o w b x y) (mkNode (sub_matched DataWriter 1 s) i o w b x y)
  | node_match_reader s i o w b x y :
      writer pe = true -> reader (sends s) = true -> data_reader (smatched s) = 0 ->
      node_step pe (mkNode s i o w b x y) (mkNode (sub_matched DataReader 1 s) i o w b x y)
  | node_data echo return_ok loaned write_ok loans s i o seq w b x y s' echoed :
      (prompt = true -> sample_live s = true) -> sub_data echo return_ok loaned write_ok loans seq s = (s', echoed) ->
      node_step pe (mkNode s i o (seq :: w) b x y) (mkNode s' i o w (b ++ echoed) x y)
  | node_lose_sample s i o seq w b x y :
      node_step pe (mkNode s i o (seq :: w) b x y) (mkNode s i o w b x y)
  | node_lose_echo s i o w seq b x y :
      node_step pe (mkNode s i o w (seq :: b) x y) (mkNode s i o w b x y).

End Nodes.

Section Protocol.
Context (prompt : bool) (pow : Double.double -> Double.double -> Double.double) (c : setting).

(** A callback of the publisher for one of the subscribers *)
Inductive pub_node_step : publisher -> node -> publisher -> node -> Prop :=
  | pub_match_writer p s i o w b y :
      writer (ends p) = true -> reader (sends s) = true ->
      pub_node_step p (mkNode s i o w b false y)
        (pub_matched DataWriter (data_writer (matched p) + 1) p) (mkNode s i o w b true y)
  | pub_match_reader p s i o w b x :
      reader (ends p) = true -> writer (sends s) = true ->
      pub_node_step p (mkNode s i o w b x false)
        (pub_matched DataReader (data_reader (matched p) + 1) p) (mkNode s i o w b x true)
  | pub_command p s i cmd o w b x y :
      pub_node_step p (mkNode s i (cmd :: o) w b x y) (on_command cmd p) (mkNode s i o w b x y)
  | pub_takes_echo p s i o w seq b x y bounce now :
      (prompt = true -> samples_live p = true) ->
      pub_node_step p (mkNode s i o w (seq :: b) x y) (pub_echo c seq bounce now p) (mkNode s i o w b x y).

(** What a step of the publisher sends to all, and what goes with its endpoints: echoes on their
    way and matches *)
Definition send (p : publisher) (out : list TESTCOMMAND) (ws : list Z) (n : node) : node :=
  mkNode (sub n) (inbox n ++ out) (outbox n) (wire n ++ ws)
    (if reader (ends p) then back n else []) (pw n && writer (ends p)) (pr n && reader (ends p)).

Inductive sys_step : system -> system -> Prop :=
  | step_pub p ns a p' out ws :
      granted a = true -> pub_step pow c a p = Some (p', out, ws) ->
      sys_step (mkSys p ns) (mkSys p' (send p' out ws <$> ns))
  | step_node p l1 n n' l2 :
      pc p <> PAborted -> node_step prompt (ends p) n n' ->
      sys_step (mkSys p (l1 ++ n :: l2)) (mkSys p (l1 ++ n' :: l2))
  | step_both p l1 n p' n' l2 :
      pc p <> PAborted -> pub_node_step p n p' n' ->
      sys_step (mkSys p (l1 ++ n :: l2)) (mkSys p' (l1 ++ n' :: l2)).

(** The start, with the command endpoints of all matched *)
Definition start (sz : list Z) : system :=
  mkSys (start_pub c sz) (replicate (Z.to_nat (subscribers_ c)) (mkNode (start_sub sz) [] [] [] [] false false)).

(** ** Where the subscribers are while the publisher is where it is *)

Definition flag (z : Z) : Prop := z = 0 \/ z = 1.

(** Without endpoints, and with them and a live sample *)
Definition bare (n : node) : Prop :=
  sends (sub n) = no_ends /\ data_writer (smatched (sub n)) = 0 /\ data_reader (smatched (sub n)) = 0 /\ wire n = [].
Definition armed (n : node) : Prop := sends (sub n) = full /\ sample_live (sub n) = true.
Definition joined (n : node) : Prop := data_writer (smatched (sub n)) = 1 /\ data_reader (smatched (sub n)) = 1.

(** No command is waiting, or one is *)
Definition calm (n : node) : Prop := commands (sub n) = 0 /\ inbox n = [].
Definition pending (cmd : TESTCOMMAND) (n : node) : Prop :=
  (commands (sub n) = 0 /\ inbox n = [cmd]) \/ (commands (sub n) = 1 /\ inbox n = []).

Definition between (s : subscriber) : Prop := spc_ s = SDiscovery \/ spc_ s = SReady \/ spc_ s = SAck.
Definition quiet (n : node) : Prop := wire n = [] /\ back n = [].
Definition apart (n : node) : Prop := pw n = false /\ pr n = false.

Definition idle (ds : list Z) (n : node) : Prop :=
  (between (sub n) \/ (spc_ (sub n) = SEnded /\ ds = [])) /\ sizes (sub n) = ds /\ bare n /\ calm n /\ outbox n = [].
Definition called (ds : list Z) (n : node) : Prop :=
  between (sub n) /\ sizes (sub n) = ds /\ bare n /\ pending READY n /\ outbox n = [].
Definition creating (ds : list Z) (n : node) : Prop :=
  spc_ (sub n) = SCreate /\ sizes (sub n) = ds /\ bare n /\ calm n /\ outbox n = [].
Definition matching (ds : list Z) (n : node) : Prop :=
  (spc_ (sub n) = SMatch \/ spc_ (sub n) = SBegin /\ joined n) /\ sizes (sub n) = ds /\ armed n /\
  flag (data_writer (smatched (sub n))) /\ flag (data_reader (smatched (sub n))) /\ calm n /\ outbox n = [].
Definition echoing (ds : list Z) (n : node) : Prop :=
  spc_ (sub n) = SStop /\ sizes (sub n) = ds /\ armed n /\ joined n /\ calm n /\ (outbox n = [BEGIN] \/ outbox n = []).
Definition stopped (ds : list Z) (n : node) : Prop :=
  spc_ (sub n) = SStop /\ sizes (sub n) = ds /\ armed n /\ joined n /\ pending STOP n /\ outbox n = [].
Definition leaving (ds : list Z) (n : node) : Prop :=
  (spc_ (sub n) = SFree \/ spc_ (sub n) = SDestroy) /\ sizes (sub n) = ds /\ sends (sub n) = full /\ joined n /\ calm n /\ outbox n = [].
Definition ending (ds : list Z) (n : node) : Prop :=
  spc_ (sub n) = SEnd /\ sizes (sub n) = ds /\ bare n /\ calm n /\ outbox n = [].
Definition through (ds : list Z) (n : node) : Prop :=
  (spc_ (sub n) = SAck \/ spc_ (sub n) = SReady \/ (spc_ (sub n) = SEnded /\ tail ds = [])) /\
  sizes (sub n) = tail ds /\ bare n /\ calm n /\ (outbox n = [END] \/ outbox n = []).

Definition placed (k : ppc) (ds : list Z) (n : node) : Prop :=
  match k with
  | PTest | PDone => idle ds n /\ quiet n /\ apart n
  | PDiscovery | PBegin =>
      ds <> [] /\ quiet n /\ (((called ds n \/ creating ds n) /\ apart n) \/ matching ds n \/ echoing ds n)
  | PSample | PWait | PStop => ds <> [] /\ echoing ds n /\ outbox n = []
  | PEnd => ds <> [] /\ (stopped ds n \/ leaving ds n \/ ending ds n \/ through ds n)
  | PFree | PDestroy => ds <> [] /\ through ds n /\ outbox n = []
  | PAborted => True
  end.

Definition ok (k : ppc) (ds : list Z) (n : node) : Prop :=
  placed k ds n /\ command_writer (smatched (sub n)) = 1 /\ command_reader (smatched (sub n)) = 1 /\
  test_status_ (sub n) = 0.

(** Has it answered what the publisher waits for? *)
Definition replied (n : node) : nat :=
  match outbox n, spc_ (sub n) with
  | [], (SStop | SAck | SReady | SEnded) => if bool_decide (inbox n = []) && (commands (sub n) =? 0)%Z then 1 else 0
  | _, _ => 0
  end%nat.
Definition has_pw (n : node) : nat := if pw n then 1 else 0.
Definition has_pr (n : node) : nat := if pr n then 1 else 0.

(** ** The publisher *)

Definition testing (k : ppc) : bool :=
  match k with PTest | PDone | PAborted => false | _ => true end.
Definition counting (k : ppc) : bool := match k with PDiscovery | PBegin | PEnd => true | _ => false end.
Definition live (k : ppc) : bool :=
  match k with PTest | PDone | PAborted | PDestroy => false | _ => true end.

Record pub_ok (sz : list Z) (p : publisher) : Prop := {
  ok_ends : pc p <> PAborted -> ends p = if testing (pc p) then full else no_ends;
  ok_live : pc p <> PAborted -> samples_live p = live (pc p);
  ok_cw : command_writer (matched p) = subscribers_ c;
  ok_cr : command_reader (matched p) = subscribers_ c;
  ok_payloads : match pc p with PDone => payloads p = [] | PTest => True | _ => payloads p <> [] end;
  ok_count : match pc p with PSample | PWait => 1 <= count p <= last_count c | _ => True end;
  ok_stats : (Percentile.bytes_ <$> stats_ p) ++ payloads p = sz;
  ok_aborted : pc p = PAborted -> (length (times_ (meas p)) <= 1)%nat;
}.

Definition counts_ok (p : publisher) (ns : list node) : Prop :=
  command_msg_count_ p = (if counting (pc p) then Z.of_nat (sum_list_with replied ns) else 0) /\
  data_writer (matched p) = Z.of_nat (sum_list_with has_pw ns) /\
  data_reader (matched p) = Z.of_nat (sum_list_with has_pr ns).

Definition Inv (sz : list Z) (s : system) : Prop :=
  pub_ok sz (pub s) /\ Z.of_nat (length (subs s)) = subscribers_ c /\
  Forall (ok (pc (pub s)) (payloads (pub s))) (subs s) /\
  (pc (pub s) <> PAborted -> counts_ok (pub s) (subs s)).

Ltac settle He Ho :=
  unfold calm, joined, pending, bare, armed, flag, keep_wire in *; cbn in *;
  repeat split; try done; rewrite ?He, ?Ho, ?app_nil_r; cbn; try done; try tauto; try congruence.

(** ** A turn of a subscriber *)

Definition turns (a : sanswer) (n n' : node) (out : list TESTCOMMAND) : Prop :=
  sgranted a = true /\ sub_step false a (sub n) = Some (sub n', out) /\
  n' = mkNode (sub n') (inbox n) (outbox n ++ out) (keep_wire (sub n') (wire n)) (back n) (pw n) (pr n).

Ltac turning Ha H :=
  let E := fresh in intros (Ha & H & E); match type of H with sub_step _ _ (sub ?n) = Some (sub ?n', _) =>
    destruct n as [s i o w b x y], n' as [s' i' o' w' b' x' y'] end; cbn in Ha, H, E; injection E as -> -> -> -> -> ->.

(** A wait with the command endpoints matched: [f] and [g] are the matches of the others. *)
Lemma waits_eq k next s f g :
  command_writer (smatched s) = 1 -> command_reader (smatched s) = 1 ->
  data_writer (smatched s) = f -> data_reader (smatched s) = g -> 0 <= f <= 1 -> 0 <= g <= 1 ->
  sub_waits k next s = if f + g + 2 =? k then Some (sgoto next s, []) else None.
Proof.
  intros H1 H2 H3 H4 Hf Hg. unfold sub_waits, total_matches, total. rewrite H1, H2, H3, H4.
  rewrite (proj2 (Z.leb_le 0 _)), (proj2 (Z.leb_le _ 4)) by lia. cbn [andb]. by replace (f + g + 1 + 1) with (f + g + 2) by lia.
Qed.

Ltac decide_wait H :=
  match type of H with context [if ?b then Some _ else None] => let E := fresh "E" in destruct b eqn:E; zbool; [|try lia] end;
  simplify_eq; try done; try lia.

Lemma turn_frame a s s' out :
  sub_step false a s = Some (s', out) -> test_status_ s = 0 -> command_writer (smatched s) = 1 -> command_reader (smatched s) = 1 ->
  command_writer (smatched s') = 1 /\ command_reader (smatched s') = 1 /\ test_status_ s' = 0.
Proof.
  intros H Ht Hw Hr. unfold sub_step, sub_waits in H.
  repeat match type of H with
    | context [destroy_data_endpoints ?x ?y] => destruct (destroy_data_endpoints x y) as [[[? ?] ?] ?]
    | context [if ?x then _ else _] => destruct x
    | context [match ?x with _ => _ end] => destruct x
    | context [let '(_, _) := ?x in _] => destruct x
    end; simplify_eq; cbn; rewrite ?Ht; done.
Qed.

Lemma turn_idle a n n' out ds : turns a n n' out -> command_writer (smatched (sub n)) = 1 -> command_reader (smatched (sub n)) = 1 -> idle ds n -> idle ds n'.
Proof.
  turning Ha H. intros Hw Hr (Hp & Hd & (He & Hdw & Hdr & Hwi) & (Hc & Hi) & Ho). cbn in *. subst.
  unfold sub_step in H. rewrite (waits_eq _ _ _ 0 0) in H by (done || lia).
  destruct Hp as [[Hp|[Hp|Hp]]|[Hp Hz]]; rewrite Hp in H; cbn in H; [| | |done].
  - decide_wait H. split; [left; right; by left|]. settle He Ho.
  - destruct (sizes s) as [|d ds] eqn:Hz; [|by rewrite Hc in H]. simplify_eq.
    split; [by right|]. settle He Ho.
  - destruct a as [| | | | |[]]; try done. simplify_eq.
    split; [left; right; by left|]. settle He Ho.
Qed.

Lemma turn_called a n n' out ds : turns a n n' out -> command_writer (smatched (sub n)) = 1 -> command_reader (smatched (sub n)) = 1 -> ds <> [] -> called ds n -> called ds n' \/ creating ds n'.
Proof.
  turning Ha H. intros Hw Hr Hne (Hp & Hd & (He & Hdw & Hdr & Hwi) & Hc & Ho). cbn in *. subst.
  unfold sub_step in H. rewrite (waits_eq _ _ _ 0 0) in H by (done || lia).
  destruct Hp as [Hp|[Hp|Hp]]; rewrite Hp in H; cbn in H.
  - decide_wait H. left. split; [right; by left|]. settle He Ho.
  - destruct (sizes s) as [|d ds] eqn:Hz; [done|]. destruct (commands s =? 0) eqn:Hc0; [done|]. zbool. simplify_eq.
    right. destruct Hc as [[Hc _]|[_ Hi]]; [done|]. cbn in Hi. subst. settle He Ho.
  - destruct a as [| | | | |[]]; try done. simplify_eq.
    left. split; [right; by left|]. settle He Ho.
Qed.

Lemma turn_creating a n n' out ds : turns a n n' out -> creating ds n -> matching ds n'.
Proof.
  turning Ha H. intros (Hp & Hd & (He & Hdw & Hdr & Hwi) & Hc & Ho). cbn in *. subst.
  unfold sub_step in H. rewrite Hp, He in H. destruct a as [|cr| | | |]; try done.
  destruct cr as [[] [] [] [] []]; cbn in Ha; try done. cbn in H. simplify_eq.
  split; [by left|]. settle He Ho.
Qed.

Lemma turn_matching a n n' out ds : turns a n n' out -> command_writer (smatched (sub n)) = 1 -> command_reader (smatched (sub n)) = 1 ->
  matching ds n -> (matching ds n' /\ out = []) \/ (echoing ds n' /\ out = [BEGIN]).
Proof.
  turning Ha H. intros Hw Hr (Hp & Hd & (He & Hl) & Hfw & Hfr & Hc & Ho). cbn in *. subst.
  unfold sub_step in H. destruct Hp as [Hp|[Hp Hj]]; rewrite Hp in H.
  - left. assert (data_writer (smatched s) = 1 /\ data_reader (smatched s) = 1 /\ s' = sgoto SBegin s /\ out = [])
      as (E1 & E2 & -> & ->).
    { destruct Hfw as [E1|E1], Hfr as [E2|E2]; rewrite (waits_eq _ _ _ _ _ Hw Hr E1 E2) in H by lia; decide_wait H. }
    split; [|done]. split; [right; by split|]. settle He Ho.
  - right. destruct a as [| | |[]| |]; try done. simplify_eq. split; [|done].
    settle He Ho.
Qed.

Lemma turn_echoing a n n' out ds : turns a n n' out -> echoing ds n -> False.
Proof.
  turning Ha H. intros (Hp & _ & _ & _ & (Hc & _) & _). cbn in *. unfold sub_step in H. by rewrite Hp, Hc in H. Qed.

Lemma turn_stopped a n n' out ds : turns a n n' out -> stopped ds n -> leaving ds n'.
Proof.
  turning Ha H. intros (Hp & Hd & (He & Hl) & Hj & Hc & Ho). cbn in *. subst. unfold sub_step in H. rewrite Hp in H.
  destruct (commands s =? 0) eqn:Hc0; [done|]. zbool. simplify_eq.
  destruct Hc as [[Hc _]|[_ Hi]]; [done|]. split; [by left|]. settle He Ho.
Qed.

Lemma turn_leaving a n n' out ds : turns a n n' out -> test_status_ (sub n) = 0 -> leaving ds n -> leaving ds n' \/ ending ds n'.
Proof.
  turning Ha H. intros Ht (Hp & Hd & He & Hj & Hc & Ho). cbn in *. subst. unfold sub_step in H.
  destruct Hp as [Hp|Hp]; rewrite Hp in H.
  - left. simplify_eq. split; [by right|]. settle He Ho.
  - right. destruct a as [| | | |d|]; try done. destruct d as [[] [] [] [] []]; cbn in Ha; try done.
    rewrite He, Ht in H. cbn in H. simplify_eq. settle He Ho.
Qed.

Lemma turn_ending a n n' out ds : turns a n n' out -> ending ds n -> through ds n' /\ out = [END].
Proof.
  turning Ha H. intros (Hp & Hd & (He & Hdw & Hdr & Hwi) & Hc & Ho). cbn in *. subst. unfold sub_step in H. rewrite Hp in H.
  destruct a as [| | |[]| |]; try done. simplify_eq. split; [|done]. split; [by left|].
  settle He Ho.
Qed.

Lemma turn_through a n n' out ds : turns a n n' out -> through ds n -> through ds n' /\ out = [].
Proof.
  turning Ha H. intros (Hp & Hd & (He & Hdw & Hdr & Hwi) & (Hc & Hi) & Ho). cbn in *. subst. unfold sub_step in H.
  destruct Hp as [Hp|[Hp|[Hp Hz]]]; rewrite Hp in H; [| |done].
  - destruct a as [| | | | |[]]; try done. simplify_eq. split; [|done]. split; [right; by left|].
    settle He Ho.
  - destruct (sizes s) as [|d ds'] eqn:Hz; [|by rewrite Hc in H]. simplify_eq. split; [|done].
    split; [right; right; by split|]. settle He Ho.
Qed.

(** ** Every step of a subscriber keeps its place *)

Ltac settled := split_and!; intros; try done; auto; first [tauto | match goal with |- ?G => idtac G end; fail 1].

Definition kept (k : ppc) (ds : list Z) (n n' : node) : Prop :=
  ok k ds n' /\ (counting k = true -> replied n' = replied n) /\ pw n' = pw n /\ pr n' = pr n.

Lemma replied_called ds n : called ds n -> replied n = 0%nat.
Proof.
  intros (Hp & _ & _ & Hc & Ho). unfold replied. rewrite Ho.
  destruct Hp as [-> |[-> | ->]]; [done| |]; destruct Hc as [[_ ->]|[-> ->]]; done.
Qed.
Lemma replied_creating ds n : creating ds n -> replied n = 0%nat.
Proof. intros (Hp & _). unfold replied. rewrite Hp. by destruct (outbox n). Qed.
Lemma replied_matching ds n : matching ds n -> replied n = 0%nat.
Proof. intros ([Hp|[Hp _]] & _); unfold replied; rewrite Hp; by destruct (outbox n). Qed.
Lemma replied_stopped ds n : stopped ds n -> replied n = 0%nat.
Proof.
  intros (Hp & _ & _ & _ & Hc & Ho). unfold replied. rewrite Ho, Hp. by destruct Hc as [[_ ->]|[-> ->]].
Qed.
Lemma replied_leaving ds n : leaving ds n -> replied n = 0%nat.
Proof. intros ([Hp|Hp] & _); unfold replied; rewrite Hp; by destruct (outbox n). Qed.
Lemma replied_ending ds n : ending ds n -> replied n = 0%nat.
Proof. intros (Hp & _). unfold replied. rewrite Hp. by destruct (outbox n). Qed.
Lemma replied_echoing ds n : echoing ds n -> replied n = match outbox n with [] => 1 | _ => 0 end%nat.
Proof. intros (Hp & _ & _ & _ & (Hc & Hi) & _). unfold replied. by rewrite Hp, Hc, Hi. Qed.
Lemma replied_through ds n : through ds n -> replied n = match outbox n with [] => 1 | _ => 0 end%nat.
Proof.
  intros (Hp & _ & _ & (Hc & Hi) & _). unfold replied. rewrite Hc, Hi.
  by destruct Hp as [-> |[-> |[-> _]]].
Qed.

(** The subscribers on the way to BEGIN, and on the way to END *)
Definition gathering (ds : list Z) (n : node) : Prop :=
  ((called ds n \/ creating ds n) /\ apart n) \/ matching ds n \/ echoing ds n.
Definition parting (ds : list Z) (n : node) : Prop := stopped ds n \/ leaving ds n \/ ending ds n \/ through ds n.

Lemma turn_outbox a n n' out : turns a n n' out -> outbox n' = outbox n ++ out.
Proof. intros (_ & _ & ->). done. Qed.

Lemma turn_gathering ds a n n' out :
  turns a n n' out -> command_writer (smatched (sub n)) = 1 -> command_reader (smatched (sub n)) = 1 -> ds <> [] ->
  gathering ds n -> gathering ds n' /\ replied n' = replied n.
Proof.
  intros Htu Hw Hr Hne. pose proof (turn_outbox _ _ _ _ Htu) as Hout.
  assert (Hap : apart n -> apart n') by (destruct Htu as (_ & _ & ->); done). unfold gathering.
  intros [[[H1|H1] H3]|[H1|H1]].
  - rewrite (replied_called _ _ H1). destruct (turn_called a n n' out ds Htu Hw Hr Hne H1) as [H4|H4];
      [rewrite (replied_called _ _ H4)|rewrite (replied_creating _ _ H4)]; settled.
  - pose proof (turn_creating a n n' out ds Htu H1) as H4.
    rewrite (replied_creating _ _ H1), (replied_matching _ _ H4). settled.
  - rewrite (replied_matching _ _ H1). destruct (turn_matching a n n' out ds Htu Hw Hr H1) as [[H4 _]|[H4 Eo]].
    + rewrite (replied_matching _ _ H4). settled.
    + rewrite (replied_echoing _ _ H4), Hout, Eo. destruct H1 as (_ & _ & _ & _ & _ & _ & ->). settled.
  - by destruct (turn_echoing a n n' out ds Htu H1).
Qed.

Lemma turn_parting ds a n n' out :
  turns a n n' out -> test_status_ (sub n) = 0 -> parting ds n -> parting ds n' /\ replied n' = replied n.
Proof.
  intros Htu Ht. pose proof (turn_outbox _ _ _ _ Htu) as Hout. unfold parting.
  intros [H1|[H1|[H1|H1]]].
  - pose proof (turn_stopped a n n' out ds Htu H1) as H4.
    rewrite (replied_stopped _ _ H1), (replied_leaving _ _ H4). settled.
  - rewrite (replied_leaving _ _ H1). destruct (turn_leaving a n n' out ds Htu Ht H1) as [H4|H4];
      [rewrite (replied_leaving _ _ H4)|rewrite (replied_ending _ _ H4)]; settled.
  - rewrite (replied_ending _ _ H1). destruct (turn_ending a n n' out ds Htu H1) as [H4 Eo].
    rewrite (replied_through _ _ H4), Hout, Eo. destruct H1 as (_ & _ & _ & _ & ->). settled.
  - destruct (turn_through a n n' out ds Htu H1) as [H4 Eo].
    rewrite (replied_through _ _ H1), (replied_through _ _ H4), Hout, Eo, app_nil_r. settled.
Qed.

Lemma turn_placed k ds a n n' out : k <> PAborted -> ok k ds n -> turns a n n' out -> kept k ds n n'.
Proof.
  intros Hk (Hpl & Hw & Hr & Ht) Htu. pose proof Htu as (_ & Hst & En).
  destruct (turn_frame _ _ _ _ Hst Ht Hw Hr) as (Hw' & Hr' & Ht').
  assert (Hq : quiet n -> quiet n').
  { intros [Hq1 Hq2]. rewrite En. split; [|done]. cbn. rewrite Hq1. unfold keep_wire. by destruct (reader _). }
  assert (Hap : apart n -> apart n') by (by rewrite En).
  pose proof (turn_outbox _ _ _ _ Htu) as Hout.
  assert (Hpp : pw n' = pw n /\ pr n' = pr n) by (by rewrite En).
  pose proof (turn_idle a n n' out ds Htu Hw Hr) as Hidle.
  pose proof (turn_gathering ds a n n' out Htu Hw Hr) as Hgat.
  pose proof (turn_parting ds a n n' out Htu Ht) as Hpar.
  unfold kept, ok. rewrite Hw', Hr', Ht'. fold (gathering ds n) (parting ds n) in Hpl.
  destruct k; cbn [placed counting] in *; try done;
    try (destruct Hpl as (_ & H1 & _); by destruct (turn_echoing a n n' out ds Htu H1)).
  - destruct Hpl as (H1 & H2 & H3). settled.
  - destruct Hpl as (Hne & H2 & H1). destruct (Hgat Hne H1) as [H3 H4]. settled.
  - destruct Hpl as (Hne & H2 & H1). destruct (Hgat Hne H1) as [H3 H4]. settled.
  - destruct Hpl as (Hne & H1). destruct (Hpar H1) as [H3 H4]. settled.
  - destruct Hpl as (Hne & H1 & H2). destruct (turn_through a n n' out ds Htu H1) as [H4 ->].
    rewrite Hout, H2. settled.
  - destruct Hpl as (Hne & H1 & H2). destruct (turn_through a n n' out ds Htu H1) as [H4 ->].
    rewrite Hout, H2. settled.
  - destruct Hpl as (H1 & H2 & H3). settled.
Qed.

(** A command that is taken *)
Lemma command_placed k ds cmd s i o w b x y :
  k <> PAborted -> ok k ds (mkNode s (cmd :: i) o w b x y) ->
  kept k ds (mkNode s (cmd :: i) o w b x y) (mkNode (sub_command cmd s) i o w b x y).
Proof.
  intros Hk (Hpl & Hw & Hr & Ht). set (n := mkNode s (cmd :: i) o w b x y) in *.
  set (n' := mkNode (sub_command cmd s) i o w b x y).
  assert (Hc : calm n -> False) by (by intros [_ ?]).
  assert (Hp : forall cmd', (cmd' = READY \/ cmd' = STOP) -> pending cmd' n -> pending cmd' n' /\
    sub_command cmd s = sset_commands 1 0 s).
  { intros cmd' Hcmd [[H1 H2]|[_ H2]]; cbn in *; [|done]. injection H2 as -> ->.
    assert (sub_command cmd' s = sset_commands 1 0 s) as E.
    { unfold sub_command. rewrite H1, Ht. by destruct Hcmd as [-> | ->]. }
    split; [|done]. right. cbn. by rewrite E. }
  assert (Hcall : called ds n -> called ds n' /\ test_status_ (sub n') = 0 /\ smatched (sub n') = smatched s).
  { intros (H1 & H2 & (B1 & B2 & B3 & B4) & H4 & H5). destruct (Hp READY) as [H6 E]; [by left|done|].
    unfold called, bare, between. change (sub n') with (sub_command cmd s). rewrite E. by split_and!. }
  assert (Hstop : stopped ds n -> stopped ds n' /\ test_status_ (sub n') = 0 /\ smatched (sub n') = smatched s).
  { intros (H1 & H2 & (B1 & B2) & (B3 & B4) & H5 & H6). destruct (Hp STOP) as [H7 E]; [by right|done|].
    unfold stopped, armed, joined. change (sub n') with (sub_command cmd s). rewrite E. by split_and!. }
  assert (Hn : quiet n -> quiet n') by done. assert (Ha : apart n -> apart n') by done.
  assert (Hstage : (counting k = true /\ (called ds n \/ stopped ds n)) /\ (called ds n -> placed k ds n') /\ (stopped ds n -> placed k ds n')).
  { destruct k; cbn [placed counting] in *; try done;
      unfold idle, creating, matching, echoing, leaving, ending, through in *; try tauto. }
  destruct Hstage as ((Hcnt & Hst) & Hpl1 & Hpl2).
  unfold kept, ok. destruct Hst as [H|H].
  - destruct (Hcall H) as (H1 & H2 & H3). rewrite H3, (replied_called _ _ H), (replied_called _ _ H1).
    settled.
  - destruct (Hstop H) as (H1 & H2 & H3). rewrite H3, (replied_stopped _ _ H), (replied_stopped _ _ H1).
    settled.
Qed.

(** A match of one of its endpoints *)
Lemma match_placed k ds l n :
  k <> PAborted -> ok k ds n ->
  (l = DataWriter /\ data_writer (smatched (sub n)) = 0 /\ writer (sends (sub n)) = true) \/
  (l = DataReader /\ data_reader (smatched (sub n)) = 0 /\ reader (sends (sub n)) = true) ->
  kept k ds n (mkNode (sub_matched l 1 (sub n)) (inbox n) (outbox n) (wire n) (back n) (pw n) (pr n)).
Proof.
  intros Hk (Hpl & Hw & Hr & Ht) Hl. set (n' := mkNode _ _ _ _ _ _ _).
  assert (Hb : bare n -> False).
  { intros (He & _). rewrite He in Hl. cbn in Hl. naive_solver. }
  assert (Hj : joined n -> False) by (intros [H1 H2]; destruct Hl as [(_ & H3 & _)|(_ & H3 & _)]; lia).
  assert (Hm : matching ds n -> matching ds n').
  { intros (Hp & Hd & Har & Hfw & Hfr & Hc & Ho). unfold matching, armed, flag, calm in *. cbn.
    destruct Hp as [Hp|[_ Hp]]; [|done]. destruct Hl as [(-> & _ & _)|(-> & _ & _)]; cbn; split_and!; auto; try apply Har; apply Hc. }
  assert (Hsame : command_writer (smatched (sub n')) = 1 /\ command_reader (smatched (sub n')) = 1).
  { destruct Hl as [(-> & _)|(-> & _)]; done. }
  assert (Hmt : matching ds n /\ counting k = true /\ (matching ds n' -> placed k ds n')).
  { destruct k; cbn [placed counting] in *; try done;
      unfold idle, called, creating, echoing, stopped, leaving, ending, through in *; try tauto.
    all: destruct Hpl as (? & [? ?] & ?); split_and!; try tauto; done. }
  destruct Hmt as (H1 & _ & H2). specialize (Hm H1). unfold kept, ok.
  rewrite (replied_matching _ _ H1), (replied_matching _ _ Hm). destruct Hsame as [-> ->]. settled.
Qed.

(** Samples and echoes that come or are lost *)
Lemma flow_placed k ds n w b :
  ok k ds n -> (wire n = [] -> w = []) -> (quiet n -> b = []) ->
  kept k ds n (mkNode (sub n) (inbox n) (outbox n) w b (pw n) (pr n)).
Proof.
  intros (Hpl & Hw & Hr & Ht) Hwi Hb. set (n' := mkNode _ _ _ _ _ _ _).
  assert (Hbare : bare n -> bare n') by (intros (? & ? & ? & ?); by split_and!; auto).
  assert (Hq : quiet n -> quiet n') by (intros Hq; pose proof Hq as [? _]; split; auto).
  split; [|done]. split; [|done].
  destruct k; cbn [placed] in *; try done;
    unfold idle, called, creating, matching, echoing, stopped, leaving, ending, through, apart in *; cbn in *; tauto.
Qed.

Lemma node_placed k ds pe n n' : k <> PAborted -> ok k ds n -> node_step true pe n n' -> kept k ds n n'.
Proof.
  intros Hk Hok H. destruct H as
    [a s i o w b x y s' out Hg Hst|cmd s i o w b x y|s i o w b x y _ Hwr Hm|s i o w b x y _ Hrd Hm
    |echo ro ln wo loans s i o seq w b x y s' echoed Hl Hd|s i o seq w b x y|s i o w seq b x y].
  - eapply (turn_placed k ds a _ _ out); [done|done|]. by split_and!.
  - by apply command_placed.
  - apply (match_placed k ds DataWriter (mkNode s i o w b x y)); [done|done|by left].
  - apply (match_placed k ds DataReader (mkNode s i o w b x y)); [done|done|by right].
  - assert (s' = s) as ->.
    { unfold sub_data in Hd. rewrite Hl in Hd by done. cbn in Hd. by repeat case_match; simplify_eq. }
    apply (flow_placed k ds (mkNode s i o (seq :: w) b x y)); [done|done|by intros [? _]].
  - apply (flow_placed k ds (mkNode s i o (seq :: w) b x y)); [done|done|by intros [? _]].
  - apply (flow_placed k ds (mkNode s i o w (seq :: b) x y)); [done|done|by intros [_ ?]].
Qed.

End Protocol.
End LatencySystem.
