(* ===== verification/LatencyRun.v ===== *)
(** Runs of the latency benchmark: the invariant of [LatencySystem] is kept by every step, every
    run ends, and it ends with a line of statistics for each payload unless a payload brought
    fewer than two measurements. *)
From S2P Require Import Prelude Double LatencyTypes Percentile LatencyTest LatencySystem.
Import LatencyTypes Percentile LatencyTest LatencySystem.

Module LatencyRun.

Section Runs.
Context (pow : Double.double -> Double.double -> Double.double) (c : setting) (Hstatic : dynamic_types_ c = false).
Context (Hlast : last_count c <> 2 ^ 32 - 1).

#[local] Abbreviation Inv := (LatencySystem.Inv c).
#[local] Arguments replied : simpl never.
#[local] Arguments LatencyTest.last_count : simpl never.

Lemma replied_at_most n : (replied n <= 1)%nat.
Proof. unfold replied. destruct (outbox n), (spc_ (sub n)); try lia; by destruct (_ && _); lia. Qed.
Lemma has_pw_le n : (has_pw n <= 1)%nat.
Proof. unfold has_pw. destruct (pw n); lia. Qed.
Lemma has_pr_le n : (has_pr n <= 1)%nat.
Proof. unfold has_pr. destruct (pr n); lia. Qed.

(** ** Steps of a subscriber, alone or with a callback of the publisher *)

Lemma alone_kept sz p l1 n n' l2 :
  Inv sz (mkSys p (l1 ++ n :: l2)) -> pc p <> PAborted -> kept (pc p) (payloads p) n n' ->
  Inv sz (mkSys p (l1 ++ n' :: l2)).
Proof.
  intros (Hp & Hl & Hok & Hc) Hpc (Hn & Hrep & Hw & Hr). specialize (Hc Hpc). cbn [pub subs] in *.
  split_and!; [done| | |intros _; cbn [pub subs]].
  - cbn [subs]. rewrite length_app in *. exact Hl.
  - apply Forall_app in Hok as [H1 H2]. apply Forall_cons in H2 as [_ H2]. apply Forall_app. by split; [|constructor].
  - unfold counts_ok in *. rewrite !sum_middle in *. unfold has_pw, has_pr in *. cbn beta in *. rewrite Hw, Hr.
    destruct (counting (pc p)) eqn:E; [rewrite Hrep by done|]; exact Hc.
Qed.

Lemma linked_placed k ds n x y :
  testing k = true -> ok k ds n -> (writer (sends (sub n)) = true \/ reader (sends (sub n)) = true) ->
  ok k ds (mkNode (sub n) (inbox n) (outbox n) (wire n) (back n) x y).
Proof.
  intros Hk (Hpl & Hfr) He. split; [|exact Hfr].
  assert (Hb : bare n -> False).
  { intros (H & _). rewrite H in He. cbn in He. by destruct He. }
  destruct k; cbn [placed testing] in *; try done;
    unfold called, creating in *; destruct Hpl as (H1 & H2 & H3); split_and!; try done; right; tauto.
Qed.

Lemma pub_node_kept sz p l1 n p' n' l2 :
  Inv sz (mkSys p (l1 ++ n :: l2)) -> pc p <> PAborted -> pub_node_step true c p n p' n' ->
  Inv sz (mkSys p' (l1 ++ n' :: l2)).
Proof.
  intros (Hp & Hl & Hok & Hc) Hpc H. specialize (Hc Hpc). cbn [pub subs] in *.
  assert (Hlen : forall m : node, Z.of_nat (length (l1 ++ m :: l2)) = subscribers_ c) by (intros m; rewrite length_app in *; exact Hl).
  apply Forall_app in Hok as [H1 H2]. apply Forall_cons in H2 as [Hn H2].
  assert (Hall : forall m, ok (pc p) (payloads p) m -> Forall (ok (pc p) (payloads p)) (l1 ++ m :: l2))
    by (intros m Hm; apply Forall_app; by split; [|constructor]).
  destruct Hc as (Hc1 & Hc2 & Hc3). rewrite !sum_middle in *.
  destruct H as [p s i o w b y Hwr Hrd|p s i o w b x Hrd Hwr|p s i cmd o w b x y|p s i o w seq b x y bounce now Hlive].
  - assert (Ht : testing (pc p) = true).
    { pose proof (ok_ends _ _ _ Hp Hpc) as E. rewrite E in Hwr. by destruct (testing _). }
    split_and!; [destruct Hp; by constructor|apply Hlen| |intros _].
    + apply Hall. apply (linked_placed _ _ (mkNode s i o w b false y)); [done|done|by right].
    + unfold counts_ok. cbn [pub subs pub_matched set_ends command_msg_count_ pc matched on_matched data_writer data_reader].
      rewrite !sum_middle. unfold has_pw, has_pr, replied in *. cbn [pw pr outbox sub inbox] in *. split_and!; [exact Hc1|lia|exact Hc3].
  - assert (Ht : testing (pc p) = true).
    { pose proof (ok_ends _ _ _ Hp Hpc) as E. rewrite E in Hrd. by destruct (testing _). }
    split_and!; [destruct Hp; by constructor|apply Hlen| |intros _].
    + apply Hall. apply (linked_placed _ _ (mkNode s i o w b x false)); [done|done|by left].
    + unfold counts_ok. cbn [pub subs pub_matched set_ends command_msg_count_ pc matched on_matched data_writer data_reader].
      rewrite !sum_middle. unfold has_pw, has_pr, replied in *. cbn [pw pr outbox sub inbox] in *. split_and!; [exact Hc1|exact Hc2|lia].
  - set (n := mkNode s i (cmd :: o) w b x y) in *. set (n' := mkNode s i o w b x y).
    assert (Ho : outbox n = [] -> False) by done.
    assert (Hs : counting (pc p) = true /\ (cmd = BEGIN \/ cmd = END) /\ o = [] /\ replied n = 0%nat /\ replied n' = 1%nat /\
                 ok (pc p) (payloads p) n').
    { destruct Hn as (Hpl & Hfr).
      assert (Hech : forall ds, echoing ds n -> echoing ds n' /\ cmd = BEGIN /\ o = []).
      { intros ds (E1 & E2 & E3 & E4 & E5 & [E6|E6]); [|done]. cbn in E6. injection E6 as -> ->.
        split; [|done]. split_and!; try done. by right. }
      assert (Hthr : forall ds, through ds n -> through ds n' /\ cmd = END /\ o = []).
      { intros ds (E1 & E2 & E3 & E4 & [E5|E5]); [|done]. cbn in E5. injection E5 as -> ->.
        split; [|done]. split_and!; try done. by right. }
      assert ((counting (pc p) = true /\ echoing (payloads p) n /\ (echoing (payloads p) n' -> placed (pc p) (payloads p) n')) \/
              (counting (pc p) = true /\ through (payloads p) n /\ (through (payloads p) n' -> placed (pc p) (payloads p) n')))
        as [(Hk & He & Hpn)|(Hk & He & Hpn)].
      { destruct (pc p); cbn [placed counting] in *; try done;
          unfold idle, called, creating, matching, stopped, leaving, ending in *; tauto. }
      - destruct (Hech _ He) as (He' & -> & ->). rewrite (replied_echoing _ _ He), (replied_echoing _ _ He').
        split_and!; try done; [by left|split; [by apply Hpn|exact Hfr]].
      - destruct (Hthr _ He) as (He' & -> & ->). rewrite (replied_through _ _ He), (replied_through _ _ He').
        split_and!; try done; [by right|split; [by apply Hpn|exact Hfr]]. }
    destruct Hs as (Hk & Hcmd & -> & Hr0 & Hr1 & Hn').
    assert (Ep : on_command cmd p = set_commands (command_msg_count_ p + 1) p) by (by destruct Hcmd as [-> | ->]).
    rewrite Ep. split_and!; [destruct Hp; by constructor|apply Hlen|by apply Hall|intros _].
    unfold counts_ok. cbn [pub subs set_commands command_msg_count_ pc matched]. rewrite Hk in *. rewrite !sum_middle, Hr1.
    rewrite Hr0 in Hc1. split_and!; [lia|exact Hc2|exact Hc3].
  - assert (Ep : pub_echo c seq bounce now p = set_meas (on_echo c seq bounce now (meas p)) (count p) p)
      by (unfold pub_echo; by rewrite Hlive).
    rewrite Ep. split_and!; [|apply Hlen| |intros _].
    + destruct Hp. by constructor.
    + apply Hall. apply (flow_placed _ _ (mkNode s i o w (seq :: b) x y)); [done|done|by intros [_ ?]].
    + unfold counts_ok. cbn [pub subs set_meas command_msg_count_ pc matched]. rewrite !sum_middle. by split_and!.
Qed.

(** ** Steps of the publisher *)

Lemma send_same p out ws n : ends p = full -> send p out ws n =
  mkNode (sub n) (inbox n ++ out) (outbox n) (wire n ++ ws) (back n) (pw n) (pr n).
Proof. intros E. unfold send. rewrite E. cbn. by rewrite !andb_true_r. Qed.

Lemma send_none p n : ends p = full -> send p [] [] n = n.
Proof. intros E. rewrite send_same, !app_nil_r by done. by destruct n. Qed.

Lemma send_none_all p (ns : list node) : ends p = full -> send p [] [] <$> ns = ns.
Proof. intros E. rewrite <- (list_fmap_id ns) at 2. apply list_fmap_ext. intros. by apply send_none. Qed.

Lemma Forall_send (P Q : node -> Prop) p out ws ns :
  Forall P ns -> (forall n, P n -> Q (send p out ws n)) -> Forall Q (send p out ws <$> ns).
Proof. intros H Himp. apply Forall_fmap. eapply Forall_impl; [exact H|]. exact Himp. Qed.

(** A sample is written while all echo. *)
Lemma send_sample k ds p ws n :
  ends p = full -> k = PSample \/ k = PWait \/ k = PStop -> ok k ds n -> ok k ds (send p [] ws n).
Proof.
  intros E Hk (Hpl & Hfr). rewrite send_same by done. split; [|exact Hfr].
  rewrite app_nil_r. by destruct Hk as [-> |[-> | ->]].
Qed.

Lemma last_count_bound : 0 <= LatencyTest.last_count c < 2 ^ 32 - 1.
Proof using Hlast.
  pose proof (wrapU_range 32 (samples_ c + 1) ltac:(lia)). unfold last_count in *. lia.
Qed.

(** [pub_ok] after a step from [k], with the fields that the step leaves alone *)
Ltac pubok Hp Hpc Epc :=
  let X1 := fresh in let X2 := fresh in let X5 := fresh in let X6 := fresh in
  pose proof (ok_ends _ _ _ Hp Hpc) as X1; pose proof (ok_live _ _ _ Hp Hpc) as X2;
  pose proof (ok_payloads _ _ _ Hp) as X5; pose proof (ok_count _ _ _ Hp) as X6;
  pose proof (ok_cw _ _ _ Hp); pose proof (ok_cr _ _ _ Hp); pose proof (ok_stats _ _ _ Hp);
  rewrite Epc in X1, X2, X5, X6; constructor; cbn; rewrite ?Epc; try done; intros; try done; try lia; auto.

Section PubSteps.
Context (sz : list Z) (p : publisher) (ns : list node) (Hinv : Inv sz (mkSys p ns)) (Hpc : pc p <> PAborted).

Lemma parts :
  pub_ok c sz p /\ Z.of_nat (length ns) = subscribers_ c /\ Forall (ok (pc p) (payloads p)) ns /\ counts_ok p ns.
Proof. destruct Hinv as (H1 & H2 & H3 & H4). by split_and!; [| | |apply H4]. Qed.

(** A step that leaves the subscribers alone *)
Lemma silent_kept p' :
  pub_ok c sz p' -> ends p' = full -> payloads p' = payloads p -> matched p' = matched p -> pc p' <> PAborted ->
  Forall (fun n => ok (pc p) (payloads p) n -> ok (pc p') (payloads p) n) ns ->
  (command_msg_count_ p' = if counting (pc p') then Z.of_nat (sum_list_with replied ns) else 0) ->
  Inv sz (mkSys p' (send p' [] [] <$> ns)).
Proof.
  intros Hp' He Hz Hm Hne Himp Hcnt. destruct parts as (Hp & Hl & Hok & Hc). rewrite send_none_all by done.
  split_and!; [done|done| |intros _].
  - cbn [pub subs]. rewrite Hz. eapply Forall_impl; [apply Forall_and; split; [exact Hok|exact Himp]|].
    cbn. intros n [H1 H2]. by apply H2.
  - destruct Hc as (_ & H2 & H3). unfold counts_ok. cbn [pub subs]. by rewrite Hm.
Qed.

Lemma full_now : testing (pc p) = true -> ends p = full.
Proof. intros H. destruct parts as ([He _ _ _ _ _ _ _] & _). rewrite He by done. by rewrite H. Qed.

Lemma test_kept a p' out ws :
  pc p = PTest -> granted a = true -> pub_step pow c a p = Some (p', out, ws) -> Inv sz (mkSys p' (send p' out ws <$> ns)).
Proof.
  intros Epc Hg H. destruct parts as (Hp & Hl & Hok & Hc1 & Hc2 & Hc3). 
  pose proof (ok_ends _ _ _ Hp Hpc) as He. rewrite Epc in He. cbn in He.
  pose proof (ok_live _ _ _ Hp Hpc) as Hlv. rewrite Epc in Hlv. cbn in Hlv.
  unfold pub_step in H. rewrite Epc in H, Hok, Hc1.
  destruct (payloads p) as [|d ds] eqn:Hz.
  - destruct a; try done. simplify_eq.
    assert (send (goto PDone p) [] [] <$> ns = ns) as ->.
    { rewrite <- (list_fmap_id ns) at 2. apply list_fmap_ext. intros i n Hi. rewrite Forall_lookup in Hok.
      destruct (Hok _ _ Hi) as ((_ & [_ Hb] & [Hx Hy]) & _). unfold send. cbn [ends goto]. rewrite He. cbn.
      rewrite !app_nil_r, !andb_false_r. destruct n; cbn in *; congruence. }
    split_and!; [|done|by cbn; rewrite Hz|intros _; by split_and!].
    destruct Hp. by constructor.
  - destruct (test_begins c a p) as [[p1 out1]|] eqn:Hb; [|done]. simplify_eq/=. unfold test_begins in Hb.
    destruct a as [|cr rdy| | | |]; try done. rewrite Hstatic in Hb. cbn in Hg. apply andb_true_iff in Hg as [Hg ->].
    destruct cr as [[] [] [] [] []]; cbn in Hg; try done. cbn [ends set_meas] in Hb. rewrite He in Hb. cbn -[send] in Hb. simplify_eq.
    split_and!; [| | |intros _].
    + destruct Hp. constructor; try done; cbn. by rewrite Hz.
    + cbn. by rewrite length_fmap.
    + cbn [pub subs pc goto payloads set_meas set_ends]. rewrite Hz. eapply Forall_send; [exact Hok|].
      intros n ((Hi & Hq & Ha) & Hfr). cbn beta. rewrite send_same by done. split; [|exact Hfr].
      split; [done|]. split; [by destruct Hq; split; cbn; [rewrite app_nil_r|]|]. left. split; [left|done].
      destruct Hi as (Hpcs & Hd & Hbr & [Hcm Hin] & Ho). destruct Hpcs as [Hpcs|[_ ?]]; [|done].
      split_and!; try done; [by unfold bare in *; cbn; rewrite app_nil_r|]. left. cbn. by rewrite Hin.
    + unfold counts_ok. cbn [pub subs pc goto set_meas set_ends counting command_msg_count_ matched].
      cbn in Hc1. rewrite (sum_fmap has_pw has_pw), (sum_fmap has_pr has_pr);
        [|apply Forall_true; intros; by rewrite send_same..].
      split_and!; [|done|done]. rewrite (sum_fmap replied (fun _ => 0%nat)); [rewrite sum_zero; [done|by apply Forall_true]|].
      eapply Forall_impl; [exact Hok|]. intros n ((Hi & _) & _). cbn beta. rewrite send_same by done.
      destruct Hi as (_ & _ & _ & [_ Hin] & Ho). unfold replied. cbn. rewrite Ho, Hin. by destruct (spc_ (sub n)).
Qed.

Lemma discovery_kept a p' out ws :
  pc p = PDiscovery -> pub_step pow c a p = Some (p', out, ws) -> Inv sz (mkSys p' (send p' out ws <$> ns)).
Proof.
  intros Epc H. destruct parts as (Hp & Hl & Hok & Hc1 & Hc2 & Hc3). unfold pub_step in H. rewrite Epc in H, Hok, Hc1.
  assert (He : ends p = full) by (apply full_now; by rewrite Epc).
  unfold total_matches, total in H. rewrite Hc2, Hc3, (ok_cw _ _ _ Hp), (ok_cr _ _ _ Hp) in H.
  pose proof (sum_le_length has_pw ns has_pw_le). pose proof (sum_le_length has_pr ns has_pr_le).
  rewrite (proj2 (Z.leb_le 0 _)), (proj2 (Z.leb_le _ _)) in H by lia. cbn [andb] in H.
  destruct (_ =? _) in H; [|done]. simplify_eq.
  apply silent_kept; try done; [pubok Hp Hpc Epc|].
  rewrite Epc. by apply Forall_true.
Qed.

(** Once as many commands are counted as there are subscribers, all have replied. *)
Lemma everyone_replied :
  counting (pc p) = true -> subscribers_ c <= command_msg_count_ p -> Forall (fun n => replied n = 1%nat) ns.
Proof.
  intros Hk Hle. destruct parts as (_ & Hl & _ & Hc1 & _). rewrite Hk in Hc1. apply sum_all; [apply replied_at_most|lia].
Qed.

Lemma begin_kept a p' out ws :
  pc p = PBegin -> pub_step pow c a p = Some (p', out, ws) -> Inv sz (mkSys p' (send p' out ws <$> ns)).
Proof.
  intros Epc H. destruct parts as (Hp & Hl & Hok & Hc1 & Hc2 & Hc3). unfold pub_step in H. rewrite Epc in H.
  destruct (_ <=? _) eqn:Hle in H; [|done]. zbool. simplify_eq.
  assert (He : ends p = full) by (apply full_now; by rewrite Epc).
  assert (Hne : pc p <> PAborted) by done.
  pose proof (everyone_replied ltac:(by rewrite Epc) Hle) as Hall.
  set (k := if 1 <=? LatencyTest.last_count c then PSample else PStop).
  assert (Hk : k = PSample /\ 1 <= LatencyTest.last_count c \/ k = PStop).
  { subst k. destruct (1 <=? _) eqn:E; zbool; auto. }
  apply silent_kept; try done.
  - destruct Hk as [[-> Hk]| ->]; pubok Hp Hpc Epc.
  - cbn. by destruct Hk as [[-> _]| ->].
  - rewrite Forall_forall in *. intros n Hn (Hpl & Hfr). specialize (Hall n Hn). rewrite Epc in Hpl.
    destruct Hpl as (Hnz & _ & Hs). assert (Hg : echoing (payloads p) n /\ outbox n = []).
    { destruct Hs as [[[Hs|Hs] _]|[Hs|Hs]].
      - by rewrite (replied_called _ _ Hs) in Hall.
      - by rewrite (replied_creating _ _ Hs) in Hall.
      - by rewrite (replied_matching _ _ Hs) in Hall.
      - split; [done|]. rewrite (replied_echoing _ _ Hs) in Hall. by destruct (outbox n). }
    split; [|exact Hfr]. cbn. by destruct Hk as [[-> _]| ->].
  - cbn. by destruct Hk as [[-> _]| ->].
Qed.

(** The next sample, or STOP: [p1] is the publisher with its measuring part changed. *)
Lemma next_pub_ok p1 k :
  pub_ok c sz p1 -> pc p1 = k -> (k = PSample \/ k = PWait) -> pub_ok c sz (next_sample c p1).
Proof.
  intros [] Epc Hk. pose proof last_count_bound.
  rewrite next_sample_eq by (rewrite Epc in *; destruct Hk as [-> | ->]; lia). destruct (_ <=? _) eqn:E; zbool; rewrite Epc in *;
    destruct Hk as [-> | ->]; constructor; try done; cbn; try lia; auto.
Qed.

Lemma next_pc p1 : pc (next_sample c p1) = PSample \/ pc (next_sample c p1) = PStop.
Proof. unfold next_sample. cbn. destruct (_ <=? _); auto. Qed.

Lemma echoing_any k k' ds n :
  (k = PSample \/ k = PWait \/ k = PStop) -> (k' = PSample \/ k' = PWait \/ k' = PStop) -> ok k ds n -> ok k' ds n.
Proof. intros [-> |[-> | ->]] [-> |[-> | ->]] H; exact H. Qed.

Lemma next_kept q k :
  (k = PSample \/ k = PWait) -> pc p = k -> pc q = k -> pub_ok c sz q -> ends q = full -> payloads q = payloads p ->
  matched q = matched p -> command_msg_count_ q = 0 ->
  Inv sz (mkSys (next_sample c q) (send (next_sample c q) [] [] <$> ns)).
Proof.
  intros Hk Ep Eq Hq He Hz Hm Hc. pose proof (next_pc q) as Hn. apply silent_kept; try done.
  - by eapply next_pub_ok.
  - by destruct Hn as [-> | ->].
  - apply Forall_true. intros n. rewrite Ep. apply echoing_any; naive_solver.
  - by destruct Hn as [-> | ->].
Qed.

Lemma sample_kept a p' out ws :
  pc p = PSample -> granted a = true -> pub_step pow c a p = Some (p', out, ws) -> Inv sz (mkSys p' (send p' out ws <$> ns)).
Proof.
  intros Epc Hg H. destruct parts as (Hp & Hl & Hok & Hc1 & Hc2 & Hc3). unfold pub_step in H. rewrite Epc in H.
  assert (He : ends p = full) by (apply full_now; by rewrite Epc). rewrite Epc in Hc1. cbn in Hc1.
  destruct a as [| | |loaned wr now| |]; try done. cbn in Hg. subst wr.
  destruct (_ && negb loaned) in H; simplify_eq.
  - apply (next_kept _ PSample); try done; [by left|]. pubok Hp Hpc Epc.
  - split_and!; [pubok Hp Hpc Epc|by cbn; rewrite length_fmap| |intros _].
    + cbn [pub subs]. eapply Forall_send; [exact Hok|]. intros n Hn.
      apply send_sample; [done|cbn; auto|]. rewrite Epc in Hn. exact Hn.
    + unfold counts_ok. cbn [pub subs pc goto set_meas counting command_msg_count_ matched].
      rewrite (sum_fmap has_pw has_pw), (sum_fmap has_pr has_pr); [by split_and!|apply Forall_true; intros; by rewrite send_same..].
Qed.

Lemma wait_kept a p' out ws :
  pc p = PWait -> pub_step pow c a p = Some (p', out, ws) -> Inv sz (mkSys p' (send p' out ws <$> ns)).
Proof.
  intros Epc H. destruct parts as (Hp & Hl & Hok & Hc1 & Hc2 & Hc3). unfold pub_step in H. rewrite Epc in H.
  assert (He : ends p = full) by (apply full_now; by rewrite Epc). rewrite Epc in Hc1. cbn in Hc1.
  destruct (_ || _) in H; [|done]. simplify_eq.
  apply (next_kept _ PWait); try done; [by right|]. pubok Hp Hpc Epc.
Qed.

Lemma stop_kept a p' out ws :
  pc p = PStop -> pub_step pow c a p = Some (p', out, ws) -> Inv sz (mkSys p' (send p' out ws <$> ns)).
Proof.
  intros Epc H. destruct parts as (Hp & Hl & Hok & Hc1 & Hc2 & Hc3). unfold pub_step in H. rewrite Epc in H.
  assert (He : ends p = full) by (apply full_now; by rewrite Epc). rewrite Epc in Hc1. cbn in Hc1. simplify_eq.
  assert (Hst : Forall (fun n => payloads p <> [] /\ ok PEnd (payloads p) (send (goto PEnd p) [STOP] [] n) /\
                       replied (send (goto PEnd p) [STOP] [] n) = 0%nat) ns).
  { eapply Forall_impl; [exact Hok|]. intros n (Hpl & Hfr). cbn beta. rewrite Epc in Hpl.
    destruct Hpl as (Hnz & (H1 & H2 & H3 & H4 & [H5 H6] & _) & H7). rewrite send_same by done.
    assert (Hs : stopped (payloads p) (mkNode (sub n) (inbox n ++ [STOP]) (outbox n) (wire n ++ []) (back n) (pw n) (pr n))).
    { split_and!; try done. left. cbn. by rewrite H6. }
    split_and!; [done|split; [|exact Hfr]; by split; [|left]|by apply (replied_stopped (payloads p))]. }
  split_and!; [pubok Hp Hpc Epc|by cbn; rewrite length_fmap| |intros _].
  - eapply Forall_send; [exact Hst|]. intros n H. apply H.
  - unfold counts_ok. cbn [pub subs pc goto counting command_msg_count_ matched].
    rewrite (sum_fmap has_pw has_pw), (sum_fmap has_pr has_pr); [|apply Forall_true; intros; by rewrite send_same..].
    split_and!; [|done|done]. rewrite (sum_fmap replied (fun _ => 0%nat)); [rewrite sum_zero; [done|by apply Forall_true]|].
    eapply Forall_impl; [exact Hst|]. intros n H. apply H.
Qed.

Lemma end_kept a p' out ws :
  pc p = PEnd -> pub_step pow c a p = Some (p', out, ws) -> Inv sz (mkSys p' (send p' out ws <$> ns)).
Proof.
  intros Epc H. destruct parts as (Hp & Hl & Hok & Hc1 & Hc2 & Hc3). unfold pub_step in H. rewrite Epc in H.
  destruct (_ <=? _) eqn:Hle in H; [|done]. zbool. simplify_eq.
  assert (He : ends p = full) by (apply full_now; by rewrite Epc).
  pose proof (everyone_replied ltac:(by rewrite Epc) Hle) as Hall.
  apply silent_kept; try done; [pubok Hp Hpc Epc|].
  rewrite Forall_forall in *. intros n Hn (Hpl & Hfr). specialize (Hall n Hn). rewrite Epc in Hpl.
  destruct Hpl as (Hnz & Hs). split; [|exact Hfr]. split; [done|].
  destruct Hs as [Hs|[Hs|[Hs|Hs]]].
  - by rewrite (replied_stopped _ _ Hs) in Hall.
  - by rewrite (replied_leaving _ _ Hs) in Hall.
  - by rewrite (replied_ending _ _ Hs) in Hall.
  - split; [done|]. rewrite (replied_through _ _ Hs) in Hall. by destruct (outbox n).
Qed.

Lemma free_kept a p' out ws :
  pc p = PFree -> pub_step pow c a p = Some (p', out, ws) -> Inv sz (mkSys p' (send p' out ws <$> ns)).
Proof.
  intros Epc H. destruct parts as (Hp & Hl & Hok & Hc1 & Hc2 & Hc3). unfold pub_step in H. rewrite Epc in H.
  assert (He : ends p = full) by (apply full_now; by rewrite Epc). rewrite Epc in Hc1. cbn in Hc1. simplify_eq.
  apply silent_kept; try done; [pubok Hp Hpc Epc|].
  rewrite Epc. by apply Forall_true.
Qed.

Lemma analyze_some datasize received times :
  drop_first_and_analyze pow datasize received times = None /\ (length times <= 1)%nat \/
  exists st sorted, drop_first_and_analyze pow datasize received times = Some (st, sorted) /\ bytes_ st = datasize /\
    (2 <= length times)%nat.
Proof.
  destruct times as [|x [|y l]]; [left; split; [done|cbn; lia]..|]. right. do 2 eexists. split; [reflexivity|].
  split; [done|cbn; lia].
Qed.

Lemma destroy_kept a p' out ws :
  pc p = PDestroy -> granted a = true -> pub_step pow c a p = Some (p', out, ws) -> Inv sz (mkSys p' (send p' out ws <$> ns)).
Proof.
  intros Epc Hg H. destruct parts as (Hp & Hl & Hok & Hc1 & Hc2 & Hc3). unfold pub_step in H. rewrite Epc, Hstatic in H.
  assert (He : ends p = full) by (apply full_now; by rewrite Epc). rewrite Epc in Hc1. cbn in Hc1.
  destruct a as [| | | | |d]; try done. destruct d as [[] [] [] [] []]; cbn in Hg; try done.
  rewrite He in H. cbn [destroy_data_endpoints writer reader pub_topic sub_topic negb orb full type_ registered
    delete_writer_ok delete_reader_ok delete_pub_topic_ok delete_sub_topic_ok unregister_ok] in H. simplify_eq.
  destruct Hp as [He' Hlv Hcw Hcr Hpay Hcnt Hst _]. rewrite Epc in Hpay.
  unfold test_ends. cbn [payloads received_count_ times_ meas set_ends].
  destruct (analyze_some (List.hd 0 (payloads p)) (received_count_ (meas p)) (times_ (meas p)))
    as [[-> Hlen]|(st & sorted & -> & Hb & _)].
  - split_and!; [|by cbn; rewrite length_fmap| |done].
    + by constructor.
    + eapply Forall_send; [exact Hok|]. intros n (_ & Hfr). by split.
  - destruct (payloads p) as [|d ds] eqn:Hz; [done|]. cbn [List.hd] in Hb.
    split_and!; [|by cbn; rewrite length_fmap| |intros _].
    + constructor; try done; cbn.
      rewrite Hz. cbn. rewrite <- Hst, fmap_app. cbn. by rewrite Hb, <- app_assoc.
    + cbn [pc next_payload set_ends payloads pub subs]. rewrite Hz. eapply Forall_send; [exact Hok|].
      intros n (Hpl & Hfr). cbn beta. rewrite Epc in Hpl. split; [|exact Hfr].
      destruct Hpl as (_ & (H1 & H2 & H3 & [H4 H5] & _) & H6). unfold send. cbn [ends next_payload set_ends].
      cbn. rewrite !andb_false_r, !app_nil_r. destruct H3 as (B1 & B2 & B3 & Hw). unfold idle, between. cbn.
      destruct H1 as [H1|[H1|[H1 H1']]]; unfold bare; cbn; split_and!; try done; tauto.
    + unfold counts_ok. cbn. split_and!; [done| |].
      * rewrite (sum_fmap has_pw (fun _ => 0%nat)); [by rewrite sum_zero by by apply Forall_true|].
        apply Forall_true. intros n. unfold has_pw, send. cbn. by rewrite andb_false_r.
      * rewrite (sum_fmap has_pr (fun _ => 0%nat)); [by rewrite sum_zero by by apply Forall_true|].
        apply Forall_true. intros n. unfold has_pr, send. cbn. by rewrite andb_false_r.
Qed.

Lemma pub_kept a p' out ws :
  granted a = true -> pub_step pow c a p = Some (p', out, ws) -> Inv sz (mkSys p' (send p' out ws <$> ns)).
Proof.
  intros Hg H.
  assert (Hex : exists k, pc p = k) by eauto. destruct Hex as [k Epc].
  destruct k; eauto using test_kept, discovery_kept, begin_kept, sample_kept, wait_kept, stop_kept, end_kept, free_kept, destroy_kept;
    exfalso; clear - Epc H; unfold pub_step in H; by rewrite Epc in H.
Qed.
End PubSteps.

Lemma step_kept sz s s' : Inv sz s -> sys_step true pow c s s' -> Inv sz s'.
Proof.
  intros Hi Hs. destruct Hs as [p ns a p' out ws Hg H|p l1 n n' l2 Hpc H|p l1 n p' n' l2 Hpc H].
  - eapply pub_kept; [exact Hi| |done|done]. intros E. unfold pub_step in H. by rewrite E in H.
  - eapply alone_kept; [exact Hi|done|]. destruct Hi as (_ & _ & Hok & _). cbn [pub subs] in Hok.
    apply Forall_app in Hok as [_ Hok]. apply Forall_cons in Hok as [Hok _]. by eapply node_placed.
  - by eapply pub_node_kept.
Qed.

Lemma start_kept sz : 0 <= subscribers_ c -> Inv sz (start c sz).
Proof.
  intros H. split_and!; cbn.
  - constructor; try done.
  - rewrite length_replicate. lia.
  - apply Forall_replicate. repeat split; try done. left. by left.
  - intros _. unfold counts_ok. cbn. split_and!; [done| |]; rewrite sum_zero; try done; by apply Forall_replicate.
Qed.

End Runs.
End LatencyRun.
