(* ===== verification/LatencyEnd.v ===== *)
(** Runs of the latency benchmark come to their end: a bound on the steps, no deadlock, the
    state at the end; and what a sample does that comes after its buffer is gone. *)
From stdpp Require Import relations.
From S2P Require Import Prelude Double LatencyTypes Percentile LatencyTest LatencySystem LatencyRun.
Import LatencyTypes Percentile LatencyTest LatencySystem.

Module LatencyEnd.

(** ** The work that is left *)

Section Work.
Context (c : setting).
#[local] Abbreviation L := (Z.to_nat (last_count c)).

(** What the publisher has yet to do: for the current payload, and for the others *)
Definition rest (p : publisher) : nat :=
  let left := (L + 1 - Z.to_nat (count p))%nat in
  match pc p with
  | PTest => if bool_decide (payloads p = []) then 1 else 2 * L + 8
  | PDiscovery => 2 * L + 7
  | PBegin => 2 * L + 6
  | PSample => 2 * left + 5
  | PWait => 2 * left + 4
  | PStop => 5
  | PEnd => 4
  | PFree => 3
  | PDestroy => 2
  | PDone | PAborted => 0
  end%nat.
Definition pub_work (p : publisher) : nat := (length (tail (payloads p)) * (2 * L + 9) + rest p)%nat.

Definition spc_work (k : spc) : nat :=
  match k with
  | SEnded | SCrashed => 0
  | SReady | SStop => 1
  | SDiscovery | SAck => 2
  | SBegin => 5
  | SMatch | SEnd => 6
  | SCreate => 7
  | SDestroy => 9
  | SFree => 10
  end.
Definition open (z : Z) : nat := if z =? 0 then 1 else 0.
Definition sub_work (s : subscriber) : nat :=
  (spc_work (spc_ s) + open (data_writer (smatched s)) + open (data_reader (smatched s)) + 15 * Z.to_nat (commands s))%nat.
Definition node_work (n : node) : nat :=
  (sub_work (sub n) + 20 * length (inbox n) + 3 * length (outbox n) + 3 * length (wire n) + length (back n) +
   (1 - has_pw n) + (1 - has_pr n))%nat.

Definition work (s : system) : nat :=
  (pub_work (pub s) * (22 * length (subs s) + 1) + sum_list_with node_work (subs s))%nat.

Lemma open_le z : (open z <= 1)%nat.
Proof. unfold open. destruct (z =? 0); lia. Qed.

Lemma sub_step_work a s s' out :
  0 <= commands s -> sub_step false a s = Some (s', out) -> (sub_work s' + 3 * length out < sub_work s)%nat.
Proof.
  intros Hc H. unfold sub_step, sub_waits in H. unfold sub_work. pose proof (open_le (data_writer (smatched s))).
  pose proof (open_le (data_reader (smatched s))).
  destruct (spc_ s) eqn:E; cbn [spc_work] in *; try done.
  - destruct (total_matches 4 (smatched s)); [case_match; [|done]|]; simplify_eq; cbn; lia.
  - destruct (sizes s); [|case_match; [done|]]; simplify_eq; cbn; zbool; lia.
  - destruct a as [|cr| | | |]; try done. destruct (init_static_types _ _) as [[] e1]; [destruct (sub_create_data_endpoints _ _) as [[] e2]|];
      simplify_eq; cbn; lia.
  - destruct (total_matches 4 (smatched s)); [case_match; [|done]|]; simplify_eq; cbn; lia.
  - destruct a as [| | |[]| |]; try done; simplify_eq; cbn; lia.
  - case_match; [done|]. simplify_eq. cbn. zbool. lia.
  - simplify_eq. cbn. lia.
  - destruct a as [| | | |d|]; try done. destruct (destroy_data_endpoints _ _) as [[[? e] w] r]. simplify_eq.
    unfold sgoto, sset_ends, reset_matches. cbn [spc_ smatched commands data_writer data_reader length].
    pose proof (open_le (if w then 0 else data_writer (smatched s))). pose proof (open_le (if r then 0 else data_reader (smatched s))).
    destruct (test_status_ s =? -1); cbn [spc_work]; lia.
  - destruct a as [| | |[]| |]; try done; simplify_eq; cbn; lia.
  - destruct a as [| | | | |[]]; try done; simplify_eq; cbn; lia.
Qed.

Lemma keep_wire_le s w : (length (keep_wire s w) <= length w)%nat.
Proof. unfold keep_wire. destruct (reader (sends s)); cbn; lia. Qed.

Lemma ok_commands k ds n : k <> PAborted -> ok k ds n -> 0 <= commands (sub n).
Proof.
  intros Hk (Hpl & _).
  destruct k; cbn [placed] in Hpl; try done;
    unfold idle, called, creating, matching, echoing, stopped, leaving, ending, through, calm, pending in Hpl;
    clear - Hpl; naive_solver lia.
Qed.

Lemma node_step_work pe n n' : 0 <= commands (sub n) -> node_step true pe n n' -> (node_work n' < node_work n)%nat.
Proof.
  intros Hc H. destruct H as
    [a s i o w b x y s' out Hg Hst|cmd s i o w b x y|s i o w b x y _ Hwr Hm|s i o w b x y _ Hrd Hm
    |echo ro ln wo loans s i o seq w b x y s' echoed Hl Hd|s i o seq w b x y|s i o w seq b x y];
    unfold node_work, has_pw, has_pr; cbn [sub inbox outbox wire back pw pr length] in *.
  - pose proof (sub_step_work _ _ _ _ Hc Hst). pose proof (keep_wire_le s' w). rewrite length_app. lia.
  - assert (sub_work (sub_command cmd s) <= sub_work s + 15)%nat; [|lia].
    unfold sub_command. case_bool_decide; [lia|]. unfold sub_work. cbn. lia.
  - unfold sub_work. cbn. rewrite Hm. cbn. lia.
  - unfold sub_work. cbn. rewrite Hm. cbn. lia.
  - assert (s' = s /\ (length echoed <= 1)%nat) as [-> ?].
    { unfold sub_data in Hd. rewrite Hl in Hd by done. cbn in Hd. repeat case_match; simplify_eq; cbn; (split; [done|lia]). }
    rewrite length_app. lia.
  - lia.
  - lia.
Qed.

Lemma pub_node_step_work p n p' n' :
  pub_node_step true c p n p' n' -> (node_work n' < node_work n)%nat /\ pub_work p' = pub_work p.
Proof.
  destruct 1 as [p s i o w b y Hwr Hrd|p s i o w b x Hrd Hwr|p s i cmd o w b x y|p s i o w seq b x y bounce now Hlive];
    unfold node_work, has_pw, has_pr; cbn [sub inbox outbox wire back pw pr length]; split; try lia; try done.
  - unfold pub_work, rest. by destruct cmd.
  - unfold pub_echo. by rewrite Hlive.
Qed.

Lemma send_work p out ws n : (length out + length ws <= 1)%nat -> (node_work (send p out ws n) <= node_work n + 22)%nat.
Proof.
  intros H. unfold node_work, send, has_pw, has_pr. cbn [sub inbox outbox wire back pw pr]. rewrite !length_app.
  assert (length (if reader (ends p) then back n else []) <= length (back n))%nat by (destruct (reader _); cbn; lia).
  destruct (pw n), (pr n), (writer (ends p)), (reader (ends p)); cbn [andb]; lia.
Qed.

Lemma sum_send p out ws ns : (length out + length ws <= 1)%nat ->
  (sum_list_with node_work (send p out ws <$> ns) <= sum_list_with node_work ns + 22 * length ns)%nat.
Proof.
  intros H. induction ns as [|n ns IH]; [done|]. cbn [fmap list_fmap sum_list_with length].
  pose proof (send_work p out ws n H). fold (send p out ws <$> ns). cbn [fmap] in IH. lia.
Qed.

(** A step of the thread of the publisher *)
Lemma pub_step_work pow sz a p p' out ws :
  pub_ok c sz p -> dynamic_types_ c = false -> last_count c <> 2 ^ 32 - 1 -> pub_step pow c a p = Some (p', out, ws) ->
  (pub_work p' < pub_work p)%nat /\ (length out + length ws <= 1)%nat.
Proof.
  intros Hp Hs Hlast H. pose proof (LatencyRun.last_count_bound c Hlast) as HL. pose proof (ok_count _ _ _ Hp) as Hn. pose proof (ok_payloads _ _ _ Hp) as Hz.
  unfold pub_work, rest. unfold pub_step in H.
  destruct (pc p) eqn:E; try done.
  - destruct (payloads p) as [|d ds] eqn:Ez.
    + destruct a; try done. simplify_eq. cbn. rewrite Ez. cbn. split; lia.
    + destruct (test_begins c a p) as [[p1 out1]|] eqn:Hb; [|done]. simplify_eq/=. unfold test_begins in Hb.
      rewrite Hs in Hb. destruct a as [|cr rdy| | | |]; try done.
      repeat case_match; simplify_eq; cbn; rewrite Ez; cbn; split; lia.
  - destruct (total_matches _ _); [case_match; [|done]|]; simplify_eq; cbn; split; lia.
  - case_match; [|done]. simplify_eq. unfold goto, set_commands, set_meas. cbn [pc payloads count].
    split; [|cbn; lia]. destruct (1 <=? last_count c); cbn; lia.
  - destruct a as [| | |loaned wr now| |]; try done. rewrite next_sample_eq in H by (cbn; lia).
    repeat case_match; simplify_eq; cbn in *; zbool; split; lia.
  - rewrite next_sample_eq in H by (cbn; lia). repeat case_match; simplify_eq; cbn in *; zbool; split; lia.
  - simplify_eq. cbn. split; lia.
  - case_match; [|done]. simplify_eq. cbn. split; lia.
  - simplify_eq. cbn. split; lia.
  - rewrite Hs in H. destruct a as [| | | | |d]; try done. destruct (destroy_data_endpoints _ _) as [[[ok e] w] r].
    simplify_eq. split; [|cbn; lia]. destruct ok; [|cbn; lia]. unfold test_ends.
    destruct (drop_first_and_analyze _ _ _ _) as [[st sorted]|]; [|cbn; lia].
    destruct (payloads p) as [|d1 [|d2 ds]] eqn:Ez; [done| |]; cbn [next_payload set_ends payloads pc]; rewrite Ez; cbn; lia.
Qed.
End Work.

(** ** Steps *)

Section Ends.
Context (pow : Double.double -> Double.double -> Double.double) (c : setting) (Hstatic : dynamic_types_ c = false).
Context (Hlast : last_count c <> 2 ^ 32 - 1).

#[local] Abbreviation Inv := (LatencySystem.Inv c).
#[local] Abbreviation step := (sys_step true pow c).

Lemma step_work sz s s' : Inv sz s -> step s s' -> (work c s' < work c s)%nat.
Proof.
  intros (Hp & _ & Hok & _) H. unfold work.
  destruct H as [p ns a p' out ws Hg H|p l1 n n' l2 Hpc H|p l1 n p' n' l2 Hpc H]; cbn [pub subs] in *.
  - destruct (pub_step_work c _ _ _ _ _ _ _ Hp Hstatic Hlast H) as [H1 H2]. pose proof (sum_send p' out ws ns H2).
    rewrite length_fmap. nia.
  - rewrite !sum_middle, !length_app. cbn [length].
    apply Forall_app in Hok as [_ Hok]. apply Forall_cons in Hok as [Hok _].
    pose proof (node_step_work _ _ _ (ok_commands _ _ _ Hpc Hok) H). lia.
  - rewrite !sum_middle, !length_app. cbn [length].
    destruct (pub_node_step_work c _ _ _ _ H) as [H1 ->]. lia.
Qed.

Lemma reach_inv sz s s' : Inv sz s -> rtc step s s' -> Inv sz s'.
Proof. intros Hi H. induction H as [|x y z Hs _ IH]; [done|]. apply IH. by eapply LatencyRun.step_kept. Qed.

Lemma run_work sz k s s' : Inv sz s -> nsteps step k s s' -> (k + work c s' <= work c s)%nat.
Proof.
  intros Hi H. induction H as [|k x y z Hs _ IH]; [lia|]. pose proof (step_work _ _ _ Hi Hs).
  apply (LatencyRun.step_kept pow c Hstatic Hlast _ _ _ Hi) in Hs. specialize (IH Hs). lia.
Qed.

Lemma inv_sn sz s : Inv sz s -> sn step s.
Proof.
  intros Hi. remember (work c s) as k eqn:Hk. revert s Hi Hk. induction (lt_wf k) as [k _ IH]. intros s Hi ->.
  constructor. intros s' Hs. cbn in Hs. eapply IH; [by eapply step_work|by eapply LatencyRun.step_kept|done].
Qed.

(** ** No deadlock *)

(** A subscriber that can move, alone or with a callback of the publisher *)
Definition moves (p : publisher) (n : node) : Prop :=
  (exists n', node_step true (ends p) n n') \/ (exists p' n', pub_node_step true c p n p' n').

Lemma moves_turn a p n s' out :
  sgranted a = true -> sub_step false a (sub n) = Some (s', out) -> moves p n.
Proof. intros Ha H. left. destruct n as [s i o w b x y]. eexists. by eapply node_turn. Qed.

Lemma moves_command p n cmd i : inbox n = cmd :: i -> moves p n.
Proof. intros H. left. destruct n as [s i' o w b x y]. cbn in H. subst. eexists. apply node_command. Qed.

Lemma moves_reply p n cmd : outbox n = [cmd] -> moves p n.
Proof. intros H. right. destruct n as [s i o w b x y]. cbn in H. subst. do 2 eexists. apply pub_command. Qed.

Definition all_created : creation := mkCreation true true true true true.
Definition all_deleted : deletion := mkDeletion true true true true true.

Lemma gathering_moves p ds n :
  ends p = full -> ds <> [] -> command_writer (smatched (sub n)) = 1 -> command_reader (smatched (sub n)) = 1 ->
  gathering ds n -> replied n = 0%nat \/ has_pw n = 0%nat \/ has_pr n = 0%nat -> moves p n.
Proof.
  intros He Hne Hw Hr Hg Hlate.
  assert (Hmeet : sends (sub n) = full -> has_pw n = 0%nat \/ has_pr n = 0%nat -> moves p n).
  { intros Hs Hm. right. destruct n as [s i o w b [] []]; cbn in *; [lia| | |];
      do 2 eexists; [apply pub_match_reader|apply pub_match_writer|apply pub_match_writer]; by rewrite ?He, ?Hs. }
  destruct Hg as [[[H|H] _]|[H|H]].
  - destruct H as (Hp & Hd & (Hb1 & Hb2 & Hb3 & _) & [[Hc Hi]|[Hc Hi]] & Ho); [by eapply moves_command|].
    pose proof (waits_eq 2 SReady _ 0 0 Hw Hr Hb2 Hb3 ltac:(lia) ltac:(lia)) as Hwait.
    destruct Hp as [Hp|[Hp|Hp]].
    + apply (moves_turn SNothing _ _ (sgoto SReady (sub n)) []); [done|]. unfold sub_step. by rewrite Hp, Hwait.
    + apply (moves_turn SNothing _ _ (sgoto SCreate (sset_commands 0 (test_status_ (sub n)) (sub n))) []); [done|].
      unfold sub_step. rewrite Hp, Hd, Hc. by destruct ds.
    + eapply (moves_turn (SAcknowledged true)); [done|]. unfold sub_step. by rewrite Hp.
  - destruct H as (Hp & _ & (Hb & _) & _). eapply (moves_turn (SCreates all_created)); [done|].
    unfold sub_step. by rewrite Hp, Hb.
  - destruct H as ([Hp|[Hp _]] & Hd & (Hs & _) & Hfw & Hfr & Hc & Ho).
    + destruct n as [s i o w b x y]. cbn in *.
      destruct Hfw as [Hf|Hf]; [left; eexists; apply node_match_writer; by rewrite ?He, ?Hs|].
      destruct Hfr as [Hf'|Hf']; [left; eexists; apply node_match_reader; by rewrite ?He, ?Hs|].
      apply (moves_turn SNothing _ _ (sgoto SBegin s) []); [done|]. unfold sub_step. cbn. rewrite Hp.
      by rewrite (waits_eq _ _ _ 1 1) by (done || lia).
    + eapply (moves_turn (SWrites true)); [done|]. unfold sub_step. by rewrite Hp.
  - pose proof (replied_echoing _ _ H) as Hrep. destruct H as (_ & _ & [Hs _] & _ & _ & Ho).
    destruct Hlate as [Hlate|Hlate]; [|by apply Hmeet].
    destruct Ho as [Ho|Ho]; rewrite Ho in Hrep; [by eapply moves_reply|by rewrite Hrep in Hlate].
Qed.

Lemma parting_moves p ds n : parting ds n -> replied n = 0%nat -> moves p n.
Proof.
  intros [H|[H|[H|H]]] Hlate.
  - destruct H as (Hp & _ & _ & _ & [[Hc Hi]|[Hc Hi]] & Ho); [by eapply moves_command|].
    eapply (moves_turn SNothing); [done|]. unfold sub_step. by rewrite Hp, Hc.
  - destruct H as ([Hp|Hp] & _).
    + eapply (moves_turn SNothing); [done|]. unfold sub_step. by rewrite Hp.
    + destruct (destroy_data_endpoints all_deleted (sends (sub n))) as [[[? e] w] r] eqn:E.
      eapply (moves_turn (SDeletes all_deleted)); [done|]. unfold sub_step. by rewrite Hp, E.
  - destruct H as (Hp & _). eapply (moves_turn (SWrites true)); [done|]. unfold sub_step. by rewrite Hp.
  - rewrite (replied_through _ _ H) in Hlate. destruct H as (_ & _ & _ & _ & [Ho|Ho]); rewrite Ho in Hlate; [|done].
    by eapply moves_reply.
Qed.

Lemma idle_moves p n :
  command_writer (smatched (sub n)) = 1 -> command_reader (smatched (sub n)) = 1 ->
  idle [] n -> spc_ (sub n) <> SEnded -> moves p n.
Proof.
  intros Hw Hr (Hp & Hd & (Hb1 & Hb2 & Hb3 & _) & _) Hne.
  pose proof (waits_eq 2 SReady _ 0 0 Hw Hr Hb2 Hb3 ltac:(lia) ltac:(lia)) as Hwait.
  destruct Hp as [[Hp|[Hp|Hp]]|[Hp _]]; [| | |done].
  - apply (moves_turn SNothing _ _ (sgoto SReady (sub n)) []); [done|]. unfold sub_step. by rewrite Hp, Hwait.
  - eapply (moves_turn SNothing); [done|]. unfold sub_step. by rewrite Hp, Hd.
  - eapply (moves_turn (SAcknowledged true)); [done|]. unfold sub_step. by rewrite Hp.
Qed.

Lemma moves_step p l1 n l2 : pc p <> PAborted -> moves p n -> exists s', step (mkSys p (l1 ++ n :: l2)) s'.
Proof.
  intros Hpc [[n' H]|(p' & n' & H)].
  - eexists. by apply step_node.
  - eexists. by apply step_both.
Qed.

Lemma turn_step a p ns r : granted a = true -> pub_step pow c a p = Some r -> exists s', step (mkSys p ns) s'.
Proof. destruct r as [[p' out] ws]. intros Ha H. eexists. by eapply step_pub. Qed.

Definition finished (s : system) : Prop := pc (pub s) = PDone /\ Forall (fun n => spc_ (sub n) = SEnded) (subs s).

Definition linked (n : node) : nat := if pw n && pr n then 1 else 0.
Lemma linked_at_most n : (linked n <= 1)%nat.
Proof. unfold linked. destruct (_ && _); lia. Qed.

(** One of the subscribers moves when [f] is short of their number, and the publisher when not. *)
Lemma short_moves (f : node -> nat) p ns a :
  (forall n, f n <= 1)%nat -> pc p <> PAborted -> granted a = true ->
  Forall (fun n => f n = 0%nat -> moves p n) ns ->
  (sum_list_with f ns = length ns -> is_Some (pub_step pow c a p)) ->
  exists s', step (mkSys p ns) s'.
Proof.
  intros Hf Hpc Ha Hm Hp. destruct (decide (sum_list_with f ns < length ns)%nat) as [Hlt|Hge].
  - destruct (sum_short f ns Hlt) as (l1 & n & l2 & -> & Hn). apply moves_step; [done|].
    apply Forall_app in Hm as [_ Hm]. apply Forall_cons in Hm as [Hm _]. auto.
  - pose proof (sum_le_length f ns Hf). destruct Hp as [r Hr]; [lia|]. by eapply turn_step.
Qed.

Lemma latency_progress sz s : Inv sz s -> pc (pub s) <> PAborted -> finished s \/ exists s', step s s'.
Proof.
  destruct s as [p ns]. intros Hinv Hpc. cbn [pub] in Hpc.
  destruct (LatencyRun.parts c sz p ns Hinv Hpc) as (Hp & Hl & Hok & Hc1 & Hc2 & Hc3).
  pose proof (ok_ends _ _ _ Hp Hpc) as He. pose proof (ok_payloads _ _ _ Hp) as Hz.
  assert (Hex : exists k, pc p = k) by eauto. destruct Hex as [k Epc]. rewrite Epc in Hok, Hc1, He, Hz.
  destruct k; cbn [testing counting] in *; try done.
  - right. destruct (payloads p) as [|d ds] eqn:Ez.
    + eapply (turn_step Nothing); [done|]. unfold pub_step. by rewrite Epc, Ez.
    + eapply (turn_step (Creates all_created true)); [done|]. unfold pub_step, test_begins.
      rewrite Epc, Ez, Hstatic. cbn [ends set_meas]. by rewrite He.
  - right. apply (short_moves linked _ _ Nothing linked_at_most); try done.
    + eapply Forall_impl; [exact Hok|]. cbn beta. intros n ((Hne & _ & Hg) & Hw & Hr & _) Hs.
      eapply gathering_moves; [done|exact Hne|done|done|exact Hg|]. right.
      destruct n as [? ? ? ? ? [] []]; cbn in *; auto.
    + intros Hs. assert (sum_list_with has_pw ns = length ns /\ sum_list_with has_pr ns = length ns) as [E1 E2].
      { assert (Hall : Forall (fun n => linked n = 1%nat) ns) by (apply sum_all; [apply linked_at_most|lia]).
        clear - Hall. unfold linked, has_pw, has_pr. induction Hall as [|n ns H _ [IH1 IH2]]; [done|].
        destruct n as [? ? ? ? ? [] []]; cbn in *; lia. }
      unfold pub_step. rewrite Epc. unfold total_matches, total.
      rewrite Hc2, Hc3, (ok_cw _ _ _ Hp), (ok_cr _ _ _ Hp), E1, E2, Hl.
      rewrite (proj2 (Z.leb_le 0 _)), (proj2 (Z.leb_le _ _)) by lia. cbn [andb].
      rewrite (proj2 (Z.eqb_eq _ _)) by lia. by eexists.
  - right. apply (short_moves replied _ _ Nothing LatencyRun.replied_at_most); try done.
    + eapply Forall_impl; [exact Hok|]. cbn beta. intros n ((Hne & _ & Hg) & Hw & Hr & _) Hs.
      eapply gathering_moves; [done|exact Hne|done|done|exact Hg|auto].
    + intros Hs. unfold pub_step. rewrite Epc, (proj2 (Z.leb_le _ _)) by lia. by eexists.
  - right. destruct (pub_step pow c (Writes true true 0) p) as [r|] eqn:E; [by apply (turn_step (Writes true true 0) _ _ r)|].
    exfalso. unfold pub_step in E. rewrite Epc in E. by destruct (_ && _) in E.
  - right. eapply (turn_step TimesOut); [done|]. unfold pub_step. rewrite Epc, orb_true_r. done.
  - right. eapply (turn_step Nothing); [done|]. unfold pub_step. by rewrite Epc.
  - right. apply (short_moves replied _ _ Nothing LatencyRun.replied_at_most); try done.
    + eapply Forall_impl; [exact Hok|]. cbn beta. intros n ((_ & Hg) & _) Hs. by eapply parting_moves.
    + intros Hs. unfold pub_step. rewrite Epc, (proj2 (Z.leb_le _ _)) by lia. by eexists.
  - right. eapply (turn_step Nothing); [done|]. unfold pub_step. by rewrite Epc.
  - right. destruct (pub_step pow c (Deletes all_deleted) p) as [r|] eqn:E; [by apply (turn_step (Deletes all_deleted) _ _ r)|].
    exfalso. unfold pub_step in E. rewrite Epc, Hstatic in E. by destruct (destroy_data_endpoints _ _) as [[[? ?] ?] ?].
  - destruct (decide (Forall (fun n => spc_ (sub n) = SEnded) ns)) as [Hall|Hnot]; [by left|]. right.
    apply not_Forall_Exists in Hnot; [|intros n; apply spc_eq_dec]. apply Exists_exists in Hnot as (n & Hin & Hn).
    apply list_elem_of_split in Hin as (l1 & l2 & ->). apply moves_step; [done|].
    apply Forall_app in Hok as [_ Hok]. apply Forall_cons in Hok as [((Hi & _) & Hw & Hr & _) _].
    rewrite Hz in Hi. by apply idle_moves.
Qed.
End Ends.

(** ** What is shown of a run *)


Definition two : setting := mkSetting 2 3 false false (Double.of_int 0).


(** the number of steps of a run is bounded by payloads, samples and subscribers. *)
Theorem latency_steps_bounded pow c sz k s :
  0 <= subscribers_ c -> dynamic_types_ c = false -> last_count c <> 2 ^ 32 - 1 -> nsteps (sys_step true pow c) k (start c sz) s ->
  Z.of_nat k <= (Z.of_nat (length sz) * (2 * last_count c + 9) + 1) * (22 * subscribers_ c + 1) + 6 * subscribers_ c.
Proof.
  intros Hn Hs Hlast Hr. pose proof (run_work pow c Hs Hlast sz k _ _ (LatencyRun.start_kept c sz Hn) Hr) as H.
  assert (HL : 0 <= last_count c) by (apply wrapU_range; lia).
  assert (Hp : (pub_work c (start_pub c sz) <= length sz * (2 * Z.to_nat (last_count c) + 9) + 1)%nat).
  { unfold pub_work, rest. destruct sz as [|d ds]; cbn [start_pub pc payloads tail length]; [done|].
    case_bool_decide; lia. }
  assert (Hw : forall m, sum_list_with node_work (replicate m (mkNode (start_sub sz) [] [] [] [] false false)) = (6 * m)%nat).
  { induction m as [|m IH]; [done|]. cbn [replicate sum_list_with]. rewrite IH. unfold node_work, sub_work. cbn. lia. }
  unfold work in H. cbn [pub subs start] in H. rewrite Hw, length_replicate in H. nia.
Qed.

(** What can go wrong: a sample reaches a subscriber that has deleted the buffer it is read into and
    not yet the reader, or an echo such a publisher. *)
Definition late_sample (s s' : system) : Prop :=
  pc (pub s) = PEnd /\ exists l1 n seq w n' l2, subs s = l1 ++ n :: l2 /\ wire n = seq :: w /\
    (spc_ (sub n) = SFree \/ spc_ (sub n) = SDestroy) /\ sample_live (sub n) = false /\
    s' = mkSys (pub s) (l1 ++ n' :: l2) /\ spc_ (sub n') = SCrashed.
Definition late_echo (s s' : system) : Prop :=
  pc (pub s) = PDestroy /\ (exists n seq b, n ∈ subs s /\ back n = seq :: b) /\ pc (pub s') = PAborted.

Lemma sample_without_buffer k ds n seq w :
  k <> PAborted -> ok k ds n -> sample_live (sub n) = false -> wire n = seq :: w ->
  k = PEnd /\ (spc_ (sub n) = SFree \/ spc_ (sub n) = SDestroy).
Proof.
  intros Hk (Hpl & _) Hl Hw.
  assert (Hb : bare n -> False) by (intros (_ & _ & _ & E); congruence).
  assert (Hq : quiet n -> False) by (intros [E _]; congruence).
  assert (Ha : armed n -> False) by (intros [_ E]; congruence).
  destruct k; cbn [placed] in Hpl; try done;
    unfold idle, called, creating, matching, echoing, stopped, leaving, ending, through in Hpl; tauto.
Qed.

Lemma step_prompt_or_late pow c sz s s' :
  Inv c sz s -> sys_step false pow c s s' -> sys_step true pow c s s' \/ late_sample s s' \/ late_echo s s'.
Proof.
  intros (Hp & _ & Hok & _) H. destruct H as [p ns a p' out ws Hg H|p l1 n n' l2 Hpc H|p l1 n p' n' l2 Hpc H]; cbn [pub subs] in *.
  - left. by eapply step_pub.
  - apply Forall_app in Hok as [_ Hok]. apply Forall_cons in Hok as [Hok _].
    assert (Hn : node_step true (ends p) n n' \/ late_sample (mkSys p (l1 ++ n :: l2)) (mkSys p (l1 ++ n' :: l2))).
    { destruct H as
        [a s i o w b x y s' out Hg Hst|cmd s i o w b x y|s i o w b x y Hpe Hwr Hm|s i o w b x y Hpe Hrd Hm
        |echo ro ln wo loans s i o seq w b x y s' echoed _ Hd|s i o seq w b x y|s i o w seq b x y];
        try (left; by econstructor).
      destruct (sample_live s) eqn:Hl; [left; by eapply node_data|].
      unfold sub_data in Hd. rewrite Hl in Hd. cbn [negb] in Hd.
      destruct (loans && negb echo); simplify_eq; [left; rewrite app_nil_r; apply node_lose_sample|].
      right. destruct (sample_without_buffer _ _ _ seq w Hpc Hok Hl eq_refl) as [Hk Hs].
      split; [done|]. do 6 eexists. split_and!; try done. }
    destruct Hn as [Hn|Hn]; [left; by apply step_node|auto].
  - assert (Hin : n ∈ l1 ++ n :: l2) by (apply elem_of_app; right; left).
    apply Forall_app in Hok as [_ Hok]. apply Forall_cons in Hok as [(Hpl & _) _].
    destruct H as [p s i o w b y Hwr Hrd|p s i o w b x Hrd Hwr|p s i cmd o w b x y|p s i o w seq b x y bounce now _];
      try (left; apply step_both; [done|by constructor]).
    destruct (samples_live p) eqn:Hl; [left; apply step_both; [done|by constructor]|]. right. right.
    pose proof (ok_live _ _ _ Hp Hpc) as E. rewrite Hl in E.
    assert (Hb : quiet (mkNode s i o w (seq :: b) x y) -> False) by (by intros [_ ?]).
    split; [|split; [by exists (mkNode s i o w (seq :: b) x y), seq, b|cbn; unfold pub_echo; by rewrite Hl]].
    cbn [pub]. destruct (pc p); cbn [placed live] in *; try done; tauto.
Qed.


(** ** A sample that comes late *)

(** The step of the thread of the only subscriber, and a callback for it *)
Definition one : setting := mkSetting 1 0 false false (Double.of_int 0).

Section Late.
Context (pow : Double.double -> Double.double -> Double.double).

Lemma alone_pub a p n p' out ws s' :
  granted a = true -> pub_step pow one a p = Some (p', out, ws) ->
  rtc (sys_step true pow one) (mkSys p' [send p' out ws n]) s' -> rtc (sys_step true pow one) (mkSys p [n]) s'.
Proof. intros Ha H. apply rtc_l. by apply (step_pub true pow one p [n] a). Qed.

Lemma alone_node p n n' s' :
  pc p <> PAborted -> node_step true (ends p) n n' ->
  rtc (sys_step true pow one) (mkSys p [n']) s' -> rtc (sys_step true pow one) (mkSys p [n]) s'.
Proof. intros Ha H. apply rtc_l. by apply (step_node true pow one p [] n n' []). Qed.

Lemma alone_both p n p' n' s' :
  pc p <> PAborted -> pub_node_step true one p n p' n' ->
  rtc (sys_step true pow one) (mkSys p' [n']) s' -> rtc (sys_step true pow one) (mkSys p [n]) s'.
Proof. intros Ha H. apply rtc_l. by apply (step_both true pow one p [] n p' n' []). Qed.

Ltac norm := match goal with |- rtc ?R ?x ?y => let x' := eval vm_compute in x in change (rtc R x' y) end.
Ltac pub_turn a := eapply (alone_pub a); [reflexivity|vm_compute; reflexivity|norm].
Ltac sub_moves lem := eapply alone_node; [done|eapply lem; vm_compute; reflexivity|norm].
Ltac sub_turn a := sub_moves (fun pr pe => node_turn pr pe a).
Ltac commanded := sub_moves node_command.
Ltac pub_moves lem := eapply alone_both; [done|eapply lem; vm_compute; reflexivity|norm].

(** C35: a sample of which the publisher has stopped to wait for the echo can reach a subscriber
    that has deleted the buffer it is read into and not yet the reader: whatever the answers
    of the library, the callback then writes into freed memory, unless samples are loaned and
    not echoed. *)
Theorem late_sample_is_fatal :
  exists s n seq, rtc (sys_step true pow one) (start one [16]) s /\ subs s = [n] /\
    wire n = [seq] /\ reader (sends (sub n)) = true /\ spc_ (sub n) = SDestroy /\
    forall echo return_ok loaned write_ok loans, loans = false \/ echo = true ->
      spc_ (fst (sub_data echo return_ok loaned write_ok loans seq (sub n))) = SCrashed.
Proof.
  do 3 eexists. split.
  - unfold start. cbn [subscribers_ one Z.to_nat Pos.to_nat Pos.iter_op replicate].
    pub_turn (Creates all_created true). sub_turn SNothing. commanded. sub_turn SNothing. sub_turn (SCreates all_created).
    sub_moves node_match_writer. sub_moves node_match_reader.
    sub_turn SNothing. sub_turn (SWrites true).
    pub_moves pub_match_writer. pub_moves pub_match_reader.
    pub_turn Nothing. pub_moves pub_command. pub_turn Nothing.
    pub_turn (Writes true true 0). pub_turn TimesOut. pub_turn Nothing. commanded.
    sub_turn SNothing. sub_turn SNothing. apply rtc_refl.
  - split; [reflexivity|]. split; [reflexivity|]. split; [reflexivity|]. split; [reflexivity|].
    by intros [] ro ln wo [] [H|H].
Qed.

(** an echo that the library still has when the test is over can reach the publisher between its two
    deletions, and is then written into freed memory as well. *)
Theorem late_echo_is_fatal :
  exists t t', rtc (sys_step true pow one) (start one [16]) t /\ sys_step false pow one t t' /\ late_echo t t'.
Proof.
  do 2 eexists. split.
  - unfold start. cbn [subscribers_ one Z.to_nat Pos.to_nat Pos.iter_op replicate].
    pub_turn (Creates all_created true). sub_turn SNothing. commanded. sub_turn SNothing. sub_turn (SCreates all_created).
    sub_moves node_match_writer. sub_moves node_match_reader.
    sub_turn SNothing. sub_turn (SWrites true).
    pub_moves pub_match_writer. pub_moves pub_match_reader.
    pub_turn Nothing. pub_moves pub_command. pub_turn Nothing.
    pub_turn (Writes true true 0).
    eapply alone_node; [done|apply (node_data true _ true true true true false); [done|vm_compute; reflexivity]|norm].
    pub_turn TimesOut. pub_turn Nothing. commanded.
    sub_turn SNothing. sub_turn SNothing. sub_turn (SDeletes all_deleted). sub_turn (SWrites true). pub_moves pub_command.
    pub_turn Nothing. pub_turn Nothing. apply rtc_refl.
  - split.
    + eapply (step_both false pow one _ [] _ _ _ []); [done|]. by eapply (pub_takes_echo false one _ _ _ _ _ _ _ _ _ 0 0).
    + split; [reflexivity|]. split; [|reflexivity]. do 3 eexists. split; [left|reflexivity].
Qed.
End Late.

Lemma latency_steps_bounded_witness :
  Z.of_nat 1 <= (Z.of_nat (length [16]) * (2 * last_count one + 9) + 1) * (22 * subscribers_ one + 1) + 6 * subscribers_ one.
Proof.
  eapply (latency_steps_bounded (fun x _ => x) one [16] 1); [vm_compute; discriminate|reflexivity|discriminate|].
  apply nsteps_once. eapply (step_pub _ _ _ _ _ (Creates all_created true)); reflexivity.
Defined.

End LatencyEnd.
