(* ===== verification/SmartPtr.v ===== *)
(** The reference-counted pointer of the proxy example
    ([src/design_mode/proxy/proxydemo.cpp]): [KRefCount] and [SmartPtr<T>]. *)
From S2P Require Import Prelude Heap.

Module SmartPtr.

(** Objects and counters are blocks of one cell in heaps of their own types; [m_nCount] is an
    [std::atomic<unsigned long>]. *)
Record SmartPtr := mkSmart {
  m_pReference : ptr;
  m_pData : ptr;
}.

Section Model.
Context {T : Type}.

(** The pointers that exist, by name, and the plain pointers [T*] that own an object *)
Record state := mkState {
  data : heap T;
  counts : heap Z;
  smarts : gmap nat SmartPtr;
  raws : gmap nat nat;
}.
Definition init : state := mkState empty_heap empty_heap ∅ ∅.

Definition set_data (h : heap T) (s : state) : state := mkState h (counts s) (smarts s) (raws s).
Definition set_counts (h : heap Z) (s : state) : state := mkState (data s) h (smarts s) (raws s).
Definition set_smart (i : nat) (o : SmartPtr) (s : state) : state :=
  mkState (data s) (counts s) (<[i := o]> (smarts s)) (raws s).

(** ** [KRefCount] *)

(** [AddRef] and [Release] return an [unsigned], of 32 bits. *)
Definition AddRef (r : ptr) (s : state) : option (Z * state) :=
  c ← load r 0 (counts s);
  let c := wrapU 64 (c + 1) in
  h ← store r 0 c (counts s);
  Some (wrapU 32 c, set_counts h s).
Definition Release (r : ptr) (s : state) : option (Z * state) :=
  c ← load r 0 (counts s);
  let c := wrapU 64 (c - 1) in
  h ← store r 0 c (counts s);
  Some (wrapU 32 c, set_counts h s).
Definition Reset (r : ptr) (s : state) : option state :=
  h ← store r 0 0 (counts s);
  Some (set_counts h s).
(** [new KRefCount()] *)
Definition new_count (s : state) : ptr * state :=
  let '(a, h) := alloc [0] (counts s) in (Some a, set_counts h s).

(** ** [SmartPtr] *)

(** What the destructor, both assignments and [Attach] begin with; [SAFE_DELETE] frees what is
    not null. *)
Definition release (o : SmartPtr) (s : state) : option state :=
  match m_pReference o with
  | None => Some s
  | r =>
      '(n, s1) ← Release r s;
      if n =? 0
      then d ← free (m_pData o) (data s1); h ← free r (counts s1); Some (set_counts h (set_data d s1))
      else Some s1
  end.

(** A counter of one's own, for [p] *)
Definition own (i : nat) (p : ptr) (s : state) : option state :=
  let '(r, s1) := new_count s in
  '(_, s2) ← AddRef r s1;
  Some (set_smart i (mkSmart r p) s2).

Definition construct (i : nat) (s : state) : option state := own i None s.
Definition construct_raw (i : nat) (p : ptr) (s : state) : option state := own i p s.
Definition construct_copy (i j : nat) (s : state) : option state :=
  sp ← smarts s !! j;
  '(_, s1) ← AddRef (m_pReference sp) s;
  Some (set_smart i sp s1).

(** [~SmartPtr] *)
Definition destroy (i : nat) (s : state) : option state :=
  o ← smarts s !! i;
  s1 ← release o s;
  Some (mkState (data s1) (counts s1) (delete i (smarts s1)) (raws s1)).

(** The assignments: of another one, and of a plain pointer; the second does as [Attach]. *)
Definition assign (i j : nat) (s : state) : option state :=
  o ← smarts s !! i;
  if (i =? j)%nat then Some s
  else
    s1 ← release o s;
    sp ← smarts s1 !! j;
    '(_, s2) ← AddRef (m_pReference sp) s1;
    Some (set_smart i sp s2).
Definition assign_raw (i : nat) (p : ptr) (s : state) : option state :=
  o ← smarts s !! i;
  s1 ← release o s;
  own i p s1.
Definition Attach : nat -> ptr -> state -> option state := assign_raw.

Definition Get (i : nat) (s : state) : option ptr := m_pData <$> smarts s !! i.

Definition Detach (i : nat) (s : state) : option (ptr * state) :=
  o ← smarts s !! i;
  match m_pData o with
  | None => Some (None, s)
  | p =>
      s1 ← Reset (m_pReference o) (set_smart i (mkSmart (m_pReference o) None) s);
      Some (p, s1)
  end.

(** [*p] and [*p = x] *)
Definition deref (i : nat) (s : state) : option T := o ← smarts s !! i; load (m_pData o) 0 (data s).
Definition write (i : nat) (x : T) (s : state) : option state :=
  o ← smarts s !! i; d ← store (m_pData o) 0 x (data s); Some (set_data d s).

(** ** Programs *)

(** [New] is [T* r = new T(x)]; a plain pointer is given away by what takes it. *)
Inductive stmt :=
| New (r : nat) (x : T) | Delete (r : nat)
| Default (i : nat) | Construct (i r : nat) | Copy (i j : nat) | Destroy (i : nat)
| Assign (i j : nat) | AssignRaw (i r : nat) | AttachRaw (i r : nat)
| Read (i : nat) | Write (i : nat) (x : T) | IsNull (i : nat).

Inductive answer := Done | Value (x : T) | Null (b : bool).

Definition take_raw (r : nat) (s : state) : option (ptr * state) :=
  a ← raws s !! r;
  Some (Some a, mkState (data s) (counts s) (smarts s) (delete r (raws s))).

Definition done_ (s : option state) : option (answer * state) := s' ← s; Some (Done, s').

Definition exec (c : stmt) (s : state) : option (answer * state) :=
  match c with
  | New r x =>
      let '(a, h) := alloc [x] (data s) in
      Some (Done, mkState h (counts s) (smarts s) (<[r := a]> (raws s)))
  | Delete r => '(p, s1) ← take_raw r s; h ← free p (data s1); Some (Done, set_data h s1)
  | Default i => done_ (construct i s)
  | Construct i r => '(p, s1) ← take_raw r s; done_ (construct_raw i p s1)
  | Copy i j => done_ (construct_copy i j s)
  | Destroy i => done_ (destroy i s)
  | Assign i j => done_ (assign i j s)
  | AssignRaw i r => '(p, s1) ← take_raw r s; done_ (assign_raw i p s1)
  | AttachRaw i r => '(p, s1) ← take_raw r s; done_ (Attach i p s1)
  | Read i => x ← deref i s; Some (Value x, s)
  | Write i x => done_ (write i x s)
  | IsNull i => p ← Get i s; Some (Null (bool_decide (p = None)), s)
  end.

Fixpoint exec_all (cs : list stmt) (s : state) : option (list answer * state) :=
  match cs with
  | [] => Some ([], s)
  | c :: cs => '(r, s1) ← exec c s; '(rs, s2) ← exec_all cs s1; Some (r :: rs, s2)
  end.

(** ** Without counters

    A pointer is a member of a group; a group, or a plain pointer, may have a value.  The last
    member that leaves a group takes its value along. *)
Record groups := mkGroups {
  members : gmap nat nat;
  values : gmap (nat + nat) T;
  next : nat;
}.
Definition no_groups : groups := mkGroups ∅ ∅ 0.

Definition holders (g : nat) (m : gmap nat nat) : nat := size (filter (fun p => p.2 = g) m).

Definition leave (i : nat) (v : groups) : option groups :=
  g ← members v !! i;
  let m := delete i (members v) in
  Some (mkGroups m (if bool_decide (holders g m = 0%nat) then delete (inl g) (values v) else values v) (next v)).
Definition join (i g : nat) (v : groups) : groups := mkGroups (<[i := g]> (members v)) (values v) (next v).
(** [i] alone in a new group *)
Definition found (i : nat) (x : option T) (v : groups) : groups :=
  mkGroups (<[i := next v]> (members v))
    (match x with Some x => <[inl (next v) := x]> (values v) | None => values v end) (S (next v)).
Definition take_value (r : nat) (v : groups) : option (T * groups) :=
  x ← values v !! inr r; Some (x, mkGroups (members v) (delete (inr r) (values v)) (next v)).

(** A name that is free, with fewer than 2^32 pointers in all *)
Definition room (i : nat) (v : groups) : bool :=
  bool_decide (members v !! i = None) && (Z.of_nat (size (members v)) <? 2 ^ 32).

Definition spec (c : stmt) (v : groups) : option (answer * groups) :=
  match c with
  | New r x =>
      match values v !! inr r with
      | Some _ => None
      | None => Some (Done, mkGroups (members v) (<[inr r := x]> (values v)) (next v))
      end
  | Delete r => '(_, v1) ← take_value r v; Some (Done, v1)
  | Default i => if room i v then Some (Done, found i None v) else None
  | Construct i r =>
      '(x, v1) ← take_value r v; if room i v then Some (Done, found i (Some x) v1) else None
  | Copy i j => g ← members v !! j; if room i v then Some (Done, join i g v) else None
  | Destroy i => v1 ← leave i v; Some (Done, v1)
  | Assign i j =>
      _ ← members v !! i;
      g ← members v !! j;
      if (i =? j)%nat then Some (Done, v) else v1 ← leave i v; Some (Done, join i g v1)
  | AssignRaw i r | AttachRaw i r =>
      '(x, v1) ← take_value r v; v2 ← leave i v1; Some (Done, found i (Some x) v2)
  | Read i => g ← members v !! i; x ← values v !! inl g; Some (Value x, v)
  | Write i x =>
      g ← members v !! i; _ ← values v !! inl g;
      Some (Done, mkGroups (members v) (<[inl g := x]> (values v)) (next v))
  | IsNull i => g ← members v !! i; Some (Null (bool_decide (values v !! inl g = None)), v)
  end.

Fixpoint spec_all (cs : list stmt) (v : groups) : option (list answer * groups) :=
  match cs with
  | [] => Some ([], v)
  | c :: cs => '(r, v1) ← spec c v; '(rs, v2) ← spec_all cs v1; Some (r :: rs, v2)
  end.

(** ** The representation: a group is its counter, [dp] where its object is. *)
Record rel_at (dp : gmap (nat + nat) nat) (s : state) (v : groups) : Prop := {
  r_smarts : forall i, smarts s !! i = (fun g => mkSmart (Some g) (dp !! inl g)) <$> members v !! i;
  r_raws : forall r, raws s !! r = dp !! inr r;
  r_data : forall k, option_Forall2 (fun a x => cells (data s) !! a = Some [x]) (dp !! k) (values v !! k);
  r_inj : forall k k' a, dp !! k = Some a -> dp !! k' = Some a -> k = k';
  r_cover : forall a, is_Some (cells (data s) !! a) -> exists k, dp !! k = Some a;
  r_counts : forall g, cells (counts s) !! g =
    match holders g (members v) with O => None | n => Some [Z.of_nat n] end;
  r_groups : forall g, is_Some (values v !! inl g) -> holders g (members v) <> 0%nat;
  r_ok : heap_ok (data s) /\ heap_ok (counts s) /\ next_addr (counts s) = next v;
  r_bound : Z.of_nat (size (members v)) <= 2 ^ 32;
}.
Definition rel (s : state) (v : groups) : Prop := exists dp, rel_at dp s v.

(** ** The members of a group *)

Lemma holders_insert g i g' m :
  m !! i = None -> holders g (<[i := g']> m) = (holders g m + if bool_decide (g' = g) then 1 else 0)%nat.
Proof.
  intros Hi. unfold holders. case_bool_decide as E.
  - rewrite map_filter_insert_True by done. rewrite map_size_insert_None; [lia|].
    apply map_lookup_filter_None. by left.
  - rewrite map_filter_insert_False by done. rewrite delete_id by done. lia.
Qed.

Lemma holders_delete g i g' m :
  m !! i = Some g' -> holders g m = (holders g (delete i m) + if bool_decide (g' = g) then 1 else 0)%nat.
Proof.
  intros Hi. rewrite <- (holders_insert g i g') by apply lookup_delete_eq. by rewrite insert_delete_eq, insert_id.
Qed.

Lemma holders_size g m : (holders g m <= size m)%nat.
Proof. apply map_subseteq_size, map_filter_subseteq. Qed.

Lemma holders_positive g i m : m !! i = Some g -> holders g m <> 0%nat.
Proof. intros Hi. rewrite (holders_delete g i g) by done. rewrite bool_decide_true by done. lia. Qed.

Lemma holders_zero g m : holders g m = 0%nat -> forall i, m !! i <> Some g.
Proof. intros H i Hi. by apply (holders_positive g i m). Qed.

(** ** The counters *)

Definition drop_smart (i : nat) (s : state) : state := mkState (data s) (counts s) (delete i (smarts s)) (raws s).
Definition set_raws (m : gmap nat nat) (s : state) : state := mkState (data s) (counts s) (smarts s) m.

Lemma fresh_group dp s v : rel_at dp s v -> holders (next v) (members v) = 0%nat.
Proof.
  intros I. destruct (r_ok _ _ _ I) as (_ & Hok & Hn). pose proof (r_counts _ _ _ I (next v)) as H.
  rewrite <- Hn in *. rewrite alloc_fresh in H by done. by destruct (holders _ _).
Qed.

Lemma own_eq i p s :
  own i p s = Some (set_smart i (mkSmart (Some (next_addr (counts s))) p)
    (set_counts (mkHeap (<[next_addr (counts s) := [1]]> (cells (counts s))) (S (next_addr (counts s)))) s)).
Proof.
  unfold own, new_count, AddRef. cbn [alloc]. unfold load, store, set_counts. cbn. rewrite lookup_insert_eq. cbn.
  by rewrite insert_insert_eq.
Qed.

Lemma count_cell g n s :
  cells (counts s) !! g = Some [n] ->
  AddRef (Some g) s = Some (wrapU 32 (wrapU 64 (n + 1)),
    set_counts (mkHeap (<[g := [wrapU 64 (n + 1)]]> (cells (counts s))) (next_addr (counts s))) s) /\
  Release (Some g) s = Some (wrapU 32 (wrapU 64 (n - 1)),
    set_counts (mkHeap (<[g := [wrapU 64 (n - 1)]]> (cells (counts s))) (next_addr (counts s))) s).
Proof. intros H. unfold AddRef, Release, load, store. cbn. rewrite H. done. Qed.

Lemma heap_ok_insert {A} (h : heap A) g l : heap_ok h -> is_Some (cells h !! g) -> heap_ok (mkHeap (<[g := l]> (cells h)) (next_addr h)).
Proof. intros H Hg a. cbn. rewrite dom_insert_lookup by done. apply H. Qed.

Lemma heap_ok_new {A} (h : heap A) l : heap_ok h -> heap_ok (mkHeap (<[next_addr h := l]> (cells h)) (S (next_addr h))).
Proof. exact (heap_ok_alloc l h). Qed.

Lemma heap_ok_delete {A} (h : heap A) a : heap_ok h -> heap_ok (mkHeap (delete a (cells h)) (next_addr h)).
Proof. intros H b. cbn. rewrite dom_delete. set_solver. Qed.

(** What leaves a counter *)
Lemma release_raws m o s : release o (set_raws m s) = set_raws m <$> release o s.
Proof.
  unfold release, Release. destruct (m_pReference o) as [r|]; [|done]. cbn.
  destruct (cells (counts s) !! r) as [[|n l]|]; [done| |done]. cbn. case_match; [|done].
  destruct (free (m_pData o) (data s)) as [d|]; [|done]. cbn. by case_match.
Qed.

Lemma holders_others g i m : m !! i = Some g -> forall g', g' <> g -> holders g' (delete i m) = holders g' m.
Proof. intros Hi g' Hg. rewrite (holders_delete g' i g m Hi), bool_decide_false by done. lia. Qed.

(** The last member of a group leaves, or another. *)
Lemma last_leaves dp s v i g :
  rel_at dp s v -> members v !! i = Some g -> holders g (members v) = 1%nat ->
  exists s', release (mkSmart (Some g) (dp !! inl g)) s = Some s' /\ smarts s' = smarts s /\ raws s' = raws s /\
    rel (drop_smart i s') (mkGroups (delete i (members v)) (delete (inl g) (values v)) (next v)).
Proof.
  intros I Hi Hh. pose proof (holders_delete g i g _ Hi) as Hd. rewrite bool_decide_true in Hd by done.
  pose proof (r_bound _ _ _ I). pose proof (holders_size g (members v)). pose proof (r_counts _ _ _ I g) as Hc.
  destruct (r_ok _ _ _ I) as (Hokd & Hokc & Hn). pose proof (holders_others g i _ Hi) as Hcount.
  assert (Hsize : size (delete i (members v)) = Nat.pred (size (members v))) by (rewrite map_size_delete_Some; [lia|done]).
  rewrite Hh in Hc. unfold release. cbn [m_pReference m_pData]. rewrite (proj2 (count_cell g _ s Hc)). cbn [mbind option_bind].
  change (wrapU 32 (wrapU 64 (Z.of_nat 1 - 1)) =? 0) with true. cbv iota.
  assert (Hz : holders g (delete i (members v)) = 0%nat) by lia.
  set (s1 := set_counts _ s). change (data s1) with (data s).
  assert (Hfree : exists d, free (dp !! inl g) (data s) = Some d /\ heap_ok d /\
    (forall a, cells d !! a = if decide (dp !! inl g = Some a) then None else cells (data s) !! a)).
  { pose proof (r_data _ _ _ I (inl g)) as Hdp. destruct (dp !! inl g) as [a|] eqn:Ea.
    - inversion Hdp as [? x Hx|]; subst. exists (mkHeap (delete a (cells (data s))) (next_addr (data s))).
      cbn. rewrite Hx. split; [done|]. split; [by apply heap_ok_delete|]. intros b. rewrite lookup_delete.
      repeat case_decide; congruence.
    - exists (data s). split; [done|]. split; [done|]. intros b. by case_decide. }
  destruct Hfree as (d & -> & Hdok & Hd'). cbn [mbind option_bind].
  unfold s1. cbn [counts set_counts free cells]. rewrite lookup_insert_eq. cbn [mbind option_bind].
  eexists. split_and!; [done|done|done|].
  exists (delete (inl g) dp). split; cbn [drop_smart set_counts set_data smarts raws data counts members values next cells next_addr].
  - intros j. rewrite !lookup_delete. case_decide; [done|]. rewrite (r_smarts _ _ _ I).
    destruct (members v !! j) as [g'|] eqn:Ej; [|done]. cbn. rewrite lookup_delete_ne; [done|].
    intros [= <-]. assert (delete i (members v) !! j = Some g) by (by rewrite lookup_delete_ne).
    by apply (holders_zero _ _ Hz j).
  - intros r. rewrite lookup_delete_ne by done. apply (r_raws _ _ _ I).
  - intros k. pose proof (r_data _ _ _ I k) as Hk. rewrite !lookup_delete. case_decide as Ek; [constructor|].
    destruct (dp !! k) as [a|] eqn:Ea; inversion Hk; subst; constructor. rewrite Hd'. case_decide as Eb; [|done].
    by destruct Ek; apply (r_inj _ _ _ I _ _ a).
  - intros k k' a [_ Hk]%lookup_delete_Some [_ Hk']%lookup_delete_Some. by apply (r_inj _ _ _ I _ _ a).
  - intros a. rewrite Hd'. case_decide as Ea; [by intros [? ?]|]. intros Ha. destruct (r_cover _ _ _ I a Ha) as [k Hk].
    exists k. rewrite lookup_delete_ne; [done|]. intros <-. done.
  - intros g'. rewrite lookup_delete. case_decide as Eg; [by subst; rewrite Hz|].
    rewrite lookup_insert_ne by done. rewrite Hcount by done. apply (r_counts _ _ _ I).
  - intros g' [x [Hne Hx]%lookup_delete_Some]. rewrite Hcount by congruence. apply (r_groups _ _ _ I). by eexists.
  - split; [done|]. split; [|done]. rewrite delete_insert_eq. by apply heap_ok_delete.
  - lia.
Qed.

Lemma member_leaves dp s v i g n :
  rel_at dp s v -> members v !! i = Some g -> holders g (members v) = S (S n) ->
  exists s', release (mkSmart (Some g) (dp !! inl g)) s = Some s' /\ smarts s' = smarts s /\ raws s' = raws s /\
    rel (drop_smart i s') (mkGroups (delete i (members v)) (values v) (next v)).
Proof.
  intros I Hi Hh. pose proof (holders_delete g i g _ Hi) as Hd. rewrite bool_decide_true in Hd by done.
  pose proof (r_bound _ _ _ I). pose proof (holders_size g (members v)). pose proof (r_counts _ _ _ I g) as Hc.
  destruct (r_ok _ _ _ I) as (Hokd & Hokc & Hn). pose proof (holders_others g i _ Hi) as Hcount.
  assert (Hsize : size (delete i (members v)) = Nat.pred (size (members v))) by (rewrite map_size_delete_Some; [lia|done]).
  rewrite Hh in Hc. unfold release. cbn [m_pReference m_pData]. rewrite (proj2 (count_cell g _ s Hc)). cbn [mbind option_bind].
  rewrite (wrapU_small 64), (wrapU_small 32) by lia. rewrite (proj2 (Z.eqb_neq _ _)) by lia.
  eexists. split_and!; [done|done|done|].
  exists dp. split; cbn [drop_smart set_counts set_data smarts raws data counts members values next cells next_addr].
  - intros j. rewrite !lookup_delete. case_decide; [done|]. apply (r_smarts _ _ _ I).
  - apply (r_raws _ _ _ I).
  - apply (r_data _ _ _ I).
  - apply (r_inj _ _ _ I).
  - apply (r_cover _ _ _ I).
  - intros g'. rewrite lookup_insert. case_decide as Eg.
    + subst g'. replace (holders g (delete i (members v))) with (S n) by lia. do 2 f_equal. lia.
    + rewrite Hcount by done. apply (r_counts _ _ _ I).
  - intros g' Hg. destruct (decide (g' = g)) as [->|Hne]; [lia|]. rewrite Hcount by done. by apply (r_groups _ _ _ I).
  - split; [done|]. split; [|done]. by apply heap_ok_insert; [|rewrite Hc].
  - lia.
Qed.

Lemma leave_ok s v v' i :
  rel s v -> leave i v = Some v' ->
  exists o s', smarts s !! i = Some o /\ release o s = Some s' /\ smarts s' = smarts s /\ raws s' = raws s /\
    members v' = delete i (members v) /\ rel (drop_smart i s') v'.
Proof.
  intros [dp I] H. unfold leave in H. destruct (members v !! i) as [g|] eqn:Hi; [|done]. cbn in H. simplify_eq.
  pose proof (r_smarts _ _ _ I i) as Hs. rewrite Hi in Hs. pose proof (holders_positive _ _ _ Hi) as Hpos.
  pose proof (holders_delete g i g _ Hi) as Hd. rewrite bool_decide_true in Hd by done.
  exists (mkSmart (Some g) (dp !! inl g)). destruct (holders g (members v)) as [|[|n]] eqn:En; [done| |].
  - rewrite bool_decide_true by lia. destruct (last_leaves dp s v i g I Hi En) as (s' & ? & ? & ? & ?). by exists s'.
  - rewrite bool_decide_false by lia. destruct (member_leaves dp s v i g n I Hi En) as (s' & ? & ? & ? & ?). by exists s'.
Qed.

(** ** What joins one *)

Lemma insert_drop i o s : set_smart i o (drop_smart i s) = set_smart i o s.
Proof. unfold set_smart, drop_smart. cbn. by rewrite insert_delete_eq. Qed.

Lemma own_drop i p s : own i p (drop_smart i s) = own i p s.
Proof. rewrite !own_eq. unfold set_smart. cbn. by rewrite insert_delete_eq. Qed.

Lemma counts_insert dp s v i g' n :
  rel_at dp s v -> members v !! i = None -> (holders g' (members v) + 1)%nat = n ->
  forall g, <[g' := [Z.of_nat n]]> (cells (counts s)) !! g =
    match holders g (<[i := g']> (members v)) with O => None | m => Some [Z.of_nat m] end.
Proof.
  intros I Hi Hn g. rewrite holders_insert by done. rewrite lookup_insert. case_decide as E.
  - subst g'. rewrite bool_decide_true by done. rewrite Hn. destruct n; [lia|done].
  - rewrite bool_decide_false, Nat.add_0_r by done. apply (r_counts _ _ _ I).
Qed.

(** A new group, for a value that a plain pointer had or for none *)
Lemma own_ok s v i :
  rel (drop_smart i s) v -> members v !! i = None -> Z.of_nat (size (members v)) < 2 ^ 32 ->
  exists s', own i None s = Some s' /\ rel s' (found i None v).
Proof.
  intros [dp I] Hi Hb. rewrite <- own_drop. set (s0 := drop_smart i s) in *. clearbody s0. rewrite own_eq.
  pose proof (fresh_group _ _ _ I) as Hf. destruct (r_ok _ _ _ I) as (Hokd & Hokc & Hn). rewrite Hn.
  eexists. split; [done|].
  assert (Hnone : values v !! inl (next v) = None).
  { destruct (values v !! inl (next v)) eqn:E; [|done]. by destruct (r_groups _ _ _ I (next v)). }
  assert (Hdp : dp !! inl (next v) = None).
  { pose proof (r_data _ _ _ I (inl (next v))) as H. rewrite Hnone in H. by inversion H. }
  exists dp. split; cbn [set_smart found set_counts smarts raws data counts members values next cells next_addr].
  - intros j. rewrite !lookup_insert. case_decide; [by subst; cbn; rewrite Hdp|]. apply (r_smarts _ _ _ I).
  - apply (r_raws _ _ _ I).
  - apply (r_data _ _ _ I).
  - apply (r_inj _ _ _ I).
  - apply (r_cover _ _ _ I).
  - apply (counts_insert _ _ _ _ _ 1 I Hi). by rewrite Hf.
  - intros g Hg. rewrite holders_insert by done. pose proof (r_groups _ _ _ I g Hg). lia.
  - split; [done|]. split; [|done]. rewrite <- Hn. by apply heap_ok_new.
  - rewrite map_size_insert_None by done. lia.
Qed.

Definition taken (r : nat) (v : groups) : groups := mkGroups (members v) (delete (inr r) (values v)) (next v).

Lemma own_raw_ok s v i r a x :
  rel (drop_smart i s) v -> members v !! i = None -> Z.of_nat (size (members v)) < 2 ^ 32 ->
  raws s !! r = Some a -> values v !! inr r = Some x ->
  exists s', own i (Some a) (set_raws (delete r (raws s)) s) = Some s' /\ rel s' (found i (Some x) (taken r v)).
Proof.
  intros [dp I] Hi Hb Hr Hx. rewrite <- own_drop.
  change (drop_smart i (set_raws (delete r (raws s)) s)) with (set_raws (delete r (raws (drop_smart i s))) (drop_smart i s)).
  change (raws s) with (raws (drop_smart i s)) in Hr. set (s0 := drop_smart i s) in *. clearbody s0. rewrite own_eq.
  pose proof (fresh_group _ _ _ I) as Hf. destruct (r_ok _ _ _ I) as (Hokd & Hokc & Hn). cbn [counts set_raws]. rewrite Hn.
  eexists. split; [done|]. pose proof Hr as Ha. rewrite (r_raws _ _ _ I) in Ha.
  assert (Hnone : values v !! inl (next v) = None).
  { destruct (values v !! inl (next v)) eqn:E; [|done]. by destruct (r_groups _ _ _ I (next v)). }
  exists (<[inl (next v) := a]> (delete (inr r) dp)).
  split; cbn [set_smart found taken set_counts set_raws smarts raws data counts members values next cells next_addr].
  - intros j. rewrite !lookup_insert. case_decide as E; [by cbn; rewrite lookup_insert_eq|].
    rewrite (r_smarts _ _ _ I). destruct (members v !! j) as [g|] eqn:Ej; [|done]. cbn.
    rewrite lookup_insert_ne, lookup_delete_ne; [done|done|]. intros [= <-]. by apply (holders_zero _ _ Hf j).
  - intros r'. rewrite lookup_insert_ne by done. rewrite !lookup_delete. repeat case_decide; try congruence.
    apply (r_raws _ _ _ I).
  - intros k. rewrite !lookup_insert. case_decide as E.
    + pose proof (r_data _ _ _ I (inr r)) as H. rewrite Ha, Hx in H. inversion H; subst. by constructor.
    + rewrite !lookup_delete. case_decide; [constructor|]. apply (r_data _ _ _ I).
  - assert (Hother : forall k, delete (inr r) dp !! k = Some a -> False).
    { intros k [Hk Hka]%lookup_delete_Some. by destruct Hk; apply (r_inj _ _ _ I _ _ a). }
    intros k k' b. rewrite !lookup_insert. repeat case_decide; intros H1 H2; simplify_eq; try done;
      try (exfalso; by eapply Hother).
    apply lookup_delete_Some in H1 as [_ H1], H2 as [_ H2]. by apply (r_inj _ _ _ I _ _ b).
  - intros b Hb'. destruct (r_cover _ _ _ I b Hb') as [k Hk]. destruct (decide (k = inr r)) as [->|Hkr].
    + exists (inl (next v)). rewrite lookup_insert_eq. congruence.
    + exists k. rewrite lookup_insert_ne, lookup_delete_ne; [done|done|]. intros <-.
      pose proof (r_data _ _ _ I (inl (next v))) as H. rewrite Hk, Hnone in H. by inversion H.
  - apply (counts_insert _ _ _ _ _ 1 I Hi). by rewrite Hf.
  - intros g. rewrite lookup_insert. rewrite holders_insert by done. case_decide as E.
    + simplify_eq. rewrite bool_decide_true by done. lia.
    + rewrite lookup_delete_ne by done. intros Hg. pose proof (r_groups _ _ _ I g Hg). lia.
  - split; [done|]. split; [|done]. rewrite <- Hn. by apply heap_ok_new.
  - rewrite map_size_insert_None by done. lia.
Qed.

Lemma join_ok s v i j g :
  rel (drop_smart i s) v -> i <> j -> members v !! i = None -> members v !! j = Some g ->
  Z.of_nat (size (members v)) < 2 ^ 32 ->
  exists sp n s', smarts s !! j = Some sp /\ AddRef (m_pReference sp) s = Some (n, s') /\ rel (set_smart i sp s') (join i g v).
Proof.
  intros [dp I] Hij Hi Hj Hb. pose proof (r_smarts _ _ _ I j) as Hs. cbn [smarts drop_smart] in Hs.
  rewrite lookup_delete_ne, Hj in Hs by done. cbn in Hs.
  pose proof (holders_positive _ _ _ Hj) as Hpos. pose proof (holders_size g (members v)).
  pose proof (r_counts _ _ _ I g) as Hc. destruct (r_ok _ _ _ I) as (Hokd & Hokc & Hn). cbn [counts drop_smart data] in *.
  destruct (holders g (members v)) as [|m] eqn:Em; [done|].
  destruct (count_cell g (Z.of_nat (S m)) s Hc) as [Ha _].
  exists (mkSmart (Some g) (dp !! inl g)). do 2 eexists. split; [done|]. split; [exact Ha|].
  rewrite <- insert_drop. cbn. rewrite (wrapU_small 64) by lia.
  exists dp. split; cbn [set_smart drop_smart join set_counts smarts raws data counts members values next cells next_addr].
  - intros k. rewrite !lookup_insert. case_decide as E; [done|]. apply (r_smarts _ _ _ I).
  - apply (r_raws _ _ _ I).
  - apply (r_data _ _ _ I).
  - apply (r_inj _ _ _ I).
  - apply (r_cover _ _ _ I).
  - replace (Z.of_nat (S m) + 1) with (Z.of_nat (S (S m))) by lia.
    apply (counts_insert _ _ _ _ _ (S (S m)) I Hi). lia.
  - intros g' Hg. rewrite holders_insert by done. pose proof (r_groups _ _ _ I g' Hg). lia.
  - split; [done|]. split; [|done]. by apply heap_ok_insert; [|rewrite Hc].
  - rewrite map_size_insert_None by done. lia.
Qed.

(** ** Programs refine *)

Lemma drop_none s v i : rel s v -> members v !! i = None -> drop_smart i s = s.
Proof.
  intros [dp I] Hi. pose proof (r_smarts _ _ _ I i) as H. rewrite Hi in H. destruct s. unfold drop_smart. cbn in *.
  by rewrite delete_id.
Qed.

Lemma leave_taken i r v : leave i (taken r v) = taken r <$> leave i v.
Proof.
  unfold leave, taken. cbn. destruct (members v !! i); [|done]. cbn. do 2 f_equal.
  case_bool_decide; [|done]. apply delete_delete.
Qed.

Lemma room_ok i v : room i v = true -> members v !! i = None /\ Z.of_nat (size (members v)) < 2 ^ 32.
Proof. unfold room. intros H. zbool. apply bool_decide_eq_true in H. done. Qed.

(** A plain pointer whose value is there *)
Lemma raw_at s v r x : rel s v -> values v !! inr r = Some x ->
  exists a, raws s !! r = Some a /\ cells (data s) !! a = Some [x].
Proof.
  intros [dp I] Hx. pose proof (r_data _ _ _ I (inr r)) as H. rewrite Hx, <- (r_raws _ _ _ I) in H.
  inversion H; subst. eauto.
Qed.

Lemma rel_bound s v : rel s v -> Z.of_nat (size (members v)) <= 2 ^ 32.
Proof. intros [dp I]. apply (r_bound _ _ _ I). Qed.

Lemma leave_size s v v' i : rel s v -> leave i v = Some v' -> Z.of_nat (size (members v')) < 2 ^ 32.
Proof.
  intros I H. apply rel_bound in I. unfold leave in H. destruct (members v !! i) as [g|] eqn:E; [|done].
  cbn in H. simplify_eq. cbn. rewrite map_size_delete_Some by done.
  assert (size (members v) <> 0%nat) by (rewrite map_size_ne_0_lookup; eauto). lia.
Qed.

(** Assignment of a plain pointer *)
Lemma assign_raw_ok s v v1 i r x a :
  rel s v -> values v !! inr r = Some x -> raws s !! r = Some a -> leave i (taken r v) = Some v1 ->
  exists s', assign_raw i (Some a) (set_raws (delete r (raws s)) s) = Some s' /\ rel s' (found i (Some x) v1).
Proof.
  intros I Hx Ha H. rewrite leave_taken in H. apply fmap_Some in H as (v0 & H & ->).
  pose proof (leave_size _ _ _ _ I H) as Hsz.
  destruct (leave_ok s v v0 i I H) as (o & s1 & Ho & Hr & Hsm & Hrw & Hm & I1).
  assert (Hv : values v0 !! inr r = Some x).
  { unfold leave in H. destruct (members v !! i); [|done]. cbn in H. simplify_eq. cbn.
    case_bool_decide; [|done]. by rewrite lookup_delete_ne. }
  destruct (own_raw_ok s1 v0 i r a x I1) as (s' & E & I'); [by rewrite Hm, lookup_delete_eq|done|by rewrite Hrw|done|].
  exists s'. split; [|done]. unfold assign_raw. cbn [smarts set_raws]. rewrite Ho. cbn [mbind option_bind].
  rewrite release_raws, Hr. cbn [fmap option_fmap option_map mbind option_bind]. by rewrite <- Hrw.
Qed.

Lemma new_ok s v r0 x :
  rel s v -> values v !! inr r0 = None ->
  exists s', exec (New r0 x) s = Some (Done, s') /\ rel s' (mkGroups (members v) (<[inr r0 := x]> (values v)) (next v)).
Proof.
  intros I E. cbn. eexists. split; [done|]. destruct I as [dp I].
  destruct (r_ok _ _ _ I) as (Hokd & Hokc & Hn). pose proof (alloc_fresh _ Hokd) as Hf.
  assert (Hno : forall k, dp !! k <> Some (next_addr (data s))).
  { intros k Hk. pose proof (r_data _ _ _ I k) as H. rewrite Hk in H. inversion H as [? y Hy|]; subst. congruence. }
  exists (<[inr r0 := next_addr (data s)]> dp). split; cbn [smarts raws data counts members values next cells next_addr].
  - intros i. rewrite (r_smarts _ _ _ I). destruct (members v !! i); [|done]. cbn. by rewrite lookup_insert_ne.
  - intros r1. rewrite !lookup_insert. repeat case_decide; try congruence. apply (r_raws _ _ _ I).
  - intros k. rewrite !lookup_insert. case_decide; [constructor; by rewrite lookup_insert_eq|].
    pose proof (r_data _ _ _ I k) as Hk. destruct (dp !! k) as [a|] eqn:Ea; inversion Hk; subst; constructor.
    rewrite lookup_insert_ne; [done|]. intros <-. by apply (Hno k).
  - intros k k' a. rewrite !lookup_insert. repeat case_decide; intros H1 H2; simplify_eq; try done.
    + by apply Hno in H2.
    + by apply Hno in H1.
    + by apply (r_inj _ _ _ I _ _ a).
  - intros a. rewrite lookup_insert. case_decide as Ea; [intros _; exists (inr r0); rewrite lookup_insert_eq; congruence|].
    intros Ha. destruct (r_cover _ _ _ I a Ha) as [k Hk]. exists k. rewrite lookup_insert_ne; [done|]. intros <-.
    pose proof (r_data _ _ _ I (inr r0)) as H. rewrite Hk, E in H. by inversion H.
  - apply (r_counts _ _ _ I).
  - intros g. rewrite lookup_insert_ne by done. apply (r_groups _ _ _ I).
  - split; [|done]. by apply heap_ok_new.
  - apply (r_bound _ _ _ I).
Qed.

Lemma delete_ok s v r0 x :
  rel s v -> values v !! inr r0 = Some x ->
  exists s', exec (Delete r0) s = Some (Done, s') /\ rel s' (taken r0 v).
Proof.
  intros I Hx. cbn [exec]. unfold take_raw.
  destruct (raw_at _ _ _ _ I Hx) as (a & Ha & Hc). rewrite Ha. cbn. rewrite Hc. cbn. eexists. split; [done|].
  destruct I as [dp I]. destruct (r_ok _ _ _ I) as (Hokd & Hokc & Hn). pose proof Ha as Hdp. rewrite (r_raws _ _ _ I) in Hdp.
  exists (delete (inr r0) dp). split; cbn [taken smarts raws data counts members values next cells next_addr set_data].
  - intros i. rewrite (r_smarts _ _ _ I). destruct (members v !! i); [|done]. cbn. by rewrite lookup_delete_ne.
  - intros r1. rewrite !lookup_delete. repeat case_decide; try congruence. apply (r_raws _ _ _ I).
  - intros k. rewrite !lookup_delete. case_decide as Ek; [constructor|].
    pose proof (r_data _ _ _ I k) as Hk. destruct (dp !! k) as [b|] eqn:Eb; inversion Hk; subst; constructor.
    rewrite lookup_delete_ne; [done|]. intros <-. destruct Ek. by apply (r_inj _ _ _ I _ _ a).
  - intros k k' b [_ H1]%lookup_delete_Some [_ H2]%lookup_delete_Some. by apply (r_inj _ _ _ I _ _ b).
  - intros b. rewrite lookup_delete. case_decide; [by intros [? ?]|]. intros Hb. destruct (r_cover _ _ _ I b Hb) as [k Hk].
    exists k. rewrite lookup_delete_ne; [done|]. intros <-. congruence.
  - apply (r_counts _ _ _ I).
  - intros g. rewrite lookup_delete_ne by done. apply (r_groups _ _ _ I).
  - split; [|done]. by apply heap_ok_delete.
  - apply (r_bound _ _ _ I).
Qed.

Lemma write_ok s v i g x0 x :
  rel s v -> members v !! i = Some g -> values v !! inl g = Some x0 ->
  exists s', exec (Write i x) s = Some (Done, s') /\ rel s' (mkGroups (members v) (<[inl g := x]> (values v)) (next v)).
Proof.
  intros I Hi Hx. destruct I as [dp I]. cbn [exec]. unfold done_.
  unfold write. rewrite (r_smarts _ _ _ I), Hi. cbn [fmap option_fmap option_map mbind option_bind m_pData].
  pose proof (r_data _ _ _ I (inl g)) as Hd. rewrite Hx in Hd. inversion Hd as [a y Hc Ea|]; subst.
  rewrite (store_cells a 0 x _ [x0] Hc) by (cbn; lia). cbn [mbind option_bind]. eexists. split; [done|].
  destruct (r_ok _ _ _ I) as (Hokd & Hokc & Hn). exists dp.
  split; cbn [smarts raws data counts members values next cells next_addr set_data]; try apply I.
  - intros k. rewrite !lookup_insert. case_decide as E.
    + subst k. rewrite <- Ea. constructor. by rewrite lookup_insert_eq.
    + pose proof (r_data _ _ _ I k) as Hk. destruct (dp !! k) as [b|] eqn:Eb; inversion Hk; subst; constructor.
      rewrite lookup_insert_ne; [done|]. intros <-. destruct E. by apply (r_inj _ _ _ I _ _ a).
  - intros b. rewrite lookup_insert. case_decide; [intros _; exists (inl g); congruence|]. apply (r_cover _ _ _ I).
  - intros g' Hg. rewrite lookup_insert in Hg. case_decide; [simplify_eq; by eapply holders_positive|by apply (r_groups _ _ _ I)].
  - split; [|done]. by apply heap_ok_insert; [|rewrite Hc].
Qed.

Lemma smart_exec_refines c s v r v' :
  rel s v -> spec c v = Some (r, v') -> exists s', exec c s = Some (r, s') /\ rel s' v'.
Proof.
  intros I. destruct c as [r0 x|r0|i|i r0|i j|i|i j|i r0|i r0|i|i x|i]; cbn [spec exec]; unfold done_, take_value, take_raw; intros H.
  - destruct (values v !! inr r0) eqn:E; [done|]. simplify_eq. by apply new_ok.
  - apply bind_Some in H as ([x v1] & H & ?). apply bind_Some in H as (x0 & Hx & ?). simplify_eq. by eapply delete_ok.
  - destruct (room i v) eqn:Hr; [|done]. apply room_ok in Hr as [Hi Hs]. simplify_eq.
    destruct (own_ok s v i) as (s' & E & I'); [by erewrite drop_none|done|done|]. unfold construct. rewrite E. eauto.
  - apply bind_Some in H as ([x v1] & H & H'). apply bind_Some in H as (x0 & Hx & ?). simplify_eq.
    destruct (room i _) eqn:Hr; [|done]. apply room_ok in Hr as [Hi Hs]. simplify_eq.
    destruct (raw_at _ _ _ _ I Hx) as (a & Ha & Hc). rewrite Ha. cbn [mbind option_bind].
    destruct (own_raw_ok s v i r0 a x) as (s' & E & I'); [by erewrite drop_none|done..|].
    unfold construct_raw. change (mkState _ _ _ _) with (set_raws (delete r0 (raws s)) s). rewrite E. eauto.
  - apply bind_Some in H as (g & Hj & H). destruct (room i v) eqn:Hr; [|done]. apply room_ok in Hr as [Hi Hs]. simplify_eq.
    destruct (join_ok s v i j g) as (sp & n & s' & E1 & E2 & I'); [by erewrite drop_none|congruence|done|done|done|].
    unfold construct_copy. rewrite E1. cbn [mbind option_bind]. rewrite E2. eauto.
  - apply bind_Some in H as (v1 & H & ?). simplify_eq.
    destruct (leave_ok s v v' i I H) as (o & s1 & Ho & Hr & _ & _ & _ & I1).
    unfold destroy. rewrite Ho. cbn [mbind option_bind]. rewrite Hr. eauto.
  - apply bind_Some in H as (g0 & Hi & (g & Hj & H)%bind_Some).
    pose proof I as [dp I0]. pose proof (r_smarts _ _ _ I0 i) as Hs. rewrite Hi in Hs. cbn in Hs.
    unfold assign. rewrite Hs. cbn [mbind option_bind].
    destruct (Nat.eqb_spec i j) as [E|Hij]; [simplify_eq; cbn; eauto|].
    apply bind_Some in H as (v1 & H & ?). simplify_eq.
    pose proof (leave_size _ _ _ _ I H) as Hsz.
    destruct (leave_ok s v v1 i I H) as (o & s1 & Ho & Hr & Hsm & _ & Hm & I1). rewrite Hs in Ho. simplify_eq. rewrite Hr. cbn [mbind option_bind].
    destruct (join_ok s1 v1 i j g) as (sp & n & s' & E1 & E2 & I'); [done|done|by rewrite Hm, lookup_delete_eq|by rewrite Hm, lookup_delete_ne|done|].
    rewrite E1. cbn [mbind option_bind]. rewrite E2. eauto.
  - apply bind_Some in H as ([x v1] & H & (v2 & H2 & ?)%bind_Some). apply bind_Some in H as (x0 & Hx & ?). simplify_eq.
    destruct (raw_at _ _ _ _ I Hx) as (a & Ha & Hc). rewrite Ha. cbn [mbind option_bind].
    destruct (assign_raw_ok s v v2 i r0 x a I Hx Ha H2) as (s' & E & I').
    change (mkState _ _ _ _) with (set_raws (delete r0 (raws s)) s). rewrite E. eauto.
  - apply bind_Some in H as ([x v1] & H & (v2 & H2 & ?)%bind_Some). apply bind_Some in H as (x0 & Hx & ?). simplify_eq.
    destruct (raw_at _ _ _ _ I Hx) as (a & Ha & Hc). rewrite Ha. cbn [mbind option_bind].
    destruct (assign_raw_ok s v v2 i r0 x a I Hx Ha H2) as (s' & E & I').
    unfold Attach. change (mkState _ _ _ _) with (set_raws (delete r0 (raws s)) s). rewrite E. eauto.
  - apply bind_Some in H as (g & Hi & (x & Hx & ?)%bind_Some). simplify_eq. destruct I as [dp I].
    unfold deref. rewrite (r_smarts _ _ _ I), Hi. cbn.
    pose proof (r_data _ _ _ I (inl g)) as Hd. rewrite Hx in Hd. inversion Hd as [a y Hc Ea|]; subst. unfold load. cbn. rewrite Hc. cbn.
    eexists. split; [done|]. by exists dp.
  - apply bind_Some in H as (g & Hi & (x0 & Hx & ?)%bind_Some). simplify_eq. by eapply write_ok.
  - apply bind_Some in H as (g & Hi & ?). simplify_eq. destruct I as [dp I].
    unfold Get. rewrite (r_smarts _ _ _ I), Hi. cbn. pose proof (r_data _ _ _ I (inl g)) as Hd.
    eexists. split; [|by exists dp]. do 3 f_equal. apply bool_decide_ext. inversion Hd; by split.
Qed.

Lemma smart_exec_all_refines cs s v rs v' :
  rel s v -> spec_all cs v = Some (rs, v') -> exists s', exec_all cs s = Some (rs, s') /\ rel s' v'.
Proof.
  revert s v rs. induction cs as [|c cs IH]; cbn; intros s v rs I H.
  - simplify_eq. by exists s.
  - apply bind_Some in H as ([r v1] & H1 & ([rs' v2] & H2 & H)%bind_Some). simplify_eq.
    destruct (smart_exec_refines _ _ _ _ _ I H1) as (s1 & -> & I1).
    destruct (IH _ _ _ I1 H2) as (s2 & E & I2). cbn. rewrite E. cbn. eauto.
Qed.

Lemma shared_init : rel init no_groups.
Proof.
  exists ∅. split; cbn; try done.
  - intros k. rewrite !lookup_empty. constructor.
  - intros a [x Hx]. by rewrite lookup_empty in Hx.
  - intros g [x Hx]. by rewrite lookup_empty in Hx.
Qed.

Lemma injective_size {K A} `{Countable K} (m : gmap K nat) (h : gmap nat A) :
  (forall k k' a, m !! k = Some a -> m !! k' = Some a -> k = k') ->
  (forall a, is_Some (h !! a) <-> exists k, m !! k = Some a) -> size h = size m.
Proof.
  intros Hi Hc. rewrite <- (size_dom h).
  assert (dom h = list_to_set (map_to_list m).*2) as ->.
  { apply set_eq. intros a. rewrite elem_of_dom, Hc, elem_of_list_to_set, list_elem_of_fmap. split.
    - intros [k Hk]. exists (k, a). split; [done|]. by apply elem_of_map_to_list.
    - intros ([k b] & -> & Hk). exists k. by apply elem_of_map_to_list in Hk. }
  rewrite size_list_to_set; [by rewrite length_fmap, length_map_to_list|].
  apply NoDup_fmap_2_strong; [|apply NoDup_map_to_list].
  intros [k a] [k' a'] Hk Hk' E. apply elem_of_map_to_list in Hk, Hk'. cbn in E. subst. f_equal. by apply (Hi _ _ a').
Qed.

(** C8: programs that create, copy, assign and destroy smart pointers, hand them plain
    pointers and read and write through them run without a bad access and without a double
    free, and see what members of groups would that share a value; the objects in memory are
    just those with a member or a plain pointer left, and none when nothing is left. *)
Theorem smartptr_is_shared (cs : list stmt) rs v :
  spec_all cs no_groups = Some (rs, v) ->
  exists s, exec_all cs init = Some (rs, s) /\ rel s v /\
    size (cells (data s)) = size (values v) /\
    (members v = ∅ -> values v = ∅ -> cells (data s) = ∅ /\ cells (counts s) = ∅).
Proof.
  intros H. destruct (smart_exec_all_refines cs init no_groups rs v shared_init H) as (s & E & I).
  exists s. split; [done|]. split; [done|]. destruct I as [dp I]. split.
  - assert (Hv : size (values v) = size dp).
    { rewrite <- !size_dom. f_equal. apply set_eq. intros k. rewrite !elem_of_dom.
      pose proof (r_data _ _ _ I k) as Hk. inversion Hk; split; intros [? ?]; eauto; done. }
    rewrite Hv. apply injective_size; [apply (r_inj _ _ _ I)|]. intros a. split; [apply (r_cover _ _ _ I)|].
    intros [k Hk]. pose proof (r_data _ _ _ I k) as Hx. rewrite Hk in Hx. inversion Hx; subst. eauto.
  - intros Hm Hx. split; apply map_empty; intros a.
    + destruct (cells (data s) !! a) eqn:Ea; [|done]. destruct (r_cover _ _ _ I a) as [k Hk]; [by rewrite Ea|].
      pose proof (r_data _ _ _ I k) as Hy. rewrite Hk, Hx, lookup_empty in Hy. by inversion Hy.
    + rewrite (r_counts _ _ _ I), Hm. done.
Qed.

(** ** [Detach] and plain pointers from [Get] *)

Definition destroy_all (js : list nat) (s : state) : option state := foldl (fun s i => s ≫= destroy i) (Some s) js.

Lemma member_at s v i g x :
  rel s v -> members v !! i = Some g -> values v !! inl g = Some x ->
  exists a, smarts s !! i = Some (mkSmart (Some g) (Some a)) /\ cells (data s) !! a = Some [x] /\
    cells (counts s) !! g = Some [Z.of_nat (holders g (members v))] /\
    forall j, members v !! j = Some g -> smarts s !! j = Some (mkSmart (Some g) (Some a)).
Proof.
  intros [dp I] Hi Hx. pose proof (r_data _ _ _ I (inl g)) as Hd. rewrite Hx in Hd. inversion Hd as [a y Hc Ea|]; subst.
  assert (Hall : forall j, members v !! j = Some g -> smarts s !! j = Some (mkSmart (Some g) (Some a))).
  { intros j Hj. rewrite (r_smarts _ _ _ I), Hj. cbn. by rewrite <- Ea. }
  exists a. split_and!; [by apply Hall|done| |done]. rewrite (r_counts _ _ _ I).
  pose proof (holders_positive _ _ _ Hi). by destruct (holders g (members v)).
Qed.

Lemma destroy_below i g p s k :
  smarts s !! i = Some (mkSmart (Some g) p) -> cells (counts s) !! g = Some [wrapU 64 (- k)] -> 0 <= k -> k + 1 < 2 ^ 32 ->
  destroy i s = Some (mkState (data s)
    (mkHeap (<[g := [wrapU 64 (- (k + 1))]]> (cells (counts s))) (next_addr (counts s))) (delete i (smarts s)) (raws s)).
Proof.
  intros Hi Hc Hk Hb. unfold destroy, release. rewrite Hi. cbn [mbind option_bind m_pReference].
  rewrite (proj2 (count_cell _ _ _ Hc)). cbn [mbind option_bind].
  assert (E : wrapU 64 (wrapU 64 (- k) - 1) = wrapU 64 (- (k + 1))).
  { unfold wrapU. rewrite Zminus_mod_idemp_l. f_equal. lia. }
  rewrite E. assert (Hne : (wrapU 32 (wrapU 64 (- (k + 1))) =? 0) = false).
  { apply Z.eqb_neq. unfold wrapU. rewrite Z.mod_mod_divide by (by exists (2 ^ 32)).
    rewrite Z.mod_opp_l_nz; rewrite ?(Z.mod_small (k + 1)) by lia; lia. }
  by rewrite Hne.
Qed.

(** after [Detach] the counter starts again from 0: whatever members of the group are
    destroyed then, all of them included, the counter passes below 0 and neither it nor the
    object is ever deleted. *)
Theorem detach_leaks s v i g x js :
  rel s v -> members v !! i = Some g -> values v !! inl g = Some x ->
  NoDup js -> (forall j, j ∈ js -> members v !! j = Some g) -> Z.of_nat (length js) < 2 ^ 32 ->
  exists a s1 s2, Detach i s = Some (Some a, s1) /\ destroy_all js s1 = Some s2 /\
    cells (data s2) !! a = Some [x] /\ cells (counts s2) !! g = Some [wrapU 64 (- Z.of_nat (length js))].
Proof.
  intros I Hi Hx Hnd His Hlen. destruct (member_at _ _ _ _ _ I Hi Hx) as (a & Hsi & Hc & Hn & Hall).
  unfold Detach. rewrite Hsi. cbn [mbind option_bind m_pData m_pReference]. unfold Reset. cbn [counts set_smart].
  rewrite (store_cells g 0 0 _ _ Hn) by (cbn; lia). cbn [mbind option_bind]. eexists a, _.
  set (s1 := set_counts _ _).
  assert (H : forall k, 0 <= k -> k + Z.of_nat (length js) < 2 ^ 32 -> forall s1,
    (forall j, j ∈ js -> exists p, smarts s1 !! j = Some (mkSmart (Some g) p)) ->
    cells (counts s1) !! g = Some [wrapU 64 (- k)] ->
    exists s2, destroy_all js s1 = Some s2 /\ data s2 = data s1 /\ cells (counts s2) !! g = Some [wrapU 64 (- (k + Z.of_nat (length js)))]).
  { clear -Hnd. induction Hnd as [|j js Hj _ IH]; intros k Hk Hb s1 Hs Hc.
    - exists s1. rewrite Z.add_0_r. done.
    - cbn [length] in *. destruct (Hs j) as [p Hp]; [left|].
      pose proof (destroy_below j g p s1 k Hp Hc Hk ltac:(lia)) as Hd.
      destruct (IH (k + 1) ltac:(lia) ltac:(lia) (mkState (data s1)
        (mkHeap (<[g := [wrapU 64 (- (k + 1))]]> (cells (counts s1))) (next_addr (counts s1))) (delete j (smarts s1)) (raws s1)))
        as (s2 & E & Ed & Ec).
      { intros j' Hj'. cbn. rewrite lookup_delete_ne by (by intros ->). apply Hs. by right. }
      { cbn. by rewrite lookup_insert_eq. }
      exists s2. split; [|split; [done|by rewrite Ec; do 4 f_equal; lia]].
      unfold destroy_all. cbn [foldl mbind option_bind]. rewrite Hd. exact E. }
  destruct (H 0 ltac:(lia) ltac:(lia) s1) as (s2 & E & Ed & Ec).
  - intros j Hj. cbn. rewrite lookup_insert. case_decide; [by eexists|]. eexists. by apply Hall, His.
  - cbn. by rewrite lookup_insert_eq.
  - exists s2. split_and!; [done|done|by rewrite Ed|by rewrite Ec].
Qed.

(** a member assigned the pointer that its own [Get] returned, as the only one of its
    group, has deleted the object before it takes it: reading through it is undefined, and so is
    its destructor. *)
Theorem assign_own_pointer_fatal s v i g x :
  rel s v -> members v !! i = Some g -> values v !! inl g = Some x -> holders g (members v) = 1%nat ->
  exists p s1, Get i s = Some p /\ assign_raw i p s = Some s1 /\ deref i s1 = None /\ destroy i s1 = None.
Proof.
  intros I Hi Hx H1. destruct (member_at _ _ _ _ _ I Hi Hx) as (a & Hsi & Hc & Hn & _). rewrite H1 in Hn.
  unfold Get. rewrite Hsi. eexists. eexists. split; [done|]. cbn [m_pData].
  unfold assign_raw, release. rewrite Hsi. cbn [mbind option_bind m_pReference m_pData].
  rewrite (proj2 (count_cell _ _ _ Hn)). cbn [mbind option_bind].
  change (wrapU 32 (wrapU 64 (Z.of_nat 1 - 1)) =? 0) with true.
  cbn [mbind option_bind data set_counts free]. rewrite Hc. cbn [mbind option_bind].
  cbn [counts cells set_counts]. rewrite lookup_insert_eq. cbn [mbind option_bind].
  rewrite own_eq. split; [reflexivity|].
  set (s1 := set_smart i _ _).
  assert (Hs1 : smarts s1 !! i = Some (mkSmart (Some (next_addr (counts s))) (Some a))) by (cbn; by rewrite lookup_insert_eq).
  split.
  - unfold deref. rewrite Hs1. cbn. by rewrite lookup_delete_eq.
  - assert (Hc1 : cells (counts s1) !! next_addr (counts s) = Some [1]) by (cbn; by rewrite lookup_insert_eq).
    unfold destroy, release. rewrite Hs1. cbn [mbind option_bind m_pReference m_pData].
    rewrite (proj2 (count_cell _ _ _ Hc1)). cbn. by rewrite lookup_delete_eq.
Qed.

Definition state_after {A} (o : option (A * state)) : state := default init (snd <$> o).

(** a copy made after [Detach] takes the counter through 0 again when it is destroyed: the
    counter is deleted under the pointer that was detached, whose destructor then accesses it;
    and when another member still has the object, the object is deleted under it and under the
    owner of the detached pointer. *)
Theorem detach_then_copy_fatal (x : T) :
  (exists s0 s1 s2 a, exec_all [New 0 x; Construct 1 0] init = Some ([Done; Done], s0) /\
     Detach 1 s0 = Some (Some a, s1) /\ exec_all [Copy 2 1; Destroy 2] s1 = Some ([Done; Done], s2) /\
     destroy 1 s2 = None) /\
  (exists s0 s1 s2 a, exec_all [New 0 x; Construct 1 0; Copy 2 1] init = Some ([Done; Done; Done], s0) /\
     Detach 1 s0 = Some (Some a, s1) /\ exec_all [Copy 3 2; Destroy 3] s1 = Some ([Done; Done], s2) /\
     deref 2 s2 = None /\ free (Some a) (data s2) = None).
Proof.
  split; [pose (s0 := state_after (exec_all [New 0 x; Construct 1 0] init))
    |pose (s0 := state_after (exec_all [New 0 x; Construct 1 0; Copy 2 1] init))]; pose (s1 := state_after (Detach 1 s0)).
  - exists s0, s1, (state_after (exec_all [Copy 2 1; Destroy 2] s1)), 0%nat. split_and!; vm_compute; reflexivity.
  - exists s0, s1, (state_after (exec_all [Copy 3 2; Destroy 3] s1)), 0%nat. split_and!; vm_compute; reflexivity.
Qed.
End Model.

Definition example : list (@stmt Z) :=
  [New 0 10; Construct 1 0; New 0 20; Construct 2 0; Copy 3 1; Assign 1 2; Write 1 21; Read 2; Read 3; Default 4;
   IsNull 4; Assign 4 3; Destroy 3; Read 4; New 0 30; AssignRaw 4 0; Read 4; Destroy 4; Destroy 1; Destroy 2].

(** [main] *)
Example main_runs :
  snd <$> exec_all [New 0 10; Construct 1 0; New 0 20; Construct 2 0; Assign 1 2; Destroy 2; Destroy 1] init =
  Some (mkState (mkHeap ∅ 2) (mkHeap ∅ 2) ∅ ∅).
Proof. vm_compute. reflexivity. Qed.

Lemma smartptr_is_shared_witness :
  exists s, exec_all example init =
      Some ([Done; Done; Done; Done; Done; Done; Done; Value 21; Value 10; Done; Null true; Done; Done; Value 10;
             Done; Done; Value 30; Done; Done; Done], s) /\
    rel s (mkGroups ∅ ∅ 4) /\ size (cells (data s)) = 0%nat /\ (cells (data s) = ∅ /\ cells (counts s) = ∅).
Proof.
  destruct (smartptr_is_shared example _ (mkGroups ∅ ∅ 4) ltac:(vm_compute; reflexivity)) as (s & H1 & H2 & H3 & H4).
  exists s. split_and!; [exact H1|done|done|by apply H4..].
Defined.

Definition held : list (@stmt Z) := [New 0 10; Construct 1 0; Copy 2 1].
Definition held_groups : @groups Z := mkGroups {[1%nat := 0%nat; 2%nat := 0%nat]} {[inl 0%nat := 10]} 1.

Lemma detach_leaks_witness :
  exists s s1 s2 a, exec_all held init = Some ([Done; Done; Done], s) /\
    Detach 1 s = Some (Some a, s1) /\ destroy_all [1; 2]%nat s1 = Some s2 /\
    cells (data s2) !! a = Some [10] /\ cells (counts s2) !! 0%nat = Some [2 ^ 64 - 2].
Proof.
  destruct (smartptr_is_shared held _ held_groups ltac:(vm_compute; reflexivity)) as (s & H1 & H2 & _).
  destruct (detach_leaks s held_groups 1 0 10 [1; 2]%nat H2) as (a & s1 & s2 & E1 & E2 & E3 & E4);
    [reflexivity|reflexivity|by apply (bool_decide_eq_true_1 _)|set_solver|cbn; lia|].
  exists s, s1, s2, a. split_and!; done.
Defined.

Definition sole_groups : @groups Z := mkGroups {[1%nat := 0%nat]} {[inl 0%nat := 10]} 1.

Lemma assign_own_pointer_fatal_witness :
  exists s p s1, exec_all [New 0 10; Construct 1 0] init = Some ([Done; Done], s) /\
    Get 1 s = Some p /\ assign_raw 1 p s = Some s1 /\ deref 1 s1 = None /\ destroy 1 s1 = None.
Proof.
  destruct (smartptr_is_shared [New 0 10; Construct 1 0] _ sole_groups
    ltac:(vm_compute; reflexivity)) as (s & H1 & H2 & _).
  destruct (assign_own_pointer_fatal s sole_groups 1 0 10 H2) as (p & s1 & H); [reflexivity|reflexivity|vm_compute; reflexivity|].
  by exists s, p, s1.
Defined.
End SmartPtr.
