(* ===== verification/Composite.v ===== *)
(** The composite pattern ([src/design_mode/component/component.cpp]): trees of components
    that delete their children. *)
From S2P Require Import Prelude.

Module Composite.

(** ** Components in memory *)

(** [Leaf] and [Composite] with their names; [m_vecComp] holds plain pointers, which may be
    null. *)
Inductive Component :=
  | Leaf (m_strComname : string)
  | Composite (m_strComname : string) (m_vecComp : list (option nat)).

Abbreviation memory := (gmap nat Component).

Definition GetName (n : Component) : string := match n with Leaf s | Composite s _ => s end.
Definition m_vecComp (n : Component) : list (option nat) := match n with Leaf _ => [] | Composite _ l => l end.

Definition name_at (p : option nat) (h : memory) : option string := a ← p; GetName <$> h !! a.

(** [delete p]: the destructor of [Composite] deletes each child that is not null, after it has
    asked it for its name.  Nothing may look at [p] in the meantime, so that it is taken out
    first.  The fuel bounds the depth. *)
Fixpoint destroy (fuel : nat) (a : nat) (h : memory) : option memory :=
  match fuel with
  | O => None
  | S fuel =>
      n ← h !! a;
      (fix children cs h :=
         match cs with
         | [] => Some h
         | None :: cs => children cs h
         | Some b :: cs => h1 ← destroy fuel b h; children cs h1
         end) (m_vecComp n) (delete a h)
  end.
Definition delete_ (p : option nat) (h : memory) : option memory :=
  match p with None => Some h | Some a => destroy (S (size h)) a h end.

(** [Add]; a leaf does nothing. *)
Definition Add (p : nat) (c : option nat) (h : memory) : option memory :=
  n ← h !! p;
  match n with
  | Leaf _ => Some h
  | Composite s l => Some (<[p := Composite s (l ++ [c])]> h)
  end.

(** [Remove]: the first child with the name of [c] is deleted and erased; its names are read
    again for each child, through pointers that must be good. *)
Fixpoint remove_loop (p : nat) (c : option nat) (seen rest : list (option nat)) (h : memory) : option memory :=
  match rest with
  | [] => Some h
  | it :: rest =>
      s1 ← name_at it h;
      s2 ← name_at c h;
      if bool_decide (s1 = s2) then
        h1 ← delete_ it h;
        n ← h1 !! p;
        Some (<[p := Composite (GetName n) (seen ++ rest)]> h1)
      else remove_loop p c (seen ++ [it]) rest h
  end.
Definition Remove (p : nat) (c : option nat) (h : memory) : option memory :=
  n ← h !! p;
  match n with Leaf _ => Some h | Composite _ l => remove_loop p c [] l h end.

(** [GetChild]: [index > m_vecComp.size()] compares as unsigned numbers of 64 bits, and so is
    [index - 1] taken for a place. *)
Definition GetChild (p : nat) (index : Z) (h : memory) : option (option nat) :=
  n ← h !! p;
  match n with
  | Leaf _ => Some None
  | Composite _ l =>
      if Z.of_nat (length l) <? wrapU 64 index then Some None
      else if wrapU 64 (index - 1) <? Z.of_nat (length l) then l !! Z.to_nat (wrapU 64 (index - 1)) else None
  end.

(** [Print]: the names of the children *)
Definition Print (p : nat) (h : memory) : option (list string) :=
  n ← h !! p; mapM (fun c => name_at c h) (m_vecComp n).

(** ** Trees

    The unfolding of what is below a component, null pointers left out; a component that was
    added twice occurs twice. *)
Inductive tree := Node (at_ : nat) (below : list tree).

Definition root (t : tree) : nat := match t with Node a _ => a end.

Lemma rose_ind (P : tree -> Prop) : (forall a ts, Forall P ts -> P (Node a ts)) -> forall t, P t.
Proof.
  intros HP. fix IH 1. intros [a ts]. apply HP.
  induction ts as [|t ts IHts]; constructor; [apply IH|exact IHts].
Qed.

(** Its components, from the top *)
Fixpoint nodes (t : tree) : list nat := match t with Node a ts => a :: concat (map nodes ts) end.
Definition nodes_of (ts : list tree) : list nat := concat (map nodes ts).

(** The memory holds the tree. *)
Inductive stands (h : memory) : tree -> Prop :=
  | stands_node a n ts :
      h !! a = Some n -> omap id (m_vecComp n) = root <$> ts -> Forall (stands h) ts -> stands h (Node a ts).

Definition without (X : gset nat) (h : memory) : memory := filter (fun p => p.1 ∉ X) h.

Lemma without_lookup X h a : without X h !! a = if decide (a ∈ X) then None else h !! a.
Proof.
  unfold without. case_decide as E.
  - apply map_lookup_filter_None. right. by intros n _ [].
  - destruct (h !! a) as [n|] eqn:Hn; [by apply map_lookup_filter_Some|apply map_lookup_filter_None; by left].
Qed.

Lemma delete_without a X h : delete a (without X h) = without ({[a]} ∪ X) h.
Proof. apply map_eq. intros b. rewrite lookup_delete, !without_lookup. repeat case_decide; try done; set_solver. Qed.

Lemma without_empty h : without ∅ h = h.
Proof. apply map_eq. intros b. rewrite without_lookup. case_decide; [set_solver|done]. Qed.

(** The loop of the destructor *)
Definition destroy_each (fuel : nat) : list (option nat) -> memory -> option memory :=
  fix children cs h :=
    match cs with
    | [] => Some h
    | None :: cs => children cs h
    | Some b :: cs => h1 ← destroy fuel b h; children cs h1
    end.

Lemma destroy_eq fuel a h :
  destroy (S fuel) a h = n ← h !! a; destroy_each fuel (m_vecComp n) (delete a h).
Proof. reflexivity. Qed.

Lemma destroy_each_omap fuel cs h : destroy_each fuel cs h = destroy_each fuel (Some <$> omap id cs) h.
Proof.
  revert h. induction cs as [|[b|] cs IH]; intros h; cbn; [done| |by rewrite IH].
  destruct (destroy fuel b h); [apply IH|done].
Qed.

(** How deep a tree is *)
Fixpoint depth (t : tree) : nat := match t with Node _ ts => S (foldr Nat.max 0%nat (map depth ts)) end.

(** Deleting the root of a tree, in a memory from which some components are gone: it takes out
    the components of the tree, if each is there and occurs once. *)
Lemma destroy_tree h t fuel X :
  stands h t -> (depth t <= fuel)%nat ->
  destroy fuel (root t) (without X h) =
    if decide (NoDup (nodes t) /\ list_to_set (nodes t) ## X)
    then Some (without (list_to_set (nodes t) ∪ X) h) else None.
Proof.
  revert fuel X. induction t as [a ts IH] using rose_ind. intros fuel X Hs Hf. inversion Hs as [? n ? Hn Hl Hts]; subst.
  destruct fuel as [|fuel]; [cbn in Hf; lia|]. rewrite destroy_eq. cbn [root nodes]. fold (nodes_of ts).
  rewrite without_lookup. destruct (decide (a ∈ X)) as [Ha|Ha].
  { cbn. rewrite decide_False; [done|]. intros [_ H]. set_solver. }
  rewrite Hn. cbn [mbind option_bind]. rewrite delete_without, destroy_each_omap, Hl.
  assert (Hd : Forall (fun t => (depth t <= fuel)%nat) ts).
  { cbn in Hf. apply le_S_n in Hf. clear -Hf. induction ts as [|t ts IHt]; cbn in Hf; constructor; [lia|]. apply IHt. lia. }
  assert (Hloop : forall X, destroy_each fuel (Some <$> (root <$> ts)) (without X h) =
    if decide (NoDup (nodes_of ts) /\ list_to_set (nodes_of ts) ## X)
    then Some (without (list_to_set (nodes_of ts) ∪ X) h) else None).
  { clear -IH Hts Hd. induction ts as [|t ts IHts]; intros X.
    - change (nodes_of []) with (@nil nat). rewrite decide_True by (split; [constructor|set_solver]).
      by replace (list_to_set [] ∪ X) with X by set_solver.
    - apply Forall_cons in IH as [IHt IH]. apply Forall_cons in Hts as [Ht Hts]. apply Forall_cons in Hd as [Hdt Hd].
      cbn [fmap list_fmap destroy_each]. rewrite IHt by done.
      change (nodes_of (t :: ts)) with (nodes t ++ nodes_of ts). case_decide as Ec; cbn [mbind option_bind].
      + rewrite (IHts IH Hts Hd), list_to_set_app_L. destruct Ec as [E1 E2].
        case_decide as Ed; case_decide as Ee; try done.
        * do 2 f_equal. set_solver.
        * destruct Ee. destruct Ed as [E3 E4]. split; [apply NoDup_app; split_and!; [done|set_solver|done]|set_solver].
        * destruct Ed. destruct Ee as [E3 E4]. apply NoDup_app in E3 as (_ & E5 & E6). split; [done|set_solver].
      + rewrite decide_False; [done|]. rewrite list_to_set_app_L. intros [E1 E2]. apply NoDup_app in E1 as (E3 & _ & _).
        apply Ec. split; [done|set_solver]. }
  rewrite Hloop, list_to_set_cons. case_decide as Ed; case_decide as Ee; try done.
  - do 2 f_equal. set_solver.
  - destruct Ee. destruct Ed as [E3 E4]. split; [constructor; set_solver|set_solver].
  - destruct Ed. destruct Ee as [E3 E4]. apply NoDup_cons in E3 as [E3 E5]. split; [done|].
    clear -E3 E4. intros b Hb Hx. rewrite elem_of_list_to_set in Hb. apply elem_of_union in Hx as [Hx|Hx]; [set_solver|].
    apply (E4 b); [|done]. apply elem_of_union_r. by apply elem_of_list_to_set.
Qed.

(** ** The fuel is enough *)

Lemma destroy_each_subset fuel :
  (forall a h h', destroy fuel a h = Some h' -> h' ⊆ h /\ a ∉ dom h') ->
  forall cs h h', destroy_each fuel cs h = Some h' -> h' ⊆ h.
Proof.
  intros Hd cs. induction cs as [|[b|] cs IH]; intros h h' H; cbn in H; [by simplify_eq| |by apply IH].
  apply bind_Some in H as (h1 & H1 & H2). apply Hd in H1 as [H1 _]. apply IH in H2. by transitivity h1.
Qed.

Lemma destroy_subset fuel a h h' : destroy fuel a h = Some h' -> h' ⊆ h /\ a ∉ dom h'.
Proof.
  revert a h h'. induction fuel as [|fuel IH]; intros a h h' H; [done|]. rewrite destroy_eq in H.
  apply bind_Some in H as (n & Hn & H). apply (destroy_each_subset _ IH) in H. split.
  - transitivity (delete a h); [done|apply delete_subseteq].
  - intros Ha. apply (subseteq_dom (D := gset nat)) in H. set_solver.
Qed.

Lemma destroy_fuel fuel fuel' a h : (size h < fuel)%nat -> (size h < fuel')%nat -> destroy fuel a h = destroy fuel' a h.
Proof.
  revert fuel' a h. induction fuel as [|fuel IH]; intros [|fuel'] a h H1 H2; [lia..|]. rewrite !destroy_eq.
  destruct (h !! a) as [n|] eqn:Hn; [|done]. cbn [mbind option_bind].
  assert (Hs : (size (delete a h) < size h)%nat).
  { rewrite map_size_delete_Some by eauto. assert (size h <> 0%nat) by (rewrite map_size_ne_0_lookup; eauto). lia. }
  assert (Hl : forall cs h1, (size h1 < size h)%nat -> destroy_each fuel cs h1 = destroy_each fuel' cs h1); [|by apply Hl].
  intros cs. induction cs as [|[b|] cs IHcs]; intros h1 Hh; cbn; [done| |by apply IHcs].
  rewrite (IH fuel' b h1) by lia. destruct (destroy fuel' b h1) as [h2|] eqn:Hd; [|done]. cbn.
  apply destroy_subset in Hd as [Hd _]. apply map_subseteq_size in Hd. apply IHcs. lia.
Qed.

(** C28: deleting a component takes out exactly what is below it, when everything there was
    added once; when something was added twice, in one place or in two, it is undefined. *)
Theorem delete_tree h t :
  stands h t ->
  delete_ (Some (root t)) h = if decide (NoDup (nodes t)) then Some (without (list_to_set (nodes t)) h) else None.
Proof.
  intros Hs. cbn [delete_]. rewrite (destroy_fuel _ (S (size h) + depth t)) by lia.
  rewrite <- (without_empty h) at 2. rewrite destroy_tree by (done || lia).
  replace (list_to_set (nodes t) ∪ ∅) with (list_to_set (C := gset nat) (nodes t)) by set_solver.
  case_decide as E1; case_decide as E2; try done; [by destruct E2; apply E1|]. destruct E1. split; [done|set_solver].
Qed.

Definition named (nm : string) (h : memory) (t : tree) : Prop := name_at (Some (root t)) h = Some nm.

Lemma remove_loop_spec p c nm s h seen ts :
  name_at c h = Some nm -> Forall (stands h) ts -> NoDup (p :: nodes_of ts) ->
  h !! p = Some (Composite s (seen ++ (Some <$> (root <$> ts)))) ->
  (exists ts1 t ts2, ts = ts1 ++ t :: ts2 /\ named nm h t /\ Forall (fun t => ~ named nm h t) ts1 /\
     remove_loop p c seen (Some <$> (root <$> ts)) h =
       Some (<[p := Composite s (seen ++ (Some <$> (root <$> (ts1 ++ ts2))))]> (without (list_to_set (nodes t)) h))) \/
  (Forall (fun t => ~ named nm h t) ts /\ remove_loop p c seen (Some <$> (root <$> ts)) h = Some h).
Proof.
  intros Hc Hts. revert seen. induction Hts as [|t ts Ht Hts IH]; intros seen Hnd Hp; [by right|].
  change (nodes_of (t :: ts)) with (nodes t ++ nodes_of ts) in Hnd. rewrite app_comm_cons in Hnd.
  cbn [fmap list_fmap remove_loop]. assert (Hn : exists n, h !! root t = Some n) by (inversion Ht; subst; eauto).
  destruct Hn as [n Hn]. assert (En : name_at (Some (root t)) h = Some (GetName n)) by (cbn; by rewrite Hn).
  rewrite En, Hc. cbn [mbind option_bind]. case_bool_decide as E.
  - left. exists [], t, ts. split_and!; [done|by rewrite <- E|constructor|].
    assert (Hnt : NoDup (nodes t)) by (apply NoDup_app in Hnd as (H & _ & _); by apply NoDup_cons in H as [_ H]).
    rewrite (delete_tree _ _ Ht), decide_True by done. cbn [mbind option_bind].
    rewrite without_lookup, decide_False, Hp; [done|]. rewrite elem_of_list_to_set.
    by apply NoDup_app in Hnd as (H & _ & _); apply NoDup_cons in H as [H _].
  - destruct (IH (seen ++ [Some (root t)])) as [(ts1 & t1 & ts2 & -> & H1 & H2 & H3)|[H1 H2]].
    + apply NoDup_app in Hnd as (H1 & H2 & H3). apply NoDup_cons in H1 as [_ H1]. constructor; [|done]. apply H2. left.
    + rewrite <- app_assoc. exact Hp.
    + left. exists (t :: ts1), t1, ts2. split_and!; [done|done| |].
      * constructor; [|done]. unfold named. rewrite En. congruence.
      * etransitivity; [exact H3|]. by rewrite <- app_assoc.
    + right. split; [|exact H2]. constructor; [|done]. unfold named. rewrite En. congruence.
Qed.

(** [Remove] deletes the first child that has the name of its argument, with all below it,
    whether or not it is the argument; the other children keep their order.  Without such a
    child it does nothing. *)
Theorem Remove_spec p c nm s h ts :
  name_at c h = Some nm -> Forall (stands h) ts -> NoDup (p :: nodes_of ts) ->
  h !! p = Some (Composite s (Some <$> (root <$> ts))) ->
  (exists ts1 t ts2, ts = ts1 ++ t :: ts2 /\ named nm h t /\ Forall (fun t => ~ named nm h t) ts1 /\
     Remove p c h = Some (<[p := Composite s (Some <$> (root <$> (ts1 ++ ts2)))]> (without (list_to_set (nodes t)) h))) \/
  (Forall (fun t => ~ named nm h t) ts /\ Remove p c h = Some h).
Proof.
  intros Hc Hts Hnd Hp. unfold Remove. rewrite Hp. cbn [mbind option_bind].
  by apply (remove_loop_spec p c nm s h [] ts).
Qed.

(** children are numbered from 1; below and above there is none, but asking for number 0
    reads before the first element of the vector. *)
Theorem GetChild_spec p s l index h :
  h !! p = Some (Composite s l) -> Z.of_nat (length l) < 2 ^ 31 -> INT_MIN <= index <= INT_MAX ->
  (1 <= index <= Z.of_nat (length l) -> GetChild p index h = l !! Z.to_nat (index - 1)) /\
  (index < 0 \/ Z.of_nat (length l) < index -> GetChild p index h = Some None) /\
  (index = 0 -> GetChild p index h = None).
Proof.
  intros Hp Hl Hi. unfold INT_MIN, INT_MAX in Hi. unfold GetChild. rewrite Hp. cbn [mbind option_bind]. split_and!.
  - intros H. rewrite (wrapU_small 64 index), (wrapU_small 64 (index - 1)) by lia.
    rewrite (proj2 (Z.ltb_ge _ _)), (proj2 (Z.ltb_lt _ _)) by lia. done.
  - intros H. assert (Hw : Z.of_nat (length l) < wrapU 64 index).
    { destruct H as [H|H]; [|by rewrite wrapU_small by lia]. unfold wrapU. rewrite <- (Z.mod_add _ 1) by lia.
      rewrite Z.mod_small; lia. }
    by rewrite (proj2 (Z.ltb_lt _ _) Hw).
  - intros ->. rewrite (wrapU_small 64 0), (proj2 (Z.ltb_ge _ 0)) by lia.
    change (wrapU 64 (0 - 1)) with (2 ^ 64 - 1). by rewrite (proj2 (Z.ltb_ge _ _)) by lia.
Qed.

(** ** [main] *)

Definition names : list Component :=
  [Composite "BJ head office" []; Composite "HR" []; Composite "SH" []; Composite "CD" []; Composite "BT" [];
   Leaf "SH HR"; Leaf "SH Purching Department"; Leaf "SH Sales Department"; Leaf "SH QA Department"]%string.

(** The components as they are created, each at its place in this list *)
Definition created : memory := list_to_map (zip (seq 0 9) names).

(** [pNode] is 0, [pNodeHr] 1, [pNodecd] 2, [pNodesh] 3, [pNodeBt] 4 and the four leaves 5 to 8. *)
Definition office : option memory :=
  h ← Add 0 (Some 1%nat) created; h ← Add 0 (Some 3%nat) h; h ← Add 0 (Some 2%nat) h; h ← Add 0 (Some 4%nat) h;
  h ← Add 3 (Some 5%nat) h; h ← Add 3 (Some 6%nat) h; h ← Add 3 (Some 7%nat) h; Add 3 (Some 8%nat) h.

Example main_prints : (h ← office; Print 0 h) = Some ["HR"; "CD"; "SH"; "BT"]%string.
Proof. vm_compute. reflexivity. Qed.
Example main_leaves_nothing : (h ← office; h ← Remove 3 (Some 8%nat) h; delete_ (Some 0%nat) h) = Some ∅.
Proof. vm_compute. reflexivity. Qed.

Definition leaf (a : nat) : tree := Node a [].
Definition departments : list tree := [leaf 5; leaf 6; leaf 7; leaf 8].
Definition office_tree : tree := Node 0 [leaf 1; Node 3 departments; leaf 2; leaf 4].
(** Another one, with the same component in two places *)
Definition shared_tree : tree := Node 0 [Node 1 [leaf 2]; Node 3 departments; leaf 2; leaf 4].

(** The memory of the office, and of the one where "SH" is below "HR" as well *)
Definition office_memory : memory := default ∅ office.
Definition shared_memory : memory := default ∅ (Add 1 (Some 2%nat) office_memory).

Lemma office_stands : stands office_memory office_tree.
Proof. repeat first [econstructor; [vm_compute; reflexivity|reflexivity|] | constructor]. Qed.
Lemma shared_stands : stands shared_memory shared_tree.
Proof. repeat first [econstructor; [vm_compute; reflexivity|reflexivity|] | constructor]. Qed.

Lemma delete_tree_witness :
  delete_ (Some 0%nat) office_memory = Some ∅ /\ delete_ (Some 0%nat) shared_memory = None.
Proof.
  split.
  - etransitivity; [exact (delete_tree _ _ office_stands)|]. vm_compute. reflexivity.
  - pose proof (delete_tree _ _ shared_stands) as H. case_decide as E; [|exact H].
    by apply (bool_decide_eq_false_1 (NoDup (nodes shared_tree))) in E.
Defined.

Lemma Remove_spec_witness :
  exists ts1 t ts2, departments = ts1 ++ t :: ts2 /\ named "SH QA Department" office_memory t /\
    Remove 3 (Some 8%nat) office_memory =
      Some (<[3%nat := Composite "CD" (Some <$> (root <$> (ts1 ++ ts2)))]> (without (list_to_set (nodes t)) office_memory)).
Proof.
  destruct (Remove_spec 3 (Some 8%nat) "SH QA Department" "CD" office_memory departments) as [(ts1 & t & ts2 & H1 & H2 & _ & H3)|[H _]].
  - reflexivity.
  - repeat first [econstructor; [vm_compute; reflexivity|reflexivity|] | constructor].
  - by apply (bool_decide_eq_true_1 _).
  - reflexivity.
  - by exists ts1, t, ts2.
  - exfalso. do 4 apply Forall_cons in H as [? H]. by apply H0.
Defined.

Lemma GetChild_spec_witness :
  GetChild 0 1 office_memory = Some (Some 1%nat) /\ GetChild 0 5 office_memory = Some None /\ GetChild 0 0 office_memory = None.
Proof.
  split_and!.
  - apply (GetChild_spec 0 "BJ head office" [Some 1; Some 3; Some 2; Some 4]%nat 1);
      [reflexivity|cbn; lia|unfold INT_MIN, INT_MAX; lia|cbn; lia].
  - apply (GetChild_spec 0 "BJ head office" [Some 1; Some 3; Some 2; Some 4]%nat 5);
      [reflexivity|cbn; lia|unfold INT_MIN, INT_MAX; lia|right; cbn; lia].
  - apply (GetChild_spec 0 "BJ head office" [Some 1; Some 3; Some 2; Some 4]%nat 0);
      [reflexivity|cbn; lia|unfold INT_MIN, INT_MAX; lia|reflexivity].
Defined.
End Composite.
