(* ===== verification/Hangman.v ===== *)
(** The word game of [src/primer_plus/chap16/16.1/hangman.cpp]. *)
From Stdlib Require Import Ascii String.
From S2P Require Import Prelude.

Module Hangman.

Abbreviation text := (list ascii).
Definition of_string : string -> text := list_ascii_of_string.

Definition worldlist : list text := of_string <$>
  ["apiary"; "beetle"; "cereal"; "danger"; "ensign"; "florid"; "garage"; "health"; "insult"; "jackal"; "keeper";
   "loaner"; "manage"; "nonce"; "onset"; "plaid"; "quilt"; "remote"; "stolid"; "train"; "useful"; "valid"; "whence";
   "xenon"; "yearn"; "zippy"]%string.
Definition NUM : Z := 26.

(** [std::string::find] of a character from a position on; [None] is [npos], which an [int]
    keeps as [-1] and compares equal. *)
Definition find (c : ascii) (s : text) (from : nat) : option nat :=
  p ← list_find (fun x => x = c) (drop from s); Some (from + p.1)%nat.

(** ** A guess *)

Record game := mkGame {
  attempt : text;
  badchars : text;
  guesses : Z;
}.

(** The loop that puts the letter where it appears again; one turn for each place at most *)
Fixpoint put_letter (fuel : nat) (letter : ascii) (target : text) (loc : option nat) (a : text) : text :=
  match fuel, loc with
  | S fuel, Some l => put_letter fuel letter target (find letter target (S l)) (<[l := letter]> a)
  | _, _ => a
  end.

Definition guess (target : text) (letter : ascii) (g : game) : game :=
  if bool_decide (letter ∈ badchars g) || bool_decide (letter ∈ attempt g) then g
  else
    match find letter target 0 with
    | None => mkGame (attempt g) (badchars g ++ [letter]) (guesses g - 1)
    | loc => mkGame (put_letter (length target) letter target loc (attempt g)) (badchars g) (guesses g)
    end.

Definition running (target : text) (g : game) : bool := (0 <? guesses g) && negb (bool_decide (attempt g = target)).

(** What [cin >> letter] skips *)
Definition isspace (c : ascii) : bool := let n := nat_of_ascii c in (n =? 32)%nat || ((9 <=? n)%nat && (n <=? 13)%nat).

(** The loop over the guesses: the game and the input that is left, [None] when the input ends
    before, so that [letter] is read without a value. *)
Fixpoint rounds (target : text) (g : game) (input : text) : option (game * text) :=
  if running target g then
    match input with
    | [] => None
    | c :: input => if isspace c then rounds target g input else rounds target (guess target c g) input
    end
  else Some (g, input).

Definition start (target : text) : game := mkGame (replicate (length target) "-"%char) [] 6.

Fixpoint next_char (input : text) : option (ascii * text) :=
  match input with
  | [] => None
  | c :: input => if isspace c then next_char input else Some (c, input)
  end.

Definition tolower (c : ascii) : ascii :=
  let n := nat_of_ascii c in if (65 <=? n)%nat && (n <=? 90)%nat then ascii_of_nat (n + 32) else c.

(** [main] after its first answer: the words with whether they were found; [rands] is what
    [rand] returns.  At the end of the input [play] keeps its value and the next guess has none. *)
Fixpoint play (again : ascii) (rands : list Z) (input : text) : option (list (text * bool)) :=
  if bool_decide (tolower again = "y"%char) then
    match rands with
    | [] => None
    | r :: rands =>
        target ← worldlist !! Z.to_nat (r `mod` NUM);
        '(g, input) ← rounds target (start target) input;
        '(again, input) ← next_char input;
        rest ← play again rands input;
        Some ((target, 0 <? guesses g) :: rest)
    end
  else Some [].
Definition main (rands : list Z) (input : text) : option (list (text * bool)) :=
  '(again, input) ← next_char input; play again rands input.

(** ** What the guesses come to *)

(** The letters that count: a hyphen never does. *)
Definition letters (gs : text) : text := filter (fun c => c <> "-"%char) gs.
Definition wrong (target gs : text) : text := reverse (remove_dups (reverse (filter (fun c => c ∉ target) (letters gs)))).
Definition board (target gs : text) : text := (fun c => if bool_decide (c ∈ gs) then c else "-"%char) <$> target.
Definition outcome (target gs : text) : game :=
  mkGame (board target gs) (wrong target gs) (6 - Z.of_nat (length (wrong target gs))).

(** ** The loop that puts a letter *)

Lemma find_some c s from l :
  find c s from = Some l <-> (from <= l)%nat /\ s !! l = Some c /\ forall j, (from <= j < l)%nat -> s !! j <> Some c.
Proof.
  unfold find. split.
  - intros H. apply bind_Some in H as ([i x] & H & E). apply list_find_Some in H as (H1 & -> & H2). cbn in E. simplify_eq.
    rewrite lookup_drop in H1. split_and!; [lia|done|]. intros j Hj Hc. apply (H2 (j - from)%nat c); [|lia|done].
    rewrite lookup_drop. by replace (from + (j - from))%nat with j by lia.
  - intros (H1 & H2 & H3). assert (E : list_find (fun x => x = c) (drop from s) = Some ((l - from)%nat, c)).
    { apply list_find_Some. rewrite lookup_drop. replace (from + (l - from))%nat with l by lia. split_and!; [done|done|].
      intros j y Hj Hl ->. rewrite lookup_drop in Hj. apply (H3 (from + j)%nat); [lia|done]. }
    rewrite E. cbn. f_equal. lia.
Qed.

Lemma find_none c s from : find c s from = None <-> forall j, (from <= j)%nat -> s !! j <> Some c.
Proof.
  unfold find. destruct (list_find (fun x => x = c) (drop from s)) as [[i x]|] eqn:E; cbn; split; try done.
  - intros H. exfalso. apply list_find_Some in E as (E & -> & _). rewrite lookup_drop in E. apply (H (from + i)%nat); [lia|done].
  - intros _ j Hj Hc. apply list_find_None in E. rewrite Forall_lookup in E. apply (E (j - from)%nat c); [|done].
    rewrite lookup_drop. by replace (from + (j - from))%nat with j by lia.
Qed.

Lemma put_letter_lookup fuel letter target from a j :
  length a = length target -> (length target <= from + fuel)%nat ->
  put_letter fuel letter target (find letter target from) a !! j =
    if decide ((from <= j)%nat /\ target !! j = Some letter) then Some letter else a !! j.
Proof.
  revert from a. induction fuel as [|fuel IH]; intros from a Ha Hf; cbn [put_letter].
  - rewrite decide_False; [done|]. intros [H1 H2]. apply lookup_lt_Some in H2. lia.
  - destruct (find letter target from) as [l|] eqn:E.
    + apply find_some in E as (E1 & E2 & E3). pose proof (lookup_lt_Some _ _ _ E2).
      rewrite IH by (rewrite ?length_insert; lia). destruct (decide (j = l)) as [->|Hj].
      * rewrite decide_False by lia. rewrite list_lookup_insert_eq by lia. by rewrite decide_True by (split; [lia|done]).
      * rewrite list_lookup_insert_ne by done. destruct (decide (target !! j = Some letter)) as [Ht|Ht].
        { destruct (decide (S l <= j)%nat); [by rewrite !decide_True by (split; [lia|done])|].
          rewrite !decide_False; [done| |lia]. intros [H1 _]. apply (E3 j); [lia|done]. }
        { rewrite !decide_False by tauto. done. }
    + rewrite find_none in E. rewrite decide_False; [done|]. intros [H1 H2]. by apply (E j).
Qed.

(** ** A guess counts as a member of a set *)

Lemma wrong_snoc target gs c :
  wrong target (gs ++ [c]) =
    if decide ((c <> "-"%char) /\ (c ∉ target) /\ (c ∉ wrong target gs)) then wrong target gs ++ [c] else wrong target gs.
Proof.
  unfold wrong, letters. rewrite !filter_app. destruct (decide (c = "-"%char)) as [->|Hc].
  - rewrite (filter_cons_False _ "-"%char) by naive_solver. cbn. rewrite app_nil_r. by rewrite decide_False by tauto.
  - rewrite (filter_cons_True (fun c => c <> "-"%char) c []) by done. rewrite filter_nil.
    destruct (decide (c ∈ target)) as [Ht|Ht].
    + rewrite filter_cons_False, filter_nil, app_nil_r by tauto. by rewrite decide_False by tauto.
    + rewrite filter_cons_True, filter_nil, reverse_snoc by done.
      set (l := filter (fun c => c ∉ target) (filter (fun c => c <> "-"%char) gs)). cbn [remove_dups].
      assert (Hin : c ∈ reverse (remove_dups (reverse l)) <-> c ∈ reverse l).
      { by rewrite elem_of_reverse, elem_of_remove_dups. }
      destruct (decide_rel _ c (reverse l)) as [Hl|Hl].
      * rewrite decide_False; [done|]. tauto.
      * rewrite decide_True by tauto. by rewrite reverse_cons.
Qed.

Lemma board_lookup target gs j : board target gs !! j = (fun c => if bool_decide (c ∈ gs) then c else "-"%char) <$> target !! j.
Proof. apply list_lookup_fmap. Qed.

(** A letter that was guessed, or is not in the word, shows nothing new. *)
Lemma board_same target gs c : c ∈ gs \/ c ∉ target -> board target (gs ++ [c]) = board target gs.
Proof.
  intros H. apply list_eq. intros j. rewrite !board_lookup. destruct (target !! j) as [x|] eqn:E; [|done].
  apply list_elem_of_lookup_2 in E. cbn. f_equal. erewrite bool_decide_ext; [done|]. rewrite elem_of_app, list_elem_of_singleton.
  split; [|tauto]. intros [?| ->]; tauto.
Qed.

Lemma board_running target gs : board target gs <> target -> exists x, x ∈ target /\ x ∉ gs.
Proof.
  intros H. destruct (decide (Forall (fun x => x ∈ gs) target)) as [Hall|Hnot].
  - destruct H. unfold board. rewrite <- (list_fmap_id target) at 2. apply list_fmap_ext. intros i x Hx.
    rewrite Forall_lookup in Hall. by rewrite bool_decide_true by eauto.
  - apply not_Forall_Exists in Hnot; [|apply _]. apply Exists_exists in Hnot. done.
Qed.

Lemma running_outcome target gs :
  "-"%char ∉ target ->
  (running target (outcome target gs) = true <-> (length (wrong target gs) < 6)%nat /\ exists x, x ∈ target /\ x ∉ gs).
Proof.
  intros Ht. unfold running, outcome. cbn [guesses attempt]. rewrite andb_true_iff, Z.ltb_lt, negb_true_iff, bool_decide_eq_false.
  split; intros [H1 H2]; (split; [lia|]).
  - by apply board_running.
  - destruct H2 as (x & Hx & Hg). intros E. apply list_elem_of_lookup in Hx as [j Hj].
    pose proof (board_lookup target gs j) as Hb. rewrite E, Hj in Hb. cbn in Hb.
    rewrite bool_decide_false in Hb by done. simplify_eq. by apply list_elem_of_lookup_2 in Hj.
Qed.

Lemma guess_outcome target gs c :
  "-"%char ∉ target -> running target (outcome target gs) = true ->
  guess target c (outcome target gs) = outcome target (gs ++ [c]).
Proof.
  intros Ht Hrun. apply running_outcome in Hrun as [_ (x & Hx & Hxg)]; [|done].
  unfold guess. cbn [attempt badchars guesses outcome].
  assert (Hboard : c ∈ board target gs <-> c = "-"%char \/ c ∈ target /\ c ∈ gs).
  { split.
    - intros H. apply list_elem_of_lookup in H as [j H]. rewrite board_lookup in H. apply fmap_Some in H as (y & Hy & E).
      apply list_elem_of_lookup_2 in Hy. case_bool_decide; subst; auto.
    - intros [-> |[H1 H2]]; [apply list_elem_of_lookup in Hx as [j Hj]|apply list_elem_of_lookup in H1 as [j Hj]];
        apply list_elem_of_lookup; exists j; rewrite board_lookup, Hj; cbn;
        [by rewrite bool_decide_false|by rewrite bool_decide_true]. }
  destruct (bool_decide (c ∈ wrong target gs)) eqn:Hw; [apply bool_decide_eq_true in Hw|apply bool_decide_eq_false in Hw].
  { cbn. unfold outcome. rewrite wrong_snoc, decide_False by tauto. rewrite board_same; [done|right].
    unfold wrong in Hw. rewrite elem_of_reverse, elem_of_remove_dups, elem_of_reverse, list_elem_of_filter in Hw. tauto. }
  destruct (bool_decide (c ∈ board target gs)) eqn:Hb; [apply bool_decide_eq_true in Hb|apply bool_decide_eq_false in Hb].
  { cbn. unfold outcome. rewrite wrong_snoc, decide_False by naive_solver. rewrite board_same; [done|]. naive_solver. }
  cbn [orb]. destruct (find c target 0) as [l|] eqn:Hf.
  - pose proof Hf as (_ & Hl & _)%find_some. assert (Hct : c ∈ target) by (by eapply list_elem_of_lookup_2).
    unfold outcome. rewrite wrong_snoc, decide_False by naive_solver. f_equal. apply list_eq. intros j.
    rewrite <- Hf, put_letter_lookup by (unfold board; rewrite ?length_fmap; lia). rewrite !board_lookup.
    destruct (target !! j) as [y|] eqn:Hj; cbn; [|by rewrite decide_False by naive_solver].
    destruct (decide (y = c)) as [->|Hy].
    + rewrite decide_True by (split; [lia|done]). by rewrite bool_decide_true by set_solver.
    + rewrite decide_False by naive_solver. f_equal. erewrite bool_decide_ext; [done|]. set_solver.
  - rewrite find_none in Hf. assert (Hct : c ∉ target).
    { intros [j Hj]%list_elem_of_lookup. apply (Hf j); [lia|done]. }
    unfold outcome. rewrite wrong_snoc, decide_True by tauto. rewrite board_same by tauto. rewrite length_app. cbn.
    f_equal. lia.
Qed.

(** C29: for a word without a hyphen and guesses in any order and as often as one likes, the
    game is a matter of sets.  It goes on just as long as a letter of the word is missing and fewer
    than six different wrong letters were named; until then the word shows exactly the letters
    named, wrong letters are kept once, in their order, and a repeated guess, or a
    hyphen, costs nothing.  When it ends it leaves the rest of the input, and when the input
    ends first the next guess is read without a value. *)
Theorem game_is_sets target gs rest :
  "-"%char ∉ target -> Forall (fun c => isspace c = false) gs ->
  (forall n, (n < length gs)%nat -> running target (outcome target (take n gs)) = true) ->
  (running target (outcome target gs) = false -> rounds target (start target) (gs ++ rest) = Some (outcome target gs, rest)) /\
  (running target (outcome target gs) = true -> rounds target (start target) gs = None) /\
  (running target (outcome target gs) = true <-> (length (wrong target gs) < 6)%nat /\ exists x, x ∈ target /\ x ∉ gs).
Proof.
  intros Ht Hsp Hrun.
  assert (H : forall sofar gs rest, Forall (fun c => isspace c = false) gs ->
    (forall n, (n < length gs)%nat -> running target (outcome target (sofar ++ take n gs)) = true) ->
    rounds target (outcome target sofar) (gs ++ rest) = rounds target (outcome target (sofar ++ gs)) rest).
  { clear gs rest Hsp Hrun. intros sofar gs. revert sofar. induction gs as [|c gs IH]; intros sofar rest Hsp Hrun.
    - by rewrite app_nil_r.
    - apply Forall_cons in Hsp as [Hc Hsp]. pose proof (Hrun 0%nat ltac:(cbn; lia)) as H0. cbn in H0. rewrite app_nil_r in H0.
      cbn [app rounds]. rewrite H0, Hc, guess_outcome by done. rewrite IH.
      + by rewrite <- app_assoc.
      + done.
      + intros n Hn. rewrite <- app_assoc. cbn. apply (Hrun (S n)). cbn. lia. }
  assert (E0 : start target = outcome target []).
  { unfold start, outcome, board, wrong. cbn. f_equal. clear. induction target as [|x l IH]; cbn; [done|]. by f_equal. }
  rewrite E0. split_and!.
  - intros Hend. rewrite (H [] gs rest Hsp Hrun). cbn [app]. destruct rest; cbn [rounds]; by rewrite Hend.
  - intros Hgo. rewrite <- (app_nil_r gs), (H [] gs [] Hsp Hrun). cbn [app rounds]. by rewrite Hgo.
  - by apply running_outcome.
Qed.

Example play_once :
  main [3] (of_string "y e a x n d g r n"%string) = Some [(of_string "danger"%string, true)].
Proof. vm_compute. reflexivity. Qed.

(** No word has a hyphen, and six wrong letters lose. *)
Example words_ok : Forall (fun w => ("-"%char ∉ w) /\ w <> []) worldlist /\ Z.of_nat (length worldlist) = NUM.
Proof. split; [|reflexivity]. by apply (bool_decide_eq_true_1 _). Qed.
Example play_and_lose :
  main [19] (of_string "Y b c d - e f g n"%string) = Some [(of_string "train"%string, false)].
Proof. vm_compute. reflexivity. Qed.

Lemma game_is_sets_witness :
  rounds (of_string "nonce"%string) (start (of_string "nonce"%string)) (of_string "n-nqocec"%string) =
    Some (mkGame (of_string "nonce"%string) (of_string "q"%string) 5, of_string "c"%string) /\
  rounds (of_string "nonce"%string) (start (of_string "nonce"%string)) (of_string "nqo"%string) = None.
Proof.
  split.
  - apply (game_is_sets (of_string "nonce"%string) (of_string "n-nqoce"%string) (of_string "c"%string));
      [by apply (bool_decide_eq_true_1 _)|repeat constructor| |vm_compute; reflexivity].
    intros n Hn. do 7 (destruct n as [|n]; [vm_compute; reflexivity|]). cbn in Hn. lia.
  - apply (game_is_sets (of_string "nonce"%string) (of_string "nqo"%string) []);
      [by apply (bool_decide_eq_true_1 _)|repeat constructor| |vm_compute; reflexivity].
    intros n Hn. do 3 (destruct n as [|n]; [vm_compute; reflexivity|]). cbn in Hn. lia.
Defined.
End Hangman.
