(* ===== verification/Flyweight.v ===== *)
(** The flyweight pattern ([src/design_mode/sharemeta/shared_data.cpp]): a board whose pieces
    are shared, one object for each colour. *)
From stdpp Require Import sorting.
From S2P Require Import Prelude.

Module Flyweight.

(** ** Points and pieces *)

Definition POINT : Type := Z * Z.

(** [pointTag::operator<] *)
Definition less (a b : POINT) : bool :=
  if a.1 <? b.1 then true else if a.1 =? b.1 then a.2 <? b.2 else false.

Inductive PIECECOLOR := BLACK | WHITE.
#[global] Instance PIECECOLOR_eq_dec : EqDecision PIECECOLOR.
Proof. solve_decision. Defined.

(** [m_piecePoint] has no value before [setPoint]. *)
Record piece := mkPiece {
  m_pieceColor : PIECECOLOR;
  m_piecePoint : option POINT;
}.

(** The pieces in memory, the vector of the factory and the map of the board; the map holds
    pointers to the pieces of the factory. *)
Record state := mkState {
  memory : gmap nat piece;
  fresh_ : nat;
  m_piece : list nat;
  m_mapPieces : gmap POINT nat;
}.
Definition init : state := mkState ∅ 0 [] ∅.

Definition new_piece (color : PIECECOLOR) (s : state) : nat * state :=
  (fresh_ s, mkState (<[fresh_ s := mkPiece color None]> (memory s)) (S (fresh_ s)) (m_piece s ++ [fresh_ s]) (m_mapPieces s)).

(** The loop of [GetPiece] over the vector; [Some None] when it has none of the colour *)
Fixpoint find_piece (color : PIECECOLOR) (l : list nat) (s : state) : option (option nat) :=
  match l with
  | [] => Some None
  | it :: l =>
      o ← memory s !! it;
      if decide (m_pieceColor o = color) then Some (Some it) else find_piece color l s
  end.

Definition GetPiece (color : PIECECOLOR) (s : state) : option (nat * state) :=
  match m_piece s with
  | [] => Some (new_piece color s)
  | l =>
      r ← find_piece color l s;
      match r with Some p => Some (p, s) | None => Some (new_piece color s) end
  end.

Definition setPoint (p : nat) (pt : POINT) (s : state) : option state :=
  o ← memory s !! p;
  Some (mkState (<[p := mkPiece (m_pieceColor o) (Some pt)]> (memory s)) (fresh_ s) (m_piece s) (m_mapPieces s)).

(** [Draw] reads the point of the piece and puts it on the map, unless the point is taken. *)
Definition Draw (p : nat) (s : state) : option state :=
  o ← memory s !! p;
  pt ← m_piecePoint o;
  Some (mkState (memory s) (fresh_ s) (m_piece s)
    (match m_mapPieces s !! pt with Some _ => m_mapPieces s | None => <[pt := p]> (m_mapPieces s) end)).

(** A [std::map] is gone through in the order of its keys. *)
Definition not_greater (a b : POINT * nat) : Prop := less b.1 a.1 = false.
#[global] Instance not_greater_dec a b : Decision (not_greater a b).
Proof. unfold not_greater. apply _. Defined.
Definition in_order (m : gmap POINT nat) : list (POINT * nat) := merge_sort not_greater (map_to_list m).

(** [ShowAllPieces]: the points with the colours that are shown *)
Definition ShowAllPieces (s : state) : option (list (POINT * PIECECOLOR)) :=
  mapM (fun e => o ← memory s !! e.2; Some (e.1, m_pieceColor o)) (in_order (m_mapPieces s)).

(** A move as the players of [main] make them, and a game *)
Definition move (m : PIECECOLOR * POINT) (s : state) : option state :=
  '(p, s1) ← GetPiece m.1 s; s2 ← setPoint p m.2 s1; Draw p s2.
Fixpoint moves (ms : list (PIECECOLOR * POINT)) (s : state) : option state :=
  match ms with [] => Some s | m :: ms => s1 ← move m s; moves ms s1 end.

(** [~PieceFactory]: each piece of the vector is deleted, which is undefined for one that is gone. *)
Fixpoint delete_pieces (l : list nat) (s : state) : option state :=
  match l with
  | [] => Some s
  | it :: l => _ ← memory s !! it; delete_pieces l (mkState (delete it (memory s)) (fresh_ s) (m_piece s) (m_mapPieces s))
  end.

(** ** A board that shares nothing *)

Abbreviation board := (gmap POINT PIECECOLOR).
Definition put (b : board) (m : PIECECOLOR * POINT) : board :=
  match b !! m.2 with Some _ => b | None => <[m.2 := m.1]> b end.
Definition board_of (ms : list (PIECECOLOR * POINT)) : board := foldl put ∅ ms.

(** The last point of a colour *)
Definition last_point (c : PIECECOLOR) (ms : list (PIECECOLOR * POINT)) : option POINT :=
  snd <$> last (filter (fun m => m.1 = c) ms).

Example main_shows :
  (s ← moves [(WHITE, (1, 1)); (BLACK, (2, 2)); (WHITE, (3, 3)); (BLACK, (4, 4))] init; ShowAllPieces s) =
  Some [((1, 1), WHITE); ((2, 2), BLACK); ((3, 3), WHITE); ((4, 4), BLACK)].
Proof. vm_compute. reflexivity. Qed.

(** ** The invariant *)

(** The factory has one piece for each colour that was asked for, where its last move was; the
    pointers of the board lead to the colours that belong there. *)
Record shared (ms : list (PIECECOLOR * POINT)) (s : state) : Prop := {
  sh_memory : forall p o, memory s !! p = Some o ->
    (p < fresh_ s)%nat /\ p ∈ m_piece s /\ m_pieceColor o ∈ ms.*1 /\ m_piecePoint o = last_point (m_pieceColor o) ms;
  sh_vector : forall p, p ∈ m_piece s -> is_Some (memory s !! p);
  sh_one : forall p q o o', memory s !! p = Some o -> memory s !! q = Some o' -> m_pieceColor o = m_pieceColor o' -> p = q;
  sh_all : forall c, c ∈ ms.*1 -> exists p o, memory s !! p = Some o /\ m_pieceColor o = c;
  sh_nodup : NoDup (m_piece s);
  sh_live : forall pt p, m_mapPieces s !! pt = Some p -> is_Some (memory s !! p);
  sh_board : forall pt, (p ← m_mapPieces s !! pt; m_pieceColor <$> memory s !! p) = board_of ms !! pt;
}.

Lemma find_piece_spec c l s :
  (forall p, p ∈ l -> is_Some (memory s !! p)) ->
  exists r, find_piece c l s = Some r /\
    match r with
    | Some p => p ∈ l /\ exists o, memory s !! p = Some o /\ m_pieceColor o = c
    | None => forall p o, p ∈ l -> memory s !! p = Some o -> m_pieceColor o <> c
    end.
Proof.
  induction l as [|p l IH]; intros Hl; cbn [find_piece].
  - eexists. split; [done|]. set_solver.
  - destruct (Hl p) as [o Ho]; [left|]. rewrite Ho. cbn [mbind option_bind]. destruct (decide (m_pieceColor o = c)) as [E|E].
    + eexists. split; [done|]. split; [left|eauto].
    + destruct IH as (r & Hr & Hs); [intros q Hq; apply Hl; by right|]. exists r. split; [done|]. destruct r as [q|].
      * destruct Hs as [Hq Hs]. split; [by right|done].
      * intros q o' Hq Ho'. apply elem_of_cons in Hq as [->|Hq]; [congruence|]. by apply (Hs q).
Qed.

Lemma GetPiece_eq c s : GetPiece c s = r ← find_piece c (m_piece s) s; match r with Some p => Some (p, s) | None => Some (new_piece c s) end.
Proof. unfold GetPiece. by destruct (m_piece s). Qed.

Lemma last_point_snoc c ms m : last_point c (ms ++ [m]) = if decide (m.1 = c) then Some m.2 else last_point c ms.
Proof.
  unfold last_point. rewrite filter_app, filter_cons, filter_nil. case_decide; [by rewrite last_snoc|by rewrite app_nil_r].
Qed.

(** What is asked for is there, with the old contents. *)
Lemma GetPiece_spec ms c s :
  shared ms s ->
  exists p o s1, GetPiece c s = Some (p, s1) /\ memory s1 = <[p := o]> (memory s) /\ m_pieceColor o = c /\
    m_mapPieces s1 = m_mapPieces s /\ (p < fresh_ s1)%nat /\ (fresh_ s <= fresh_ s1)%nat /\ NoDup (m_piece s1) /\
    (forall q, q ∈ m_piece s1 <-> q = p \/ q ∈ m_piece s) /\
    (forall q o', memory s !! q = Some o' -> m_pieceColor o' = c <-> q = p).
Proof.
  intros I. rewrite GetPiece_eq. destruct (find_piece_spec c (m_piece s) s (sh_vector _ _ I)) as (r & -> & H). cbn [mbind option_bind].
  destruct r as [p|].
  - destruct H as (Hp & o & Ho & Hc). exists p, o, s. destruct (sh_memory _ _ I p o Ho) as (H1 & _).
    split_and!; [done|by rewrite insert_id|done|done|done|done|apply I| |].
    + intros q. split; [auto|by intros [-> |?]].
    + intros q o' Ho'. split; [intros E; apply (sh_one _ _ I q p o' o Ho' Ho); congruence|intros ->; congruence].
  - unfold new_piece. do 3 eexists. split; [done|]. cbn [memory fresh_ m_piece m_mapPieces]. split; [done|].
    assert (Hf : fresh_ s ∉ m_piece s).
    { intros Hf. destruct (sh_vector _ _ I _ Hf) as [o Ho]. destruct (sh_memory _ _ I _ _ Ho). lia. }
    split_and!; [done|done|lia|lia| | |].
    + apply NoDup_app. split_and!; [apply I|set_solver|apply NoDup_singleton].
    + intros q. set_solver.
    + intros q o' Ho'. destruct (sh_memory _ _ I q o' Ho') as (H1 & H2 & _).
      split; [intros E; by destruct (H q o' H2 Ho')|intros ->; lia].
Qed.

Lemma move_shared ms m s : shared ms s -> exists s', move m s = Some s' /\ shared (ms ++ [m]) s'.
Proof.
  intros I. destruct m as [c pt]. unfold move. cbn [fst snd].
  destruct (GetPiece_spec ms c s I) as (p & o & s1 & -> & Hm & Hc & Hb & Hp & Hf & Hnd & Hv & Hone). cbn [mbind option_bind].
  unfold setPoint. rewrite Hm, lookup_insert_eq. cbn [mbind option_bind]. unfold Draw. cbn [memory fresh_ m_piece m_mapPieces].
  rewrite lookup_insert_eq. cbn [mbind option_bind m_piecePoint]. eexists. split; [done|]. rewrite insert_insert_eq, Hb, Hc.
  assert (Hkey : forall q o', <[p := mkPiece c (Some pt)]> (memory s) !! q = Some o' ->
    q = p /\ o' = mkPiece c (Some pt) \/ q <> p /\ memory s !! q = Some o' /\ m_pieceColor o' <> c).
  { intros q o'. rewrite lookup_insert. case_decide as E; [intros [= <-]; by left|]. intros H. right. split_and!; [done|done|].
    intros Hq. by apply (Hone q o' H) in Hq; subst. }
  split; cbn [memory fresh_ m_piece m_mapPieces].
  - intros q o' H. rewrite Hv. apply Hkey in H as [[-> ->]|(Hq & H & Hqc)].
    + rewrite fmap_app, last_point_snoc. cbn. rewrite decide_True by done. split_and!; [done|by left|set_solver|done].
    + destruct (sh_memory _ _ I q o' H) as (H1 & H2 & H3 & H4). rewrite fmap_app, last_point_snoc. cbn.
      rewrite decide_False by done. split_and!; [lia|by right|set_solver|done].
  - intros q Hq. rewrite lookup_insert. case_decide; [by eexists|]. apply Hv in Hq as [->|Hq]; [done|]. by apply (sh_vector _ _ I).
  - intros q r o1 o2 H1 H2 E. apply Hkey in H1 as [[-> ->]|(H1 & H1' & H1'')], H2 as [[-> ->]|(H2 & H2' & H2'')]; cbn in *; try congruence.
    by apply (sh_one _ _ I q r o1 o2).
  - intros c'. rewrite fmap_app, elem_of_app. intros [H|H].
    + destruct (sh_all _ _ I c' H) as (q & o' & Ho' & E). destruct (decide (q = p)) as [->|Hq].
      * exists p, (mkPiece c (Some pt)). rewrite lookup_insert_eq. split; [done|]. cbn. rewrite <- E. symmetry. by apply (Hone p o' Ho').
      * exists q, o'. by rewrite lookup_insert_ne.
    + cbn in H. apply list_elem_of_singleton in H as ->. exists p, (mkPiece c (Some pt)). by rewrite lookup_insert_eq.
  - done.
  - intros x q H. rewrite lookup_insert. case_decide; [by eexists|].
    destruct (m_mapPieces s !! pt) eqn:E; [by apply (sh_live _ _ I x)|].
    rewrite lookup_insert in H. case_decide; [congruence|]. by apply (sh_live _ _ I x).
  - assert (Hcol : forall x q, m_mapPieces s !! x = Some q ->
      m_pieceColor <$> <[p := mkPiece c (Some pt)]> (memory s) !! q = m_pieceColor <$> memory s !! q).
    { intros x q Hx. destruct (sh_live _ _ I x q Hx) as [o' Ho']. rewrite lookup_insert, Ho'. case_decide; [|done]. subst. cbn.
      f_equal. symmetry. by apply (Hone q o' Ho'). }
    intros x. unfold board_of. rewrite foldl_app. cbn [foldl]. fold (board_of ms). unfold put. cbn [fst snd].
    pose proof (sh_board _ _ I pt) as Hpt. pose proof (sh_board _ _ I x) as Hx.
    destruct (m_mapPieces s !! pt) as [q|] eqn:E.
    + destruct (sh_live _ _ I pt q E) as [o' Ho']. cbn in Hpt. rewrite Ho' in Hpt. cbn in Hpt. rewrite <- Hpt, <- Hx.
      destruct (m_mapPieces s !! x) as [q'|] eqn:E'; [|done]. cbn. by eapply Hcol.
    + cbn in Hpt. rewrite <- Hpt. destruct (decide (pt = x)) as [<-|Hne].
      { rewrite !lookup_insert_eq. cbn [mbind option_bind]. by rewrite lookup_insert_eq. }
      rewrite !lookup_insert_ne by done. rewrite <- Hx.
      destruct (m_mapPieces s !! x) as [q'|] eqn:E'; [|done]. cbn. by eapply Hcol.
Qed.

Lemma moves_shared ms ms' s : shared ms s -> exists s', moves ms' s = Some s' /\ shared (ms ++ ms') s'.
Proof.
  revert ms s. induction ms' as [|m ms' IH]; intros ms s I; cbn [moves].
  - exists s. by rewrite app_nil_r.
  - destruct (move_shared ms m s I) as (s1 & -> & I1). destruct (IH _ _ I1) as (s' & E & I'). exists s'.
    rewrite <- app_assoc in I'. by split.
Qed.

Lemma init_shared : shared [] init.
Proof.
  split; cbn; try set_solver. constructor.
Qed.

(** ** The order of the map *)

Lemma less_spec a b : less a b = true <-> a.1 < b.1 \/ a.1 = b.1 /\ a.2 < b.2.
Proof.
  unfold less. destruct (Z.ltb_spec a.1 b.1); [split; [auto|done]|].
  destruct (Z.eqb_spec a.1 b.1); [rewrite Z.ltb_lt; split; [auto|lia]|]. split; [done|lia].
Qed.

#[local] Instance not_greater_total : Total not_greater.
Proof.
  intros a b. unfold not_greater. destruct (less b.1 a.1) eqn:E1; [|by left]. right.
  destruct (less a.1 b.1) eqn:E2; [|done]. apply less_spec in E1, E2. lia.
Qed.
#[local] Instance not_greater_trans : Transitive not_greater.
Proof.
  intros a b d. unfold not_greater. intros H1 H2. destruct (less d.1 a.1) eqn:E; [|done]. apply less_spec in E.
  rewrite <- not_true_iff_false, less_spec in H1, H2. lia.
Qed.

Lemma in_order_spec m : in_order m ≡ₚ map_to_list m /\ StronglySorted (fun a b => less a.1 b.1 = true) (in_order m).
Proof.
  assert (Hp : in_order m ≡ₚ map_to_list m) by apply merge_sort_Permutation. split; [done|].
  assert (Hnd : NoDup (in_order m).*1) by (rewrite Hp; apply NoDup_fst_map_to_list).
  assert (Hs : StronglySorted not_greater (in_order m)).
  { apply Sorted_StronglySorted; [exact not_greater_trans|]. apply Sorted_merge_sort, _. }
  clear Hp. induction Hs as [|a l Hs IH Ha]; constructor.
  - apply IH. by apply NoDup_cons in Hnd as [_ Hnd].
  - cbn in Hnd. apply NoDup_cons in Hnd as [Hn _]. rewrite Forall_forall in Ha |- *. intros b Hb. specialize (Ha b Hb).
    unfold not_greater in Ha. destruct (less a.1 b.1) eqn:E; [done|]. destruct Hn.
    assert (a.1 = b.1) as ->.
    { rewrite <- not_true_iff_false, less_spec in Ha, E. destruct a as [[? ?] ?], b as [[? ?] ?]. cbn in *. f_equal; lia. }
    by apply list_elem_of_fmap_2.
Qed.

(** ** The board *)

(** What is shown: the points of the map in their order, with the colours of the board *)
Lemma show_spec ms s :
  shared ms s ->
  exists l, ShowAllPieces s = Some l /\ l.*1 = (in_order (m_mapPieces s)).*1 /\
    forall e, e ∈ l -> board_of ms !! e.1 = Some e.2.
Proof.
  intros I. unfold ShowAllPieces.
  assert (Hcolor : forall e, e ∈ in_order (m_mapPieces s) -> exists c,
    (o ← memory s !! e.2; Some (e.1, m_pieceColor o)) = Some (e.1, c) /\ board_of ms !! e.1 = Some c).
  { intros [x q] He. rewrite (proj1 (in_order_spec _)) in He. apply elem_of_map_to_list in He.
    destruct (sh_live _ _ I x q He) as [o Ho]. exists (m_pieceColor o). cbn. rewrite Ho. split; [done|].
    rewrite <- (sh_board _ _ I x), He. cbn. by rewrite Ho. }
  induction (in_order (m_mapPieces s)) as [|e l IH]; [by exists []; split_and!; [| |set_solver]|].
  destruct IH as (l' & E1 & E2 & E3); [intros e' He'; apply Hcolor; by right|].
  destruct (Hcolor e) as (c & Ec & Hc); [left|]. cbn [mapM]. rewrite Ec. cbn [mbind option_bind]. rewrite E1.
  exists ((e.1, c) :: l'). split_and!; [done|cbn; by f_equal|]. intros e' [->|He']%elem_of_cons; [done|by apply E3].
Qed.

Lemma sorted_by_keys {A B} (l : list (POINT * A)) (l' : list (POINT * B)) :
  l'.*1 = l.*1 -> StronglySorted (fun a b => less a.1 b.1 = true) l -> StronglySorted (fun a b => less a.1 b.1 = true) l'.
Proof.
  intros E Hs. revert l' E. induction Hs as [|a l _ IH Ha]; intros [|b l'] E; try done; constructor; injection E as E1 E2.
  - by apply IH.
  - apply Forall_forall. intros e He. rewrite E1.
    assert (Hin : e.1 ∈ l.*1) by (assert (E3 : l'.*1 = l.*1) by exact E2; rewrite <- E3; by apply list_elem_of_fmap_2).
    apply list_elem_of_fmap in Hin as (e' & -> & He'). by eapply Forall_forall in Ha.
Qed.

(** One piece for each colour *)
Lemma pieces_colors ms s :
  shared ms s -> (fun p => m_pieceColor <$> memory s !! p) <$> m_piece s ≡ₚ Some <$> remove_dups ms.*1.
Proof.
  intros I. apply NoDup_Permutation.
  - apply NoDup_fmap_2_strong; [|apply I]. intros p q Hp Hq E.
    destruct (sh_vector _ _ I p Hp) as [o Ho], (sh_vector _ _ I q Hq) as [o' Ho'].
    rewrite Ho, Ho' in E. apply (sh_one _ _ I p q o o' Ho Ho'). by injection E.
  - apply NoDup_fmap_2; [apply _|apply NoDup_remove_dups].
  - intros x. rewrite !list_elem_of_fmap. split.
    + intros (p & -> & Hp). destruct (sh_vector _ _ I p Hp) as [o Ho]. rewrite Ho. exists (m_pieceColor o). split; [done|].
      apply elem_of_remove_dups. by apply (sh_memory _ _ I p o Ho).
    + intros (c & -> & Hc). rewrite elem_of_remove_dups in Hc. destruct (sh_all _ _ I c Hc) as (p & o & Ho & <-).
      exists p. rewrite Ho. split; [done|]. by apply (sh_memory _ _ I p o Ho).
Qed.

Lemma delete_pieces_all l s :
  NoDup l -> (forall p, is_Some (memory s !! p) <-> p ∈ l) ->
  exists s', delete_pieces l s = Some s' /\ memory s' = ∅.
Proof.
  revert s. induction l as [|it l IH]; intros s Hnd Hm; cbn [delete_pieces].
  - exists s. split; [done|]. apply map_eq. intros p. rewrite lookup_empty. apply eq_None_not_Some. rewrite Hm. set_solver.
  - apply NoDup_cons in Hnd as [Hn Hnd]. destruct (proj2 (Hm it)) as [o Ho]; [left|]. rewrite Ho. cbn [mbind option_bind].
    apply IH; [done|]. intros p. cbn. rewrite lookup_delete. specialize (Hm p). rewrite elem_of_cons in Hm.
    case_decide as E; [subst|naive_solver]. split; [by intros [? ?]|done].
Qed.

(** however the players move, the board shows for each point, in the order of the points,
    the colour of the first move there, just as if every move had had a piece of its own;
    and the factory has made one piece for each colour that was played, which is left where
    that colour was played last; the factory deletes each of them once and nothing is left. *)
Theorem flyweight_is_board ms :
  exists s l, moves ms init = Some s /\ ShowAllPieces s = Some l /\
    l ≡ₚ map_to_list (board_of ms) /\ StronglySorted (fun a b => less a.1 b.1 = true) l /\
    length (m_piece s) = length (remove_dups ms.*1) /\ (length (m_piece s) <= 2)%nat /\
    (forall p, p ∈ m_piece s -> exists c, memory s !! p = Some (mkPiece c (last_point c ms))) /\
    exists s', delete_pieces (m_piece s) s = Some s' /\ memory s' = ∅.
Proof.
  destruct (moves_shared [] ms init init_shared) as (s & E & I). cbn [app] in I.
  destruct (in_order_spec (m_mapPieces s)) as [Hp Hs]. destruct (show_spec ms s I) as (l & El & Efst & Hl).
  exists s, l. pose proof (pieces_colors ms s I) as Hc. apply Permutation_length in Hc. rewrite !length_fmap in Hc.
  split_and!; [done|done| |by eapply sorted_by_keys|done| | |].
  - apply NoDup_Permutation; [|apply NoDup_map_to_list|].
    + apply (NoDup_fmap_1 fst). rewrite Efst, Hp. apply NoDup_fst_map_to_list.
    + intros [x c]. rewrite elem_of_map_to_list. split; [apply (Hl (x, c))|]. intros Hx. pose proof Hx as Hb.
      rewrite <- (sh_board _ _ I) in Hb. apply bind_Some in Hb as (q & Hq & _).
      assert (Hin : x ∈ l.*1).
      { rewrite Efst, Hp. apply (list_elem_of_fmap_2 fst _ (x, q)). by apply elem_of_map_to_list. }
      apply list_elem_of_fmap in Hin as ([x' c'] & -> & Hin). pose proof (Hl _ Hin) as Hc'. cbn in *. congruence.
  - rewrite Hc. assert (Hle : remove_dups ms.*1 ⊆+ [BLACK; WHITE]).
    { apply NoDup_submseteq; [apply NoDup_remove_dups|]. intros []; set_solver. }
    by apply submseteq_length in Hle.
  - intros p Hp1. destruct (sh_vector _ _ I p Hp1) as [[c pt] Ho]. exists c. rewrite Ho.
    destruct (sh_memory _ _ I p _ Ho) as (_ & _ & _ & H). cbn in H. by rewrite H.
  - apply delete_pieces_all; [apply I|]. intros p. split; [|apply I]. intros [o Ho]. by apply (sh_memory _ _ I p o Ho).
Qed.
End Flyweight.
