(* ===== verification/Tv.v ===== *)
(** The television and its remote control ([src/primer_plus/chap15/15.1/tv.h] and [tv.cpp]). *)
From S2P Require Import Prelude.

Module Tv.

(** The enumerators *)
Definition Off : Z := 0.
Definition On : Z := 1.
Definition MinVal : Z := 0.
Definition MaxVal : Z := 20.
Definition Antenna : Z := 0.
Definition Cable : Z := 1.
Definition TV : Z := 0.
Definition DVD : Z := 1.

Record Tv := mkTv {
  state : Z;
  volume : Z;
  maxchannel : Z;
  channel : Z;
  mode : Z;
  input : Z;
}.

(** [Tv(s, mc)] *)
Definition make (s mc : Z) : Tv := mkTv s 5 mc 2 Cable TV.

Definition onoff (t : Tv) : Tv :=
  mkTv (if state t =? On then Off else On) (volume t) (maxchannel t) (channel t) (mode t) (input t).
Definition ison (t : Tv) : bool := state t =? On.
Definition set_mode (t : Tv) : Tv :=
  mkTv (state t) (volume t) (maxchannel t) (channel t) (if mode t =? Antenna then Cable else Antenna) (input t).
Definition set_input (t : Tv) : Tv :=
  mkTv (state t) (volume t) (maxchannel t) (channel t) (mode t) (if input t =? TV then DVD else TV).

Definition with_volume (v : Z) (t : Tv) : Tv := mkTv (state t) v (maxchannel t) (channel t) (mode t) (input t).
Definition with_channel (c : Z) (t : Tv) : Tv := mkTv (state t) (volume t) (maxchannel t) c (mode t) (input t).

Definition volup (t : Tv) : option (bool * Tv) :=
  if volume t <? MaxVal then v ← int_add (volume t) 1; Some (true, with_volume v t) else Some (false, t).
Definition voldown (t : Tv) : option (bool * Tv) :=
  if MinVal <? volume t then v ← int_sub (volume t) 1; Some (true, with_volume v t) else Some (false, t).
Definition chanup (t : Tv) : option Tv :=
  if channel t <? maxchannel t then c ← int_add (channel t) 1; Some (with_channel c t) else Some (with_channel 1 t).
Definition chandown (t : Tv) : option Tv :=
  if 1 <? channel t then c ← int_sub (channel t) 1; Some (with_channel c t) else Some (with_channel (maxchannel t) t).

(** [settings]: what it prints beyond the state *)
Definition settings (t : Tv) : option (Z * Z * bool * bool) :=
  if state t =? On then Some (volume t, channel t, mode t =? Antenna, input t =? TV) else None.

(** [Remote::set_chan], as a friend; its other functions call those of [Tv]. *)
Definition set_chan (c : Z) (t : Tv) : Tv := with_channel c t.

Inductive button := OnOff | VolUp | VolDown | ChanUp | ChanDown | SetChan (c : Z) | SetMode | SetInput.

Definition press (b : button) (t : Tv) : option Tv :=
  match b with
  | OnOff => Some (onoff t)
  | VolUp => snd <$> volup t
  | VolDown => snd <$> voldown t
  | ChanUp => chanup t
  | ChanDown => chandown t
  | SetChan c => Some (set_chan c t)
  | SetMode => Some (set_mode t)
  | SetInput => Some (set_input t)
  end.

Fixpoint press_all (bs : list button) (t : Tv) : option Tv :=
  match bs with [] => Some t | b :: bs => t1 ← press b t; press_all bs t1 end.

(** ** What holds of it *)

Definition is_flag (z : Z) : Prop := z = 0 \/ z = 1.

Record ok (t : Tv) : Prop := {
  ok_state : is_flag (state t);
  ok_volume : MinVal <= volume t <= MaxVal;
  ok_max : 1 <= maxchannel t <= INT_MAX;
  ok_channel : INT_MIN <= channel t <= INT_MAX;
  ok_mode : is_flag (mode t);
  ok_input : is_flag (input t);
}.
Definition tuned (t : Tv) : Prop := 1 <= channel t <= maxchannel t.

Definition button_ok (b : button) : Prop := match b with SetChan c => INT_MIN <= c <= INT_MAX | _ => True end.
Definition button_tuned (max : Z) (b : button) : Prop := match b with SetChan c => 1 <= c <= max | _ => True end.

Lemma add_one x : INT_MIN <= x < INT_MAX -> int_add x 1 = Some (x + 1).
Proof. intros H. apply chk_int_ok. lia. Qed.
Lemma sub_one x : INT_MIN < x <= INT_MAX -> int_sub x 1 = Some (x - 1).
Proof. intros H. apply chk_int_ok. lia. Qed.

Ltac pressed := eexists; (split; [reflexivity|]); split; [split; cbn; unfold MinVal, MaxVal, INT_MIN, INT_MAX; auto; lia|];
  split; [done|]; unfold tuned; cbn; lia.

Lemma press_ok b t :
  ok t -> button_ok b ->
  exists t', press b t = Some t' /\ ok t' /\ maxchannel t' = maxchannel t /\
    (tuned t -> button_tuned (maxchannel t) b -> tuned t').
Proof.
  intros [H1 H2 H3 H4 H5 H6] Hb. unfold MinVal, MaxVal, INT_MIN, INT_MAX in *.
  destruct b as [| | | | |c| |]; cbn [press button_ok button_tuned] in *.
  - assert (is_flag (if state t =? On then Off else On)) by (unfold is_flag, On, Off; case_match; auto). pressed.
  - unfold volup, MaxVal. case_match; zbool; [rewrite add_one by (unfold INT_MIN, INT_MAX; lia)|]; pressed.
  - unfold voldown, MinVal. case_match; zbool; [rewrite sub_one by (unfold INT_MIN, INT_MAX; lia)|]; pressed.
  - unfold chanup. case_match; zbool; [rewrite add_one by (unfold INT_MIN, INT_MAX; lia)|]; pressed.
  - unfold chandown. case_match; zbool; [rewrite sub_one by (unfold INT_MIN, INT_MAX; lia)|]; pressed.
  - pressed.
  - assert (is_flag (if mode t =? Antenna then Cable else Antenna)) by (unfold is_flag, Antenna, Cable; case_match; auto). pressed.
  - assert (is_flag (if input t =? TV then DVD else TV)) by (unfold is_flag, TV, DVD; case_match; auto). pressed.
Qed.

(** whatever is pressed, no arithmetic overflows, the volume stays between 0 and 20 and
    the switches have one of their two positions; the channel stays between 1 and the highest as
    long as [set_chan] is only asked for such, which it does not check. *)
Theorem tv_stays_ok s mc bs :
  is_flag s -> 2 <= mc <= INT_MAX -> Forall button_ok bs ->
  exists t, press_all bs (make s mc) = Some t /\ ok t /\ maxchannel t = mc /\
    (Forall (button_tuned mc) bs -> tuned t).
Proof.
  intros Hs Hm Hb.
  assert (H : forall t, ok t -> exists t', press_all bs t = Some t' /\ ok t' /\ maxchannel t' = maxchannel t /\
    (tuned t -> Forall (button_tuned (maxchannel t)) bs -> tuned t')).
  { induction Hb as [|b bs Hb _ IH]; intros t Ht; cbn [press_all]; [by exists t|].
    destruct (press_ok b t Ht Hb) as (t1 & -> & H1 & Em & Hc). destruct (IH t1 H1) as (t' & E & H2 & Em' & Hc').
    exists t'. split; [exact E|]. split; [done|]. rewrite Em in *. split; [done|].
    intros Ht' [Hb1 Hb2]%Forall_cons. auto. }
  destruct (H (make s mc)) as (t & E & Ht & Em & Hc).
  - unfold INT_MAX in Hm. split; cbn; unfold is_flag, MinVal, MaxVal, INT_MIN, INT_MAX, Cable, TV; auto; lia.
  - exists t. split_and!; [done|done|done|]. apply Hc. unfold tuned. cbn. lia.
Qed.

Lemma tv_stays_ok_witness :
  exists t, press_all [OnOff; ChanUp; VolUp; SetChan 10; ChanDown; SetMode; VolDown] (make Off 125) = Some t /\ tuned t.
Proof.
  destruct (tv_stays_ok Off 125 [OnOff; ChanUp; VolUp; SetChan 10; ChanDown; SetMode; VolDown]) as (t & H1 & _ & _ & H2).
  - by left.
  - unfold INT_MAX. lia.
  - repeat constructor; unfold INT_MIN, INT_MAX; lia.
  - exists t. split; [done|]. apply H2. repeat constructor; lia.
Defined.

(** ** Channels go round *)

Fixpoint times {A} (n : nat) (f : A -> option A) (x : A) : option A :=
  match n with O => Some x | S n => y ← f x; times n f y end.

Lemma with_channel_twice a b t : with_channel a (with_channel b t) = with_channel a t.
Proof. done. Qed.

Lemma chanup_mod t :
  tuned t -> maxchannel t <= INT_MAX -> chanup t = Some (with_channel (channel t `mod` maxchannel t + 1) t).
Proof.
  unfold tuned, INT_MAX. intros H Hm. unfold chanup. case_match; zbool.
  - rewrite add_one by (unfold INT_MIN, INT_MAX; lia). cbn. by rewrite Z.mod_small by lia.
  - replace (channel t) with (maxchannel t) by lia. by rewrite Z.mod_same by lia.
Qed.

(** from a channel in the range, [n] steps up lead to the channel [n] further, counted round
    after the highest, and a step down takes a step up back. *)
Theorem channels_go_round n t :
  tuned t -> maxchannel t <= INT_MAX ->
  times n chanup t = Some (with_channel ((channel t - 1 + Z.of_nat n) `mod` maxchannel t + 1) t) /\
  (t1 ← chanup t; chandown t1) = Some t.
Proof.
  intros H Hm. unfold INT_MAX in Hm. split.
  - revert t H Hm. induction n as [|n IH]; intros t H Hm; cbn [times].
    + unfold tuned in H. rewrite Z.add_0_r, Z.mod_small by lia. replace (channel t - 1 + 1) with (channel t) by lia. by destruct t.
    + rewrite chanup_mod by (unfold INT_MAX; done || lia). cbn [mbind option_bind].
      assert (Ht : tuned (with_channel (channel t `mod` maxchannel t + 1) t)).
      { unfold tuned in *. cbn. pose proof (Z.mod_pos_bound (channel t) (maxchannel t)). lia. }
      rewrite IH by done. cbn [channel maxchannel with_channel]. f_equal. unfold with_channel at 1. cbn. unfold with_channel. f_equal. f_equal.
      replace (channel t `mod` maxchannel t + 1 - 1 + Z.of_nat n) with (channel t `mod` maxchannel t + Z.of_nat n) by lia.
      rewrite Zplus_mod_idemp_l. f_equal. lia.
  - unfold tuned in H. unfold chanup. case_match; zbool.
    + rewrite add_one by (unfold INT_MIN, INT_MAX; lia). cbn [mbind option_bind]. unfold chandown. cbn [channel with_channel].
      rewrite (proj2 (Z.ltb_lt _ _)) by lia. rewrite sub_one by (unfold INT_MIN, INT_MAX; lia). cbn. unfold with_channel. cbn.
      replace (channel t + 1 - 1) with (channel t) by lia. by destruct t.
    + cbn. unfold chandown, with_channel. cbn. change (1 <? 1) with false. cbn. f_equal.
      assert (E : channel t = maxchannel t) by lia. destruct t. cbn in *. by subst.
Qed.

Lemma channels_go_round_witness :
  times 125 chanup (make On 125) = Some (make On 125) /\ (t1 ← chanup (make On 125); chandown t1) = Some (make On 125).
Proof.
  destruct (channels_go_round 125 (make On 125)) as [H1 H2]; [unfold tuned; cbn; lia|unfold INT_MAX; cbn; lia|].
  split; [|exact H2]. etransitivity; [exact H1|]. vm_compute. reflexivity.
Defined.

(** [use_tv.cpp]: a remote sets a channel that the second set has, and could set any other. *)
Example use_tv :
  (t ← press_all [OnOff; ChanUp; ChanUp; SetChan 10; VolUp; VolUp] (make Off 125); settings t) = Some (7, 10, false, true).
Proof. vm_compute. reflexivity. Qed.
Example set_chan_unchecked : channel <$> press_all [SetChan (-3); ChanUp] (make On 125) = Some (-2).
Proof. vm_compute. reflexivity. Qed.
End Tv.
