(* ===== verification/Memento.v ===== *)
(** The two memento examples ([src/design_mode/memento/memento.cpp] and [memento_inst.cpp]). *)
From S2P Require Import Prelude Heap.

Module Memento.

(** ** Texts of wide characters *)

Definition SIZE : nat := 260.
#[global] Arguments SIZE : simpl never.

(** [std::wcsncpy(dst, src, n)]: the [n] characters that [dst] gets; a cell without a value
    ([None]) must not be read. *)
Fixpoint wcsncpy (n : nat) (src : list (option Z)) : option (list (option Z)) :=
  match n, src with
  | O, _ => Some []
  | S n, Some c :: src => if c =? 0 then Some (replicate (S n) (Some 0)) else rest ← wcsncpy n src; Some (Some c :: rest)
  | S _, _ => None
  end.

(** [State] holds [SIZE] characters, in memory; the counters name states, mementos and
    originators. *)
Record Memento := mkMemento { GetState : ptr }.

Record Originator := mkOriginator {
  m_pState : ptr;
  wcsValue : list (option Z);
}.

Record state := mkState {
  states : heap (option Z);
  mementos : heap Memento;
  originators : gmap nat Originator;
  caretakers : gmap nat ptr;
}.
Definition init : state := mkState empty_heap empty_heap ∅ ∅.

Definition set_originator (i : nat) (o : Originator) (s : state) : state :=
  mkState (states s) (mementos s) (<[i := o]> (originators s)) (caretakers s).

(** [Originator()] leaves its value unset; [new Caretaker()] zeroes its pointer. *)
Definition new_originator (i : nat) (s : state) : state := set_originator i (mkOriginator None (replicate SIZE None)) s.
Definition new_caretaker (i : nat) (s : state) : state :=
  mkState (states s) (mementos s) (originators s) (<[i := None]> (caretakers s)).

(** [SetValue] with a text that ends with a null *)
Definition SetValue (i : nat) (value : list Z) (s : state) : option state :=
  o ← originators s !! i;
  l ← wcsncpy (SIZE - 1) (Some <$> value);
  Some (set_originator i (mkOriginator (m_pState o) (l ++ [Some 0])) s).

(** [CreateMemento]: the pointer to the state that the originator had is overwritten. *)
Definition CreateMemento (i : nat) (s : state) : option (ptr * state) :=
  o ← originators s !! i;
  let '(a, h) := alloc (replicate SIZE None) (states s) in
  let '(m, hm) := alloc [mkMemento (Some a)] (mementos s) in
  l ← wcsncpy (SIZE - 1) (wcsValue o);
  b ← cells h !! a;
  Some (Some m, mkState (mkHeap (<[a := l ++ drop (SIZE - 1) b]> (cells h)) (next_addr h)) hm
                  (<[i := mkOriginator (Some a) (wcsValue o)]> (originators s)) (caretakers s)).

(** [Originator::SetMemento] *)
Definition SetMemento (i : nat) (m : ptr) (s : state) : option state :=
  o ← originators s !! i;
  p ← GetState <$> load m 0 (mementos s);
  a ← p;
  b ← cells (states s) !! a;
  l ← wcsncpy (SIZE - 1) b;
  Some (set_originator i (mkOriginator p (l ++ [Some 0])) s).

(** [~Originator] *)
Definition delete_originator (i : nat) (s : state) : option state :=
  o ← originators s !! i;
  h ← free (m_pState o) (states s);
  Some (mkState h (mementos s) (delete i (originators s)) (caretakers s)).

(** [Caretaker::SetMemento] deletes the memento it has, [GetMemento] gives it out; there is no
    destructor. *)
Definition Keep (i : nat) (m : ptr) (s : state) : option state :=
  old ← caretakers s !! i;
  h ← free old (mementos s);
  Some (mkState (states s) h (originators s) (<[i := m]> (caretakers s))).
Definition GetMemento (i : nat) (s : state) : option ptr := caretakers s !! i.
Definition delete_caretaker (i : nat) (s : state) : option state :=
  _ ← caretakers s !! i; Some (mkState (states s) (mementos s) (originators s) (delete i (caretakers s))).

(** What [main] does once: store the state of originator [i] with caretaker [k], and restore it *)
Definition save (i k : nat) (s : state) : option state := '(m, s1) ← CreateMemento i s; Keep k m s1.
Definition restore (i k : nat) (s : state) : option state := m ← GetMemento k s; SetMemento i m s.

(** A text as [SetValue] leaves it: up to 259 characters, none of them null, then nulls *)
Definition padded (v : list Z) : list (option Z) := (Some <$> v) ++ replicate (SIZE - length v) (Some 0).
Definition text_ok (v : list Z) : Prop := (length v < SIZE)%nat /\ Forall (fun c => c <> 0) v.

Lemma wcsncpy_text n (v : list Z) (rest : list (option Z)) :
  Forall (fun c => c <> 0) v -> (length v <= n)%nat -> ((length v < n)%nat -> exists r, rest = Some 0 :: r) ->
  wcsncpy n ((Some <$> v) ++ rest) = Some ((Some <$> v) ++ replicate (n - length v) (Some 0)).
Proof.
  intros Hv. revert n. induction Hv as [|c v Hc Hv IH]; intros n Hn Hr.
  - cbn [fmap list_fmap app length]. rewrite Nat.sub_0_r. destruct n as [|n]; [done|].
    destruct Hr as [r ->]; [cbn; lia|]. done.
  - destruct n as [|n]; [cbn in Hn; lia|]. cbn [fmap list_fmap app length wcsncpy].
    rewrite (proj2 (Z.eqb_neq _ _) Hc). cbn in Hn, Hr. change (list_fmap Z (option Z) Some v) with (Some <$> v).
    rewrite IH by (lia || (intros; apply Hr; lia)). done.
Qed.

Lemma padded_split v : text_ok v -> padded v = ((Some <$> v) ++ replicate (SIZE - 1 - length v) (Some 0)) ++ [Some 0].
Proof.
  intros [Hl _]. unfold padded. rewrite <- app_assoc. f_equal.
  replace (SIZE - length v)%nat with (SIZE - 1 - length v + 1)%nat by lia. by rewrite replicate_add.
Qed.

Lemma copy_padded v (tail : list (option Z)) : text_ok v ->
  wcsncpy (SIZE - 1) ((Some <$> v) ++ replicate (SIZE - 1 - length v) (Some 0) ++ tail) =
    Some ((Some <$> v) ++ replicate (SIZE - 1 - length v) (Some 0)).
Proof.
  intros [Hl Hv]. apply wcsncpy_text; [done|lia|]. intros H.
  destruct (SIZE - 1 - length v)%nat as [|k] eqn:E; [lia|]. by eexists.
Qed.

Lemma SetValue_spec i o v s :
  originators s !! i = Some o -> text_ok v ->
  SetValue i (v ++ [0]) s = Some (set_originator i (mkOriginator (m_pState o) (padded v)) s).
Proof.
  intros Ho [Hl Hv]. unfold SetValue. rewrite Ho, fmap_app. cbn [mbind option_bind].
  rewrite wcsncpy_text; [|done|lia|by eexists]. cbn [mbind option_bind]. by rewrite padded_split.
Qed.

(** A padded text is copied as it is, whatever its last character is replaced by. *)
Lemma copy_text v b : text_ok v -> b = padded v \/ (exists c, b = (Some <$> v) ++ replicate (SIZE - 1 - length v) (Some 0) ++ [c]) ->
  wcsncpy (SIZE - 1) b = Some ((Some <$> v) ++ replicate (SIZE - 1 - length v) (Some 0)).
Proof.
  intros Hv [-> | [c ->]]; [|by apply copy_padded].
  rewrite (padded_split v Hv), <- app_assoc. by apply copy_padded.
Qed.

(** ** Undoing

    What the objects are for.  Originators have a text, or none yet; caretakers keep one,
    with the number of the save that made it.  An originator answers for the last state that it
    saved or took back, and takes it away when it is deleted. *)
Record undo := mkUndo {
  texts : gmap nat (option (list Z));
  answers : gmap nat nat;
  kept : gmap nat (option (nat * list Z));
  away : gset nat;
  saves : nat;
}.
Definition nothing : undo := mkUndo ∅ ∅ ∅ ∅ 0.

Inductive command :=
  | NewOriginator (i : nat) | NewCaretaker (k : nat)
  | Set_ (i : nat) (v : list Z) | Save (i k : nat) | Restore (i k : nat)
  | Forget (k : nat) | Delete (i : nat).

Definition exec (c : command) (s : state) : option state :=
  match c with
  | NewOriginator i => Some (new_originator i s)
  | NewCaretaker k => Some (new_caretaker k s)
  | Set_ i v => SetValue i (v ++ [0]) s
  | Save i k => save i k s
  | Restore i k => restore i k s
  | Forget k => delete_caretaker k s
  | Delete i => delete_originator i s
  end.
Fixpoint exec_all (cs : list command) (s : state) : option state :=
  match cs with [] => Some s | c :: cs => s1 ← exec c s; exec_all cs s1 end.

(** No text is saved before it is set, and no state is used after it was taken away. *)
Definition spec (c : command) (u : undo) : option undo :=
  match c with
  | NewOriginator i =>
      if bool_decide (texts u !! i = None)
      then Some (mkUndo (<[i := None]> (texts u)) (delete i (answers u)) (kept u) (away u) (saves u)) else None
  | NewCaretaker k =>
      if bool_decide (kept u !! k = None)
      then Some (mkUndo (texts u) (answers u) (<[k := None]> (kept u)) (away u) (saves u)) else None
  | Set_ i v =>
      _ ← texts u !! i;
      if bool_decide (length v < SIZE)%nat && bool_decide (Forall (fun c => c <> 0) v)
      then Some (mkUndo (<[i := Some v]> (texts u)) (answers u) (kept u) (away u) (saves u)) else None
  | Save i k =>
      t ← texts u !! i; v ← t; _ ← kept u !! k;
      Some (mkUndo (texts u) (<[i := saves u]> (answers u)) (<[k := Some (saves u, v)]> (kept u)) (away u) (S (saves u)))
  | Restore i k =>
      _ ← texts u !! i; t ← kept u !! k; '(n, v) ← t;
      if bool_decide (n ∈ away u) then None
      else Some (mkUndo (<[i := Some v]> (texts u)) (<[i := n]> (answers u)) (kept u) (away u) (saves u))
  | Forget k => _ ← kept u !! k; Some (mkUndo (texts u) (answers u) (delete k (kept u)) (away u) (saves u))
  | Delete i =>
      _ ← texts u !! i;
      match answers u !! i with
      | None => Some (mkUndo (delete i (texts u)) (answers u) (kept u) (away u) (saves u))
      | Some n =>
          if bool_decide (n ∈ away u) then None
          else Some (mkUndo (delete i (texts u)) (delete i (answers u)) (kept u) ({[n]} ∪ away u) (saves u))
      end
  end.
Fixpoint spec_all (cs : list command) (u : undo) : option undo :=
  match cs with [] => Some u | c :: cs => u1 ← spec c u; spec_all cs u1 end.

Definition shows (o : Originator) (t : option (list Z)) : Prop :=
  match t with None => True | Some v => text_ok v /\ wcsValue o = padded v end.

(** The state of a save holds its text unless it was taken away. *)
Definition state_holds (s : state) (a : nat) (v : list Z) : Prop :=
  exists b, cells (states s) !! a = Some b /\
    wcsncpy (SIZE - 1) b = Some ((Some <$> v) ++ replicate (SIZE - 1 - length v) (Some 0)).

(** The memento of a caretaker leads to a state, which holds the text if it is still there. *)
Definition holds (s : state) (gone : gset nat) (p : ptr) (t : option (nat * list Z)) : Prop :=
  match p, t with
  | None, None => True
  | Some m, Some (a, v) =>
      text_ok v /\ (a < next_addr (states s))%nat /\ cells (mementos s) !! m = Some [mkMemento (Some a)] /\ (a ∉ gone -> state_holds s a v)
  | _, _ => False
  end.

Record rel (s : state) (u : undo) : Prop := {
  rel_states : heap_ok (states s);
  rel_mementos : heap_ok (mementos s);
  rel_texts : forall i, option_Forall2 shows (originators s !! i) (texts u !! i);
  rel_answers : forall i o, originators s !! i = Some o -> m_pState o = answers u !! i;
  rel_kept : forall k, option_Forall2 (holds s (away u)) (caretakers s !! k) (kept u !! k);
  rel_apart : forall k l m, caretakers s !! k = Some (Some m : ptr) -> caretakers s !! l = Some (Some m) -> k = l;
  rel_saves : next_addr (states s) = saves u;
  rel_there : forall a, a ∈ dom (cells (states s)) <-> (a < saves u)%nat /\ a ∉ away u;
  rel_answered : forall i n, answers u !! i = Some n -> (n < saves u)%nat;
  rel_away : forall n, n ∈ away u -> (n < saves u)%nat;
}.

Lemma undo_init : rel init nothing.
Proof.
  split; try apply heap_ok_empty; try done; try (intros i; cbn; rewrite !lookup_empty; by constructor).
  intros a. cbn. rewrite dom_empty_L. split; [set_solver|lia].
Qed.

Lemma text_of s u i : rel s u -> forall t, texts u !! i = Some t -> exists o, originators s !! i = Some o /\ shows o t.
Proof. intros I t Ht. pose proof (rel_texts _ _ I i) as H. rewrite Ht in H. inversion H; subst. eauto. Qed.

Lemma kept_of s u k : rel s u -> forall t, kept u !! k = Some t -> exists p, caretakers s !! k = Some p /\ holds s (away u) p t.
Proof. intros I t Ht. pose proof (rel_kept _ _ I k) as H. rewrite Ht in H. inversion H; subst. eauto. Qed.

(** An originator gets a new value, a caretaker its first one, and is dropped. *)
Lemma set_text s u i o t ans :
  rel s u -> shows o t -> m_pState o = ans !! i -> (forall j, j <> i -> ans !! j = answers u !! j) ->
  (forall n, ans !! i = Some n -> (n < saves u)%nat) ->
  rel (set_originator i o s) (mkUndo (<[i := t]> (texts u)) ans (kept u) (away u) (saves u)).
Proof.
  intros [] Ht Ho Hans Hn. split; try done; cbn [texts answers kept away saves set_originator originators].
  - intros j. cbn. rewrite !lookup_insert. by case_decide; [constructor|].
  - intros j o'. cbn. rewrite lookup_insert. case_decide as E; [subst j; by intros [= <-]|]. rewrite Hans by done. apply rel_answers0.
  - intros j n. destruct (decide (j = i)) as [->|Hj]; [apply Hn|]. rewrite Hans by done. apply rel_answered0.
Qed.

Lemma set_kept s u k :
  rel s u ->
  rel (mkState (states s) (mementos s) (originators s) (<[k := None]> (caretakers s)))
    (mkUndo (texts u) (answers u) (<[k := None]> (kept u)) (away u) (saves u)).
Proof.
  intros []. split; try done.
  - intros j. cbn. rewrite !lookup_insert. by case_decide; [constructor|].
  - cbn. intros j l m. rewrite !lookup_insert. repeat case_decide; try done. eauto.
Qed.

Lemma drop_kept s u k :
  rel s u ->
  rel (mkState (states s) (mementos s) (originators s) (delete k (caretakers s)))
    (mkUndo (texts u) (answers u) (delete k (kept u)) (away u) (saves u)).
Proof.
  intros []. split; try done.
  - intros j. cbn. rewrite !lookup_delete. by case_decide; [constructor|].
  - cbn. intros j l m. rewrite !lookup_delete. repeat case_decide; try done. eauto.
Qed.

Lemma kept_fresh s u k : rel s u -> caretakers s !! k <> Some (Some (next_addr (mementos s)) : ptr).
Proof.
  intros I E. pose proof (rel_kept _ _ I k) as H. rewrite E in H. inversion H as [? t Hh Ex E2|]; subst.
  destruct t as [[a v]|]; [|done]. destruct Hh as (_ & _ & Hm & _). by rewrite alloc_fresh in Hm by apply I.
Qed.

(** The memento that a caretaker had is deleted while the new one is there. *)
Lemma free_old s gone p t (a : nat) :
  heap_ok (mementos s) -> holds s gone p t ->
  exists h, free p (alloc [mkMemento (Some a)] (mementos s)).2 = Some h /\ heap_ok h /\
    forall x, p <> Some x -> cells h !! x = cells (alloc [mkMemento (Some a)] (mementos s)).2 !! x.
Proof.
  intros HM Hh. destruct (free_spec p (alloc [mkMemento (Some a)] (mementos s)).2) as (h & E & _ & _ & Hx).
  - destruct p as [q|]; cbn [ptr_blocks]; [|apply empty_subseteq]. destruct t as [[a0 v]|]; [|done].
    destruct Hh as (_ & _ & Hm & _). cbn. intros x ->%elem_of_singleton. apply elem_of_dom.
    destruct (decide (next_addr (mementos s) = q)) as [->|Hq]; [rewrite lookup_insert_eq|rewrite lookup_insert_ne by done]; eauto.
  - exists h. split; [done|]. split; [eapply heap_ok_free; [by apply (heap_ok_alloc [mkMemento (Some a)])|done]|].
    intros x Hxp. apply Hx. destruct p as [q|]; cbn; [|apply not_elem_of_empty]. by intros ->%elem_of_singleton.
Qed.

(** What a save computes: a new state with the copied text, a new memento that leads to it, and the
    old one deleted. *)
Lemma save_run s u i k v t0 :
  rel s u -> texts u !! i = Some (Some v) -> kept u !! k = Some t0 ->
  let a := next_addr (states s) in let m := next_addr (mementos s) in
  exists o p h b, originators s !! i = Some o /\ caretakers s !! k = Some p /\ wcsValue o = padded v /\ text_ok v /\
    wcsncpy (SIZE - 1) b = Some ((Some <$> v) ++ replicate (SIZE - 1 - length v) (Some 0)) /\
    heap_ok h /\ (forall x, p <> Some x -> cells h !! x = <[m := [mkMemento (Some a)]]> (cells (mementos s)) !! x) /\
    save i k s = Some (mkState (mkHeap (<[a := b]> (cells (states s))) (S a)) h
                        (<[i := mkOriginator (Some a) (wcsValue o)]> (originators s)) (<[k := Some m]> (caretakers s))).
Proof.
  intros I Hv Hk a m. destruct (text_of _ _ _ I _ Hv) as (o & Ho & Hok & Hw). destruct (kept_of _ _ _ I _ Hk) as (p & Hp & Hh).
  set (l := (Some <$> v) ++ replicate (SIZE - 1 - length v) (Some 0)).
  assert (Hl : wcsncpy (SIZE - 1) (wcsValue o) = Some l) by (rewrite Hw; apply copy_text; auto).
  destruct (free_old s (away u) p t0 a (rel_mementos _ _ I) Hh) as (h & Hfree & Hok1 & Hsame).
  exists o, p, h, (l ++ drop (SIZE - 1) (replicate SIZE None)). split_and!; try done.
  - apply copy_text; [done|]. right. exists None. unfold l. rewrite <- app_assoc. reflexivity.
  - unfold save, CreateMemento, Keep. rewrite Ho. cbn [mbind option_bind alloc]. rewrite Hl. cbn [mbind option_bind cells].
    rewrite lookup_insert_eq. cbn [mbind option_bind caretakers]. rewrite Hp. cbn [mbind option_bind mementos].
    fold a. change (mkHeap (<[next_addr (mementos s):=[mkMemento (Some a)]]> (cells (mementos s))) (S (next_addr (mementos s)))) with (alloc [mkMemento (Some a)] (mementos s)).2.
    rewrite Hfree. cbn [mbind option_bind states originators cells next_addr]. by rewrite insert_insert_eq.
Qed.

Lemma save_ok s u i k v t0 :
  rel s u -> texts u !! i = Some (Some v) -> kept u !! k = Some t0 ->
  exists s1, save i k s = Some s1 /\
    rel s1 (mkUndo (texts u) (<[i := saves u]> (answers u)) (<[k := Some (saves u, v)]> (kept u)) (away u) (S (saves u))).
Proof.
  intros I Hv Hk. destruct (save_run s u i k v t0 I Hv Hk) as (o & p & h & b & Ho & Hp & Hw & Hok & Hb & Hh & Hsame & ->).
  eexists. split; [done|]. pose proof (rel_saves _ _ I) as Ha. rewrite Ha in *. set (a := saves u) in *. set (m := next_addr (mementos s)) in *.
  assert (Hfresh : a ∉ away u) by (intros H%(rel_away _ _ I); unfold a in *; lia).
  assert (Hpm : p <> Some m) by (intros ->; by apply (kept_fresh s u k I)).
  split; cbn.
  - rewrite <- Ha. by apply (heap_ok_alloc b), I.
  - done.
  - intros j. rewrite lookup_insert. case_decide as Ej; [|apply (rel_texts _ _ I)].
    subst j. rewrite Hv. constructor. cbn. by split.
  - intros j o'. rewrite !lookup_insert. case_decide; [by intros [= <-]|apply (rel_answers _ _ I)].
  - intros j. rewrite !lookup_insert. case_decide as Ej.
    + constructor. cbn. split_and!; [done|lia|by rewrite Hsame, lookup_insert_eq|]. intros _. exists b. cbn. by rewrite lookup_insert_eq.
    + pose proof (rel_kept _ _ I j) as Hj. inversion Hj as [p' t' Ht' E1 E2|E1 E2]; constructor.
      destruct p' as [q|], t' as [[a' v']|]; cbn in *; try done.
      destruct Ht' as (Hv' & Hlt & Hq & Hc). rewrite Ha in Hlt. split_and!; [done|lia| |].
      * rewrite Hsame by (intros ->; apply Ej; symmetry in E1; by eapply (rel_apart _ _ I)).
        rewrite lookup_insert_ne; [done|]. intros Emq. unfold m in Emq. rewrite <- Emq in Hq. by rewrite alloc_fresh in Hq by apply I.
      * intros (b' & Hb' & Hc')%Hc. exists b'. cbn. rewrite lookup_insert_ne by lia. done.
  - intros j j' x. rewrite !lookup_insert. repeat case_decide; intros E1 E2; subst; try done.
    + injection E1 as <-. by apply (kept_fresh s u j' I) in E2.
    + injection E2 as <-. by apply (kept_fresh s u j I) in E1.
    + by eapply (rel_apart _ _ I).
  - done.
  - intros x. rewrite dom_insert, elem_of_union, elem_of_singleton, (rel_there _ _ I). fold a. destruct (decide (x = a)) as [->|Hx]; intuition lia.
  - intros j n. rewrite lookup_insert. case_decide; [intros [= <-]; lia|]. intros Hn%(rel_answered _ _ I). fold a in Hn. lia.
  - intros n Hn%(rel_away _ _ I). fold a in Hn. lia.
Qed.

Lemma load_one {A} (h : heap A) a x : cells h !! a = Some [x] -> load (Some a) 0 h = Some x.
Proof. intros H. unfold load. cbn [mbind option_bind]. by rewrite H. Qed.

(** Taking back, and deleting: both are undefined exactly when the state is no longer there. *)
Lemma restore_spec s u i k n v t0 :
  rel s u -> texts u !! i = Some t0 -> kept u !! k = Some (Some (n, v)) ->
  restore i k s = if bool_decide (n ∈ away u) then None else Some (set_originator i (mkOriginator (Some n) (padded v)) s).
Proof.
  intros I Ht Hv. destruct (text_of _ _ _ I _ Ht) as (o & Ho & _). destruct (kept_of _ _ _ I _ Hv) as (p & Hp & Hh).
  destruct p as [m|]; [|done]. destruct Hh as (Hok & _ & Hm & Hst).
  unfold restore, GetMemento, SetMemento. rewrite Hp. cbn [mbind option_bind]. rewrite Ho. cbn [mbind option_bind].
  rewrite (load_one _ _ _ Hm). cbn [mbind option_bind fmap option_fmap option_map GetState]. case_bool_decide as Ha.
  - rewrite (proj1 (not_elem_of_dom _ _)); [done|]. rewrite (rel_there _ _ I). tauto.
  - destruct (Hst Ha) as (b & -> & Hc). cbn [mbind option_bind]. rewrite Hc. cbn [mbind option_bind]. by rewrite padded_split.
Qed.

Lemma delete_spec s u i t :
  rel s u -> texts u !! i = Some t ->
  delete_originator i s =
    match answers u !! i with
    | None => Some (mkState (states s) (mementos s) (delete i (originators s)) (caretakers s))
    | Some n => if bool_decide (n ∈ away u) then None
                else Some (mkState (mkHeap (delete n (cells (states s))) (next_addr (states s))) (mementos s) (delete i (originators s)) (caretakers s))
    end.
Proof.
  intros I Ht. destruct (text_of _ _ _ I _ Ht) as (o & Ho & _). unfold delete_originator. rewrite Ho. cbn [mbind option_bind].
  rewrite (rel_answers _ _ I _ _ Ho). destruct (answers u !! i) as [n|] eqn:En; [|done].
  pose proof (rel_there _ _ I n) as Hn. pose proof (rel_answered _ _ I _ _ En). unfold free. case_bool_decide as Ha.
  - rewrite (proj1 (not_elem_of_dom _ _)); [done|]. tauto.
  - destruct (proj1 (elem_of_dom (cells (states s)) n)) as [b ->]; [tauto|done].
Qed.

Lemma delete_keeps s u i n t :
  rel s u -> texts u !! i = Some t -> answers u !! i = Some n -> n ∉ away u ->
  rel (mkState (mkHeap (delete n (cells (states s))) (next_addr (states s))) (mementos s) (delete i (originators s)) (caretakers s))
    (mkUndo (delete i (texts u)) (delete i (answers u)) (kept u) ({[n]} ∪ away u) (saves u)).
Proof.
  intros I Ht Hn Ha. destruct I. split; cbn; try done.
  - intros a. cbn. rewrite dom_delete. set_solver.
  - intros j. rewrite !lookup_delete. by case_decide; [constructor|].
  - intros j o. rewrite !lookup_delete. case_decide; [done|apply rel_answers0].
  - intros k. specialize (rel_kept0 k). inversion rel_kept0 as [p t' Hh E1 E2|E1 E2]; constructor.
    destruct p as [m|], t' as [[a v]|]; cbn in *; try done. destruct Hh as (Hv & Hlt & Hm & Hst). split_and!; [done..|].
    rewrite not_elem_of_union, not_elem_of_singleton. intros [Hne Haw]. destruct (Hst Haw) as (b & Hb & Hc).
    exists b. cbn. by rewrite lookup_delete_ne.
  - intros a. rewrite dom_delete, elem_of_difference, rel_there0, elem_of_singleton. set_solver.
  - intros j m. rewrite lookup_delete. case_decide; [done|apply rel_answered0].
  - intros m. rewrite elem_of_union, elem_of_singleton. intros [->|Hm]; eauto.
Qed.

Lemma delete_idle s u i t :
  rel s u -> texts u !! i = Some t -> answers u !! i = None ->
  rel (mkState (states s) (mementos s) (delete i (originators s)) (caretakers s))
    (mkUndo (delete i (texts u)) (answers u) (kept u) (away u) (saves u)).
Proof.
  intros I Ht Hn. destruct I. split; cbn; try done.
  - intros j. rewrite !lookup_delete. by case_decide; [constructor|].
  - intros j o. rewrite lookup_delete. case_decide; [done|apply rel_answers0].
Qed.

(** A command that the description has does what it says; one that would use a state that is no
    longer there is undefined. *)
Lemma exec_spec c s u :
  rel s u ->
  match spec c u with
  | Some u1 => exists s1, exec c s = Some s1 /\ rel s1 u1
  | None => True
  end.
Proof.
  intros I. destruct (spec c u) as [u1|] eqn:H; [|done]. destruct c as [i|k|i v|i k|i k|k|i]; cbn [spec exec] in *.
  - case_bool_decide; [|done]. injection H as <-. eexists. split; [done|].
    apply set_text; cbn; rewrite ?lookup_delete_eq; try done. intros j Hj. by rewrite lookup_delete_ne.
  - case_bool_decide; [|done]. injection H as <-. eexists. split; [done|]. by apply set_kept.
  - apply bind_Some in H as (t & Ht & H). destruct (_ && _) eqn:Hv; [|done]. injection H as <-.
    apply andb_true_iff in Hv as [Hl%bool_decide_eq_true Hn%bool_decide_eq_true].
    destruct (text_of _ _ _ I _ Ht) as (o & Ho & _). rewrite (SetValue_spec _ o) by done. eexists. split; [done|].
    apply set_text; cbn; try done; [by apply (rel_answers _ _ I)|apply (rel_answered _ _ I)].
  - apply bind_Some in H as (t & Ht & H). apply bind_Some in H as (v & -> & H). apply bind_Some in H as (t0 & Hk & H). injection H as <-.
    by apply (save_ok s u i k v t0).
  - apply bind_Some in H as (t & Ht & H). apply bind_Some in H as (t0 & Hk & H). apply bind_Some in H as ([n v] & -> & H).
    rewrite (restore_spec s u i k n v t I Ht Hk). case_bool_decide; [done|]. injection H as <-. eexists. split; [done|].
    destruct (kept_of _ _ _ I _ Hk) as (p & _ & Hh). destruct p; [|done]. destruct Hh as (Hok & Hlt & _). rewrite (rel_saves _ _ I) in Hlt.
    apply set_text; cbn; rewrite ?lookup_insert_eq; try done; [intros j Hj; by rewrite lookup_insert_ne|by intros ? [= <-]].
  - apply bind_Some in H as (t & Ht & H). injection H as <-. destruct (kept_of _ _ _ I _ Ht) as (p & Hp & _).
    unfold delete_caretaker. rewrite Hp. cbn. eexists. split; [done|]. by apply drop_kept.
  - apply bind_Some in H as (t & Ht & H). rewrite (delete_spec s u i t I Ht).
    destruct (answers u !! i) as [n|] eqn:En; [case_bool_decide; [done|]|]; injection H as <-; eexists; (split; [done|]).
    + by eapply delete_keeps.
    + by eapply delete_idle.
Qed.

Lemma exec_all_spec cs : forall s u u1, rel s u -> spec_all cs u = Some u1 -> exists s1, exec_all cs s = Some s1 /\ rel s1 u1.
Proof.
  induction cs as [|c cs IH]; intros s u u1 I H; cbn [spec_all exec_all] in *; [injection H as <-; by exists s|].
  apply bind_Some in H as (u2 & H1 & H2). pose proof (exec_spec c s u I) as E. rewrite H1 in E.
  destruct E as (s2 & -> & I2). cbn. by eapply IH.
Qed.

(** C19: any number of originators and caretakers that are made, set, saved, taken back and
    deleted in any order, as long as every text that is saved was set, no text has 260 characters,
    and no memento is taken back and no originator deleted after the state it leads to went with
    another originator: each caretaker gives back the text it was last given, to whichever
    originator, and in memory is the state of every save but those that originators took
    with them. *)
Theorem memento_is_undo cs u :
  spec_all cs nothing = Some u ->
  exists s, exec_all cs init = Some s /\
    (forall i v, texts u !! i = Some (Some v) -> exists o, originators s !! i = Some o /\ wcsValue o = padded v) /\
    (forall a, a ∈ dom (cells (states s)) <-> (a < saves u)%nat /\ a ∉ away u).
Proof.
  intros H. destruct (exec_all_spec cs init nothing u undo_init H) as (s & E & I). exists s. split; [done|]. split; [|apply I].
  intros i v Hv. destruct (text_of _ _ _ I _ Hv) as (o & Ho & _ & Hw). eauto.
Qed.

(** the state of a memento belongs to the originator that made it, and to each that
    took it back.  Once one of them is deleted the memento leads nowhere, and a second one
    deletes the state again; both are undefined. *)
Theorem memento_owners s u i j k v t0 t1 s1 :
  rel s u -> texts u !! i = Some (Some v) -> texts u !! j = Some t1 -> kept u !! k = Some t0 -> i <> j ->
  save i k s = Some s1 ->
  (s2 ← delete_originator i s1; restore j k s2) = None /\
  (s2 ← restore j k s1; s3 ← delete_originator i s2; delete_originator j s3) = None.
Proof.
  intros I Hi Hj Hk Hij Hs. destruct (save_ok s u i k v t0 I Hi Hk) as (s' & E & I1). rewrite Hs in E. injection E as <-.
  assert (Hn : saves u ∉ away u) by (intros H%(rel_away _ _ I); lia). split.
  - rewrite (delete_spec s1 _ i _ I1 Hi). cbn [answers away]. rewrite lookup_insert_eq, bool_decide_false by done.
    cbn [mbind option_bind]. eapply (delete_keeps _ _ i (saves u)) in I1; [|exact Hi|by cbn; rewrite lookup_insert_eq|done]. cbn in I1.
    rewrite (restore_spec _ _ j k (saves u) v t1 I1); cbn; rewrite ?lookup_insert_eq, ?lookup_delete_ne by done; try done.
    by rewrite bool_decide_true by set_solver.
  - pose proof (exec_spec (Restore j k) s1 _ I1) as E. cbn [spec exec texts kept away] in E.
    rewrite Hj, lookup_insert_eq in E. cbn [mbind option_bind] in E. rewrite bool_decide_false in E by done.
    destruct E as (s2 & -> & I2). cbn [mbind option_bind answers saves] in *.
    rewrite (delete_spec s2 _ i (Some v) I2) by (cbn; by rewrite lookup_insert_ne). cbn [answers away].
    rewrite lookup_insert_ne, lookup_insert_eq, bool_decide_false by done. cbn [mbind option_bind].
    eapply (delete_keeps _ _ i (saves u)) in I2; [|cbn; by rewrite lookup_insert_ne|cbn; by rewrite lookup_insert_ne, lookup_insert_eq|done]. cbn in I2.
    rewrite (delete_spec _ _ j (Some v) I2); cbn; rewrite ?lookup_delete_ne, ?lookup_insert_eq by done; [|done].
    by rewrite bool_decide_true by set_solver.
Qed.
Definition cs_ready : list command := [NewOriginator 0; NewOriginator 1; NewCaretaker 0; Set_ 0 [111; 110]].

(** [main]: "on" is kept, "off" set and "on" taken back; then the caretaker and the originator
    are deleted. *)
Definition cs_main : list command := cs_ready ++ [Save 0 0; Set_ 0 [111; 102; 102]; Restore 0 0].
Definition cs_end : list command := cs_main ++ [Forget 0; Delete 0].

Lemma memento_is_undo_witness :
  (exists s o, exec_all cs_main init = Some s /\ originators s !! 0%nat = Some o /\ wcsValue o = padded [111; 110] /\
    0%nat ∈ dom (cells (states s))) /\
  (exists s, exec_all cs_end init = Some s /\ 0%nat ∉ dom (cells (states s))).
Proof.
  split.
  - destruct (memento_is_undo cs_main (mkUndo {[0%nat := Some [111; 110]; 1%nat := None]} {[0%nat := 0%nat]} {[0%nat := Some (0%nat, [111; 110])]} ∅ 1))
      as (s & E & Ht & Hs); [vm_compute; reflexivity|].
    destruct (Ht 0%nat [111; 110]) as (o & Ho & Hw); [reflexivity|]. exists s, o. split_and!; [done..|]. apply Hs. cbn. split; [lia|set_solver].
  - destruct (memento_is_undo cs_end (mkUndo {[1%nat := None]} ∅ ∅ {[0%nat]} 1)) as (s & E & _ & Hs); [vm_compute; reflexivity|].
    exists s. split; [done|]. rewrite Hs. cbn. set_solver.
Defined.

Lemma memento_owners_witness :
  exists s s1, exec_all cs_ready init = Some s /\ save 0 0 s = Some s1 /\
    (s2 ← delete_originator 0 s1; restore 1 0 s2) = None /\
    (s2 ← restore 1 0 s1; s3 ← delete_originator 0 s2; delete_originator 1 s3) = None.
Proof.
  destruct (exec_all_spec cs_ready init nothing
    (mkUndo {[0%nat := Some [111; 110]; 1%nat := None]} ∅ {[0%nat := None]} ∅ 0) undo_init) as (s & E & I); [vm_compute; reflexivity|].
  destruct (save_ok s _ 0 0 [111; 110] None I) as (s1 & E1 & _); [reflexivity..|]. exists s, s1. split; [done|]. split; [done|].
  by apply (memento_owners s _ 0 1 0 [111; 110] None None s1 I).
Defined.

(** [main] leaves the memento itself behind. *)
Example main_leaves_memento :
  (s ← exec_all cs_end init; Some (size (cells (states s)), size (cells (mementos s)))) = Some (0, 1)%nat.
Proof. vm_compute. reflexivity. Qed.

(** ** The role of a game ([memento_inst.cpp]), with unsigned numbers *)

Record GameRole := mkRole { m_iBlood : Z; m_iAttack : Z; m_iDefense : Z }.
Definition new_role : GameRole := mkRole 100 100 100.

(** A memento holds the same three numbers. *)
Definition RoleStateMemento : Type := Z * Z * Z.
Definition SaveState (r : GameRole) : RoleStateMemento := (m_iBlood r, m_iAttack r, m_iDefense r).
Definition RecoveryState (m : RoleStateMemento) (r : GameRole) : GameRole := mkRole m.1.1 m.1.2 m.2.

(** [Fight], and whether it says that the game is over *)
Definition Fight (r : GameRole) : GameRole * bool :=
  let b := wrapU 32 (m_iBlood r - 100) in
  (mkRole b (wrapU 32 (m_iAttack r - 10)) (wrapU 32 (m_iDefense r - 20)), b =? 0).
Fixpoint fights (n : nat) (r : GameRole) : GameRole := match n with O => r | S n => (Fight (fights n r)).1 end.

Lemma fights_are n :
  fights n new_role = mkRole (wrapU 32 (100 - 100 * Z.of_nat n)) (wrapU 32 (100 - 10 * Z.of_nat n)) (wrapU 32 (100 - 20 * Z.of_nat n)).
Proof.
  induction n as [|n IH]; [done|]. cbn [fights]. rewrite IH. unfold Fight. cbn [m_iBlood m_iAttack m_iDefense fst]. unfold wrapU.
  rewrite !Zminus_mod_idemp_l. f_equal; f_equal; lia.
Qed.

(** a role that was saved after [n] fights is recovered as it was, whatever it went through
    since; the numbers go round below 0, and the game is over in the first fight, then in none of
    the next 2^30 - 1. *)
Theorem role_recovered n m :
  RecoveryState (SaveState (fights n new_role)) (fights m new_role) = fights n new_role /\
  ((Fight (fights n new_role)).2 = true <-> Z.of_nat n `mod` 2 ^ 30 = 0) /\
  (0 < Z.of_nat n < 2 ^ 24 -> 2 ^ 31 < m_iBlood (fights (S n) new_role)).
Proof.
  split_and!.
  - rewrite fights_are. done.
  - assert (E : (Fight (fights n new_role)).2 = (m_iBlood (fights (S n) new_role) =? 0)) by done.
    rewrite E, Z.eqb_eq, fights_are. cbn [m_iBlood]. unfold wrapU. rewrite !Z.mod_divide by lia.
    replace (100 - 100 * Z.of_nat (S n)) with (Z.of_nat n * 25 * (- 4)) by lia. split.
    + intros [q Hq]. apply Z.gauss with 25; [exists (- q); lia|]. vm_compute. reflexivity.
    + intros [q ->]. exists (- 25 * q). lia.
  - intros Hn. rewrite fights_are. cbn [m_iBlood]. unfold wrapU. rewrite <- (Z.mod_add _ 1) by lia.
    rewrite Z.mod_small; lia.
Qed.
End Memento.
