(* ===== verification/Delivery.v ===== *)
(** The example of delivery mechanisms over DDS
    ([src/other/pubsub/dds/delivery_mechanisms/]): its command line ([CLIParser.hpp]) and the
    transports, resource limits and locators that its three applications ask the library for
    ([PublisherApp.cpp], [SubscriberApp.cpp], [PubSubApp.cpp]). *)
From stdpp Require Import pretty.
From S2P Require Import Prelude Calculator.

Module Delivery.
Import Calculator.

(** ** The command line *)

Inductive EntityKind := PUBLISHER | SUBSCRIBER | PUBSUB | UNDEFINED.
Inductive DeliveryMechanismKind :=
  DATA_SHARING | INTRA_PROCESS | LARGE_DATA | SHM | TCPv4 | TCPv6 | UDPv4 | UDPv6 | DEFAULT.
#[export] Instance EntityKind_eq_dec : EqDecision EntityKind.
Proof. solve_decision. Defined.
#[export] Instance DeliveryMechanismKind_eq_dec : EqDecision DeliveryMechanismKind.
Proof. solve_decision. Defined.

Record delivery_mechanisms_config := mkConfig {
  entity : EntityKind;
  ignore_local_endpoints : bool;
  samples : Z;
  domain : Z;
  delivery_mechanism : DeliveryMechanismKind;
  tcp_ip_address : string;
}.
Definition default_config : delivery_mechanisms_config := mkConfig UNDEFINED false 0 0 DEFAULT "".

Definition set_entity (e : EntityKind) (c : delivery_mechanisms_config) :=
  mkConfig e (ignore_local_endpoints c) (samples c) (domain c) (delivery_mechanism c) (tcp_ip_address c).
Definition set_ignore (c : delivery_mechanisms_config) :=
  mkConfig (entity c) true (samples c) (domain c) (delivery_mechanism c) (tcp_ip_address c).
Definition set_samples (v : Z) (c : delivery_mechanisms_config) :=
  mkConfig (entity c) (ignore_local_endpoints c) v (domain c) (delivery_mechanism c) (tcp_ip_address c).
Definition set_domain (v : Z) (c : delivery_mechanisms_config) :=
  mkConfig (entity c) (ignore_local_endpoints c) (samples c) v (delivery_mechanism c) (tcp_ip_address c).
Definition set_mechanism (m : DeliveryMechanismKind) (c : delivery_mechanisms_config) :=
  mkConfig (entity c) (ignore_local_endpoints c) (samples c) (domain c) m (tcp_ip_address c).
Definition set_address (a : string) (c : delivery_mechanisms_config) :=
  mkConfig (entity c) (ignore_local_endpoints c) (samples c) (domain c) (delivery_mechanism c) a.

Definition one_of (s : string) (l : list string) : bool := bool_decide (s ∈ l).

(** A number from [low] to [high], stored in 16 bits; both exceptions of [std::stoi] and the one
    that is thrown for a number out of the range end the program. *)
Definition consume_number (low high : Z) (arg : string) : outcome Z :=
  match stoi arg with
  | Value input => if (input <? low) || (high <? input) then print_help EXIT_FAILURE else Return (wrapU 16 input)
  | InvalidArgument | OutOfRange => print_help EXIT_FAILURE
  end.

(** The chain of spellings after [-m] *)
Definition consume_mechanism (e : EntityKind) (mechanism : string) : outcome DeliveryMechanismKind :=
  if one_of mechanism ["DATA-SHARING"; "data-sharing"; "DATA_SHARING"; "data_sharing"]%string then Return DATA_SHARING
  else if one_of mechanism ["INTRA-PROCESS"; "intra-process"; "INTRA_PROCESS"; "intra_process"]%string then
    if decide (e = PUBSUB) then Return INTRA_PROCESS else print_help EXIT_FAILURE
  else if one_of mechanism ["LARGE-DATA"; "large-data"; "LARGE_DATA"; "large_data"]%string then Return LARGE_DATA
  else if one_of mechanism ["TCP"; "tcp"; "TCPv4"; "tcpv4"; "TCPV4"]%string then Return TCPv4
  else if one_of mechanism ["TCPv6"; "tcpv6"; "TCPV6"]%string then Return TCPv6
  else if one_of mechanism ["UDP"; "udp"; "UDPv4"; "udpv4"; "UDPV4"]%string then Return UDPv4
  else if one_of mechanism ["UDPv6"; "udpv6"; "UDPV6"]%string then Return UDPv6
  else if one_of mechanism ["SHM"; "shm"]%string then Return SHM
  else print_help EXIT_FAILURE.

(** The loop over the options *)
Fixpoint options (argv : list string) (c : delivery_mechanisms_config) : outcome delivery_mechanisms_config :=
  match argv with
  | [] => Return c
  | arg :: rest =>
      if is_help arg then print_help EXIT_SUCCESS
      else if one_of arg ["-a"; "--address"]%string then
        match rest with
        | v :: rest => options rest (set_address v c)
        | [] => print_help EXIT_FAILURE
        end
      else if one_of arg ["-d"; "--domain"]%string then
        match rest with
        | v :: rest => match consume_number 0 232 v with Return n => options rest (set_domain n c) | Exit r => Exit r end
        | [] => print_help EXIT_FAILURE
        end
      else if one_of arg ["-s"; "--samples"]%string then
        match rest with
        | v :: rest => match consume_number 0 65535 v with Return n => options rest (set_samples n c) | Exit r => Exit r end
        | [] => print_help EXIT_FAILURE
        end
      else if one_of arg ["-m"; "--mechanism"]%string then
        match rest with
        | v :: rest => match consume_mechanism (entity c) v with Return m => options rest (set_mechanism m c) | Exit r => Exit r end
        | [] => print_help EXIT_FAILURE
        end
      else if one_of arg ["-i"; "--ignore-local-endpoints"]%string then
        if decide (entity c = PUBSUB) then options rest (set_ignore c) else print_help EXIT_FAILURE
      else print_help EXIT_FAILURE
  end.

Definition is_tcp (m : DeliveryMechanismKind) : bool := match m with TCPv4 | TCPv6 => true | _ => false end.

(** The two checks at the end *)
Definition check_config (c : delivery_mechanisms_config) : outcome delivery_mechanisms_config :=
  if bool_decide (entity c = PUBSUB) && negb (ignore_local_endpoints c) && is_tcp (delivery_mechanism c)
  then print_help EXIT_FAILURE
  else if negb (bool_decide (tcp_ip_address c = ""%string)) && negb (is_tcp (delivery_mechanism c))
  then print_help EXIT_FAILURE
  else Return c.

Definition parse_entity (first_argument : string) : outcome EntityKind :=
  if bool_decide (first_argument = "publisher"%string) then Return PUBLISHER
  else if bool_decide (first_argument = "subscriber"%string) then Return SUBSCRIBER
  else if bool_decide (first_argument = "pubsub"%string) then Return PUBSUB
  else if is_help first_argument then print_help EXIT_SUCCESS
  else print_help EXIT_FAILURE.

(** [parse_cli_options]; [argv] starts with the name of the program. *)
Definition parse_cli_options (argv : list string) : outcome delivery_mechanisms_config :=
  match argv with
  | _ :: first_argument :: rest =>
      e ← parse_entity first_argument;
      c ← options rest (set_entity e default_config);
      check_config c
  | _ => print_help EXIT_FAILURE
  end.

Definition parse_entity_kind (e : EntityKind) : string :=
  match e with
  | PUBLISHER => "Publisher"
  | SUBSCRIBER => "Subscriber"
  | PUBSUB => "PubSub"
  | UNDEFINED => "Undefined entity"
  end.

(** ** What the applications ask the library for *)

(** Default limits of the library, a constructor in one of its headers *)
Record limits := mkLimits {
  max_samples : Z;
  max_instances : Z;
  max_samples_per_instance : Z;
}.
Definition default_limits : limits := mkLimits 5000 10 400.

(** [samples_] or, for 0, the default; a [uint32_t] *)
Definition max_samples_of (c : delivery_mechanisms_config) : Z :=
  if wrapU 32 (samples c) =? 0 then wrapU 32 (max_samples_per_instance default_limits) else wrapU 32 (samples c).

Record locator := mkLocator {
  is_v6 : bool;
  address : string;
  port : Z;
}.

Inductive transport :=
  | SharedMem (segment_size : Z)
  | TCP (v6 : bool) (wan_address : option string) (listening_ports : list Z)
  | UDP (v6 : bool).

(** The parts of [DomainParticipantQos] and [LibrarySettings] that are set *)
Record participant_qos := mkQos {
  use_builtin_transports : bool;
  large_data : bool;
  intraprocess_full : bool;
  ignore_local : bool;
  user_transports : list transport;
  lease_infinite : bool;
  metatraffic_unicast : list locator;
  default_unicast : list locator;
  initial_peers : list locator;
}.

Definition builtin_qos (large intra : bool) : participant_qos := mkQos true large intra false [] false [] [] [].
Definition user_qos (t : transport) : participant_qos := mkQos false false false false [t] false [] [] [].

(** [tcp_ip_address] of the cases of TCP *)
Definition tcp_address (v6 : bool) (c : delivery_mechanisms_config) : string :=
  if bool_decide (tcp_ip_address c = ""%string) then (if v6 then "::1" else "127.0.0.1")%string else tcp_ip_address c.
Definition tcp_locator (v6 : bool) (c : delivery_mechanisms_config) : locator := mkLocator v6 (tcp_address v6 c) 5100.

Definition publisher_tcp (v6 : bool) (c : delivery_mechanisms_config) : participant_qos :=
  mkQos false false false false [TCP v6 (if v6 then None else Some (tcp_address v6 c)) [5100]] true
    [tcp_locator v6 c] [tcp_locator v6 c] [].
Definition subscriber_tcp (v6 : bool) (c : delivery_mechanisms_config) : participant_qos :=
  mkQos false false false false [TCP v6 None []] true [] [] [tcp_locator v6 c].
Definition pubsub_tcp (v6 : bool) (c : delivery_mechanisms_config) : participant_qos :=
  mkQos false false false false [TCP v6 (if v6 then None else Some (tcp_address v6 c)) [5100]] true
    [tcp_locator v6 c] [tcp_locator v6 c] [tcp_locator v6 c].

Section Program.
(** [max_message_size] of the shared memory transport, a [uint32_t] *)
Context (max_message_size : Z).

(** The [switch] of the three constructors; its cases differ for TCP only. *)
Definition transport_switch (tcp : bool -> delivery_mechanisms_config -> participant_qos)
    (c : delivery_mechanisms_config) : participant_qos :=
  match delivery_mechanism c with
  | INTRA_PROCESS => builtin_qos false true
  | SHM | DATA_SHARING => user_qos (SharedMem (wrapU 32 (max_message_size * max_samples_of c)))
  | LARGE_DATA => builtin_qos true false
  | TCPv4 => tcp false c
  | TCPv6 => tcp true c
  | UDPv4 => user_qos (UDP false)
  | UDPv6 => user_qos (UDP true)
  | DEFAULT => builtin_qos false false
  end.

Definition set_ignore_local (b : bool) (q : participant_qos) : participant_qos :=
  mkQos (use_builtin_transports q) (large_data q) (intraprocess_full q) b (user_transports q) (lease_infinite q)
    (metatraffic_unicast q) (default_unicast q) (initial_peers q).

Definition participant_of (c : delivery_mechanisms_config) : participant_qos :=
  match entity c with
  | PUBLISHER | UNDEFINED => transport_switch publisher_tcp c
  | SUBSCRIBER => transport_switch subscriber_tcp c
  | PUBSUB => set_ignore_local (ignore_local_endpoints c) (transport_switch pubsub_tcp c)
  end.

(** Writers and readers are reliable, transient local and keep the last samples. *)
Record endpoint_qos := mkEndpoint {
  depth : Z;
  resource_limits : limits;
  data_sharing_automatic : bool;
}.

(** [q]: the limits of the QoS that [get_default_datawriter_qos] fills in *)
Definition endpoint_of (q : limits) (c : delivery_mechanisms_config) : endpoint_qos :=
  let n := max_samples_of c in
  mkEndpoint (wrapS 32 n) (mkLimits (wrapS 32 (wrapU 32 (max_instances q * n))) (max_instances q) (wrapS 32 n))
    (bool_decide (delivery_mechanism c = DATA_SHARING)).

(** *** The constructors *)

Inductive call :=
  | TypeIsPlainAndBounded | SetLibrarySettings | CreateParticipant (domain : Z) (q : participant_qos) | RegisterType
  | CreatePublisher | CreateSubscriber | CreateTopic (name : string)
  | CreateDataReader (q : endpoint_qos) | CreateDataWriter (q : endpoint_qos)
  | DeleteContainedEntities | DeleteParticipant.

(** [answer h c]: after the calls [h], the call [c] gives an object or succeeds; [defaults]
    are the limits in the default QoS of the library. *)
Context (answer : list call -> call -> bool) (defaults : limits).

(** Calls in their order, each with the exception its failure throws, or [None] where the result
    is not looked at *)
Abbreviation plan := (list (call * option string)).
Fixpoint construct (p : plan) (h : list call) : (string + unit) * list call :=
  match p with
  | [] => (inr (), h)
  | (c, Some msg) :: p => if answer h c then construct p (h ++ [c]) else (inl msg, h ++ [c])
  | (c, None) :: p => construct p (h ++ [c])
  end.

Definition participant_plan (c : delivery_mechanisms_config) : plan :=
  [(TypeIsPlainAndBounded, Some "Example generated type does not fulfil the example constraints: it is not plain and/or bounded");
   (SetLibrarySettings, None);
   (CreateParticipant (domain c) (participant_of c), Some "Participant initialization failed");
   (RegisterType, None)]%string.
Definition publisher_plan : plan := [(CreatePublisher, Some "Publisher initialization failed"%string)].
Definition subscriber_plan : plan := [(CreateSubscriber, Some "Subscriber initialization failed"%string)].
Definition topic_plan (name : string) : plan := [(CreateTopic name, Some "Topic initialization failed"%string)].
Definition reader_plan (c : delivery_mechanisms_config) : plan :=
  [(CreateDataReader (endpoint_of defaults c), Some "DataReader initialization failed"%string)].
Definition writer_plan (c : delivery_mechanisms_config) : plan :=
  [(CreateDataWriter (endpoint_of defaults c), Some "DataWriter initialization failed"%string)].

(** [PublisherApp::PublisherApp], [SubscriberApp::SubscriberApp], [PubSubApp::PubSubApp] *)
Definition publisher_ctor (c : delivery_mechanisms_config) (topic_name : string) : plan :=
  participant_plan c ++ publisher_plan ++ topic_plan topic_name ++ writer_plan c.
Definition subscriber_ctor (c : delivery_mechanisms_config) (topic_name : string) : plan :=
  participant_plan c ++ subscriber_plan ++ topic_plan topic_name ++ reader_plan c.
Definition pubsub_ctor (c : delivery_mechanisms_config) (topic_name : string) : plan :=
  participant_plan c ++ publisher_plan ++ subscriber_plan ++ topic_plan topic_name ++ reader_plan c ++ writer_plan c.

(** [Application::make_app] *)
Definition make_app (c : delivery_mechanisms_config) (topic_name : string) (h : list call) : (string + unit) * list call :=
  match entity c with
  | PUBLISHER => construct (publisher_ctor c topic_name) h
  | SUBSCRIBER => construct (subscriber_ctor c topic_name) h
  | PUBSUB => construct (pubsub_ctor c topic_name) h
  | UNDEFINED => (inl "Entity initialization failed"%string, h)
  end.

(** The destructors of the three, after a constructor that has returned *)
Definition dtor (h : list call) : list call := h ++ [DeleteContainedEntities; DeleteParticipant].

Definition topic_name : string := "delivery_mechanisms_topic".

(** [main]: its exit code, [None] when the thread of [run] never ends, and the calls made;
    [run] tells whether it does. *)
Definition main (run : delivery_mechanisms_config -> bool) (argv : list string) : option Z * list call :=
  match parse_cli_options argv with
  | Exit r => (Some r, [])
  | Return c =>
      match make_app c topic_name [] with
      | (inl _, h) => (Some EXIT_FAILURE, h)
      | (inr _, h) => if run c then (Some EXIT_SUCCESS, dtor h) else (None, h)
      end
  end.
End Program.

(** What the help says of a configuration *)
Record valid (c : delivery_mechanisms_config) : Prop := {
  v_entity : entity c <> UNDEFINED;
  v_samples : 0 <= samples c <= 65535;
  v_domain : 0 <= domain c <= 232;
  v_intra : delivery_mechanism c = INTRA_PROCESS -> entity c = PUBSUB;
  v_ignore : ignore_local_endpoints c = true -> entity c = PUBSUB;
  v_address : tcp_ip_address c <> ""%string -> is_tcp (delivery_mechanism c) = true;
}.

(** The case that the parser refuses though the help does not say so: a "pubsub" whose halves
    would talk to each other over TCP *)
Definition corner_case (c : delivery_mechanisms_config) : Prop :=
  entity c = PUBSUB /\ ignore_local_endpoints c = false /\ is_tcp (delivery_mechanism c) = true.

(** A command line for it *)
Definition entity_arg (e : EntityKind) : string :=
  match e with PUBLISHER => "publisher" | SUBSCRIBER => "subscriber" | PUBSUB => "pubsub" | UNDEFINED => "" end.
Definition mechanism_arg (m : DeliveryMechanismKind) : list string :=
  match m with
  | DATA_SHARING => ["-m"; "DATA-SHARING"]
  | INTRA_PROCESS => ["-m"; "INTRA-PROCESS"]
  | LARGE_DATA => ["-m"; "LARGE-DATA"]
  | SHM => ["-m"; "SHM"]
  | TCPv4 => ["-m"; "TCPv4"]
  | TCPv6 => ["-m"; "TCPv6"]
  | UDPv4 => ["-m"; "UDPv4"]
  | UDPv6 => ["-m"; "UDPv6"]
  | DEFAULT => []
  end%string.
Definition command_line (c : delivery_mechanisms_config) : list string :=
  entity_arg (entity c) :: ["--samples"; pretty (samples c); "--domain"; pretty (domain c)]%string
  ++ mechanism_arg (delivery_mechanism c)
  ++ (if ignore_local_endpoints c then ["-i"%string] else [])
  ++ (if decide (tcp_ip_address c = ""%string) then [] else ["-a"%string; tcp_ip_address c]).

Lemma consume_number_in low high arg v :
  0 <= low -> high <= 65535 -> consume_number low high arg = Return v -> low <= v <= high.
Proof.
  intros Hl Hh. unfold consume_number, print_help. destruct (stoi arg) as [i| |]; [|done..].
  destruct ((i <? low) || (high <? i)) eqn:E; [done|]. intros [= <-]. apply orb_false_iff in E as [E1 E2]. zbool.
  rewrite wrapU_small; lia.
Qed.

Lemma consume_number_pretty low high v :
  0 <= low <= v -> v <= high <= 65535 -> consume_number low high (pretty v) = Return v.
Proof.
  intros Hl Hh. unfold consume_number. rewrite stoi_pretty by (apply is_int_spec; unfold INT_MIN, INT_MAX; lia).
  destruct ((v <? low) || (high <? v)) eqn:E; [apply orb_true_iff in E as [E|E]; zbool; lia|].
  rewrite wrapU_small by lia. done.
Qed.

(** What the loop keeps *)
Definition sound (c : delivery_mechanisms_config) : Prop :=
  0 <= samples c <= 65535 /\ 0 <= domain c <= 232 /\
  (delivery_mechanism c = INTRA_PROCESS -> entity c = PUBSUB) /\
  (ignore_local_endpoints c = true -> entity c = PUBSUB).

Lemma consume_mechanism_intra e arg m : consume_mechanism e arg = Return m -> m = INTRA_PROCESS -> e = PUBSUB.
Proof. unfold consume_mechanism, print_help. intros H ->. repeat case_match; simplify_eq; done. Qed.

Lemma options_sound n : forall argv c c',
  (length argv <= n)%nat -> sound c -> options argv c = Return c' -> sound c' /\ entity c' = entity c.
Proof.
  induction n as [|n IH]; intros argv c c' Hn Hc H; destruct argv as [|arg rest]; cbn in Hn; try lia; cbn [options] in H;
    unfold print_help in H; try by simplify_eq.
  destruct Hc as (H1 & H2 & H3 & H4).
  repeat case_match; simplify_eq; cbn [length] in Hn;
    (apply IH in H as [IH1 IH2]; [split; [exact IH1|exact IH2]|cbn; lia|]); unfold sound; cbn; split_and!; auto; try lia.
  all: match goal with
    | H : consume_number _ _ _ = Return _ |- _ => apply consume_number_in in H; lia
    | H : consume_mechanism _ _ = Return _ |- _ => by intros; eapply consume_mechanism_intra
    end.
Qed.

Lemma check_config_ok c c' :
  check_config c = Return c' ->
  c' = c /\ ~ corner_case c /\
  (tcp_ip_address c <> ""%string -> is_tcp (delivery_mechanism c) = true).
Proof.
  unfold check_config, print_help. destruct (_ && is_tcp _) eqn:E1; [done|]. destruct (negb _ && negb _) eqn:E2; [done|].
  intros [= <-]. split; [done|]. split.
  - intros (He & Hi & Ht). by rewrite He, Hi, Ht in E1.
  - intros Ha. apply andb_false_iff in E2 as [E2|E2]; apply negb_false_iff in E2; [by apply bool_decide_eq_true in E2|done].
Qed.

(** Each option in turn *)
Lemma option_samples v rest c : 0 <= v <= 65535 -> options ("--samples"%string :: pretty v :: rest) c = options rest (set_samples v c).
Proof.
  intros H. transitivity (match consume_number 0 65535 (pretty v) with Return n => options rest (set_samples n c) | Exit r => Exit r end);
    [reflexivity|]. by rewrite consume_number_pretty by lia.
Qed.
Lemma option_domain v rest c : 0 <= v <= 232 -> options ("--domain"%string :: pretty v :: rest) c = options rest (set_domain v c).
Proof.
  intros H. transitivity (match consume_number 0 232 (pretty v) with Return n => options rest (set_domain n c) | Exit r => Exit r end);
    [reflexivity|]. by rewrite consume_number_pretty by lia.
Qed.
Lemma option_m w m rest c :
  consume_mechanism (entity c) w = Return m -> options ("-m"%string :: w :: rest) c = options rest (set_mechanism m c).
Proof.
  intros H. transitivity (match consume_mechanism (entity c) w with Return n => options rest (set_mechanism n c) | Exit r => Exit r end);
    [reflexivity|]. by rewrite H.
Qed.
Lemma option_mechanism m rest c :
  (m = INTRA_PROCESS -> entity c = PUBSUB) -> delivery_mechanism c = DEFAULT ->
  options (mechanism_arg m ++ rest) c = options rest (set_mechanism m c).
Proof.
  intros H Hd. destruct m; cbn [mechanism_arg app]; try (apply option_m; reflexivity).
  - apply option_m. by rewrite H.
  - destruct c; cbn in *; by subst.
Qed.
Lemma option_ignore (i : bool) rest c :
  (i = true -> entity c = PUBSUB) -> ignore_local_endpoints c = false ->
  options ((if i then ["-i"%string] else []) ++ rest) c = options rest (if i then set_ignore c else c).
Proof.
  intros H Hi. destruct i; [|done]. transitivity (if decide (entity c = PUBSUB) then options rest (set_ignore c) else print_help EXIT_FAILURE);
    [reflexivity|]. by rewrite decide_True by auto.
Qed.

Lemma cli_sound argv c : parse_cli_options argv = Return c -> valid c /\ ~ corner_case c.
Proof.
  intros H. destruct argv as [|name argv]; [done|]. unfold parse_cli_options in H. destruct argv as [|first rest]; [done|].
  unfold mbind, outcome_bind in H. destruct (parse_entity first) as [|e] eqn:He; [done|].
  destruct (options rest _) as [|c1] eqn:Ho; [done|].
  apply check_config_ok in H as (-> & H5 & H6).
  apply (options_sound (length rest)) in Ho as [(H1 & H2 & H3 & H4) Hent]; [|done|by unfold sound; cbn; split_and!].
  split; [|done]. split; try done. rewrite Hent. cbn. unfold parse_entity, print_help in He. by repeat case_match; simplify_eq.
Qed.

(** C27: the configurations that a command line can give are those the help allows (the numbers
    in their ranges, intra-process delivery and ignored local endpoints with "pubsub" only, an
    address with TCP only) but for one case that the help does not mention: TCP between the two
    halves of a "pubsub". Each of the others is reached. *)
Theorem delivery_cli_complete name c :
  (exists argv, parse_cli_options (name :: argv) = Return c) <-> valid c /\ ~ corner_case c.
Proof.
  split; [intros [argv H]; by eapply cli_sound|].
  - intros [[H1 H2 H3 H4 H5 H7] H6]. exists (command_line c). destruct c as [e i sm d m a]. cbn in H1, H2, H3, H4, H5, H6, H7.
    unfold parse_cli_options, command_line. cbn [entity samples domain delivery_mechanism ignore_local_endpoints tcp_ip_address].
    assert (He : parse_entity (entity_arg e) = Return e) by (by destruct e).
    rewrite He. cbn [mbind outcome_bind app]. rewrite option_samples, option_domain by done.
    rewrite option_mechanism by done. rewrite option_ignore by done.
    set (c1 := if i then _ else _).
    assert (Ho : options (if decide (a = ""%string) then [] else ["-a"%string; a]) c1 = Return (mkConfig e i sm d m a)).
    { assert (Ec : set_address a c1 = mkConfig e i sm d m a) by (by destruct i).
      case_decide as Ea; [|by transitivity (Return (A := delivery_mechanisms_config) (set_address a c1)); [reflexivity|f_equal]].
      rewrite <- Ec. subst a. by destruct i. }
    rewrite Ho. cbn [mbind outcome_bind]. unfold check_config. cbn [entity ignore_local_endpoints delivery_mechanism tcp_ip_address].
    assert (E1 : bool_decide (e = PUBSUB) && negb i && is_tcp m = false).
    { case_bool_decide; [|done]. destruct i; [done|]. destruct (is_tcp m) eqn:Et; [|done]. by destruct H6. }
    rewrite E1. destruct (decide (a = ""%string)) as [Ea|Ea]; [by rewrite (bool_decide_eq_true_2 _ Ea)|].
    by rewrite (bool_decide_eq_false_2 _ Ea), H7.
Qed.

Definition full_config : delivery_mechanisms_config := mkConfig PUBSUB true 10 232 TCPv6 "fe80::1".

Example cli_reads_all :
  parse_cli_options ["dm"; "pubsub"; "-a"; "::2"; "-m"; "tcpv6"; "-s"; " +10x"; "-i"; "-d"; "232"; "-a"; "fe80::1"]%string = Return full_config.
Proof. vm_compute. reflexivity. Qed.
(** An address before a mechanism that does not use it is refused at the end only. *)
Example cli_refuses :
  parse_cli_options ["dm"; "publisher"; "-a"; "::2"]%string = Exit EXIT_FAILURE /\
  parse_cli_options ["dm"; "publisher"; "-a"; "-h"; "-h"]%string = Exit EXIT_SUCCESS.
Proof. vm_compute. done. Qed.

(** ** The numbers fit *)

Lemma max_samples_in c : valid c -> max_samples_of c = if samples c =? 0 then 400 else samples c.
Proof.
  intros []. unfold max_samples_of. rewrite (wrapU_small 32 (samples c)) by lia. done.
Qed.

(** no number that is computed for the library wraps round, up to the largest number of
    samples: the segment of the shared memory has room for all messages, and the limits of
    writers and readers are consistent, with a history as deep as an instance may be. *)
Theorem delivery_qos_fits c msg :
  valid c -> 0 <= msg <= 65500 ->
  exists n, 1 <= n <= 65535 /\ (samples c <> 0 -> n = samples c) /\
    endpoint_of default_limits c = mkEndpoint n (mkLimits (10 * n) 10 n) (bool_decide (delivery_mechanism c = DATA_SHARING)) /\
    (delivery_mechanism c = SHM \/ delivery_mechanism c = DATA_SHARING ->
       user_transports (participant_of msg c) = [SharedMem (msg * n)]).
Proof.
  intros Hv Hm. pose proof (max_samples_in c Hv) as E. pose proof (v_samples _ Hv) as Hs.
  exists (max_samples_of c). rewrite E.
  assert (Hn : 1 <= (if samples c =? 0 then 400 else samples c) <= 65535) by (case_match; zbool; lia).
  split; [done|]. split; [case_match; zbool; lia|]. split.
  - unfold endpoint_of. rewrite E. cbn [max_instances default_limits].
    rewrite (wrapU_small 32), !wrapS_small by lia. done.
  - intros H. assert (Hw : wrapU 32 (msg * max_samples_of c) = msg * max_samples_of c) by (rewrite E; apply wrapU_small; nia).
    rewrite <- E. unfold participant_of, transport_switch. destruct (entity c), H as [-> | ->]; cbn; by rewrite Hw.
Qed.

Lemma full_config_valid : valid full_config.
Proof. split; cbn; done || lia. Qed.

Lemma delivery_qos_fits_witness :
  exists n, endpoint_of default_limits full_config = mkEndpoint n (mkLimits (10 * n) 10 n) false /\ n = 10.
Proof.
  destruct (delivery_qos_fits full_config 65500 full_config_valid) as (n & _ & H1 & H2 & _); [lia|].
  exists n. split; [exact H2|]. by apply H1.
Defined.

(** a participant has either the transports of the library or one of its own; delivery within
    the process is on exactly when it was asked for; and with TCP and the same address
    the peers that a reading participant tries first are the locators at which a
    writing one listens. *)
Theorem delivery_transports_meet c d msg :
  valid c -> valid d ->
  length (user_transports (participant_of msg c)) = (if use_builtin_transports (participant_of msg c) then 0 else 1)%nat /\
  (intraprocess_full (participant_of msg c) = true <-> delivery_mechanism c = INTRA_PROCESS) /\
  (entity c <> SUBSCRIBER -> entity d <> PUBLISHER -> is_tcp (delivery_mechanism c) = true ->
   delivery_mechanism d = delivery_mechanism c -> tcp_ip_address d = tcp_ip_address c ->
   initial_peers (participant_of msg d) = metatraffic_unicast (participant_of msg c) /\
   initial_peers (participant_of msg d) <> [] /\
   forall l, l ∈ initial_peers (participant_of msg d) ->
     exists wan, user_transports (participant_of msg c) = [TCP (is_v6 l) wan [port l]]).
Proof.
  intros Hc Hd. pose proof (v_entity _ Hc). pose proof (v_entity _ Hd). split_and!.
  - unfold participant_of, transport_switch. by destruct (entity c), (delivery_mechanism c).
  - unfold participant_of, transport_switch. by destruct (entity c), (delivery_mechanism c).
  - intros H1 H2 Ht Em Ea.
    assert (El : forall v6, tcp_locator v6 d = tcp_locator v6 c) by (intros; unfold tcp_locator, tcp_address; by rewrite Ea).
    unfold participant_of, transport_switch. rewrite Em.
    destruct (entity c), (entity d), (delivery_mechanism c); try done; cbn; rewrite El;
      (split; [done|]; split; [done|]); intros l ->%list_elem_of_singleton; cbn; eauto.
Qed.

Definition peer_config : delivery_mechanisms_config := mkConfig SUBSCRIBER false 10 232 TCPv6 "fe80::1".

Lemma delivery_transports_meet_witness :
  initial_peers (participant_of 65500 peer_config) = metatraffic_unicast (participant_of 65500 full_config).
Proof.
  assert (Hp : valid peer_config) by (split; cbn; done || lia).
  destruct (delivery_transports_meet full_config peer_config 65500 full_config_valid Hp) as (_ & _ & H).
  by apply H.
Defined.

(** ** How the program starts and ends *)

Section Ends.
Context (msg : Z) (answer : list call -> call -> bool) (defaults : limits).

(** The calls a constructor has made are those of its plan, up to the first that fails and is
    looked at. *)
Lemma construct_spec p h :
  (construct answer p h = (inr (), h ++ p.*1) /\
   forall l c m r, p = l ++ (c, Some m) :: r -> answer (h ++ l.*1) c = true) \/
  (exists l c m r, p = l ++ (c, Some m) :: r /\ answer (h ++ l.*1) c = false /\
     construct answer p h = (inl m, h ++ l.*1 ++ [c])).
Proof.
  revert h. induction p as [|[c [m|]] p IH]; intros h; cbn [construct].
  - left. cbn. rewrite app_nil_r. split; [done|]. by intros [] ? ? ?.
  - destruct (answer h c) eqn:E.
    + destruct (IH (h ++ [c])) as [[H1 H2]|(l & c' & m' & r & -> & H2 & H3)].
      * left. rewrite H1, <- app_assoc. split; [done|]. intros [|[c1 m1] l] c' m' r Hp; simplify_eq/=; [by rewrite app_nil_r|].
        rewrite <- (H2 l c' m' r) by done. by rewrite <- app_assoc.
      * right. exists ((c, Some m) :: l), c', m', r. rewrite H3. cbn. rewrite <- app_assoc in H2 |- *. done.
    + right. exists [], c, m, p. cbn. by rewrite app_nil_r.
  - destruct (IH (h ++ [c])) as [[H1 H2]|(l & c' & m' & r & -> & H2 & H3)].
    + left. rewrite H1, <- app_assoc. split; [done|]. intros [|[c1 m1] l] c' m' r Hp; simplify_eq/=.
      rewrite <- (H2 l c' m' r) by done. by rewrite <- app_assoc.
    + right. exists ((c, None) :: l), c', m', r. rewrite H3. cbn. rewrite <- app_assoc in H2 |- *. done.
Qed.

Definition ctor_of (c : delivery_mechanisms_config) : list (call * option string) :=
  match entity c with
  | PUBLISHER => publisher_ctor msg defaults c topic_name
  | SUBSCRIBER => subscriber_ctor msg defaults c topic_name
  | PUBSUB => pubsub_ctor msg defaults c topic_name
  | UNDEFINED => []
  end.

Lemma ctor_deletes_nothing c x : x ∈ (ctor_of c).*1 -> x <> DeleteContainedEntities /\ x <> DeleteParticipant.
Proof.
  unfold ctor_of. destruct (entity c); cbn; intros H;
    repeat (apply elem_of_cons in H as [->|H]; [done|]); by apply not_elem_of_nil in H.
Qed.

(** the program ends with success exactly when its command line is good, every creation
    succeeds and the thread of [run] returns, and it has then deleted what it created; when a
    creation fails it ends with failure, and the participant and the entities that were created
    before are not deleted. *)
Theorem delivery_process run argv c :
  parse_cli_options argv = Return c ->
  let '(e, h) := main msg answer defaults run argv in
  (e = Some EXIT_SUCCESS /\ run c = true /\ h = (ctor_of c).*1 ++ [DeleteContainedEntities; DeleteParticipant]) \/
  (e = None /\ run c = false /\ h = (ctor_of c).*1) \/
  (exists l x m r, ctor_of c = l ++ (x, Some m) :: r /\ answer l.*1 x = false /\ e = Some EXIT_FAILURE /\ h = l.*1 ++ [x] /\
     DeleteParticipant ∉ h).
Proof.
  intros Hc. unfold main. rewrite Hc.
  assert (Hv : valid c).
  { by eapply cli_sound. }
  assert (Em : make_app msg answer defaults c topic_name [] = construct answer (ctor_of c) []).
  { unfold make_app, ctor_of. pose proof (v_entity _ Hv). by destruct (entity c). }
  rewrite Em. destruct (construct_spec (ctor_of c) []) as [[-> _]|(l & x & m & r & Hp & Ha & ->)].
  - cbn [app]. destruct (run c) eqn:Er; [left|right; left]; done.
  - right. right. exists l, x, m, r. cbn in *. split_and!; try done. intros Hin.
    assert (Hall : DeleteParticipant ∈ (ctor_of c).*1).
    { rewrite Hp, fmap_app, fmap_cons. cbn. set_solver. }
    by apply ctor_deletes_nothing in Hall as [_ []].
Qed.
End Ends.

Lemma delivery_process_witness :
  let '(e, h) := main 65500 (fun _ c => match c with CreateTopic _ => false | _ => true end) default_limits
    (fun _ => true) ["dm"; "publisher"]%string in e = Some EXIT_FAILURE /\ DeleteParticipant ∉ h.
Proof.
  pose proof (delivery_process 65500 (fun _ c => match c with CreateTopic _ => false | _ => true end) default_limits
    (fun _ => true) ["dm"; "publisher"]%string (set_entity PUBLISHER default_config) eq_refl) as H.
  vm_compute in H. vm_compute. destruct H as [(H & _)|[(H & _)|(l & x & m & r & H1 & H2 & _ & _ & H)]]; [done..|]. by split.
Defined.
End Delivery.
