(* ===== verification/DeliveryApps.v ===== *)
(** The applications of the delivery example ([PublisherApp.cpp], [SubscriberApp.cpp],
    [PubSubApp.cpp]): the threads of [run] and the callbacks of the library, in single atomic
    actions.  Nobody but the thread of [run] locks the mutex, so that it orders nothing:
    [stop] and [on_publication_matched] store and notify without it. *)
From S2P Require Import Prelude.

Module DeliveryApps.

(** A thread in [cv_.wait(lock, predicate)]: about to test the predicate, about to block after
    it was false, blocked *)
Inductive wait_pc := Testing | Going | Asleep.
Definition wake (w : wait_pc) : wait_pc := match w with Asleep => Testing | w => w end.

(** ** [PublisherApp] *)

(** [run] and [publish]: the test of the loop, the wait for a reader, the loan, the
    write, the wait for the period; returned *)
Inductive ppc := PLoop | PMatch (w : wait_pc) | PLoan | PWrite | PPeriod (w : wait_pc) | PReturned.

(** [notes]: notifications that are about to be made; [sent]: the indexes that were written and
    whether [write] succeeded *)
Record publisher := mkPub {
  pc : ppc;
  matched_ : Z;
  index_of_last_sample_sent_ : Z;
  samples_ : Z;
  stop_ : bool;
  notes : nat;
  sent : list (Z * bool);
}.
Definition new_publisher (samples : Z) : publisher := mkPub PLoop 0 0 samples false 0 [].

Definition goto (p : ppc) (s : publisher) : publisher :=
  mkPub p (matched_ s) (index_of_last_sample_sent_ s) (samples_ s) (stop_ s) (notes s) (sent s).

(** The next action of the thread; [ok] is what the library answers if it is asked. *)
Definition pub_main (ok : bool) (s : publisher) : option publisher :=
  match pc s with
  | PLoop =>
      Some (goto (if negb (stop_ s) && ((samples_ s =? 0) || (index_of_last_sample_sent_ s <? samples_ s))
                  then PMatch Testing else PReturned) s)
  | PMatch Testing => Some (goto (if (0 <? matched_ s) || stop_ s then PLoan else PMatch Going) s)
  | PMatch Going => Some (goto (PMatch Asleep) s)
  | PLoan =>
      Some (if negb (stop_ s) && ok
            then mkPub PWrite (matched_ s) (wrapU 32 (index_of_last_sample_sent_ s + 1)) (samples_ s) (stop_ s) (notes s) (sent s)
            else goto (PPeriod Testing) s)
  | PWrite =>
      Some (mkPub (PPeriod Testing) (matched_ s) (index_of_last_sample_sent_ s) (samples_ s) (stop_ s) (notes s)
              (sent s ++ [(index_of_last_sample_sent_ s, ok)]))
  | PPeriod Testing => Some (goto (if stop_ s then PLoop else PPeriod Going) s)
  | PPeriod Going => Some (goto (PPeriod Asleep) s)
  | PMatch Asleep | PPeriod Asleep | PReturned => None
  end.

(** [on_publication_matched], up to its notification *)
Definition on_publication_matched (change count : Z) (s : publisher) : publisher :=
  if change =? 1
  then mkPub (pc s) count (index_of_last_sample_sent_ s) (samples_ s) (stop_ s) (S (notes s)) (sent s)
  else if change =? -1
  then mkPub (pc s) count (index_of_last_sample_sent_ s) (samples_ s) (stop_ s) (notes s) (sent s)
  else s.

(** [stop], up to its notification *)
Definition pub_stop (s : publisher) : publisher :=
  mkPub (pc s) (matched_ s) (index_of_last_sample_sent_ s) (samples_ s) true (S (notes s)) (sent s).

Definition wake_pub (s : publisher) : publisher :=
  match pc s with PMatch w => goto (PMatch (wake w)) s | PPeriod w => goto (PPeriod (wake w)) s | _ => s end.

Inductive pub_action :=
  | Main (ok : bool) | Timeout_ | Matched (change count : Z) | Stop | Notify | Spurious.

Definition pub_step (a : pub_action) (s : publisher) : option publisher :=
  match a with
  | Main ok => pub_main ok s
  | Timeout_ => match pc s with PPeriod Asleep => Some (goto PLoop s) | _ => None end
  | Matched change count => Some (on_publication_matched change count s)
  | Stop => Some (pub_stop s)
  | Notify =>
      match notes s with
      | O => None
      | S n => Some (wake_pub (mkPub (pc s) (matched_ s) (index_of_last_sample_sent_ s) (samples_ s) (stop_ s) n (sent s)))
      end
  | Spurious => Some (wake_pub s)
  end.

Fixpoint pub_run (l : list pub_action) (s : publisher) : option publisher :=
  match l with [] => Some s | a :: l => s1 ← pub_step a s; pub_run l s1 end.

(** ** [SubscriberApp] *)

(** The thread of [run]; the listener between two batches, in a batch whose samples are valid
    or not, in [stop] before its notification *)
Inductive spc := SWait (w : wait_pc) | SReturned.
Inductive lpc := LIdle | LItems (rest : list bool) | LNotify (rest : list bool).

Record subscriber := mkSub {
  spc_ : spc;
  listener : lpc;
  received_samples_ : Z;
  ssamples_ : Z;
  sstop_ : bool;
  snotes : nat;
}.
Definition new_subscriber (samples : Z) : subscriber := mkSub (SWait Testing) LIdle 0 samples false 0.

Definition sub_main (s : subscriber) : option subscriber :=
  let go p := Some (mkSub p (listener s) (received_samples_ s) (ssamples_ s) (sstop_ s) (snotes s)) in
  match spc_ s with
  | SWait Testing => go (if sstop_ s then SReturned else SWait Going)
  | SWait Going => go (SWait Asleep)
  | SWait Asleep | SReturned => None
  end.

Definition wake_main (p : spc) : spc := match p with SWait w => SWait (wake w) | p => p end.

Definition after_item (rest : list bool) : lpc := match rest with [] => LIdle | _ => LItems rest end.

(** [on_data_available]: a batch is taken unless the application was stopped; a [take]
    that gives nothing ends the callback. *)
Definition sub_take (batch : list bool) (s : subscriber) : option subscriber :=
  match listener s with
  | LIdle =>
      if sstop_ s then None
      else Some (mkSub (spc_ s) (after_item batch) (received_samples_ s) (ssamples_ s) (sstop_ s) (snotes s))
  | _ => None
  end.
(** The next sample of the batch, and [stop] when it was the last that is wanted *)
Definition sub_item (s : subscriber) : option subscriber :=
  match listener s with
  | LItems (valid :: rest) =>
      if valid then
        let n := wrapU 32 (received_samples_ s + 1) in
        if (0 <? ssamples_ s) && (ssamples_ s <=? n)
        then Some (mkSub (spc_ s) (LNotify rest) n (ssamples_ s) true (snotes s))
        else Some (mkSub (spc_ s) (after_item rest) n (ssamples_ s) (sstop_ s) (snotes s))
      else Some (mkSub (spc_ s) (after_item rest) (received_samples_ s) (ssamples_ s) (sstop_ s) (snotes s))
  | LNotify rest =>
      Some (mkSub (wake_main (spc_ s)) (after_item rest) (received_samples_ s) (ssamples_ s) (sstop_ s) (snotes s))
  | _ => None
  end.

Inductive sub_action := SMain | STake (batch : list bool) | SItem | SStop | SNotify | SSpurious.

Definition sub_step (a : sub_action) (s : subscriber) : option subscriber :=
  match a with
  | SMain => sub_main s
  | STake batch => sub_take batch s
  | SItem => sub_item s
  | SStop => Some (mkSub (spc_ s) (listener s) (received_samples_ s) (ssamples_ s) true (S (snotes s)))
  | SNotify =>
      match snotes s with
      | O => None
      | S n => Some (mkSub (wake_main (spc_ s)) (listener s) (received_samples_ s) (ssamples_ s) (sstop_ s) n)
      end
  | SSpurious => Some (mkSub (wake_main (spc_ s)) (listener s) (received_samples_ s) (ssamples_ s) (sstop_ s) (snotes s))
  end.

Fixpoint sub_run (l : list sub_action) (s : subscriber) : option subscriber :=
  match l with [] => Some s | a :: l => s1 ← sub_step a s; sub_run l s1 end.

(** ** The publisher alone *)

(** One more sample is on its way in these places. *)
Definition ahead (p : ppc) : Z := match p with PMatch _ | PLoan | PWrite => 1 | _ => 0 end.
Definition writing (p : ppc) : Z := match p with PWrite => 1 | _ => 0 end.

(** What every action keeps: the indexes of the writes are 1, 2, 3, ... *)
Record pub_ok (N : Z) (s : publisher) : Prop := {
  po_samples : samples_ s = N;
  po_index : index_of_last_sample_sent_ s = wrapU 32 (Z.of_nat (length (sent s)) + writing (pc s));
  po_sent : (sent s).*1 = (fun k => wrapU 32 k) <$> seqZ 1 (Z.of_nat (length (sent s)));
  po_most : N <> 0 -> Z.of_nat (length (sent s)) + ahead (pc s) <= N;
  po_returned : pc s = PReturned -> stop_ s = true \/ N <> 0 /\ Z.of_nat (length (sent s)) = N;
}.

Lemma seqZ_snoc n : seqZ 1 (Z.of_nat (S n)) = seqZ 1 (Z.of_nat n) ++ [Z.of_nat n + 1].
Proof.
  replace (Z.of_nat (S n)) with (Z.of_nat n + 1) by lia. rewrite seqZ_app by lia. f_equal.
  rewrite seqZ_cons, seqZ_nil by lia. f_equal. lia.
Qed.

(** Changes that touch neither the samples nor the place *)
Lemma pub_ok_same N s s' :
  pub_ok N s -> samples_ s' = samples_ s -> sent s' = sent s -> index_of_last_sample_sent_ s' = index_of_last_sample_sent_ s ->
  ahead (pc s') <= ahead (pc s) -> writing (pc s') = writing (pc s) ->
  (pc s' = PReturned -> stop_ s' = true \/ pc s = PReturned /\ stop_ s' = stop_ s) -> pub_ok N s'.
Proof.
  intros [H1 H2 H3 H4 H5] E1 E2 E3 E4 E5 E6. split; rewrite ?E1, ?E2, ?E3, ?E5; try done.
  - intros HN. specialize (H4 HN). lia.
  - intros Hp. destruct (E6 Hp) as [Hs|[Hr Hs]]; [by left|]. rewrite Hs. auto.
Qed.

Lemma pub_main_ok N ok s s' : 0 <= N < 2 ^ 16 -> pub_ok N s -> pub_main ok s = Some s' -> pub_ok N s'.
Proof.
  intros HN I E. pose proof I as [H1 H2 H3 H4 H5]. unfold pub_main in E.
  destruct (pc s) as [|[]| | |[]|] eqn:Ep; try discriminate E; injection E as <-; cbn [writing ahead] in *; rewrite ?Z.add_0_r in *.
  - destruct (negb (stop_ s) && _) eqn:Et.
    + apply andb_true_iff in Et as [_ Et]. split; cbn; rewrite ?Z.add_0_r; try done. intros Hz.
      apply orb_true_iff in Et as [Et|Et]; zbool; [congruence|]. specialize (H4 Hz). rewrite H2, wrapU_small in Et by lia. lia.
    + split; cbn; rewrite ?Z.add_0_r; try done. intros _.
      apply andb_false_iff in Et as [Et|Et]; [left; by apply negb_false_iff in Et|right].
      apply orb_false_iff in Et as [Et1 Et2]. zbool. specialize (H4 ltac:(congruence)).
      rewrite H2, wrapU_small in Et2 by lia. split; [congruence|lia].
  - apply (pub_ok_same N s); try done; destruct (_ || _); cbn; rewrite ?Ep; done.
  - apply (pub_ok_same N s); try done; cbn; rewrite ?Ep; done.
  - destruct (negb (stop_ s) && ok).
    + split; cbn; try done. rewrite H2. unfold wrapU. by rewrite Zplus_mod_idemp_l.
    + apply (pub_ok_same N s); try done; cbn; rewrite ?Ep; done.
  - assert (El : length (sent s ++ [(index_of_last_sample_sent_ s, ok)]) = S (length (sent s))) by (rewrite length_app; cbn; lia).
    split; cbn [samples_ index_of_last_sample_sent_ sent pc writing ahead stop_]; rewrite ?El; try done.
    + rewrite H2. f_equal. lia.
    + rewrite seqZ_snoc, !fmap_app, H3. cbn. by rewrite H2.
    + intros Hz. specialize (H4 Hz). lia.
  - apply (pub_ok_same N s); try done; destruct (stop_ s); cbn; rewrite ?Ep; done.
  - apply (pub_ok_same N s); try done; cbn; rewrite ?Ep; done.
Qed.

Lemma wake_pub_ok N s : pub_ok N s -> pub_ok N (wake_pub s).
Proof.
  intros I. unfold wake_pub. destruct (pc s) eqn:Ep; try done; apply (pub_ok_same N s); try done; cbn; by rewrite Ep.
Qed.

Lemma pub_step_ok N a s s' : 0 <= N < 2 ^ 16 -> pub_ok N s -> pub_step a s = Some s' -> pub_ok N s'.
Proof.
  intros HN I E. destruct a as [ok| |ch ct| | |]; cbn in E.
  - by eapply pub_main_ok.
  - destruct (pc s) as [|?| | |[]|] eqn:Ep; simplify_eq. apply (pub_ok_same N s); try done; cbn; by rewrite Ep.
  - simplify_eq. unfold on_publication_matched. repeat case_match; try done; apply (pub_ok_same N s); try done; cbn; auto.
  - simplify_eq. apply (pub_ok_same N s); try done. cbn. auto.
  - destruct (notes s) as [|n]; simplify_eq. apply wake_pub_ok, (pub_ok_same N s); try done. cbn. auto.
  - simplify_eq. by apply wake_pub_ok.
Qed.

Lemma new_publisher_ok N : 0 <= N -> pub_ok N (new_publisher N).
Proof. intros H. split; cbn; try done. Qed.

Lemma pub_run_ok N l s s' : 0 <= N < 2 ^ 16 -> pub_ok N s -> pub_run l s = Some s' -> pub_ok N s'.
Proof.
  intros HN. revert s. induction l as [|a l IH]; intros s I E; cbn in E; [by simplify_eq|].
  apply bind_Some in E as (s1 & E1 & E2). eapply IH; [by eapply pub_step_ok|done].
Qed.

(** Before a reader has matched nothing is written. *)
Lemma unmatched_step a s s' :
  (forall ch ct, a = Matched ch ct -> ct <= 0) -> a <> Stop ->
  matched_ s <= 0 /\ stop_ s = false /\ sent s = [] /\ writing (pc s) = 0 /\ pc s <> PLoan ->
  pub_step a s = Some s' ->
  matched_ s' <= 0 /\ stop_ s' = false /\ sent s' = [] /\ writing (pc s') = 0 /\ pc s' <> PLoan.
Proof.
  intros Ha Hs (H1 & H2 & H3 & H4 & H5) E. destruct s as [p m k n st nt l]. cbn in *. subst.
  destruct a as [ok| |ch ct| | |]; cbn in E.
  - assert (Hm : (0 <? m) = false) by (by apply Z.ltb_ge).
    destruct p as [|[]| | |[]|]; cbn in E; rewrite ?Hm in E; cbn in E; try done; injection E as <-; try done; by case_match.
  - destruct p as [|?| | |[]|]; simplify_eq/=; done.
  - specialize (Ha _ _ eq_refl). unfold on_publication_matched in E. repeat case_match; simplify_eq/=; done.
  - done.
  - destruct nt; simplify_eq. destruct p as [|[]| | |[]|]; done.
  - simplify_eq. destruct p as [|[]| | |[]|]; done.
Qed.

Lemma unmatched_run l : forall s s',
  (forall ch ct, Matched ch ct ∈ l -> ct <= 0) -> Stop ∉ l ->
  matched_ s <= 0 /\ stop_ s = false /\ sent s = [] /\ writing (pc s) = 0 /\ pc s <> PLoan ->
  pub_run l s = Some s' -> sent s' = [].
Proof.
  induction l as [|a l IH]; intros s s' Hm Hs I E; cbn in E; [by simplify_eq; apply I|].
  apply bind_Some in E as (s1 & E1 & E2). apply (IH s1 s'); [set_solver|set_solver| |done].
  apply (unmatched_step a s s1); [|set_solver|done|done]. intros ch ct ->. eapply Hm. left.
Qed.

(** whatever the library and a signal do and in whatever order, the publisher writes the
    indexes 1, 2, 3, ... in turn, at most as many as it was asked for, and none before a
    reader has matched; it returns only when it was stopped or has written them all.  An index
    counts as sent whether or not [write] succeeds. *)
Theorem publisher_sends_in_order N l s :
  0 <= N < 2 ^ 16 -> pub_run l (new_publisher N) = Some s ->
  (sent s).*1 = (fun k => wrapU 32 k) <$> seqZ 1 (Z.of_nat (length (sent s))) /\
  (N <> 0 -> Z.of_nat (length (sent s)) <= N) /\
  ((forall ch ct, Matched ch ct ∈ l -> ct <= 0) -> Stop ∉ l -> sent s = []) /\
  (pc s = PReturned -> stop_ s = true \/ N <> 0 /\ Z.of_nat (length (sent s)) = N).
Proof.
  intros HN E. pose proof (pub_run_ok N l _ s HN (new_publisher_ok N ltac:(lia)) E) as [H1 H2 H3 H4 H5]. split_and!; try done.
  - intros Hz. specialize (H4 Hz). unfold ahead in H4. case_match; lia.
  - intros Hm Hs. by apply (unmatched_run l (new_publisher N)).
Qed.

Definition one_cycle (ok : bool) : list pub_action :=
  [Main true; Main true; Main true; Main ok; Main true; Main true; Timeout_].

Lemma publisher_sends_in_order_witness :
  exists s, pub_run (Matched 1 1 :: one_cycle true ++ one_cycle false ++ [Main true]) (new_publisher 2) = Some s /\
    pc s = PReturned /\ sent s = [(1, true); (2, false)] /\ (sent s).*1 = (fun k => wrapU 32 k) <$> seqZ 1 2.
Proof.
  eexists. split; [vm_compute; reflexivity|]. split; [reflexivity|]. split; [reflexivity|].
  apply (publisher_sends_in_order 2 (Matched 1 1 :: one_cycle true ++ one_cycle false ++ [Main true])); [lia|].
  vm_compute. reflexivity.
Defined.

(** ** The subscriber alone *)

Definition pending (p : lpc) : list bool := match p with LIdle => [] | LItems rest | LNotify rest => rest end.
Definition batch_of (a : sub_action) : list bool := match a with STake b => b | _ => [] end.
(** The samples of all batches that were taken *)
Definition taken (l : list sub_action) : list bool := concat (map batch_of l).
Definition valid_samples (l : list bool) : Z := Z.of_nat (length (filter (fun v => v = true) l)).

Lemma pending_after rest : pending (after_item rest) = rest.
Proof. by destruct rest. Qed.

(** [gone]: the samples that were gone through; [last]: the last batch *)
Record sub_ok (N : Z) (l : list sub_action) (s : subscriber) : Prop := {
  so_samples : ssamples_ s = N;
  so_gone : exists gone, taken l = gone ++ pending (listener s) /\ received_samples_ s = wrapU 32 (valid_samples gone);
  so_stop : 0 < N -> N <= received_samples_ s -> sstop_ s = true;
  so_why : SStop ∉ l -> sstop_ s = true -> 0 < N <= received_samples_ s;
  so_last : 0 < N -> exists last, (last = [] \/ STake last ∈ l) /\
    received_samples_ s + Z.of_nat (length (pending (listener s))) <= N - 1 + Z.of_nat (length last);
  so_returned : spc_ s = SReturned -> sstop_ s = true;
}.

Lemma taken_app l1 l2 : taken (l1 ++ l2) = taken l1 ++ taken l2.
Proof. unfold taken. by rewrite map_app, concat_app. Qed.
Lemma taken_snoc l a : taken (l ++ [a]) = taken l ++ batch_of a.
Proof. unfold taken. rewrite map_app, concat_app. cbn. by rewrite app_nil_r. Qed.

Lemma valid_snoc l v : valid_samples (l ++ [v]) = valid_samples l + if v then 1 else 0.
Proof. unfold valid_samples. rewrite filter_app, length_app, Nat2Z.inj_add. by destruct v. Qed.

Lemma valid_le l : 0 <= valid_samples l <= Z.of_nat (length l).
Proof. unfold valid_samples. split; [lia|]. apply inj_le, length_filter. Qed.

Lemma sub_main_ok N l s s' : sub_ok N l s -> sub_main s = Some s' -> sub_ok N (l ++ [SMain]) s'.
Proof.
  intros [H1 H2 H3 H4 H5 H6] E. unfold sub_main in E.
  assert (Hok : forall p, (p = SReturned -> sstop_ s = true) ->
    sub_ok N (l ++ [SMain]) (mkSub p (listener s) (received_samples_ s) (ssamples_ s) (sstop_ s) (snotes s))).
  { intros p Hp. split; cbn; try done; rewrite ?taken_snoc; cbn; rewrite ?app_nil_r; try done.
    - intros Hs. apply H4. set_solver.
    - intros HN. destruct (H5 HN) as (last & Hl & Hb). exists last. split; [set_solver|done]. }
  destruct (spc_ s) as [[]|]; try done; injection E as <-; apply Hok; try done. by destruct (sstop_ s).
Qed.

(** Waking the thread changes nothing that counts. *)
Lemma sub_wake_ok N l a s n :
  sub_ok N l s -> a <> SStop -> batch_of a = [] ->
  sub_ok N (l ++ [a]) (mkSub (wake_main (spc_ s)) (listener s) (received_samples_ s) (ssamples_ s) (sstop_ s) n).
Proof.
  intros [H1 H2 H3 H4 H5 H6] Ha Hb. split; cbn; try done; rewrite ?taken_snoc, ?Hb, ?app_nil_r; try done.
  - intros Hs. apply H4. set_solver.
  - intros HN. destruct (H5 HN) as (last & Hl & Hm). exists last. split; [set_solver|done].
  - intros Hr. apply H6. destruct (spc_ s) as [[]|]; done.
Qed.

Lemma sub_take_ok N l b s s' : sub_ok N l s -> sub_take b s = Some s' -> sub_ok N (l ++ [STake b]) s'.
Proof.
  intros [H1 H2 H3 H4 H5 H6] E. unfold sub_take in E. destruct (listener s) eqn:El; try done.
  destruct (sstop_ s) eqn:Es; [done|]. injection E as <-.
  assert (Hnot : 0 < N -> received_samples_ s <= N - 1).
  { intros HN. destruct (decide (N <= received_samples_ s)) as [Hle|Hle]; [by specialize (H3 HN Hle)|lia]. }
  split; cbn; rewrite ?pending_after, ?taken_snoc; cbn.
  - done.
  - destruct H2 as (gone & Hg & Hr). exists gone. cbn in Hg. rewrite app_nil_r in Hg. by rewrite Hg.
  - intros HN Hle. specialize (Hnot HN). lia.
  - done.
  - intros HN. exists b. split; [right; set_solver|]. specialize (Hnot HN). lia.
  - exact H6.
Qed.

Lemma sub_item_ok N l s s' :
  0 <= N < 2 ^ 16 -> Z.of_nat (length (taken l)) < 2 ^ 32 -> sub_ok N l s -> sub_item s = Some s' -> sub_ok N (l ++ [SItem]) s'.
Proof.
  intros HN Hlen [H1 H2 H3 H4 H5 H6] E. unfold sub_item in E. destruct (listener s) as [|[|v rest]|rest] eqn:El; try done.
  - destruct H2 as (gone & Hg & Hr). cbn in Hg.
    assert (Hgone : taken l = (gone ++ [v]) ++ rest) by (by rewrite <- app_assoc).
    assert (Hb : 0 <= valid_samples gone < 2 ^ 32 - 1).
    { pose proof (valid_le gone). rewrite Hg, length_app in Hlen. cbn in Hlen. lia. }
    rewrite wrapU_small in Hr by lia.
    assert (Hn : wrapU 32 (received_samples_ s + 1) = received_samples_ s + 1) by (rewrite wrapU_small; lia).
    assert (Hlast : 0 < N -> exists last, (last = [] \/ STake last ∈ l ++ [SItem]) /\
      received_samples_ s + 1 + Z.of_nat (length rest) <= N - 1 + Z.of_nat (length last)).
    { intros HN0. destruct (H5 HN0) as (last & Hl & Hm). exists last. split; [set_solver|]. cbn in Hm. lia. }
    destruct v; [rewrite Hn in E; destruct ((0 <? ssamples_ s) && _) eqn:Et|]; injection E as <-;
      (split; cbn; rewrite ?pending_after, ?taken_snoc, ?app_nil_r; cbn; try done).
    + exists (gone ++ [true]). rewrite valid_snoc, ?app_nil_r. split; [done|]. rewrite wrapU_small; lia.
    + intros _ _. apply andb_true_iff in Et as [Et1 Et2]. zbool. lia.
    + exists (gone ++ [true]). rewrite valid_snoc, ?app_nil_r. split; [done|]. rewrite wrapU_small; lia.
    + intros HN0 Hle. apply andb_false_iff in Et as [Et|Et]; zbool; lia.
    + intros Hs Hst. specialize (H4 ltac:(set_solver) Hst). lia.
    + exists (gone ++ [false]). rewrite valid_snoc, ?app_nil_r. split; [done|]. rewrite wrapU_small; lia.
    + intros Hs Hst. apply H4; [set_solver|done].
    + intros HN0. destruct (Hlast HN0) as (last & Hl & Hm). exists last. split; [done|lia].
  - injection E as <-. split; cbn; rewrite ?pending_after, ?taken_snoc, ?app_nil_r; cbn; try done.
    + intros Hs. apply H4. set_solver.
    + intros HN0. destruct (H5 HN0) as (last & Hl & Hm). exists last. split; [set_solver|done].
    + intros Hr. apply H6. destruct (spc_ s) as [[]|]; done.
Qed.

Lemma sub_step_ok N l a s s' :
  0 <= N < 2 ^ 16 -> Z.of_nat (length (taken l)) < 2 ^ 32 -> sub_ok N l s -> sub_step a s = Some s' -> sub_ok N (l ++ [a]) s'.
Proof.
  intros HN Hlen I E. destruct a as [|b| | | |]; cbn [sub_step] in E.
  - by eapply sub_main_ok.
  - by eapply sub_take_ok.
  - by eapply sub_item_ok.
  - injection E as <-. destruct I as [H1 H2 H3 H4 H5 H6]. split; cbn; rewrite ?taken_snoc, ?app_nil_r; cbn; rewrite ?app_nil_r; try done.
    + intros Hs. set_solver.
    + intros HN0. destruct (H5 HN0) as (last & Hl & Hm). exists last. split; [set_solver|done].
  - destruct (snotes s) as [|n]; [done|]. injection E as <-. by apply sub_wake_ok.
  - injection E as <-. by apply sub_wake_ok.
Qed.

Lemma new_subscriber_ok N : 0 <= N -> sub_ok N [] (new_subscriber N).
Proof.
  intros H. split; cbn; try done.
  - by exists [].
  - lia.
  - intros HN. exists []. split; [by left|]. cbn. lia.
Qed.

Lemma sub_run_ok N l : forall l0 s s',
  0 <= N < 2 ^ 16 -> Z.of_nat (length (taken (l0 ++ l))) < 2 ^ 32 -> sub_ok N l0 s -> sub_run l s = Some s' -> sub_ok N (l0 ++ l) s'.
Proof.
  induction l as [|a l IH]; intros l0 s s' HN Hlen I E; cbn in E; [by simplify_eq; rewrite app_nil_r|].
  apply bind_Some in E as (s1 & E1 & E2). replace (l0 ++ a :: l) with ((l0 ++ [a]) ++ l) in * by (by rewrite <- app_assoc).
  apply (IH _ s1); [done|done| |done]. apply (sub_step_ok N l0 a s s1); [done| |done|done].
  rewrite !taken_app, !length_app in Hlen. lia.
Qed.

(** the subscriber counts the valid samples of the batches it takes; without a signal it is
    stopped exactly when it has as many as it was asked for, and then finishes the batch it has
    and no other; its thread returns only when it is stopped. *)
Theorem subscriber_counts N l s :
  0 <= N < 2 ^ 16 -> Z.of_nat (length (taken l)) < 2 ^ 32 -> sub_run l (new_subscriber N) = Some s ->
  (exists gone, taken l = gone ++ pending (listener s) /\ received_samples_ s = valid_samples gone) /\
  (SStop ∉ l -> (sstop_ s = true <-> 0 < N <= received_samples_ s)) /\
  (0 < N -> exists last, (last = [] \/ STake last ∈ l) /\ received_samples_ s <= N - 1 + Z.of_nat (length last)) /\
  (spc_ s = SReturned -> sstop_ s = true).
Proof.
  intros HN Hlen E. destruct (sub_run_ok N l [] _ s HN Hlen (new_subscriber_ok N ltac:(lia)) E) as [H1 H2 H3 H4 H5 H6].
  change ([] ++ l) with l in *. split_and!.
  - destruct H2 as (gone & Hg & Hr). exists gone. split; [done|]. rewrite Hr. apply wrapU_small.
    pose proof (valid_le gone). rewrite Hg, length_app in Hlen. lia.
  - intros Hs. split; [by apply H4|]. intros [Ha Hb]. by apply H3.
  - intros HN0. destruct (H5 HN0) as (last & Hl & Hm). exists last. split; [done|lia].
  - done.
Qed.

(** Five samples when three were asked for, one of them not valid: all of the batch are counted. *)
Definition in_one_batch : list sub_action :=
  [SMain; SMain; STake [true; true; false; true; true]; SItem; SItem; SItem; SItem; SItem; SItem; SItem; SMain].

Lemma subscriber_counts_witness :
  exists s, sub_run in_one_batch (new_subscriber 3) = Some s /\ spc_ s = SReturned /\ received_samples_ s = 4 /\ sstop_ s = true.
Proof.
  eexists. split; [vm_compute; reflexivity|]. split; [reflexivity|]. split; [reflexivity|].
  apply (subscriber_counts 3 in_one_batch); [lia|cbn; lia|vm_compute; reflexivity|reflexivity].
Defined.

(** the subscriber can miss its own end: the last sample comes between the test of
    the predicate and the sleep of the thread, whose notification is then lost; the thread
    sleeps, and nothing the program does wakes it. *)
Theorem subscriber_misses_its_end :
  exists l s, sub_run l (new_subscriber 1) = Some s /\ (SStop ∉ l) /\ (SSpurious ∉ l) /\
    received_samples_ s = 1 /\ sstop_ s = true /\ spc_ s = SWait Asleep /\
    sub_main s = None /\ sub_item s = None /\ snotes s = 0%nat /\ (forall b, sub_take b s = None).
Proof.
  exists [SMain; STake [true]; SItem; SItem; SMain]. eexists. split; [vm_compute; reflexivity|].
  split_and!; try done; set_solver.
Qed.

(** A publisher that nothing in the program can wake *)
Definition fast_asleep (s : publisher) : Prop :=
  pc s = PMatch Asleep /\ notes s = 0%nat /\ (forall ok, pub_step (Main ok) s = None) /\ pub_step Timeout_ s = None /\
  pub_step Notify s = None.

(** and so can the publisher: [on_publication_matched] may store and notify between the
    test and the sleep of [publish], which then sleeps although a reader has matched; [stop]
    from a signal likewise. *)
Theorem publisher_misses_its_reader :
  (exists s, pub_run [Main true; Main true; Matched 1 1; Notify; Main true] (new_publisher 1) = Some s /\
     matched_ s = 1 /\ fast_asleep s) /\
  (exists s, pub_run [Main true; Main true; Stop; Notify; Main true] (new_publisher 1) = Some s /\
     stop_ s = true /\ fast_asleep s).
Proof. split; eexists; (split; [vm_compute; reflexivity|]); split; done. Qed.
End DeliveryApps.
