(* ===== verification/DeliverySystem.v ===== *)
(** The publisher of the delivery example with any number of subscribers that were asked for as
    many samples ([PublisherApp.cpp], [SubscriberApp.cpp]), over a library that delivers each
    written sample once and in order to every reader it has matched, the earlier ones
    included (reliable and transient local writers with a history that keeps them all), as
    long as the writer is there, and whose calls succeed.  When [run] of the publisher has
    returned, the process deletes the writer without waiting for acknowledgments
    ([PublisherApp::~PublisherApp]): of what is on its way to a reader some may still arrive,
    the rest is lost, and nobody is matched any more.  There are no signals, and a subscriber
    that has returned stays matched (it returns when all is written). *)
From S2P Require Import Prelude DeliveryApps.

Module DeliverySystem.
Import DeliveryApps.

(** A subscriber, whether the library has matched it, the samples that are on their way to it,
    and those it has taken so far *)
Record link := mkLink {
  sub : subscriber;
  found : bool;
  queue : list Z;
  got : list Z;
}.

(** [gone]: the application of the publisher is destroyed, and its writer with it. *)
Record system := mkSystem {
  pub : publisher;
  gone : bool;
  links : list link;
}.
Definition start (N : Z) (k : nat) : system :=
  mkSystem (new_publisher N) false (replicate k (mkLink (new_subscriber N) false [] [])).

Definition set_sub (s : subscriber) (l : link) : link := mkLink s (found l) (queue l) (got l).

(** The readers that have matched *)
Definition one_found (l : link) : nat := if found l then 1 else 0.
Definition count_found (ls : list link) : nat := sum_list_with one_found ls.

(** [write] puts the sample on its way to the matched readers. *)
Definition deliver (x : Z) (l : link) : link :=
  mkLink (sub l) (found l) (if found l then queue l ++ [x] else queue l) (got l).

(** The writer is deleted: the first [n] samples on their way still arrive. *)
Definition cut (n : nat) (l : link) : link := mkLink (sub l) (found l) (take n (queue l)) (got l).

(** The thread of the publisher, the end of its period and its notification, the end of its
    process; the discovery of a reader; [take] of [n] samples, the next of them, the thread of
    a subscriber *)
Inductive action :=
  | PubMain | PubTimeout | PubNotify | PubExit (keep : list nat)
  | Discover (i : nat) | Take (i n : nat) | Item (i : nat) | SubMain (i : nat).

Definition at_link (f : link -> option link) (i : nat) (s : system) : option system :=
  l ← links s !! i; l' ← f l; Some (mkSystem (pub s) (gone s) (<[i := l']> (links s))).

Definition take_samples (n : nat) (l : link) : option link :=
  if bool_decide (0 < n <= length (queue l))%nat then
    s ← sub_take (replicate n true) (sub l); Some (mkLink s (found l) (drop n (queue l)) (got l ++ take n (queue l)))
  else None.
Definition next_item (l : link) : option link := s ← sub_item (sub l); Some (set_sub s l).
Definition thread_turn (l : link) : option link := s ← sub_main (sub l); Some (set_sub s l).

Definition sys_step (a : action) (s : system) : option system :=
  match a with
  | PubMain =>
      p ← pub_main true (pub s);
      Some (mkSystem p (gone s)
        (match pc (pub s) with PWrite => deliver (index_of_last_sample_sent_ (pub s)) <$> links s | _ => links s end))
  | PubTimeout => p ← pub_step Timeout_ (pub s); Some (mkSystem p (gone s) (links s))
  | PubNotify => p ← pub_step Notify (pub s); Some (mkSystem p (gone s) (links s))
  | PubExit keep =>
      match pc (pub s), gone s with
      | PReturned, false =>
          if bool_decide (length keep = length (links s))
          then Some (mkSystem (pub s) true (zip_with cut keep (links s))) else None
      | _, _ => None
      end
  | Discover i =>
      l ← links s !! i;
      if found l || gone s then None
      else Some (mkSystem (on_publication_matched 1 (Z.of_nat (S (count_found (links s)))) (pub s)) (gone s)
                   (<[i := mkLink (sub l) true (sent (pub s)).*1 (got l)]> (links s)))
  | Take i n => at_link (take_samples n) i s
  | Item i => at_link next_item i s
  | SubMain i => at_link thread_turn i s
  end.

(** Two subscribers, one of which is found late: all return. *)
Definition write_one : list action := [PubMain; PubMain; PubMain; PubMain; PubMain; PubMain].
Definition all_return : list action :=
  [SubMain 0; SubMain 0; Discover 0; PubNotify] ++ write_one ++ [PubTimeout; Take 0 1; Item 0; Discover 1; PubNotify] ++
  write_one ++ [Take 1 2; Item 1; Item 1; Item 1; SubMain 1; PubTimeout; PubMain; PubExit [1; 0]%nat;
  Take 0 1; Item 0; Item 0; SubMain 0].
Example two_return :
  (fun s => (pc (pub s), (fun l => (spc_ (sub l), got l)) <$> links s)) <$> run_schedule sys_step all_return (start 2 2)
  = Some (PReturned, [(SReturned, [1; 2]); (SReturned, [1; 2])]).
Proof. vm_compute. reflexivity. Qed.

(** ** What holds of all runs *)

Definition matched_ok (p : publisher) : Prop :=
  match pc p with
  | PMatch Going | PMatch Asleep => sent p = []
  | PLoan | PWrite => 0 < matched_ p
  | _ => True
  end /\ (sent p <> [] -> 0 < matched_ p).

Record link_ok (N : Z) (lost : bool) (written : list Z) (l : link) : Prop := {
  lo_sub : ssamples_ (sub l) = N;
  lo_notes : snotes (sub l) = 0%nat;
  lo_got : got l ++ queue l `prefix_of` if found l then written else [];
  lo_all : lost = false -> found l = true -> got l ++ queue l = written;
  lo_count : received_samples_ (sub l) + Z.of_nat (length (pending (listener (sub l)))) = Z.of_nat (length (got l));
  lo_valid : Forall (fun v => v = true) (pending (listener (sub l)));
  lo_items : listener (sub l) <> LItems [];
  lo_positive : 0 <= received_samples_ (sub l);
  lo_stop : sstop_ (sub l) = true <-> N <= received_samples_ (sub l);
  lo_returned : spc_ (sub l) = SReturned -> sstop_ (sub l) = true;
}.

Record sys_ok (N : Z) (s : system) : Prop := {
  so_pub : pub_ok N (pub s);
  so_nostop : stop_ (pub s) = false;
  so_matched : matched_ (pub s) = Z.of_nat (count_found (links s));
  so_before : matched_ok (pub s);
  so_gone : gone s = true -> pc (pub s) = PReturned;
  so_links : Forall (link_ok N (gone s) (sent (pub s)).*1) (links s);
}.

Lemma delivery_start_ok N k : 0 < N -> sys_ok N (start N k).
Proof.
  intros HN. split; cbn.
  - apply new_publisher_ok. lia.
  - done.
  - unfold count_found. rewrite sum_zero; [done|]. by apply Forall_replicate.
  - by split.
  - done.
  - apply Forall_replicate. split; cbn; try done. split; [done|lia].
Qed.

Lemma got_prefix N s l : sys_ok N s -> l ∈ links s -> got l `prefix_of` (sent (pub s)).*1.
Proof.
  intros I Hl. pose proof (so_links _ _ I) as H. rewrite Forall_forall in H. pose proof (lo_got _ _ _ _ (H l Hl)) as E.
  apply prefix_app_l in E. destruct (found l); [done|]. apply prefix_nil_inv in E as ->. apply prefix_nil.
Qed.

Lemma written_most N s : 0 < N < 2 ^ 16 -> sys_ok N s -> Z.of_nat (length (sent (pub s))) <= N.
Proof. intros HN I. pose proof (po_most _ _ (so_pub _ _ I) ltac:(lia)) as H. unfold ahead in H. case_match; lia. Qed.

(** The steps of the publisher *)
Lemma pub_main_before ok p p' : stop_ p = false -> matched_ok p -> pub_main ok p = Some p' -> matched_ok p'.
Proof.
  intros Hs [H1 H2] E. unfold pub_main in E. unfold matched_ok.
  destruct (pc p) as [|[]| | |[]|] eqn:Ep; try discriminate E; injection E as <-; cbn in *; rewrite ?Hs; cbn; try done.
  - destruct (_ || _); by split.
  - rewrite orb_false_r. destruct (Z.ltb_spec 0 (matched_ p)); cbn; split; auto; try lia.
    destruct (sent p); [done|]. specialize (H2 ltac:(done)). lia.
  - destruct ok; by split.
Qed.

Lemma pub_main_same ok p p' : pub_main ok p = Some p' ->
  stop_ p' = stop_ p /\ matched_ p' = matched_ p /\ notes p' = notes p /\
  sent p' = match pc p with PWrite => sent p ++ [(index_of_last_sample_sent_ p, ok)] | _ => sent p end.
Proof.
  intros E. unfold pub_main in E. destruct (pc p) as [|[]| | |[]|]; try discriminate E; injection E as <-; cbn; try done; by case_match.
Qed.

Lemma wake_pub_same p : stop_ (wake_pub p) = stop_ p /\ matched_ (wake_pub p) = matched_ p /\ sent (wake_pub p) = sent p.
Proof. unfold wake_pub. by destruct (pc p). Qed.

Lemma wake_pub_before p : matched_ok p -> matched_ok (wake_pub p).
Proof. unfold matched_ok, wake_pub. intros [H1 H2]. destruct (pc p) as [|[]| | |[]|] eqn:E; cbn; rewrite ?E; by split. Qed.

(** Links when a sample is written, and when they change one by one *)
Lemma deliver_ok N w x l : link_ok N false w l -> link_ok N false (w ++ [x]) (deliver x l).
Proof.
  intros [H1 H2 H3 Ha H4 H5 H6 H7 H8 H9]. split; cbn; try done; destruct (found l) eqn:Ef; try done.
  - by rewrite app_assoc, Ha.
  - intros _ _. by rewrite app_assoc, Ha.
Qed.

Lemma discover_ok N b w l : link_ok N b w l -> found l = false -> link_ok N b w (mkLink (sub l) true w (got l)).
Proof.
  intros [H1 H2 H3 Ha H4 H5 H6 H7 H8 H9] Hf. rewrite Hf in H3. apply prefix_nil_inv, app_eq_nil in H3 as [H3 _].
  split; cbn; try done; by rewrite H3.
Qed.

Lemma cut_ok N b w n l : link_ok N b w l -> link_ok N true w (cut n l).
Proof.
  intros [H1 H2 H3 Ha H4 H5 H6 H7 H8 H9]. split; cbn; try done. etrans; [|exact H3].
  apply prefix_app. exists (drop n (queue l)). by rewrite take_drop.
Qed.

Lemma cut_all_ok N b w keep ls :
  length keep = length ls -> Forall (link_ok N b w) ls -> Forall (link_ok N true w) (zip_with cut keep ls).
Proof.
  intros Hk Hls. revert keep Hk. induction Hls as [|l ls Hl _ IH]; intros [|n keep] Hk; try done.
  cbn. constructor; [by eapply cut_ok|]. apply IH. by injection Hk.
Qed.

Lemma sum_cut (f : link -> nat) keep ls :
  (forall n l, f (cut n l) = f l) -> length keep = length ls ->
  sum_list_with f (zip_with cut keep ls) = sum_list_with f ls.
Proof.
  intros Hf. revert keep. induction ls as [|l ls IH]; intros [|n keep] Hk; try done.
  cbn. rewrite Hf, IH; [done|]. by injection Hk.
Qed.

Lemma count_cut keep ls : length keep = length ls -> count_found (zip_with cut keep ls) = count_found ls.
Proof. by apply sum_cut. Qed.

Lemma take_samples_ok N b w n l l' : link_ok N b w l -> take_samples n l = Some l' -> link_ok N b w l'.
Proof.
  intros [H1 H2 H3 Ha H4 H5 H6 H7 H8 H9] E. unfold take_samples, sub_take in E. case_bool_decide as Hn; [|done].
  destruct (listener (sub l)) eqn:El; try done. destruct (sstop_ (sub l)) eqn:Es; [done|]. cbn in E. injection E as <-.
  cbn in H4. rewrite Z.add_0_r in H4.
  split; cbn; rewrite ?pending_after; try done.
  - by rewrite <- app_assoc, take_drop.
  - by rewrite <- app_assoc, take_drop.
  - rewrite length_replicate, length_app, length_take. lia.
  - by apply Forall_replicate.
  - destruct n; [lia|done].
Qed.

Lemma received_most N b w l : link_ok N b w l -> Z.of_nat (length w) <= N ->
  received_samples_ (sub l) + Z.of_nat (length (pending (listener (sub l)))) <= N.
Proof.
  intros [H1 H2 H3 Ha H4 H5 H6 H7 H8 H9] Hw. rewrite H4. apply prefix_length in H3. rewrite length_app in H3.
  destruct (found l); cbn in H3; lia.
Qed.

Lemma next_item_ok N b w l l' :
  0 < N < 2 ^ 16 -> Z.of_nat (length w) <= N -> link_ok N b w l -> next_item l = Some l' -> link_ok N b w l'.
Proof.
  intros HN Hw I E. pose proof (received_most N b w l I Hw) as Hg. destruct I as [H1 H2 H3 Hq H4 H5 H6 H7 H8 H9].
  unfold next_item, sub_item in E.
  assert (Ha : forall rest, after_item rest <> LItems []) by (by intros []).
  destruct (listener (sub l)) as [|[|v rest]|rest] eqn:El; try done; cbn in H4, H5.
  - apply Forall_cons in H5 as [-> H5].
    assert (Hn : wrapU 32 (received_samples_ (sub l) + 1) = received_samples_ (sub l) + 1) by (rewrite wrapU_small; lia).
    rewrite Hn in E. destruct ((0 <? ssamples_ (sub l)) && _) eqn:Et; cbn in E; injection E as <-;
      split; cbn; rewrite ?pending_after; try done; try lia.
    rewrite H8. apply andb_false_iff in Et as [Et|Et]; zbool; lia.
  - cbn in E. injection E as <-. split; cbn; rewrite ?pending_after; try done.
    intros Hr. apply H9. by destruct (spc_ (sub l)) as [[]|].
Qed.

Lemma thread_turn_ok N b w l l' : link_ok N b w l -> thread_turn l = Some l' -> link_ok N b w l'.
Proof.
  intros [H1 H2 H3 Ha H4 H5 H6 H7 H8 H9] E. unfold thread_turn, sub_main in E.
  destruct (spc_ (sub l)) as [[]|]; cbn in E; try done; injection E as <-; split; cbn; try done.
  by destruct (sstop_ (sub l)).
Qed.

Lemma at_link_ok N f i s s' :
  (forall l l', link_ok N (gone s) (sent (pub s)).*1 l -> f l = Some l' ->
     link_ok N (gone s) (sent (pub s)).*1 l' /\ found l' = found l) ->
  sys_ok N s -> at_link f i s = Some s' -> sys_ok N s'.
Proof.
  intros Hf [H1 H2 H3 H4 Hg H5] E. unfold at_link in E. apply bind_Some in E as (l & Hl & E). apply bind_Some in E as (l' & Hl' & E).
  injection E as <-. destruct (insert_split _ _ _ Hl) as (l1 & l2 & E1 & E2). rewrite E1 in H3, H5.
  apply Forall_app in H5 as [H5 [H6 H7]%Forall_cons]. destruct (Hf l l' H6 Hl') as [H8 H9].
  split; cbn; rewrite ?E2; try done.
  - rewrite H3. unfold count_found. rewrite !sum_middle. unfold one_found at 2 5. by rewrite H9.
  - apply Forall_app. split; [done|]. by constructor.
Qed.

Lemma link_found f l l' :
  (f = next_item \/ f = thread_turn \/ exists n, f = take_samples n) -> f l = Some l' -> found l' = found l.
Proof.
  intros [->|[->|[n ->]]] E; unfold next_item, thread_turn, take_samples in E; try case_bool_decide; try done;
    apply bind_Some in E as (s1 & _ & E); by injection E as <-.
Qed.

Lemma sys_step_ok N a s s' : 0 < N < 2 ^ 16 -> sys_ok N s -> sys_step a s = Some s' -> sys_ok N s'.
Proof.
  intros HN I E. pose proof (written_most N s HN I) as Hw. pose proof I as [H1 H2 H3 H4 Hg H5].
  destruct a as [| | |keep|i|i n|i|i]; cbn [sys_step] in E.
  - apply bind_Some in E as (p & Hp & E). injection E as <-. destruct (pub_main_same _ _ _ Hp) as (E1 & E2 & _ & E4).
    assert (Eg : gone s = false).
    { destruct (gone s); [|done]. unfold pub_main in Hp. by rewrite Hg in Hp. }
    rewrite Eg in *.
    split; cbn; [by eapply pub_main_ok; [|exact H1|exact Hp]; lia|by rewrite E1| |by eapply pub_main_before|done|].
    + rewrite E2, H3. destruct (pc (pub s)); try done. unfold count_found. f_equal. symmetry. apply sum_fmap.
      by apply Forall_forall.
    + rewrite E4. destruct (pc (pub s)); try done. rewrite fmap_app. apply Forall_fmap.
      eapply Forall_impl; [exact H5|]. intros l Hl. by apply deliver_ok.
  - apply bind_Some in E as (p & Hp & E). injection E as <-.
    pose proof (pub_step_ok N Timeout_ _ _ ltac:(lia) H1 Hp) as H1'. cbn in Hp.
    destruct (pc (pub s)) as [| | | |[]|] eqn:Ep; try done. injection Hp as <-. split; cbn; try done.
    + destruct H4 as [_ H4]. by split.
    + intros Eg. by specialize (Hg Eg).
  - apply bind_Some in E as (p & Hp & E). injection E as <-.
    pose proof (pub_step_ok N Notify _ _ ltac:(lia) H1 Hp) as H1'. cbn in Hp.
    destruct (notes (pub s)) as [|n] eqn:En; [done|]. injection Hp as <-.
    match type of H1' with pub_ok _ (wake_pub ?q) => destruct (wake_pub_same q) as (E1 & E2 & E3); pose proof (wake_pub_before q) as Hb end.
    split; cbn; rewrite ?E1, ?E2, ?E3; try done; [by apply Hb|].
    intros Eg. unfold wake_pub. cbn. by rewrite (Hg Eg).
  - destruct (pc (pub s)) eqn:Ep; try done. destruct (gone s) eqn:Eg; [done|].
    case_bool_decide as Hk; [|done]. injection E as <-. split; cbn; try done.
    + rewrite H3. by rewrite count_cut.
    + by apply cut_all_ok with false.
  - apply bind_Some in E as (l & Hl & E). destruct (found l) eqn:Ef; [done|]. destruct (gone s) eqn:Eg; [done|]. injection E as <-.
    destruct (insert_split _ _ _ Hl) as (l1 & l2 & E1 & E2). rewrite E1 in H3, H5.
    apply Forall_app in H5 as [H5 [H6 H7]%Forall_cons].
    split; cbn; rewrite ?E2; try done.
    + apply (pub_ok_same N (pub s)); try done. cbn. auto.
    + rewrite E1. unfold count_found. rewrite !sum_middle. unfold one_found at 2 5. rewrite Ef. cbn. lia.
    + destruct H4 as [H4 H4']. split; cbn; [|lia]. destruct (pc (pub s)) as [|[]| | |[]|]; try done; lia.
    + apply Forall_app. split; [done|]. constructor; [by apply discover_ok|done].
  - eapply at_link_ok; [|exact I|exact E]. intros l l' Hl E1. split; [by eapply take_samples_ok|].
    eapply link_found; [|exact E1]. eauto.
  - eapply at_link_ok; [|exact I|exact E]. intros l l' Hl E1. split; [|eapply link_found; [|exact E1]; eauto].
    eapply next_item_ok; [exact HN| |exact Hl|exact E1]. by rewrite length_fmap.
  - eapply at_link_ok; [|exact I|exact E]. intros l l' Hl E1. split; [by eapply thread_turn_ok|].
    eapply link_found; [|exact E1]. eauto.
Qed.

(** ** How a run ends *)

(** The samples that are written are 1, 2, 3, ... *)
Lemma sent_seq N p : 0 < N < 2 ^ 16 -> pub_ok N p -> Z.of_nat (length (sent p)) <= N ->
  (sent p).*1 = seqZ 1 (Z.of_nat (length (sent p))).
Proof.
  intros HN I Hl. rewrite (po_sent _ _ I). rewrite <- (list_fmap_id (seqZ _ _)) at 2. apply list_fmap_ext.
  intros i x [-> Hx]%lookup_seqZ. apply wrapU_small. unfold id. lia.
Qed.

(** A measure that every step lowers: samples to write and their steps, notifications, samples
    to count *)
Definition prank (p : ppc) : nat :=
  match p with
  | PWrite => 17 | PPeriod Testing => 16 | PPeriod Going => 15 | PPeriod Asleep => 14 | PLoop => 10
  | PMatch Testing => 9 | PMatch Going => 8 | PMatch Asleep => 7 | PLoan => 6 | PReturned => 0
  end.
Definition begun (p : publisher) : nat := (length (sent p) + match pc p with PWrite => 1 | _ => 0 end)%nat.
Definition pub_work (N : Z) (p : publisher) : nat := ((Z.to_nat N - begun p) * 12 + prank (pc p) + 5 * notes p)%nat.

Definition lrank (p : lpc) : nat := match p with LIdle => 2 | LItems _ => 1 | LNotify _ => 5 end.
Definition srank (p : spc) : nat := match p with SWait Testing => 3 | SWait Going => 2 | SWait Asleep => 1 | SReturned => 0 end.
Definition link_work (N : Z) (l : link) : nat :=
  ((if found l then 0 else 6) + (Z.to_nat N - Z.to_nat (received_samples_ (sub l))) * 8 + lrank (listener (sub l)) + srank (spc_ (sub l)))%nat.

Definition work (N : Z) (s : system) : nat :=
  (pub_work N (pub s) + (if gone s then 0 else 1) + sum_list_with (link_work N) (links s))%nat.

Lemma pub_main_work N p p' :
  0 < N -> pub_ok N p -> stop_ p = false -> pub_main true p = Some p' -> (pub_work N p' < pub_work N p)%nat.
Proof.
  intros HN I Hs E. pose proof (po_most _ _ I ltac:(lia)) as Hm. unfold pub_main in E. unfold pub_work, begun.
  destruct (pc p) as [|[]| | |[]|] eqn:Ep; try discriminate E; injection E as <-; rewrite ?Hs; cbn [negb andb goto pc sent notes ahead] in *;
    rewrite ?length_app; cbn [length]; cbn [prank]; try lia; destruct (_ || _); cbn [prank]; lia.
Qed.

Lemma wake_pub_work N p : (pub_work N (wake_pub p) <= pub_work N p + 2)%nat.
Proof. unfold wake_pub, pub_work, begun. destruct (pc p) as [|[]| | |[]|] eqn:E; cbn [wake goto pc sent notes prank]; rewrite ?E; cbn [prank]; lia. Qed.

Lemma at_link_work N f i s s' :
  (forall l l', l ∈ links s -> f l = Some l' -> (link_work N l' < link_work N l)%nat) ->
  at_link f i s = Some s' -> (work N s' < work N s)%nat.
Proof.
  intros Hf E. unfold at_link in E. apply bind_Some in E as (l & Hl & E). apply bind_Some in E as (l' & Hl' & E). injection E as <-.
  pose proof (Hf l l' (list_elem_of_lookup_2 _ _ _ Hl) Hl') as Hlt.
  destruct (insert_split _ _ _ Hl) as (l1 & l2 & E1 & E2). unfold work. cbn. rewrite E2, E1, !sum_middle. lia.
Qed.

Lemma take_samples_work N n l l' : take_samples n l = Some l' -> (link_work N l' < link_work N l)%nat.
Proof.
  intros E. unfold take_samples, sub_take in E. case_bool_decide as Hn; [|done]. destruct n; [lia|].
  destruct (listener (sub l)) eqn:El; try done. destruct (sstop_ (sub l)); [done|]. cbn in E. injection E as <-.
  unfold link_work. cbn. rewrite El. cbn. lia.
Qed.

Lemma next_item_work N b w l l' :
  0 < N < 2 ^ 16 -> Z.of_nat (length w) <= N -> link_ok N b w l -> next_item l = Some l' -> (link_work N l' < link_work N l)%nat.
Proof.
  intros HN Hw I E. pose proof (received_most N b w l I Hw) as Hg. destruct I as [H1 H2 H3 Hq H4 H5 H6 H7 H8 H9].
  unfold next_item, sub_item in E. unfold link_work.
  assert (Ha : forall rest, (lrank (after_item rest) <= 2)%nat) by (intros []; cbn; lia).
  destruct (listener (sub l)) as [|[|v rest]|rest] eqn:El; try done; cbn in Hg, H5.
  - apply Forall_cons in H5 as [-> H5].
    assert (Hn : wrapU 32 (received_samples_ (sub l) + 1) = received_samples_ (sub l) + 1) by (rewrite wrapU_small; lia).
    rewrite Hn in E. destruct ((0 <? ssamples_ (sub l)) && _); cbn in E; injection E as <-; cbn; specialize (Ha rest); lia.
  - cbn in E. injection E as <-. cbn. specialize (Ha rest). destruct (spc_ (sub l)) as [[]|]; cbn; lia.
Qed.

Lemma thread_turn_work N l l' : thread_turn l = Some l' -> (link_work N l' < link_work N l)%nat.
Proof.
  intros E. unfold thread_turn, sub_main in E. unfold link_work.
  destruct (spc_ (sub l)) as [[]|]; cbn in E; try done; injection E as <-; cbn; [destruct (sstop_ (sub l)); cbn; lia|lia].
Qed.

Lemma sys_step_work N a s s' : 0 < N < 2 ^ 16 -> sys_ok N s -> sys_step a s = Some s' -> (work N s' < work N s)%nat.
Proof.
  intros HN I E. pose proof (written_most N s HN I) as Hw. pose proof I as [H1 H2 H3 H4 Hg H5].
  destruct a as [| | |keep|i|i n|i|i]; cbn [sys_step] in E.
  - apply bind_Some in E as (p & Hp & E). injection E as <-. unfold work. cbn.
    pose proof (pub_main_work N _ _ ltac:(lia) H1 H2 Hp) as Hlt.
    assert (Hs : sum_list_with (link_work N) (deliver (index_of_last_sample_sent_ (pub s)) <$> links s) = sum_list_with (link_work N) (links s)).
    { apply sum_fmap. by apply Forall_forall. }
    destruct (pc (pub s)); rewrite ?Hs; lia.
  - apply bind_Some in E as (p & Hp & E). injection E as <-. unfold work. cbn in *.
    destruct (pc (pub s)) as [| | | |[]|] eqn:Ep; try done. injection Hp as <-. unfold pub_work, begun. cbn. rewrite Ep. cbn. lia.
  - apply bind_Some in E as (p & Hp & E). injection E as <-. unfold work. cbn in *.
    destruct (notes (pub s)) as [|n] eqn:En; [done|]. injection Hp as <-.
    match goal with |- context [wake_pub ?q] => pose proof (wake_pub_work N q) as Hq end.
    unfold pub_work, begun in *. cbn in *. rewrite En. lia.
  - destruct (pc (pub s)); try done. destruct (gone s) eqn:Eg; [done|].
    case_bool_decide; [|done]. injection E as <-. unfold work. cbn. rewrite Eg, sum_cut by done. lia.
  - apply bind_Some in E as (l & Hl & E). destruct (found l) eqn:Ef; [done|]. destruct (gone s) eqn:Eg; [done|].
    injection E as <-. unfold work. cbn. rewrite Eg.
    destruct (insert_split _ _ _ Hl) as (l1 & l2 & E1 & E2). rewrite E2, E1, !sum_middle.
    unfold link_work at 2 5. rewrite Ef. cbn. unfold pub_work, begun. cbn. lia.
  - eapply at_link_work; [|exact E]. intros l l' _. apply take_samples_work.
  - eapply at_link_work; [|exact E]. intros l l' Hl E1. rewrite Forall_forall in H5.
    eapply next_item_work; [exact HN| |by apply H5|exact E1]. by rewrite length_fmap.
  - eapply at_link_work; [|exact E]. intros l l' _. apply thread_turn_work.
Qed.

(** Where a subscriber ends: with all samples; or waiting for more than come, because the
    writer was deleted before the rest arrived, or before it was matched *)
Record link_ends (N : Z) (l : link) : Prop := {
  le_got : got l = seqZ 1 N;
  le_received : received_samples_ (sub l) = N;
  le_stop : sstop_ (sub l) = true;
  le_thread : spc_ (sub l) = SReturned \/ spc_ (sub l) = SWait Asleep;
}.
Record link_waits (N : Z) (l : link) : Prop := {
  lw_got : got l = seqZ 1 (received_samples_ (sub l));
  lw_received : 0 <= received_samples_ (sub l) < N;
  lw_queue : queue l = [];
  lw_stop : sstop_ (sub l) = false;
  lw_thread : spc_ (sub l) = SWait Asleep;
}.

Definition link_moves (l : link) : Prop :=
  exists f, (f = next_item \/ f = thread_turn \/ exists n, f = take_samples n) /\ is_Some (f l).

Lemma prefix_seqZ l a m : l `prefix_of` seqZ a m -> l = seqZ a (Z.of_nat (length l)).
Proof.
  intros [k E]. assert (Hl : length (l ++ k) = Z.to_nat m) by (rewrite <- E; apply length_seqZ).
  rewrite length_app in Hl. destruct (Z.lt_ge_cases m 0) as [Hm|Hm].
  { assert (length l = 0)%nat by lia. destruct l; [|done]. by rewrite seqZ_nil. }
  replace m with (Z.of_nat (length l) + (m - Z.of_nat (length l))) in E by lia. rewrite seqZ_app in E by lia.
  apply app_inj_1 in E as [E _]; [done|]. rewrite length_seqZ. lia.
Qed.

Lemma link_progress N w l :
  0 < N -> w = seqZ 1 N -> link_ok N true w l -> link_ends N l \/ link_waits N l \/ link_moves l.
Proof.
  intros HN -> [H1 H2 H3 Ha H4 H5 H6 H7 H8 H9].
  assert (Hp : got l ++ queue l `prefix_of` seqZ 1 N) by (destruct (found l); [done|by etrans; [|apply prefix_nil]]).
  assert (Hm : is_Some (thread_turn l) \/ spc_ (sub l) = SReturned \/ spc_ (sub l) = SWait Asleep).
  { unfold thread_turn, sub_main. destruct (spc_ (sub l)) as [[]|]; cbn; eauto. }
  destruct Hm as [Hm|Hm]; [right; right; exists thread_turn; auto|].
  destruct (listener (sub l)) as [|rest|rest] eqn:El; cbn in *.
  - rewrite Z.add_0_r in H4. pose proof (prefix_seqZ _ _ _ (prefix_app_l _ _ _ Hp)) as Hgot. rewrite <- H4 in Hgot.
    pose proof (prefix_length _ _ Hp) as Hlen. rewrite length_app, length_seqZ in Hlen.
    destruct (sstop_ (sub l)) eqn:Es.
    + left. assert (N <= received_samples_ (sub l)) by (by apply H8).
      assert (Hr : received_samples_ (sub l) = N) by lia. rewrite Hr in Hgot. by split.
    + assert (Hr : received_samples_ (sub l) < N) by (apply Z.nle_gt; intros Hle; by apply H8 in Hle).
      right. destruct (queue l) as [|x q] eqn:Eq.
      * left. split; try done. destruct Hm as [Hm|Hm]; [by specialize (H9 Hm)|done].
      * right. exists (take_samples 1). split; [eauto|]. unfold take_samples, sub_take. rewrite El, Es, Eq.
        rewrite bool_decide_true by (cbn; lia). cbn. eauto.
  - right. right. exists next_item. split; [auto|]. unfold next_item, sub_item. rewrite El. destruct rest as [|v rest]; [done|].
    destruct v; [|cbn; eauto]. by destruct (_ && _); cbn; eauto.
  - right. right. exists next_item. split; [auto|]. unfold next_item, sub_item. rewrite El. cbn. eauto.
Qed.

Lemma link_moves_step s l : l ∈ links s -> link_moves l -> exists a s', sys_step a s = Some s'.
Proof.
  intros [i Hi]%list_elem_of_lookup (f & Hf & l' & Hl').
  assert (E : exists s', at_link f i s = Some s') by (unfold at_link; rewrite Hi; cbn; rewrite Hl'; cbn; eauto).
  destruct E as [s' E], Hf as [->|[->|[n ->]]]; [by exists (Item i), s'|by exists (SubMain i), s'|by exists (Take i n), s'].
Qed.

(** Each element has [P], or one has [Q]. *)
Lemma all_or_one {A} (P Q : A -> Prop) ls : Forall (fun l => P l \/ Q l) ls -> Forall P ls \/ exists l, l ∈ ls /\ Q l.
Proof.
  induction 1 as [|l ls [Hp|Hq] _ IH]; [by left; constructor| |right; exists l; split; [left|done]].
  destruct IH as [IH|(l' & Hl' & IH)]; [left; by constructor|right; exists l'; split; [by right|done]].
Qed.

(** The two ways in which nothing is left to do *)
Definition ends (N : Z) (s : system) : Prop :=
  (pc (pub s) = PReturned /\ gone s = true /\ (sent (pub s)).*1 = seqZ 1 N /\
     Forall (fun l => link_ends N l \/ link_waits N l) (links s)) \/
  (pc (pub s) = PMatch Asleep /\ sent (pub s) = [] /\ matched_ (pub s) = Z.of_nat (length (links s))).

Lemma count_all ls : Forall (fun l => found l = true) ls -> count_found ls = length ls.
Proof.
  unfold count_found. induction 1 as [|l ls Hl _ IH]; [done|]. cbn [sum_list_with length]. rewrite IH. unfold one_found. by rewrite Hl.
Qed.

Lemma sys_progress N s : 0 < N < 2 ^ 16 -> sys_ok N s -> ends N s \/ exists a s', sys_step a s = Some s'.
Proof.
  intros HN I. pose proof (written_most N s HN I) as Hw. pose proof I as [H1 H2 H3 H4 Hg H5].
  assert (Hmain : (exists p, pub_main true (pub s) = Some p) -> exists a s', sys_step a s = Some s').
  { intros [p Hp]. exists PubMain. cbn. rewrite Hp. cbn. eauto. }
  destruct (notes (pub s)) as [|n] eqn:En; [|right; exists PubNotify; cbn; rewrite En; cbn; eauto].
  destruct (pc (pub s)) as [|[]| | |[]|] eqn:Ep; try (right; apply Hmain; unfold pub_main; rewrite Ep; by eauto).
  - assert (Eg : gone s = false) by (destruct (gone s); [by specialize (Hg eq_refl)|done]).
    destruct (all_or_one (fun l => found l = true) (fun l => found l = false) (links s)) as [Hf|(l & Hl & Hf)].
    { apply Forall_forall. intros l _. destruct (found l); auto. }
    + left. right. destruct H4 as [H4 _]. rewrite Ep in H4. split_and!; [done|done|]. rewrite H3. f_equal.
      by apply count_all.
    + right. apply list_elem_of_lookup in Hl as [i Hi]. exists (Discover i). cbn. rewrite Hi. cbn. rewrite Hf, Eg. cbn. eauto.
  - right. exists PubTimeout. cbn. rewrite Ep. cbn. eauto.
  - destruct (gone s) eqn:Eg.
    2:{ right. exists (PubExit (replicate (length (links s)) 0%nat)). cbn. rewrite Ep, Eg, length_replicate, bool_decide_true by done.
        eauto. }
    destruct (po_returned _ _ H1 Ep) as [Hs|[_ Hl]]; [by rewrite H2 in Hs|].
    pose proof (sent_seq N _ HN H1 Hw) as Hseq. rewrite Hl in Hseq.
    destruct (all_or_one (fun l => link_ends N l \/ link_waits N l) link_moves (links s)) as [Hall|(l & Hin & Hm)].
    + eapply Forall_impl; [exact H5|]. intros l Hl'. destruct (link_progress N _ l ltac:(lia) Hseq Hl') as [?|[?|?]]; auto.
    + left. by left.
    + right. by eapply link_moves_step.
Qed.

Lemma delivery_run_ok N s0 s : 0 < N < 2 ^ 16 -> sys_ok N s0 -> reachable sys_step s0 s -> sys_ok N s.
Proof. intros HN H0. apply reachable_inv; [done|]. intros. by eapply sys_step_ok. Qed.

(** What was written has been taken, or is there to be taken. *)
Definition all_arrived (N : Z) (s : system) : Prop := Forall (fun l => got l ++ queue l = seqZ 1 N) (links s).

Lemma all_arrived_step N a s s' :
  sys_ok N s -> sys_step a s = Some s' -> gone s = true /\ all_arrived N s -> gone s' = true /\ all_arrived N s'.
Proof.
  intros I E [Eg Ht]. pose proof (so_gone _ _ I Eg) as Hp.
  assert (Hat : forall f i, (forall l l', f l = Some l' -> got l' ++ queue l' = got l ++ queue l) ->
    at_link f i s = Some s' -> gone s' = true /\ all_arrived N s').
  { intros f i Hf E1. unfold at_link in E1. apply bind_Some in E1 as (l & Hl & E1). apply bind_Some in E1 as (l' & Hl' & E1).
    injection E1 as <-. split; [done|]. unfold all_arrived in *. cbn in *. apply Forall_insert; [done|].
    rewrite (Hf _ _ Hl'). rewrite Forall_lookup in Ht. by eapply Ht. }
  destruct a as [| | |keep|i|i n|i|i]; cbn [sys_step] in E.
  - exfalso. unfold pub_main in E. by rewrite Hp in E.
  - exfalso. cbn in E. by rewrite Hp in E.
  - apply bind_Some in E as (p & _ & E). by injection E as <-.
  - rewrite Eg in E. by destruct (pc (pub s)).
  - apply bind_Some in E as (l & Hl & E). by rewrite Eg, orb_true_r in E.
  - eapply Hat; [|exact E]. intros l l' E1. unfold take_samples in E1. case_bool_decide; [|done].
    apply bind_Some in E1 as (s1 & _ & E1). injection E1 as <-. cbn. by rewrite <- app_assoc, take_drop.
  - eapply Hat; [|exact E]. intros l l' E1. apply bind_Some in E1 as (s1 & _ & E1). by injection E1 as <-.
  - eapply Hat; [|exact E]. intros l l' E1. apply bind_Some in E1 as (s1 & _ & E1). by injection E1 as <-.
Qed.

Lemma all_arrived_run N ts s s' : 0 < N < 2 ^ 16 ->
  sys_ok N s -> run_schedule sys_step ts s = Some s' -> gone s = true /\ all_arrived N s -> gone s' = true /\ all_arrived N s'.
Proof.
  intros HN. revert s. induction ts as [|a ts IH]; intros s I E H; cbn [run_schedule] in E; [by simplify_eq|].
  destruct (sys_step a s) as [s1|] eqn:E1; [|done].
  apply (IH s1); [by eapply sys_step_ok|done|by eapply all_arrived_step].
Qed.

Lemma all_arrived_ends N s : 0 < N -> all_arrived N s -> gone s = true /\ ends N s -> sys_ok N s -> Forall (link_ends N) (links s).
Proof.
  intros HN Ha [Eg [(_ & _ & _ & He)|(Hp & _)]] I; [|pose proof (so_gone _ _ I Eg); congruence].
  unfold all_arrived in Ha. rewrite Forall_forall in Ha, He |- *. intros l Hl. destruct (He l Hl) as [?|[Hg Hr Hq _ _]]; [done|].
  specialize (Ha l Hl). rewrite Hq, app_nil_r in Ha. rewrite Hg in Ha. apply (f_equal length) in Ha.
  rewrite !length_seqZ in Ha. lia.
Qed.


(** The steps of a run are linear in the samples and the subscribers. *)
Example work_start : work 10 (start 10 3) = (10 * 12 + 10 + 1 + 3 * (6 + 10 * 8 + 5))%nat.
Proof. reflexivity. Qed.

(** A run in which the last sample comes to one subscriber while its thread is on its way to
    sleep, and another gets only the first of two samples because the writer is deleted *)
Definition missed : list action :=
  [SubMain 0; Discover 0; Discover 1; PubNotify; PubNotify] ++ write_one ++ [PubTimeout] ++ write_one ++
  [PubTimeout; PubMain; Take 0 2; Item 0; Item 0; Item 0; SubMain 0; PubExit [0; 1]%nat;
   Take 1 1; Item 1; SubMain 1; SubMain 1].

End DeliverySystem.
