(* ===== verification/DeliveryPubSub.v ===== *)
(** [PubSubApp] of the delivery example ([PubSubApp.cpp]), which writes and reads in one
    participant: its thread goes on after its last sample until it has received as many. *)
From S2P Require Import Prelude DeliveryApps.

Module DeliveryPubSub.
Import DeliveryApps.

(** [publish] and the members it uses are those of [PublisherApp]; at the place [PLoop]
    the thread is about to test the loop or, when [checking], to look whether all is done.
    [batch]: what the listener has taken and not gone through *)
Record pubsub := mkPubSub {
  core : publisher;
  checking : bool;
  received_samples_ : Z;
  batch : list bool;
}.
Definition new_pubsub (samples : Z) : pubsub := mkPubSub (new_publisher samples) false 0 [].

Definition set_core (p : publisher) (s : pubsub) : pubsub := mkPubSub p (checking s) (received_samples_ s) (batch s).

(** The test at the end of a turn of [run], with [stop] *)
Definition end_of_turn (s : pubsub) : pubsub :=
  let p := core s in
  if (0 <? samples_ p) && (samples_ p <=? received_samples_ s) && (samples_ p <=? index_of_last_sample_sent_ p)
  then mkPubSub (pub_stop p) false (received_samples_ s) (batch s)
  else mkPubSub p false (received_samples_ s) (batch s).

(** The beginning of a turn *)
Definition loop_test (p : publisher) : publisher :=
  if stop_ p then goto PReturned p
  else if (samples_ p =? 0) || (index_of_last_sample_sent_ p <? samples_ p) then goto (PMatch Testing) p
  else goto (PPeriod Testing) p.

Definition at_end (p : publisher) : bool := match pc p with PLoop => true | _ => false end.

Definition run_main (ok : bool) (s : pubsub) : option pubsub :=
  if at_end (core s) then Some (if checking s then end_of_turn s else set_core (loop_test (core s)) s)
  else p ← pub_main ok (core s); Some (mkPubSub p (at_end p) (received_samples_ s) (batch s)).

(** [on_data_available] *)
Definition data_take (b : list bool) (s : pubsub) : option pubsub :=
  let p := core s in
  match batch s with
  | [] =>
      if negb (stop_ p) && ((samples_ p =? 0) || (0 <? samples_ p) && (received_samples_ s <? samples_ p))
      then Some (mkPubSub p (checking s) (received_samples_ s) b) else None
  | _ => None
  end.
Definition data_item (s : pubsub) : option pubsub :=
  match batch s with
  | [] => None
  | valid :: rest =>
      Some (mkPubSub (core s) (checking s) (if valid then wrapU 32 (received_samples_ s + 1) else received_samples_ s) rest)
  end.

Inductive action := Pub (a : pub_action) | DataTake (b : list bool) | DataItem.

Definition step (a : action) (s : pubsub) : option pubsub :=
  match a with
  | Pub (Main ok) => run_main ok s
  | Pub Timeout_ => p ← pub_step Timeout_ (core s); Some (mkPubSub p true (received_samples_ s) (batch s))
  | Pub a => p ← pub_step a (core s); Some (set_core p s)
  | DataTake b => data_take b s
  | DataItem => data_item s
  end.

Fixpoint run_ (l : list action) (s : pubsub) : option pubsub :=
  match l with [] => Some s | a :: l => s1 ← step a s; run_ l s1 end.

(** ** What holds of all runs *)

Definition batch_in (a : action) : list bool := match a with DataTake b => b | _ => [] end.
Definition taken_in (l : list action) : list bool := concat (map batch_in l).

Lemma taken_in_app l1 l2 : taken_in (l1 ++ l2) = taken_in l1 ++ taken_in l2.
Proof. unfold taken_in. by rewrite map_app, concat_app. Qed.
Lemma taken_in_snoc l a : taken_in (l ++ [a]) = taken_in l ++ batch_in a.
Proof. rewrite taken_in_app. unfold taken_in at 2. cbn. by rewrite app_nil_r. Qed.

Record ok (N : Z) (l : list action) (s : pubsub) : Prop := {
  k_core : pub_ok N (core s);
  k_taken : exists gone, taken_in l = gone ++ batch s /\ received_samples_ s = wrapU 32 (valid_samples gone);
  k_last : 0 < N -> exists last, (last = [] \/ DataTake last ∈ l) /\
    received_samples_ s + Z.of_nat (length (batch s)) <= N - 1 + Z.of_nat (length last);
  k_stop : (Pub Stop ∉ l) -> stop_ (core s) = true ->
    0 < N /\ N <= received_samples_ s /\ Z.of_nat (length (sent (core s))) = N;
  k_returned : pc (core s) = PReturned -> stop_ (core s) = true;
}.

Lemma new_ok_pubsub N : 0 <= N -> ok N [] (new_pubsub N).
Proof.
  intros HN. split; cbn; try done; try by apply new_publisher_ok.
  { by exists []. }
  intros H. exists []. split; [by left|]. cbn. lia.
Qed.

(** A step of the core only *)
Lemma ok_core N l a s p c :
  ok N l s -> a <> Pub Stop -> batch_in a = [] -> pub_ok N p ->
  (stop_ p = true -> stop_ (core s) = true \/ 0 < N /\ N <= received_samples_ s /\ Z.of_nat (length (sent p)) = N) ->
  (length (sent (core s)) <= length (sent p))%nat -> (pc p = PReturned -> stop_ p = true) ->
  ok N (l ++ [a]) (mkPubSub p c (received_samples_ s) (batch s)).
Proof.
  intros [H1 H2 H3 H4 H5] Ha Hb Hp Hs Hl Hr. split; cbn; try done.
  - rewrite taken_in_snoc, Hb, app_nil_r. done.
  - intros HN. destruct (H3 HN) as (last & Hin & Hm). exists last. split; [set_solver|done].
  - intros Hn E. destruct (Hs E) as [E1|E1]; [|done]. destruct (H4 ltac:(set_solver) E1) as (G1 & G2 & G3).
    split_and!; try done. pose proof (po_most _ _ Hp ltac:(lia)) as Hmost. unfold ahead in Hmost. case_match; lia.
Qed.

Lemma pub_main_stays ok p p' : pub_main ok p = Some p' -> at_end p = false ->
  stop_ p' = stop_ p /\ (length (sent p) <= length (sent p'))%nat /\ pc p' <> PReturned.
Proof.
  intros E He. unfold pub_main, at_end in *. destruct (pc p) as [|[]| | |[]|]; try done; injection E as <-; cbn;
    rewrite ?length_app; split_and!; try done; try lia; by repeat case_match.
Qed.

Lemma wake_pub_place p : pc (wake_pub p) = PReturned -> pc p = PReturned.
Proof. unfold wake_pub. destruct (pc p) eqn:E; cbn; try done; by rewrite E. Qed.

Lemma run_main_ok N okay l s s' : 0 <= N < 2 ^ 16 -> ok N l s -> run_main okay s = Some s' -> ok N (l ++ [Pub (Main okay)]) s'.
Proof.
  intros HN I E. pose proof I as [H1 H2 H3 H4 H5]. unfold run_main in E. destruct (at_end (core s)) eqn:Ee.
  - assert (Ep : pc (core s) = PLoop) by (unfold at_end in Ee; by destruct (pc (core s))). injection E as <-.
    assert (Hidx : N <> 0 -> index_of_last_sample_sent_ (core s) = Z.of_nat (length (sent (core s))) /\ Z.of_nat (length (sent (core s))) <= N).
    { intros Hz. pose proof (po_index _ _ H1) as Hi. pose proof (po_most _ _ H1 Hz) as Hm. rewrite Ep in Hi, Hm. cbn in Hi, Hm.
      rewrite Z.add_0_r in Hi, Hm. split; [|done]. rewrite Hi. apply wrapU_small. lia. }
    pose proof (po_samples _ _ H1) as Hsam. destruct (checking s).
    + unfold end_of_turn. destruct (_ && _) eqn:Et.
      * apply andb_true_iff in Et as [[Et1 Et2]%andb_true_iff Et3]. zbool. rewrite Hsam in *. destruct (Hidx ltac:(lia)) as [Hi Hl].
        apply ok_core; try done.
        -- apply (pub_ok_same N (core s)); try done. cbn. auto.
        -- cbn. intros _. right. split_and!; lia.
      * apply ok_core; try done. auto.
    + apply (ok_core N l _ s _ (checking s)); try done; unfold loop_test; destruct (stop_ (core s)) eqn:Es; cbn.
      * apply (pub_ok_same N (core s)); try done; cbn; rewrite ?Ep; try done. auto.
      * rewrite Hsam. destruct (N =? 0) eqn:Ez; cbn; [|destruct (Z.ltb_spec (index_of_last_sample_sent_ (core s)) N); cbn].
        -- zbool. destruct H1 as [G1 G2 G3 G4 G5]. split; cbn; try done; by rewrite Ep in G2.
        -- zbool. destruct (Hidx ltac:(lia)) as [Hi Hl]. pose proof H1 as [G1 G2 G3 G4 G5]. rewrite Ep in G2. split; cbn; try done. lia.
        -- apply (pub_ok_same N (core s)); try done; cbn; by rewrite Ep.
      * auto.
      * destruct (_ || _); cbn; by rewrite Es.
      * done.
      * by destruct (_ || _).
      * done.
      * by destruct (_ || _).
  - apply bind_Some in E as (p & Hp & E). injection E as <-. destruct (pub_main_stays _ _ _ Hp Ee) as (E1 & E2 & E3).
    apply ok_core; try done; [by eapply pub_main_ok|]. rewrite E1. auto.
Qed.

Lemma step_ok N a l s s' :
  0 <= N < 2 ^ 16 -> Z.of_nat (length (taken_in l)) < 2 ^ 32 -> ok N l s -> step a s = Some s' -> ok N (l ++ [a]) s'.
Proof.
  intros HN Hlen I E. pose proof I as [H1 H2 H3 H4 H5]. destruct a as [[okay| |ch ct| | |]|b|]; cbn [step] in E.
  - by eapply run_main_ok.
  - apply bind_Some in E as (p & Hp & E). injection E as <-. pose proof (pub_step_ok N Timeout_ _ _ HN H1 Hp) as Hk. cbn in Hp.
    destruct (pc (core s)) as [| | | |[]|]; try done. injection Hp as <-. apply ok_core; try done. auto.
  - injection E as <-. apply (ok_core N l _ s _ (checking s)); try done; [by eapply (pub_step_ok N (Matched ch ct))|..];
      unfold on_publication_matched; repeat case_match; cbn; auto.
  - injection E as <-. split; cbn; try done.
    + by apply (pub_step_ok N Stop (core s)).
    + rewrite taken_in_snoc, app_nil_r. done.
    + intros HN0. destruct (H3 HN0) as (last & Hin & Hm). exists last. split; [set_solver|done].
    + set_solver.
  - apply bind_Some in E as (p & Hp & E). injection E as <-. pose proof (pub_step_ok N Notify _ _ HN H1 Hp) as Hk. cbn in Hp.
    destruct (notes (core s)) as [|n]; [done|]. injection Hp as <-. 
    match type of Hk with pub_ok _ (wake_pub ?q) => pose proof (wake_pub_place q) as Hw end.
    apply (ok_core N l _ s _ (checking s)); try done; cbn in *; unfold wake_pub in *; cbn in *; destruct (pc (core s)); cbn in *; auto.
  - injection E as <-. apply (ok_core N l _ s _ (checking s)); try done; [by apply wake_pub_ok|..];
      unfold wake_pub; destruct (pc (core s)) eqn:Ep; cbn; rewrite ?Ep; auto; try done.
  - unfold data_take in E. destruct (batch s) as [|] eqn:Eb; [|done]. destruct (negb _ && _) eqn:Et; [|done]. injection E as <-.
    apply andb_true_iff in Et as [Et1 Et2]. apply negb_true_iff in Et1. split; cbn; try done.
    + destruct H2 as (gone & Hg & Hr). exists gone. rewrite app_nil_r in Hg. by rewrite taken_in_snoc, Hg.
    + intros HN0. exists b. split; [right; set_solver|]. rewrite (po_samples _ _ H1) in Et2.
      apply orb_true_iff in Et2 as [Et2|Et2]; [zbool; lia|]. apply andb_true_iff in Et2 as [_ Et2]. zbool. lia.
    + intros _ Hs. by rewrite Hs in Et1.
  - unfold data_item in E. destruct (batch s) as [|v rest] eqn:Eb; [done|]. injection E as <-.
    destruct H2 as (gone & Hg & Hr).
    assert (Hb : 0 <= valid_samples gone < 2 ^ 32 - 1).
    { pose proof (valid_le gone). rewrite Hg, length_app in Hlen. cbn in Hlen. lia. }
    rewrite wrapU_small in Hr by lia. assert (Hn : wrapU 32 (received_samples_ s + 1) = received_samples_ s + 1) by (rewrite wrapU_small; lia).
    split; cbn; rewrite ?Hn; try done.
    + exists (gone ++ [v]). rewrite taken_in_snoc, app_nil_r, Hg, <- app_assoc, valid_snoc. split; [done|].
      destruct v; rewrite wrapU_small; lia.
    + intros HN0. destruct (H3 HN0) as (last & Hin & Hm). exists last. split; [set_solver|]. cbn in Hm. destruct v; lia.
    + intros Hs E. destruct (H4 ltac:(set_solver) E) as (G1 & G2 & G3). split_and!; try done. destruct v; lia.
Qed.

Lemma runs_ok N l : forall l0 s s',
  0 <= N < 2 ^ 16 -> Z.of_nat (length (taken_in (l0 ++ l))) < 2 ^ 32 -> ok N l0 s -> run_ l s = Some s' -> ok N (l0 ++ l) s'.
Proof.
  induction l as [|a l IH]; intros l0 s s' HN Hlen I E; cbn in E; [simplify_eq; by rewrite app_nil_r|].
  apply bind_Some in E as (s1 & E1 & E2). replace (l0 ++ a :: l) with ((l0 ++ [a]) ++ l) in * by (by rewrite <- app_assoc).
  apply (IH _ s1); [done|done| |done]. apply (step_ok N a l0 s s1); [done| |done|done].
  rewrite !taken_in_app, !length_app in Hlen. lia.
Qed.

(** The turns that lead out of [run] *)
Definition leave_from (p : ppc) (c : bool) : list action :=
  match p with
  | PPeriod Testing => [Pub (Main true); Pub (Main true); Pub Timeout_]
  | PPeriod Going => [Pub (Main true); Pub Timeout_]
  | PPeriod Asleep => [Pub Timeout_]
  | PLoop => if c then [] else [Pub (Main true); Pub (Main true); Pub (Main true); Pub Timeout_]
  | _ => []
  end ++ [Pub (Main true); Pub (Main true)].

(** [PubSubApp] writes the indexes in order and at most as many as it was asked for, and
    counts the valid samples it takes; without a signal its thread returns only when all
    are written and as many received.  And whenever that is so, it returns within six
    steps of its own, if it is not stopped already. *)
Theorem pubsub_returns N l s :
  0 <= N < 2 ^ 16 -> Z.of_nat (length (taken_in l)) < 2 ^ 32 -> run_ l (new_pubsub N) = Some s ->
  (sent (core s)).*1 = (fun k => wrapU 32 k) <$> seqZ 1 (Z.of_nat (length (sent (core s)))) /\
  (exists gone, taken_in l = gone ++ batch s /\ received_samples_ s = valid_samples gone) /\
  ((Pub Stop ∉ l) -> pc (core s) = PReturned ->
     0 < N /\ N <= received_samples_ s /\ Z.of_nat (length (sent (core s))) = N) /\
  (0 < N -> N <= received_samples_ s -> Z.of_nat (length (sent (core s))) = N -> stop_ (core s) = false ->
     exists s', run_ (leave_from (pc (core s)) (checking s)) s = Some s' /\ pc (core s') = PReturned /\
       (length (leave_from (pc (core s)) (checking s)) <= 6)%nat).
Proof.
  intros HN Hlen E. pose proof (runs_ok N l [] _ s HN Hlen (new_ok_pubsub N ltac:(lia)) E) as [H1 H2 H3 H4 H5].
  change ([] ++ l) with l in *. split_and!.
  - apply H1.
  - destruct H2 as (gone & Hg & Hr). exists gone. split; [done|]. rewrite Hr. apply wrapU_small.
    pose proof (valid_le gone). rewrite Hg, length_app in Hlen. lia.
  - intros Hs Hp. apply H4; auto.
  - intros HN0 Hr Hl Hs. pose proof (po_most _ _ H1 ltac:(lia)) as Hm. pose proof (po_index _ _ H1) as Hi.
    pose proof (po_samples _ _ H1) as Hsam.
    assert (Hp : ahead (pc (core s)) = 0) by (unfold ahead in *; case_match; lia).
    assert (Hi' : index_of_last_sample_sent_ (core s) = N).
    { rewrite Hi. unfold writing. rewrite wrapU_small; unfold ahead in Hp; case_match; lia. }
    assert (Hd : (0 <? N) && (N <=? received_samples_ s) && (N <=? N) = true)
      by (rewrite (proj2 (Z.ltb_lt _ _)), !(proj2 (Z.leb_le _ _)) by lia; done).
    assert (Hz : (N =? 0) || (N <? N) = false) by (rewrite (proj2 (Z.eqb_neq _ _)), Z.ltb_irrefl by lia; done).
    clear Hi. destruct s as [[p m k n st nt sn] c r b]. cbn in *. subst n k st.
    assert (Hret : p <> PReturned) by (intros ->; by specialize (H5 eq_refl)).
    destruct p as [|[]| | |[]|]; try done; [destruct c|..]; cbn [leave_from app];
      (eexists; split; [|split; [|cbn; lia]]); cbn; unfold run_main, end_of_turn, loop_test; cbn; rewrite ?Hz; cbn; rewrite ?Hd; reflexivity.
Qed.

(** One sample is written and comes back; the thread is in its period then. *)
Definition one_there_and_back : list action :=
  Pub (Matched 1 1) :: replicate 4 (Pub (Main true)) ++ [DataTake [true]; DataItem].

Lemma pubsub_returns_witness :
  exists s, run_ one_there_and_back (new_pubsub 1) = Some s /\ sent (core s) = [(1, true)] /\
    exists s', run_ (leave_from (pc (core s)) (checking s)) s = Some s' /\ pc (core s') = PReturned.
Proof.
  eexists. split; [vm_compute; reflexivity|]. split; [reflexivity|].
  destruct (pubsub_returns 1 one_there_and_back
    (mkPubSub (mkPub (PPeriod Testing) 1 1 1 false 1 [(1, true)]) false 1 [])) as (_ & _ & _ & H);
    [lia|vm_compute; reflexivity|vm_compute; reflexivity|].
  destruct H as (s' & H1 & H2 & _); [lia|cbn; lia|reflexivity|reflexivity|]. exists s'. split; [exact H1|exact H2].
Defined.
End DeliveryPubSub.
